(* ===== verification/_CoqProject ===== *)
-Q . S2P
Prelude.v
GoStd.v
CLayout.v
VmlinuxX86.v
VmlinuxArm64.v
ProgramTypes.v
KernelLayout.v
Kernel.v
ConcreteKernel.v
StringMaps.v
PolicyValues.v
Names.v
CgroupTracker.v
CgroupInfo.v
DPath.v
Enforce.v
Events.v
AgentMaps.v
CgroupTree.v
EndToEnd.v
Resolver.v
ResolverSpec.v
ResolverTheorems.v
Nri.v
PolicyHandler.v
ViolationBuffer.v
Violations.v
PolicyStatus.v
Learning.v
BpfManager.v
Pipeline.v
Debugger.v
ClientPool.v
Elf.v
Wpgen.v
Kubectl.v
Manifests.v
