(* ===== verification/Prelude.v ===== *)
(** * Verification of the runtime enforcer

    The program (sources under [src/]) restricts which binaries the containers of a
    Kubernetes cluster may execute.  On each node an eBPF program hooks every exec, and an agent
    written in Go registers containers and installs policies by writing eBPF maps; the eBPF side
    learns, reports or denies.  A controller shows the state of the policies and the violations
    and turns learned proposals into policies; offline tools draft, check and edit policies.

    ** Parts and how they interact

    - The exec hook ([enforce_cgroup_policy] of [src/bpf/main.c]) finds the container of the
      current task, resolves the path of the executable from kernel memory
      ([src/bpf/d_path_resolution.h]), looks the path up in the string maps of the
      container's policy ([src/bpf/string_maps.h]), and permits, reports or denies.
    - The tracepoint programs of [src/bpf/main.c] keep the map from cgroups to containers up
      to date while cgroups are created and released.
    - The agent ([src/internal/bpf]) fills the maps the programs read and decodes the records
      they queue.  The container runtime tells its NRI plugin ([src/internal/nri]) of containers
      and the API server tells its policy handler ([src/internal/workloadpolicyhandler]) of
      policies; both call the resolver ([src/internal/resolver]), which decides what to write.
    - Violations go through a buffer ([src/internal/violationbuf]) to the controller
      ([src/internal/controller]), which keeps a connection to every agent
      ([src/internal/grpcexporter]) and writes the status of the policies.  Events of containers
      without a policy are learned into proposals ([src/internal/eventhandler]).
    - [wpgen] ([src/internal/wpgen], [imagescan], [elfutil], [policydraft]) drafts and checks
      policies from images and manifests ([workloadparse], [manifest]); the [kubectl] plugin
      ([src/internal/kubectlplugin]) edits, promotes and lists them; a debugger
      ([src/internal/debugger]) compares the caches of the agents with the cluster.
    - The kernel's memory layout comes from two generated headers
      ([src/bpf/vmlinux_generated_x86.h], [src/bpf/vmlinux_generated_arm64.h]).

    ** Files

    Foundations:
    - [Prelude]: machine integers at their width, little-endian bytes, buffers with stores
      and reads, tactics and hint databases.
    - [GoStd]: pieces of the Go standard library (sorting, strings, paths).
    - [CLayout]: C types, sizes, alignments, member offsets (bit-fields, anonymous members,
      unions, arrays), access paths; the layout theory.

    The eBPF side:
    - [VmlinuxX86], [VmlinuxArm64]: every kernel declaration the programs read through, with
      all declarations contained by value.
    - [ProgramTypes]: the structures the eBPF sources declare themselves.
    - [KernelLayout]: the class of field offsets the programs use, its instances computed
      from the two headers, and the table of all kernel reads with their types.
    - [Kernel]: the class [Kernel] of the helpers the programs call (a parameter of every
      model), their documented laws [KernelOk], the maps and ring buffers ([bpf_state]) and
      the state monad [prog] the programs are written in.
    - [ConcreteKernel]: an instance of [Kernel] with a byte memory, used to run the models.
    - [StringMaps]: key sizes, padded length, map index and lookup of the eBPF side.
    - [CgroupTracker]: the first half of [main.c] (cgroup resolution, tracker programs,
      bootstrap and foreign-root tests, log events).
    - [DPath]: path resolution, with the walk over dentries and mounts as a relation and as
      a function.
    - [Enforce]: the second half of [main.c], the exec hook.

    The agent:
    - [PolicyValues]: [src/internal/bpf/policy_values.go]; the Go side of the string maps,
      with the calls of github.com/cilium/ebpf as the class [Ebpf].
    - [Events]: [src/internal/bpf/events_common.go] and the policy modes.
    - [BpfManager]: [bpf/manager.go], [logging.go] and [events_common.go]: loading the programs
      (with the library and the host as the class [Loader]), the loops over the ring buffers, the
      log lines and their rate limits, and the shutdown of a loop as a step relation.
    - [AgentMaps]: [cgtracker.go], [cgroup_policy.go], [policy_settings_operation.go].
    - [CgroupTree]: tracker programs and agent as one concurrent system.
    - [EndToEnd]: what a policy means, and that the hook implements it.
    - [Names]: [podworkload/workload.go], [cgroups/cgroup_parse.go], [kernels/kernels.go]:
      workloads of pods, cgroup paths, kernel versions.
    - [CgroupInfo]: [cgroups/cgroup_info.go], [bpf/config.go]: the hierarchy of the host and the
      configuration of the programs, with the system calls as the class [HostFs].
    - [Resolver], [ResolverSpec], [ResolverTheorems]: the resolver's pod cache, policy ids and
      handlers as state-passing functions on [node]; their specifications; the theorems.
    - [Nri]: the callbacks of [nri/plugin.go] and [nri/extract.go].
    - [PolicyHandler]: the policy reconciler, the readiness checks of [cmd/agent/main.go], and
      the agent as a step relation ([agent_step]).

    Violations, status and learning:
    - [ViolationBuffer]: [violationbuf/buffer.go] and the calls of the observer.
    - [Pipeline]: the loop of [eventscraper.go], and the parts composed: from an exec to the
      status of its policy, and from an exec to the policy that permits it.
    - [Violations], [PolicyStatus]: [src/api/v1alpha1] (records, acknowledgements, node status)
      and one round of the controller ([workloadpolicystatus_sync.go] and [_helpers.go]).
    - [Learning]: proposals, their webhook, the learning reconciler and the promotion, as a
      step relation of agents, users and controller.
    - [ClientPool]: the connections to the agents and the webhook of policies.

    Tools:
    - [Elf]: [elfutil/elfutil.go] and [imagescan/classify.go], the guard of the ELF parser and
      the kind of a file.
    - [Wpgen]: [imagescan/scan.go], [wpgen] and [policydraft]: drafting and checking policies;
      [kubectlplugin/policy_exec.go]: the edition of the rules.
    - [Manifests]: [manifest.go], [workloadparse/parse.go], [policydraft/decode.go] and the
      commands of [wpgen] from the files on, with the decoder as the class [Unstructured].
    - [Kubectl]: the commands of the [kubectl] plugin with their calls of the API server (the
      classes [PolicyClient] and [PromoteClient]).
    - [Debugger]: [debugger/validate.go] and [cluster_pod_view.go], with [ListPodCache].

    State is passed explicitly: a program is a function from [bpf_state] to a result and a
    new [bpf_state]; Go functions return their error next to the state they leave behind, also
    when they fail half-way, and a panic is a value of [go_result].  64-bit address arithmetic,
    the 32-bit offset, the 16-bit path length and the signed offsets of ELF files wrap around
    as in the code.  Maps are visited in any order ([GoRange]).

    ** What the theorems show

    - Refinement: on maps that hold a policy, the hook computes the decision the policy
      defines and queues exactly the event user space decodes ([EndToEnd]); the agent's
      operations establish those maps ([PolicyValues], [AgentMaps], [ResolverTheorems]); in
      every run of the agent they hold for every policy that is recorded as ready, for
      containers from their start, and when the agent says it is ready ([Nri],
      [PolicyHandler]).
    - Path resolution is exact for every walk within the iteration bound, fails cleanly
      beyond it, and never stores outside its buffer ([DPath]).
    - Tracking is complete and sound in every interleaving ([CgroupTree]); agent and programs
      look at the same hierarchy ([CgroupInfo]); pods are attributed to their workloads
      ([Names]).
    - Whatever the kernel memory holds, an exec changes no policy, and only a policy denies
      ([Enforce]).
    - The parts compose ([Pipeline]): a violation reaches the status of its policy, through
      hook, ring buffer, scraper, buffer and controller; and an exec that was learned is permitted
      by the policy its proposal becomes.
    - Log records are neither lost nor miscounted by the rate limits, and the programs are loaded
      with the configuration of the host ([BpfManager]).
    - The violation buffer is a bounded queue, merged records count and date the events of
      their key, acknowledgements round-trip, a policy is shown as ready exactly when every
      node enforces it, nothing learned is lost and retries end, no connection leaks
      ([ViolationBuffer], [Violations], [PolicyStatus], [Learning], [ClientPool]).
    - Drafted policies permit exactly the executables of the images, checks report exactly the
      difference ([Wpgen], and from the documents of a file [Manifests]); no ELF file makes the
      scan decompress more than its bound ([Elf]).
    - A command of the plugin changes exactly what was asked for, nothing in a dry run, and
      loses no change of others; acknowledgements and promotions arrive where they should ([Kubectl]).
      The debugger reports exactly the differences ([Debugger]).
    - Layouts: both headers give legal layouts, all kernel reads but one are well typed, and
      the records have the layout user space expects ([KernelLayout], [Events]).
    - Deviations, each proved on the model: allowed paths of 121 to 144 bytes never match;
      paths longer than 8192 bytes can overwrite the padding of later lookups; the 16-bit
      length wraps; a path of 4095 bytes is reported under an old name; [fs->root] is read as
      a pointer; unresolved paths are permitted; a container removed from a policy while it
      has no pods keeps its old rules; a failed deletion is not retried, nor is a failed
      registration of a container; scraped violations are lost when the status cannot be
      written; the first sighting of a violation has the newest time; proposals with long names
      are never promoted; short pod names with the labels of a controller make the agent panic;
      stopping the log loop can end with an error; a second load that succeeds makes the agent
      panic; the debugger reports containers that have not started; workloads of the same name
      share a row of the list of protected workloads.

    ** Bounds

    No fuel is needed except where the source has a bound itself: the walk takes 2048 steps
    ([bpf_repeat]) or 512 without iterators, as in the code, and hard links are followed once
    per layer.  [BinarySearch] has the length of the list as fuel, which [search_loop_spec]
    shows to be enough; [TrimSpace] has the length of the string ([TrimSpace_trimmed]).  The wait
    for a promoted policy is a function of what it receives, and returns at the end of its
    context ([wait_returns]).  [run_walk], which only produces evidence for concrete machines, takes
    its own fuel.

    ** Not modelled

    Attaching programs and running the loops as goroutines; channels and locks (handlers are
    atomic, and a loop is a function of what it reads); the registration of the NRI plugin and its
    retries; the API server and its client, the image library, [debug/elf], [unstructured] and
    the YAML decoder, which are parameters or arguments; opening files, rendering, command line
    flags, completion, metrics, TLS and generated clients; log records other than those of the
    log loop and the scraper; debug tracing ([bpf_printk]).  Concurrent use of one per-CPU event buffer is not modelled
    either: a run of the hook is atomic. *)
From stdpp Require Export base list gmap strings.
From stdpp Require Import numbers.
From Stdlib Require Export ZArith Lia ZifyBool.
Local Open Scope Z_scope.

(** ** Automation *)

Create HintDb bpf discriminated.
#[export] Hint Constants Opaque : bpf.
#[export] Hint Variables Opaque : bpf.

(** [list_simpl] normalises lengths of the list operations the models use. *)
Create Rewrite HintDb len.
#[export] Hint Rewrite @length_app @length_take @length_drop @length_replicate
  @length_insert @length_inserts @length_map @length_cons @length_nil : len.

Ltac len := autorewrite with len in *; try lia.

(** Case analysis on every test and match of the goal, in the order the code runs. *)
Ltac case_all := repeat (case_match; simplify_eq/=; try done).

(** Replace a closed term by its value. *)
Ltac eval_term t := let r := eval vm_compute in t in change t with r.

(** ** Machine integers *)

(** Unsigned wrap-around at a width: [__u8], [__u16], [__u32], [__u64]. *)
Definition wrap (w x : Z) : Z := x mod 2 ^ w.
Definition u8 (x : Z) : Z := wrap 8 x.
Definition u16 (x : Z) : Z := wrap 16 x.
Definition u32 (x : Z) : Z := wrap 32 x.
Definition u64 (x : Z) : Z := wrap 64 x.

(** Two's complement on 64 bits: Go's [int64] and [int]. *)
Definition s64 (x : Z) : Z := (x + 2 ^ 63) mod 2 ^ 64 - 2 ^ 63.

Lemma s64_small x : - 2 ^ 63 <= x < 2 ^ 63 → s64 x = x.
Proof. intros. unfold s64. rewrite Z.mod_small; lia. Qed.

Lemma wrap_range w x : 0 <= w → 0 <= wrap w x < 2 ^ w.
Proof. intros. apply Z.mod_pos_bound, Z.pow_pos_nonneg; lia. Qed.

Lemma wrap_small w x : 0 <= x < 2 ^ w → wrap w x = x.
Proof. apply Z.mod_small. Qed.

Lemma u16_small x : 0 <= x < 65536 → u16 x = x.
Proof. intros. apply wrap_small. lia. Qed.
Lemma u32_small x : 0 <= x < 4294967296 → u32 x = x.
Proof. intros. apply wrap_small. lia. Qed.
Lemma u64_small x : 0 <= x < 18446744073709551616 → u64 x = x.
Proof. intros. apply wrap_small. lia. Qed.
Lemma u16_range x : 0 <= u16 x < 65536.
Proof. apply (wrap_range 16); lia. Qed.
Lemma u32_range x : 0 <= u32 x < 4294967296.
Proof. apply (wrap_range 32); lia. Qed.
Lemma u64_range x : 0 <= u64 x < 18446744073709551616.
Proof. apply (wrap_range 64); lia. Qed.

(** Masking with [2^n - 1] is reduction modulo [2^n]. *)
Lemma land_mask x n : 0 <= n → Z.land x (2 ^ n - 1) = x mod 2 ^ n.
Proof. intros. rewrite <- Z.land_ones by done. by rewrite Z.ones_equiv, Z.sub_1_r. Qed.

(** ** Bytes *)

(** A byte is a [Z] in [0, 256); a C string or buffer is a list of bytes. *)
Abbreviation bytes := (list Z).

Definition is_byte (b : Z) : Prop := 0 <= b < 256.

(** Little-endian encoding on [n] bytes, and the value of a little-endian byte list. *)
Fixpoint le_bytes (n : nat) (x : Z) : bytes :=
  match n with
  | O => []
  | S n' => x mod 256 :: le_bytes n' (x / 256)
  end.

Fixpoint le_val (bs : bytes) : Z :=
  match bs with
  | [] => 0
  | b :: bs' => b + 256 * le_val bs'
  end.

Lemma length_le_bytes n x : length (le_bytes n x) = n.
Proof. revert x. induction n; intros; simpl; auto. Qed.

Lemma le_val_bytes n x : le_val (le_bytes n x) = x mod 2 ^ (8 * Z.of_nat n).
Proof.
  revert x. induction n as [|n IH]; intros x; cbn [le_bytes le_val].
  { by rewrite Z.mod_1_r. }
  rewrite IH. replace (8 * Z.of_nat (S n)) with (8 + 8 * Z.of_nat n) by lia.
  rewrite Z.pow_add_r by lia. change (2 ^ 8) with 256.
  rewrite Z.rem_mul_r by (try apply Z.pow_nonzero; lia). done.
Qed.

Lemma le_bytes_range n x : Forall is_byte (le_bytes n x).
Proof.
  revert x. induction n; intros; simpl; constructor; auto.
  apply Z.mod_pos_bound. lia.
Qed.

Lemma le_val_range bs : Forall is_byte bs → 0 <= le_val bs < 2 ^ (8 * Z.of_nat (length bs)).
Proof.
  induction 1 as [|b bs Hb Hbs IH]; simpl; [lia|]. unfold is_byte in Hb.
  replace (8 * Z.of_nat (S (length bs))) with (8 + 8 * Z.of_nat (length bs)) by lia.
  rewrite Z.pow_add_r by lia. change (2 ^ 8) with 256. lia.
Qed.

Lemma le_val_replicate_0 n : le_val (replicate n 0) = 0.
Proof. induction n; simpl; lia. Qed.

#[export] Hint Rewrite length_le_bytes : len.

(** A Rocq string as bytes, for the string literals of the source. *)
Fixpoint bytes_of_string (s : string) : bytes :=
  match s with
  | EmptyString => []
  | String c s' => Z.of_N (Ascii.N_of_ascii c) :: bytes_of_string s'
  end.

(** ** Buffers *)

(** [write off bs buf]: the store of [bs] at offset [off] of [buf]; bytes that would
    land past the end are dropped (every store of the program is in range, see
    [DPath.v] and [Enforce.v]). *)
Definition write (off : Z) (bs buf : bytes) : bytes :=
  let i := Z.to_nat off in
  take i buf ++ take (length buf - i) bs ++ drop (i + length bs) buf.

(** [read off n buf]: the [n] bytes at offset [off] of [buf]. *)
Definition read (off : Z) (n : nat) (buf : bytes) : bytes := take n (drop (Z.to_nat off) buf).

Lemma length_write off bs buf : length (write off bs buf) = length buf.
Proof. unfold write. len. Qed.
#[export] Hint Rewrite length_write : len.

Lemma length_read off n buf :
  (Z.to_nat off + n <= length buf)%nat → length (read off n buf) = n.
Proof. unfold read. len. Qed.

(** A store inside the buffer replaces exactly the bytes it covers. *)
Lemma write_app (pre old post bs : bytes) off :
  Z.to_nat off = length pre → length bs = length old →
  write off bs (pre ++ old ++ post) = pre ++ bs ++ post.
Proof.
  intros Ho Hlen. unfold write. rewrite Ho.
  rewrite take_app_length. f_equal. rewrite (take_ge bs) by len. f_equal.
  rewrite app_assoc, drop_app_ge by len.
  rewrite length_app, Hlen, Nat.sub_diag. done.
Qed.

(** Reading back a segment. *)
Lemma read_app (pre cur post : bytes) off n :
  Z.to_nat off = length pre → n = length cur →
  read off n (pre ++ cur ++ post) = cur.
Proof.
  intros Ho ->. unfold read. by rewrite Ho, drop_app_length, take_app_length.
Qed.

(** Reading a segment together with a zero padding that follows it. *)
Lemma read_app_padded (pre cur post : bytes) off n k :
  Z.to_nat off = length pre → n = (length cur + k)%nat →
  take k post = replicate k 0 →
  read off n (pre ++ cur ++ post) = cur ++ replicate k 0.
Proof.
  intros Ho -> Hpost. unfold read. rewrite Ho, drop_app_length, take_app_add'; [|done].
  by rewrite Hpost.
Qed.
