(* ===== verification/GoStd.v ===== *)
(** * Pieces of the Go standard library

    [slices.SortStableFunc], functions of [strings] and [strconv] on one-byte separators and
    decimal numbers, and [filepath.Join] of absolute paths, as the code under [src/api/v1alpha1] and [src/internal] uses them. *)
From Stdlib Require Import Ascii Sorting.Sorted.
From S2P Require Import Prelude.
Local Open Scope Z_scope.

(** ** Sorting *)

(** A stable sort by the test [le a b], [cmp(a, b) <= 0]. *)
Section sort.
  Context {A : Type} (le : A → A → bool).

Fixpoint insert_stable (x : A) (l : list A) : list A :=
  match l with
  | [] => [x]
  | y :: l' => if le x y then x :: y :: l' else y :: insert_stable x l'
  end.

Definition SortStableFunc (l : list A) : list A := foldr insert_stable [] l.

Lemma insert_stable_perm x l : insert_stable x l ≡ₚ x :: l.
Proof.
  induction l as [|y l IH]; [done|]. cbn [insert_stable]. destruct (le x y); [done|].
  rewrite IH. apply Permutation_swap.
Qed.

Lemma SortStableFunc_perm l : SortStableFunc l ≡ₚ l.
Proof. induction l as [|x l IH]; [done|]. cbn [SortStableFunc foldr]. by rewrite insert_stable_perm, IH. Qed.

Context (le_total : ∀ x y, le x y = true ∨ le y x = true).
Context (le_trans : ∀ x y z, le x y = true → le y z = true → le x z = true).

Lemma insert_stable_sorted x l :
  StronglySorted (λ a b, le a b = true) l → StronglySorted (λ a b, le a b = true) (insert_stable x l).
Proof.
  induction 1 as [|y l Hs IH Hy]; cbn [insert_stable]; [repeat constructor|].
  destruct (le x y) eqn:Hxy.
  - constructor; [by constructor|]. constructor; [done|]. eapply Forall_impl; [exact Hy|]. cbn. eauto.
  - constructor; [done|]. rewrite insert_stable_perm. constructor; [|done].
    destruct (le_total x y); [congruence|done].
Qed.

Lemma SortStableFunc_sorted l : StronglySorted (λ a b, le a b = true) (SortStableFunc l).
Proof. induction l; [constructor|]. by apply insert_stable_sorted. Qed.

(** Equal elements keep their order: the elements equivalent to [x] are the same list. *)
Lemma insert_stable_filter (P : A → bool) x l :
  (∀ y z, P y = true → P z = true → le y z = true) →
  filter (λ y, P y = true) (insert_stable x l) = filter (λ y, P y = true) (x :: l).
Proof.
  intros HP. induction l as [|y l IH]; [done|]. cbn [insert_stable]. destruct (le x y) eqn:Hxy; [done|].
  rewrite filter_cons, IH, !filter_cons. repeat case_decide; try done.
  by rewrite HP in Hxy.
Qed.

Lemma SortStableFunc_filter (P : A → bool) l :
  (∀ y z, P y = true → P z = true → le y z = true) →
  filter (λ y, P y = true) (SortStableFunc l) = filter (λ y, P y = true) l.
Proof.
  intros HP. induction l as [|x l IH]; [done|]. cbn [SortStableFunc foldr].
  rewrite insert_stable_filter by done. rewrite !filter_cons. unfold SortStableFunc in IH. by rewrite IH.
Qed.
End sort.

Lemma elem_of_perm {A} (l l' : list A) x : l ≡ₚ l' → x ∈ l → x ∈ l'.
Proof. by intros ->. Qed.

(** ** Strings *)

Fixpoint CutPrefix (s prefix : string) : option string :=
  match prefix, s with
  | EmptyString, _ => Some s
  | String c prefix', String d s' => if Ascii.eqb c d then CutPrefix s' prefix' else None
  | String _ _, EmptyString => None
  end.

Lemma CutPrefix_app prefix s : CutPrefix (prefix ++ s)%string prefix = Some s.
Proof. induction prefix as [|c prefix IH]; [by destruct s|].
  change (CutPrefix (String c (prefix ++ s)) (String c prefix) = Some s). cbn [CutPrefix]. by rewrite Ascii.eqb_refl. Qed.

Lemma CutPrefix_Some s prefix s' : CutPrefix s prefix = Some s' → s = (prefix ++ s')%string.
Proof.
  revert s. induction prefix as [|c prefix IH]; intros s H; [by destruct s; simplify_eq/=|].
  destruct s as [|d s]; [done|]. cbn [CutPrefix] in H. destruct (Ascii.eqb_spec c d) as [->|]; [|done].
  change (String d s = String d (prefix ++ s')). f_equal. auto.
Qed.

(** ** Decimal integers *)

Definition digit_value (c : Ascii.ascii) : option Z :=
  let n := Z.of_nat (Ascii.nat_of_ascii c) in
  if (48 <=? n) && (n <=? 57) then Some (n - 48) else None.

Definition digit_char (d : Z) : Ascii.ascii := Ascii.ascii_of_nat (Z.to_nat (48 + d)).

Definition minus_char : Ascii.ascii := Ascii.ascii_of_nat 45.
Definition plus_char : Ascii.ascii := Ascii.ascii_of_nat 43.

Fixpoint parse_digits (s : string) (acc : Z) : option Z :=
  match s with
  | EmptyString => Some acc
  | String c s' => match digit_value c with Some d => parse_digits s' (acc * 10 + d) | None => None end
  end.

(** [strconv.ParseInt(s, 10, 64)]: an optional sign and one or more digits, in range. *)
Definition ParseInt (s : string) : option Z :=
  let '(neg, digits) :=
    match s with
    | String c s' =>
        if Ascii.eqb c minus_char then (true, s')
        else if Ascii.eqb c plus_char then (false, s') else (false, s)
    | EmptyString => (false, s)
    end in
  match digits with
  | EmptyString => None
  | _ =>
      match parse_digits digits 0 with
      | Some n =>
          let v := if neg : bool then - n else n in
          if (- 2 ^ 63 <=? v) && (v <? 2 ^ 63) then Some v else None
      | None => None
      end
  end.

Fixpoint format_digits (fuel : nat) (n : Z) (acc : string) : string :=
  match fuel with
  | O => acc
  | S fuel' =>
      let acc' := String (digit_char (n mod 10)) acc in
      if n <? 10 then acc' else format_digits fuel' (n / 10) acc'
  end.

(** [strconv.FormatInt(z, 10)]; 20 digits are enough for 64 bits. *)
Definition FormatInt (z : Z) : string :=
  if z <? 0 then String minus_char (format_digits 20 (- z) EmptyString) else format_digits 20 z EmptyString.

Lemma digit_value_char d : 0 <= d < 10 → digit_value (digit_char d) = Some d.
Proof.
  intros H. unfold digit_value, digit_char. rewrite Ascii.nat_ascii_embedding by lia.
  rewrite Z2Nat.id by lia. replace ((48 <=? 48 + d) && (48 + d <=? 57)) with true by lia. f_equal. lia.
Qed.

Lemma parse_format_digits fuel n :
  0 <= n < 10 ^ Z.of_nat fuel → (0 < fuel)%nat →
  ∃ k, ∀ a s, parse_digits (format_digits fuel n s) a = parse_digits s (a * k + n).
Proof.
  revert n. induction fuel as [|fuel IH]; intros n Hn Hf; [lia|]. cbn [format_digits].
  pose proof (Z.mod_pos_bound n 10 eq_refl). destruct (n <? 10) eqn:H10.
  - exists 10. intros a s. cbn [parse_digits]. rewrite digit_value_char by lia. by rewrite Z.mod_small by lia.
  - rewrite Nat2Z.inj_succ, Z.pow_succ_r in Hn by lia.
    assert (0 <= n / 10 < 10 ^ Z.of_nat fuel) as Hd by (split; [apply Z.div_pos; lia|apply Z.div_lt_upper_bound; lia]).
    destruct (IH (n / 10) Hd) as [k Hk]; [destruct fuel; [cbn in Hn; lia|lia]|].
    exists (k * 10). intros a s. rewrite Hk. cbn [parse_digits]. rewrite digit_value_char by lia.
    f_equal. pose proof (Z.div_mod n 10). lia.
Qed.

(** The first character of the digits of a number. *)
Lemma format_digits_cons fuel n s :
  (0 < fuel)%nat → 0 <= n →
  ∃ d s', 0 <= d < 10 ∧ format_digits fuel n s = String (digit_char d) s'.
Proof.
  revert n s. induction fuel as [|fuel IH]; intros n s Hf Hn; [lia|]. cbn [format_digits].
  pose proof (Z.mod_pos_bound n 10 eq_refl). destruct (n <? 10) eqn:H10; [eauto|].
  destruct fuel as [|fuel]; [cbn; eauto|]. apply IH; [lia|apply Z.div_pos; lia].
Qed.

Lemma digit_char_sign d : 0 <= d < 10 → Ascii.eqb (digit_char d) minus_char = false ∧ Ascii.eqb (digit_char d) plus_char = false.
Proof.
  intros H. split; apply Ascii.eqb_neq; intros Heq; apply (f_equal digit_value) in Heq;
    rewrite digit_value_char in Heq by done; discriminate.
Qed.

Lemma FormatInt_digits n :
  0 <= n <= 2 ^ 63 → parse_digits (format_digits 20 n EmptyString) 0 = Some n.
Proof. intros Hn. destruct (parse_format_digits 20 n) as [k Hk]; [lia|lia|]. by rewrite Hk. Qed.

(** What is formatted is parsed back. *)
Lemma ParseInt_FormatInt z : - 2 ^ 63 <= z < 2 ^ 63 → ParseInt (FormatInt z) = Some z.
Proof.
  intros Hz. unfold FormatInt, ParseInt. destruct (z <? 0) eqn:Hneg.
  - rewrite Ascii.eqb_refl. pose proof (FormatInt_digits (- z) ltac:(lia)) as Hp.
    destruct (format_digits_cons 20 (- z) EmptyString) as (d & s & _ & Heq); [lia|lia|].
    rewrite Heq in *. rewrite Hp, Z.opp_involutive.
    by replace ((- 2 ^ 63 <=? z) && (z <? 2 ^ 63)) with true by lia.
  - pose proof (FormatInt_digits z ltac:(lia)) as Hp.
    destruct (format_digits_cons 20 z EmptyString) as (d & s & Hd & Heq); [lia|lia|].
    rewrite Heq in *. destruct (digit_char_sign d Hd) as [-> ->]. rewrite Hp.
    by replace ((- 2 ^ 63 <=? z) && (z <? 2 ^ 63)) with true by lia.
Qed.

(** ** Strings *)

Lemma string_app_nil (s : string) : (s ++ "")%string = s.
Proof. induction s as [|c s IH]; [done|]. change (String c (s ++ "") = String c s). by rewrite IH. Qed.

Lemma string_app_length (s t : string) : String.length (s ++ t) = (String.length s + String.length t)%nat.
Proof. induction s as [|c s IH]; [done|]. change (S (String.length (s ++ t)) = S (String.length s + String.length t)). by rewrite IH. Qed.

Lemma string_app_assoc (s t u : string) : ((s ++ t) ++ u)%string = (s ++ (t ++ u))%string.
Proof. induction s as [|c s IH]; [done|]. change (String c ((s ++ t) ++ u) = String c (s ++ (t ++ u))). by rewrite IH. Qed.

Lemma string_app_cons c (s t : string) : (String c s ++ t)%string = String c (s ++ t).
Proof. done. Qed.

(** [strings.CutSuffix]: what is before the suffix. *)
Fixpoint CutSuffix (s suffix : string) : option string :=
  if String.eqb s suffix then Some EmptyString
  else match s with
       | EmptyString => None
       | String c s' => String c <$> CutSuffix s' suffix
       end.

Definition HasSuffix (s suffix : string) : bool := bool_decide (is_Some (CutSuffix s suffix)).

Definition TrimSuffix (s suffix : string) : string := default s (CutSuffix s suffix).

Lemma CutSuffix_app s suffix : CutSuffix (s ++ suffix) suffix = Some s.
Proof.
  induction s as [|c s IH]; [change ("" ++ suffix)%string with suffix; destruct suffix; cbn [CutSuffix]; by rewrite String.eqb_refl|].
  rewrite string_app_cons. cbn [CutSuffix]. rewrite IH.
  destruct (String.eqb_spec (String c (s ++ suffix)) suffix) as [Heq|]; [|done].
  apply (f_equal String.length) in Heq. cbn in Heq. rewrite string_app_length in Heq. lia.
Qed.

Lemma CutSuffix_Some s suffix t : CutSuffix s suffix = Some t → s = (t ++ suffix)%string.
Proof.
  revert t. induction s as [|c s IH]; intros t; cbn [CutSuffix].
  - destruct (String.eqb_spec EmptyString suffix); intros; by simplify_eq.
  - destruct (String.eqb_spec (String c s) suffix); [intros; by simplify_eq|].
    destruct (CutSuffix s suffix) as [u|]; [|done]. intros [= <-]. by rewrite string_app_cons, <- (IH u).
Qed.

Lemma HasSuffix_spec s suffix : HasSuffix s suffix = true ↔ ∃ t, s = (t ++ suffix)%string.
Proof.
  unfold HasSuffix. rewrite bool_decide_eq_true. split.
  - intros [t Ht]. eauto using CutSuffix_Some.
  - intros [t ->]. rewrite CutSuffix_app. eauto.
Qed.

(** Whether a character occurs, [strings.Contains] of a string of one character. *)
Fixpoint contains (sep : Ascii.ascii) (s : string) : bool :=
  match s with
  | EmptyString => false
  | String c s' => Ascii.eqb c sep || contains sep s'
  end.

Lemma contains_app sep s t : contains sep (s ++ t) = contains sep s || contains sep t.
Proof. induction s as [|c s IH]; [done|]. rewrite string_app_cons. cbn. by rewrite IH, orb_assoc. Qed.

(** [strings.Split] with a separator of one character. *)
Fixpoint Split (sep : Ascii.ascii) (s : string) : list string :=
  match s with
  | EmptyString => [EmptyString]
  | String c s' =>
      if Ascii.eqb c sep then EmptyString :: Split sep s'
      else match Split sep s' with
           | w :: ws => String c w :: ws
           | [] => [String c EmptyString]
           end
  end.

(** The words joined by the separator. *)
Fixpoint Join (sep : Ascii.ascii) (ws : list string) : string :=
  match ws with
  | [] => EmptyString
  | [w] => w
  | w :: ws' => (w ++ String sep (Join sep ws'))%string
  end.

Lemma Split_plain sep s : contains sep s = false → Split sep s = [s].
Proof.
  induction s as [|c s IH]; [done|]. cbn. intros [Hc Hs]%orb_false_iff. rewrite Hc. by rewrite IH.
Qed.

Lemma Split_app sep s t : contains sep s = false → Split sep (s ++ String sep t) = s :: Split sep t.
Proof.
  induction s as [|c s IH]; [intros _; change ("" ++ String sep t)%string with (String sep t); cbn; by rewrite Ascii.eqb_refl|].
  rewrite string_app_cons. cbn. intros [Hc Hs]%orb_false_iff. rewrite Hc. by rewrite IH.
Qed.

Lemma Split_ne sep s : Split sep s ≠ [].
Proof. destruct s as [|c s]; cbn; [done|]. destruct (Ascii.eqb c sep), (Split sep s); done. Qed.

Lemma Split_app_sep sep s t : Split sep (s ++ String sep t) = (Split sep s ++ Split sep t)%list.
Proof.
  induction s as [|c s IH].
  - change ("" ++ String sep t)%string with (String sep t). cbn. by rewrite Ascii.eqb_refl.
  - rewrite string_app_cons. cbn [Split]. rewrite IH. destruct (Ascii.eqb c sep); [done|].
    pose proof (Split_ne sep s). by destruct (Split sep s).
Qed.

Lemma Split_Join sep ws : ws ≠ [] → Forall (λ w, contains sep w = false) ws → Split sep (Join sep ws) = ws.
Proof.
  intros Hne Hws. induction Hws as [|w ws Hw Hws IH]; [done|]. destruct ws as [|w' ws].
  - by apply Split_plain.
  - change (Join sep (w :: w' :: ws)) with (w ++ String sep (Join sep (w' :: ws)))%string.
    rewrite Split_app by done. by rewrite IH.
Qed.

Lemma Split_words sep s : Split sep s ≠ [] ∧ Forall (λ w, contains sep w = false) (Split sep s).
Proof.
  induction s as [|c s [Hne IH]]; cbn; [by repeat constructor|].
  destruct (Ascii.eqb c sep) eqn:Hc; [by repeat constructor|].
  destruct (Split sep s) as [|w ws]; [done|]. split; [done|].
  inversion IH; subst. constructor; [cbn; by rewrite Hc|done].
Qed.

Lemma Join_cons sep c w ws : Join sep (String c w :: ws) = String c (Join sep (w :: ws)).
Proof. by destruct ws. Qed.

Lemma Join_Split sep s : Join sep (Split sep s) = s.
Proof.
  induction s as [|c s IH]; [done|]. cbn [Split]. pose proof (Split_words sep s) as [Hne _].
  destruct (Split sep s) as [|w ws]; [done|]. destruct (Ascii.eqb_spec c sep) as [->|].
  - change (Join sep ("" :: w :: ws)) with (String sep (Join sep (w :: ws))). by rewrite IH.
  - by rewrite Join_cons, IH.
Qed.

(** A string cut at the last occurrence of a character: [s[:i]] and [s[i+1:]] for
    [i = strings.LastIndex(s, sep)]; [None] for the index -1. *)
Fixpoint cut_last (sep : Ascii.ascii) (s : string) : option (string * string) :=
  match s with
  | EmptyString => None
  | String c s' =>
      match cut_last sep s' with
      | Some (before, after) => Some (String c before, after)
      | None => if Ascii.eqb c sep then Some (EmptyString, s') else None
      end
  end.

Lemma cut_last_None sep s : cut_last sep s = None ↔ contains sep s = false.
Proof.
  induction s as [|c s IH]; [done|]. cbn. rewrite orb_false_iff, <- IH.
  destruct (cut_last sep s) as [[]|]; [intuition discriminate|]. destruct (Ascii.eqb c sep); intuition discriminate.
Qed.

Lemma cut_last_app sep s t : contains sep t = false → cut_last sep (s ++ String sep t) = Some (s, t).
Proof.
  intros Ht. induction s as [|c s IH].
  - change ("" ++ String sep t)%string with (String sep t). cbn. apply cut_last_None in Ht. by rewrite Ht, Ascii.eqb_refl.
  - rewrite string_app_cons. cbn. by rewrite IH.
Qed.

Lemma cut_last_Some sep s before after :
  cut_last sep s = Some (before, after) → s = (before ++ String sep after)%string ∧ contains sep after = false.
Proof.
  revert before. induction s as [|c s IH]; intros before; [done|]. cbn.
  destruct (cut_last sep s) as [[b a]|] eqn:Hs.
  - intros [= <- <-]. destruct (IH b eq_refl) as [-> ?]. done.
  - destruct (Ascii.eqb_spec c sep) as [->|]; [|done]. intros [= <- <-]. by apply cut_last_None in Hs.
Qed.

(** The slice [s[:n]]; [None] when it panics. *)
Fixpoint str_take (n : nat) (s : string) : option string :=
  match n, s with
  | O, _ => Some EmptyString
  | S n', String c s' => String c <$> str_take n' s'
  | S _, EmptyString => None
  end.

(** The slice [s[:len(s)-k]]; [None] when the bound is negative. *)
Definition drop_last (k : nat) (s : string) : option string :=
  if (String.length s <? k)%nat then None else str_take (String.length s - k) s.

Lemma str_take_app s t : str_take (String.length s) (s ++ t) = Some s.
Proof. induction s as [|c s IH]; [done|]. rewrite string_app_cons. cbn. by rewrite IH. Qed.

Lemma str_take_Some n s : (n <= String.length s)%nat → ∃ t u, str_take n s = Some t ∧ s = (t ++ u)%string ∧ String.length t = n.
Proof.
  revert s. induction n as [|n IH]; intros s Hn; [by exists "", s|].
  destruct s as [|c s]; cbn in Hn; [lia|]. destruct (IH s) as (t & u & Ht & -> & Hl); [lia|].
  exists (String c t), u. cbn. rewrite Ht. by rewrite Hl.
Qed.

Lemma drop_last_app k s t : String.length t = k → drop_last k (s ++ t) = Some s.
Proof.
  intros <-. unfold drop_last. rewrite string_app_length.
  destruct (Nat.ltb_spec (String.length s + String.length t) (String.length t)); [lia|].
  rewrite Nat.add_sub. apply str_take_app.
Qed.

Lemma drop_last_None k s : drop_last k s = None ↔ (String.length s < k)%nat.
Proof.
  unfold drop_last. destruct (Nat.ltb_spec (String.length s) k); [done|].
  destruct (str_take_Some (String.length s - k) s) as (? & ? & -> & _); [lia|]. split; [done|lia].
Qed.

(** [strings.TrimRight] with a set of one character. *)
Fixpoint TrimRight (c : Ascii.ascii) (s : string) : string :=
  match s with
  | EmptyString => EmptyString
  | String d s' =>
      match TrimRight c s' with
      | EmptyString => if Ascii.eqb d c then EmptyString else String d EmptyString
      | t => String d t
      end
  end.

Lemma TrimRight_plain c s : contains c s = false → TrimRight c s = s.
Proof.
  induction s as [|d s IH]; [done|]. cbn. intros [Hd Hs]%orb_false_iff. rewrite (IH Hs). by destruct s; rewrite ?Hd.
Qed.

(** All characters are decimal digits. *)
Fixpoint all_digits (s : string) : bool :=
  match s with
  | EmptyString => true
  | String c s' => bool_decide (is_Some (digit_value c)) && all_digits s'
  end.

(** [strconv.ParseInt(s, 10, 32)]. *)
Definition ParseInt32 (s : string) : option Z :=
  match ParseInt s with
  | Some v => if (- 2 ^ 31 <=? v) && (v <? 2 ^ 31) then Some v else None
  | None => None
  end.

Lemma ParseInt32_FormatInt z : - 2 ^ 31 <= z < 2 ^ 31 → ParseInt32 (FormatInt z) = Some z.
Proof.
  intros Hz. unfold ParseInt32. rewrite ParseInt_FormatInt by lia.
  by replace ((- 2 ^ 31 <=? z) && (z <? 2 ^ 31)) with true by lia.
Qed.

Lemma contains_format_digits c fuel n s :
  digit_value c = None → 0 <= n → contains c (format_digits fuel n s) = contains c s.
Proof.
  intros Hc. revert n s. induction fuel as [|fuel IH]; intros n s Hn; [done|]. cbn [format_digits].
  pose proof (Z.mod_pos_bound n 10 eq_refl) as Hm.
  assert (contains c (String (digit_char (n mod 10)) s) = contains c s) as Hd.
  { cbn [contains]. destruct (Ascii.eqb_spec (digit_char (n mod 10)) c) as [<-|]; [|done].
    by rewrite digit_value_char in Hc. }
  destruct (n <? 10); [done|]. rewrite IH by (apply Z.div_pos; lia). done.
Qed.

Lemma contains_FormatInt c z : digit_value c = None → 0 <= z → contains c (FormatInt z) = false.
Proof. intros Hc Hz. unfold FormatInt. destruct (Z.ltb_spec z 0); [lia|]. by rewrite contains_format_digits. Qed.

(** Strings in order. *)

Lemma ltb_leb a b : String.ltb a b = negb (String.leb b a).
Proof. unfold String.ltb, String.leb. rewrite String.compare_antisym. by destruct (String.compare b a). Qed.

Lemma leb_refl a : String.leb a a = true.
Proof. destruct (String.leb_total a a); done. Qed.

Lemma ltb_neq a b : String.ltb a b = true → a ≠ b.
Proof. intros H <-. by rewrite ltb_leb, leb_refl in H. Qed.

Lemma ltb_same a b : String.ltb a b = false → String.ltb b a = false → a = b.
Proof. rewrite !ltb_leb, !negb_false_iff. intros. by apply String.leb_antisym. Qed.

Lemma leb_trans a b c : String.leb a b = true → String.leb b c = true → String.leb a c = true.
Proof.
  assert (∀ x y, String.leb x y = true ↔ String.le x y) as Hle
    by (intros x y; unfold String.le; destruct (String.leb x y); naive_solver).
  rewrite !Hle. apply transitivity.
Qed.

Lemma ltb_leb_trans a b c : String.ltb a b = true → String.leb b c = true → String.ltb a c = true.
Proof.
  rewrite !ltb_leb, !negb_true_iff. intros Hab Hbc. destruct (String.leb c a) eqn:Hca; [|done].
  by rewrite (leb_trans b c a) in Hab.
Qed.

(** [strings.TrimSpace]. *)
Definition bytes_string (l : list nat) : string := foldr (λ b s, String (Ascii.ascii_of_nat b) s) "" l.

(** The encodings of the characters for which [unicode.IsSpace] holds. *)
Definition space_chars : list string :=
  bytes_string <$> ((λ b, [b]) <$> [9; 10; 11; 12; 13; 32]%nat) ++
    [[194; 133]; [194; 160]; [225; 154; 128]]%nat ++
    ((λ b, [226; 128; b]) <$> seq 128 11 ++ [168; 169; 175])%nat ++
    [[226; 129; 159]; [227; 128; 128]]%nat.

(** The first of [chars] that [cut] finds at its end of the string is taken off. *)
Definition cut_char (cut : string → string → option string) (chars : list string) (s : string) : option string :=
  head (omap (cut s) chars).

Fixpoint trim_chars (cut : string → option string) (fuel : nat) (s : string) : string :=
  match fuel with
  | O => s
  | S fuel' => match cut s with Some s' => trim_chars cut fuel' s' | None => s end
  end.

Definition TrimLeftChars (chars : list string) (s : string) : string :=
  trim_chars (cut_char CutPrefix chars) (String.length s) s.
Definition TrimRightChars (chars : list string) (s : string) : string :=
  trim_chars (cut_char CutSuffix chars) (String.length s) s.

Definition TrimSpace (s : string) : string := TrimRightChars space_chars (TrimLeftChars space_chars s).

Lemma trim_chars_none cut fuel s :
  (∀ s s', cut s = Some s' → (String.length s' < String.length s)%nat) → (String.length s <= fuel)%nat →
  cut (trim_chars cut fuel s) = None.
Proof.
  intros Hcut. revert s. induction fuel as [|fuel IH]; intros s Hf; cbn [trim_chars].
  - destruct (cut s) as [s'|] eqn:Hc; [|done]. apply Hcut in Hc. lia.
  - destruct (cut s) as [s'|] eqn:Hc; [|done]. apply IH. apply Hcut in Hc. lia.
Qed.

Lemma trim_chars_rel (rel : string → string → Prop) cut fuel s :
  (∀ s, rel s s) → (∀ s t u, rel s t → rel t u → rel s u) → (∀ s s', cut s = Some s' → rel s s') →
  rel s (trim_chars cut fuel s).
Proof.
  intros Hrefl Htrans Hcut. revert s. induction fuel as [|fuel IH]; intros s; cbn [trim_chars]; [done|].
  destruct (cut s) as [s'|] eqn:Hc; [|done]. eauto.
Qed.

Lemma cut_char_Some cut chars s s' : cut_char cut chars s = Some s' → ∃ ch, ch ∈ chars ∧ cut s ch = Some s'.
Proof. unfold cut_char. intros H%head_Some_elem_of. by apply list_elem_of_omap in H. Qed.

Lemma cut_char_None cut chars s ch : cut_char cut chars s = None → ch ∈ chars → cut s ch = None.
Proof.
  unfold cut_char. intros H%head_None Hch. destruct (cut s ch) as [s'|] eqn:Hc; [|done].
  assert (s' ∈ omap (cut s) chars) as Hin by (apply list_elem_of_omap; eauto). rewrite H in Hin. set_solver.
Qed.

Lemma space_chars_nonempty ch : ch ∈ space_chars → (0 < String.length ch)%nat.
Proof.
  intros H. assert (Forall (λ ch, (0 < String.length ch)%nat) space_chars) as Hall
    by (vm_compute; repeat constructor). by eapply Forall_forall in Hall.
Qed.

Lemma cut_left_shorter s s' : cut_char CutPrefix space_chars s = Some s' → (String.length s' < String.length s)%nat.
Proof.
  intros (ch & Hch%space_chars_nonempty & Hc)%cut_char_Some. apply CutPrefix_Some in Hc as ->. rewrite string_app_length. lia.
Qed.

Lemma cut_right_shorter s s' : cut_char CutSuffix space_chars s = Some s' → (String.length s' < String.length s)%nat.
Proof.
  intros (ch & Hch%space_chars_nonempty & Hc)%cut_char_Some. apply CutSuffix_Some in Hc as ->. rewrite string_app_length. lia.
Qed.

Lemma string_app_nil_r (s : string) : (s ++ "")%string = s.
Proof. induction s as [|c s IH]; [done|]. rewrite string_app_cons. by rewrite IH. Qed.

(** Trimming ends: no space is left at either end, and what is left is inside the string. *)
Lemma TrimSpace_trimmed s ch :
  ch ∈ space_chars → CutPrefix (TrimSpace s) ch = None ∧ CutSuffix (TrimSpace s) ch = None.
Proof.
  intros Hch. unfold TrimSpace. set (t := TrimLeftChars space_chars s).
  assert (cut_char CutPrefix space_chars t = None) as Hleft by by apply trim_chars_none; [apply cut_left_shorter|].
  split; [|eapply cut_char_None; [|done]; by apply trim_chars_none; [apply cut_right_shorter|]].
  assert (∃ v, t = (TrimRightChars space_chars t ++ v)%string) as (v & Hv).
  { apply (trim_chars_rel (λ s t, ∃ v, s = (t ++ v)%string)).
    - intros s1. exists "". by rewrite string_app_nil_r.
    - intros s1 t1 u (v1 & ->) (v2 & ->). exists (v2 ++ v1)%string. by rewrite string_app_assoc.
    - intros s1 s2 (ch1 & _ & Hc)%cut_char_Some. exists ch1. by apply CutSuffix_Some. }
  destruct (CutPrefix (TrimRightChars space_chars t) ch) as [w|] eqn:Hc; [|done].
  apply CutPrefix_Some in Hc. apply (cut_char_None _ _ _ ch) in Hleft; [|done].
  rewrite Hv, Hc, string_app_assoc, CutPrefix_app in Hleft. done.
Qed.

Lemma cut_char_all cut chars s : (∀ ch, ch ∈ chars → cut s ch = None) → cut_char cut chars s = None.
Proof.
  intros H. destruct (cut_char cut chars s) as [s'|] eqn:Hc; [|done]. apply cut_char_Some in Hc as (ch & Hch & Hc).
  by rewrite H in Hc.
Qed.

Lemma TrimSpace_id s : (∀ ch, ch ∈ space_chars → CutPrefix s ch = None ∧ CutSuffix s ch = None) → TrimSpace s = s.
Proof.
  intros H. assert (∀ cut n, cut s = None → trim_chars cut n s = s) as Hid by (intros cut [|n] Hc; cbn; by rewrite ?Hc).
  unfold TrimSpace, TrimLeftChars. rewrite Hid by (apply cut_char_all; intros; by apply H).
  unfold TrimRightChars. apply Hid. apply cut_char_all. intros. by apply H.
Qed.

(** [strings.ToLower], on ASCII text. *)
Definition lower (c : Ascii.ascii) : Ascii.ascii :=
  let n := Ascii.nat_of_ascii c in
  if (65 <=? n)%nat && (n <=? 90)%nat then Ascii.ascii_of_nat (n + 32) else c.
Fixpoint ToLower (s : string) : string :=
  match s with
  | String c s' => String (lower c) (ToLower s')
  | EmptyString => EmptyString
  end.

Definition is_space (c : Ascii.ascii) : bool :=
  let n := Ascii.nat_of_ascii c in (n =? 32)%nat || ((9 <=? n)%nat && (n <=? 13)%nat).
(** [strings.Fields], on ASCII text: the maximal runs of characters that are not spaces;
    [word] is the run being read, reversed. *)
Fixpoint str_rev (s acc : string) : string :=
  match s with EmptyString => acc | String c s' => str_rev s' (String c acc) end.
Fixpoint fields_from (word : string) (s : string) : list string :=
  match s with
  | EmptyString => match word with EmptyString => [] | _ => [str_rev word EmptyString] end
  | String c s' =>
      if is_space c
      then match word with
           | EmptyString => fields_from EmptyString s'
           | _ => str_rev word EmptyString :: fields_from EmptyString s'
           end
      else fields_from (String c word) s'
  end.
Definition Fields (s : string) : list string := fields_from EmptyString s.

(** ** Paths *)

Definition slash : Ascii.ascii := "/"%char.

(** [filepath.Clean] of an absolute path. *)
Definition clean_step (acc : list string) (elem : string) : list string :=
  if (elem =? "")%string || (elem =? ".")%string then acc
  else if (elem =? "..")%string then tail acc else elem :: acc.
Definition Clean (path : string) : string :=
  String slash (Join slash (rev (foldl clean_step [] (Split slash path)))).

(** [filepath.Join] of an absolute path and one more element. *)
Definition path_Join (dir elem : string) : string := Clean (dir ++ String slash elem).

(** The absolute path of a list of names. *)
Definition abs_path : list string → string := foldr (λ name path, String slash (name ++ path)) EmptyString.

Definition plain_name (name : string) : Prop :=
  contains slash name = false ∧ name ≠ "" ∧ name ≠ "." ∧ name ≠ "..".

Lemma Split_abs_path names :
  Forall plain_name names → Split slash (abs_path names) = "" :: names.
Proof.
  intros H. induction H as [|name names [Hs _] H IH]; [done|].
  change (abs_path (name :: names)) with ("" ++ String slash (name ++ abs_path names))%string.
  rewrite Split_app_sep. change (Split slash "") with [""%string]. cbn [app]. f_equal.
  destruct names as [|name' names].
  - change (abs_path []) with ""%string. by rewrite string_app_nil, Split_plain.
  - change (abs_path (name' :: names)) with (String slash (name' ++ abs_path names)) in *.
    rewrite Split_app by done. f_equal. cbn in IH. by injection IH.
Qed.

Lemma foldl_clean_plain names acc :
  Forall plain_name names → foldl clean_step acc names = (rev names ++ acc)%list.
Proof.
  intros H. revert acc. induction H as [|name names (_ & H1 & H2 & H3) _ IH]; intros acc; [done|].
  cbn [foldl rev]. rewrite IH. unfold clean_step. apply String.eqb_neq in H1, H2, H3.
  rewrite H1, H2, H3. cbn. by rewrite <- app_assoc.
Qed.

Lemma Join_abs_path names : names ≠ [] → String slash (Join slash names) = abs_path names.
Proof.
  intros Hne. induction names as [|name names IH]; [done|]. destruct names as [|name' names].
  - cbn. by rewrite string_app_nil.
  - change (Join slash (name :: name' :: names)) with (name ++ String slash (Join slash (name' :: names)))%string.
    by rewrite IH.
Qed.

(** Joining paths of plain names appends the names; the root is ["/"], with no name. *)
Lemma path_Join_names dir elem names names' :
  Forall plain_name names → names' ≠ [] →
  (∀ acc, foldl clean_step acc (Split slash elem) = rev names' ++ acc)%list →
  dir = abs_path names ∨ dir = String slash "" ∧ names = [] →
  path_Join dir elem = abs_path (names ++ names').
Proof.
  intros Hn Hne He Hdir. unfold path_Join, Clean. rewrite Split_app_sep, foldl_app, He.
  assert (foldl clean_step [] (Split slash dir) = rev names) as ->.
  { destruct Hdir as [->|[-> ->]]; [|done]. rewrite Split_abs_path by done. cbn [foldl].
    change (clean_step [] "") with (@nil string). by rewrite foldl_clean_plain, app_nil_r. }
  rewrite rev_app_distr, !rev_involutive. apply Join_abs_path. by intros [_ ?]%app_nil.
Qed.

Lemma path_Join_abs dir names names' :
  Forall plain_name names → Forall plain_name names' → names' ≠ [] →
  dir = abs_path names ∨ dir = String slash "" ∧ names = [] →
  path_Join dir (abs_path names') = abs_path (names ++ names').
Proof.
  intros Hn Hn' Hne. apply path_Join_names; [done|done|]. intros acc.
  rewrite Split_abs_path by done. cbn [foldl]. change (clean_step acc "") with acc. by apply foldl_clean_plain.
Qed.

Lemma path_Join_name dir names name :
  Forall plain_name names → plain_name name → dir = abs_path names ∨ dir = String slash "" ∧ names = [] →
  path_Join dir name = abs_path (names ++ [name]).
Proof.
  intros Hn Hname. apply path_Join_names; [done|done|]. intros acc.
  rewrite Split_plain by apply Hname. apply foldl_clean_plain. by constructor.
Qed.
