(* ===== verification/CLayout.v ===== *)
(** * C data layout

    The C object layout used by the eBPF programs (an LP64 little-endian target:
    the layout the compiler gives to the declarations of
    [src/bpf/vmlinux_generated_x86.h], [src/bpf/vmlinux_generated_arm64.h] and to the
    program's own structures).  A declaration is kept as data ([ctype], [decl]); sizes,
    alignments, field offsets and typed access chains ([p->f.g], [BPF_CORE_READ(p, f, g)])
    are computed from it.  The generic theorems say that the computed placement is a
    legal C layout: fields are aligned, in order, pairwise disjoint and inside the
    object. *)
From S2P Require Import Prelude.
From stdpp Require Import strings gmap list.
Local Open Scope Z_scope.
Set Warnings "-register-all".

(** ** Types *)

Inductive cbase :=
  | c_char | c_schar | c_uchar | c_bool
  | c_short | c_ushort | c_int | c_uint
  | c_long | c_ulong | c_llong | c_ullong | c_uint128
  | c_enum.

Definition base_size (b : cbase) : Z :=
  match b with
  | c_char | c_schar | c_uchar | c_bool => 1
  | c_short | c_ushort => 2
  | c_int | c_uint | c_enum => 4
  | c_long | c_ulong | c_llong | c_ullong => 8
  | c_uint128 => 16
  end.

#[export] Instance cbase_eq_dec : EqDecision cbase.
Proof. solve_decision. Defined.

(** [TName] is a struct or union tag (["struct file"]) or a typedef name; [TPtr] keeps
    the spelling of the pointed-to type; [TAgg false fs] is a structure body,
    [TAgg true fs] a union body.  A field is its name ([""] for an anonymous member or
    an unnamed bit-field), its bit-field width if it has one, and its type. *)
Inductive ctype :=
  | TBase (b : cbase)
  | TPtr (pointee : string)
  | TArr (t : ctype) (n : Z)
  | TName (name : string)
  | TAgg (is_union : bool) (fields : list (string * option Z * ctype)).

Abbreviation cfield := (string * option Z * ctype)%type.

(** A named declaration: a tag with its body, or a typedef. *)
Definition decl : Type := string * ctype.

Definition fld (n : string) (t : ctype) : cfield := (n, None, t).
Definition bits (n : string) (b : cbase) (w : Z) : cfield := (n, Some w, TBase b).
Definition anon (t : ctype) : cfield := ("", None, t).
Definition pad (b : cbase) (w : Z) : cfield := ("", Some w, TBase b).
Definition CStruct (tag : string) (fs : list cfield) : decl :=
  ("struct " +:+ tag, TAgg false fs).
Definition CUnion (tag : string) (fs : list cfield) : decl :=
  ("union " +:+ tag, TAgg true fs).
Definition CTypedef (t : ctype) (n : string) : decl := (n, t).

(** ** Placement *)

Definition round_up (n a : Z) : Z := (n + (a - 1)) / a * a.

(** One placed member: its first bit, its width in bits, its type. *)
Record placed := Placed {
  pl_name : string;
  pl_bitoff : Z;
  pl_bits : Z;
  pl_type : ctype;
}.

Record aggregate := Aggregate {
  ag_members : list placed;
  ag_size : Z;
  ag_align : Z;
}.

(** Where a member of size [sz] and alignment [al] (bytes) goes when the next free bit
    is [pos]: a bit-field stays in the current storage unit of its type if it fits. *)
Definition place_at (pos : Z) (w : option Z) (sz al : Z) : Z :=
  match w with
  | None => round_up pos (8 * al)
  | Some w =>
      if w =? 0 then round_up pos (8 * sz)
      else if pos mod (8 * sz) + w <=? 8 * sz then pos else round_up pos (8 * sz)
  end.

Definition member_bits (w : option Z) (sz : Z) : Z :=
  match w with None => 8 * sz | Some w => w end.

(** An unnamed bit-field does not raise the alignment of its structure. *)
Definition member_align (n : string) (w : option Z) (al : Z) : Z :=
  match w with
  | Some _ => if (n =? "")%string then 1 else al
  | None => al
  end.

Section place.
  Context (size_align : ctype → option (Z * Z)).

Fixpoint place_struct (fs : list cfield) (pos al : Z) : option (list placed * Z * Z) :=
  match fs with
  | [] => Some ([], pos, al)
  | (n, w, t) :: fs' =>
      match size_align t with
      | None => None
      | Some (sz, a) =>
          let o := place_at pos w sz a in
          match place_struct fs' (o + member_bits w sz) (Z.max al (member_align n w a)) with
          | None => None
          | Some (ps, pos', al') => Some (Placed n o (member_bits w sz) t :: ps, pos', al')
          end
      end
  end.

Fixpoint place_union (fs : list cfield) (width al : Z) : option (list placed * Z * Z) :=
  match fs with
  | [] => Some ([], width, al)
  | (n, w, t) :: fs' =>
      match size_align t with
      | None => None
      | Some (sz, a) =>
          match place_union fs' (Z.max width (member_bits w sz)) (Z.max al (member_align n w a)) with
          | None => None
          | Some (ps, width', al') => Some (Placed n 0 (member_bits w sz) t :: ps, width', al')
          end
      end
  end.

Definition place (u : bool) (fs : list cfield) : option aggregate :=
  match (if u then place_union fs 0 1 else place_struct fs 0 1) with
  | None => None
  | Some (ps, w, al) => Some (Aggregate ps (round_up (round_up w 8 / 8) al) al)
  end.
End place.

(** ** Declarations in scope *)

Record tinfo := TInfo { ti_size : Z; ti_align : Z; ti_body : ctype }.
Abbreviation tenv := (gmap string tinfo).

Fixpoint size_align (E : tenv) (t : ctype) : option (Z * Z) :=
  match t with
  | TBase b => Some (base_size b, base_size b)
  | TPtr _ => Some (8, 8)
  | TArr t n =>
      match size_align E t with Some (s, a) => Some (n * s, a) | None => None end
  | TName x =>
      match E !! x with Some i => Some (ti_size i, ti_align i) | None => None end
  | TAgg u fs =>
      match place (size_align E) u fs with
      | Some g => Some (ag_size g, ag_align g)
      | None => None
      end
  end.

(** The type a name stands for, typedefs followed ([E] holds resolved bodies). *)
Definition resolve (E : tenv) (t : ctype) : option ctype :=
  match t with TName x => ti_body <$> E !! x | _ => Some t end.

Definition declare (E : tenv) (d : decl) : option tenv :=
  match size_align E (snd d), resolve E (snd d) with
  | Some (s, a), Some b => Some (<[ fst d := TInfo s a b ]> E)
  | _, _ => None
  end.

(** Declarations are processed in order, each using only the earlier ones. *)
Fixpoint declare_all (E : tenv) (ds : list decl) : option tenv :=
  match ds with
  | [] => Some E
  | d :: ds' => match declare E d with Some E' => declare_all E' ds' | None => None end
  end.

(** ** Member lookup and access chains *)

Section lookup.
  Context (E : tenv).

(** Members of anonymous members are members of the enclosing type. *)
Fixpoint find_member (t : ctype) (x : string) : option placed :=
  match t with
  | TAgg u fs =>
      match place (size_align E) u fs with
      | None => None
      | Some g =>
          (fix go (fs : list cfield) (ps : list placed) : option placed :=
             match fs, ps with
             | (n, _, t') :: fs', p :: ps' =>
                 if (n =? x)%string then Some p
                 else
                   match (if (n =? "")%string then find_member t' x else None) with
                   | Some q => Some (Placed (pl_name q) (pl_bitoff p + pl_bitoff q) (pl_bits q) (pl_type q))
                   | None => go fs' ps'
                   end
             | _, _ => None
             end) fs (ag_members g)
      end
  | _ => None
  end.

(** [t.x1.x2...]: the byte offset and the type of a nested member. *)
Fixpoint member_path (t : ctype) (xs : list string) : option (Z * ctype) :=
  match xs with
  | [] => Some (0, t)
  | x :: xs' =>
      match resolve E t with
      | None => None
      | Some body =>
          match find_member body x with
          | None => None
          | Some p =>
              match member_path (pl_type p) xs' with
              | None => None
              | Some (o, t') => Some (pl_bitoff p / 8 + o, t')
              end
          end
      end
  end.

Definition offset_of (t : string) (xs : list string) : option Z :=
  fst <$> member_path (TName t) xs.
Definition type_of (t : string) (xs : list string) : option ctype :=
  snd <$> member_path (TName t) xs.
Definition size_of (t : ctype) : option Z := fst <$> size_align E t.

(** [BPF_CORE_READ(p, xs1, xs2, ...)]: follow the pointer read by each link but the
    last; the offsets read, in order, and the type of the last member. *)
Fixpoint access_chain (t : string) (links : list (list string)) : option (list Z * ctype) :=
  match links with
  | [] => None
  | xs :: links' =>
      match member_path (TName t) xs with
      | None => None
      | Some (o, t') =>
          match links' with
          | [] => Some ([o], t')
          | _ =>
              match t' with
              | TPtr u => prod_map (cons o) id <$> access_chain u links'
              | _ => None
              end
          end
      end
  end.
End lookup.

(** ** Well-formed declarations *)

Definition wf_bits (w : option Z) (t : ctype) : bool :=
  match w, t with
  | None, _ => true
  | Some w, TBase b => (0 <=? w) && (w <=? 8 * base_size b)
  | Some _, _ => false
  end.

Fixpoint wf_type (t : ctype) : bool :=
  match t with
  | TArr t n => (0 <=? n) && wf_type t
  | TAgg _ fs => forallb (λ '(_, w, t'), wf_bits w t' && wf_type t') fs
  | _ => true
  end.

Definition wf_decls (ds : list decl) : bool := forallb (λ d, wf_type (snd d)) ds.

Definition env_ok (E : tenv) : Prop :=
  map_Forall (λ _ i, 0 <= ti_size i ∧ 0 < ti_align i ∧ wf_type (ti_body i) = true) E.

(** Induction on types, through the fields of an aggregate. *)
Lemma ctype_fields_ind (P : ctype → Prop) :
  (∀ b, P (TBase b)) → (∀ s, P (TPtr s)) → (∀ t n, P t → P (TArr t n)) →
  (∀ s, P (TName s)) → (∀ u fs, Forall (λ f : cfield, P f.2) fs → P (TAgg u fs)) →
  ∀ t, P t.
Proof.
  intros Hb Hp Ha Hn Hg. fix IH 1. intros [b|s|t n|s|u fs].
  - apply Hb.
  - apply Hp.
  - apply Ha, IH.
  - apply Hn.
  - apply Hg. induction fs as [|[[x w] t] fs IHfs]; constructor; [apply IH | apply IHfs].
Qed.

(** ** Placement is a legal layout *)

Lemma round_up_ge n a : 0 < a → n <= round_up n a.
Proof.
  intros. unfold round_up. rewrite Z.mul_comm.
  pose proof (Z.div_mod (n + (a - 1)) a). pose proof (Z.mod_pos_bound (n + (a - 1)) a). lia.
Qed.

Lemma round_up_divide n a : (a | round_up n a).
Proof. apply Z.divide_factor_r. Qed.

Lemma base_size_pos b : 0 < base_size b.
Proof. by destruct b. Qed.

Lemma place_at_ge pos w sz al : 0 < al → (w ≠ None → 0 < sz) → pos <= place_at pos w sz al.
Proof.
  intros Ha Hs. unfold place_at. destruct w as [w|]; [|apply round_up_ge; lia].
  assert (0 < sz) by auto. repeat case_match; try lia; apply round_up_ge; lia.
Qed.

Definition pl_end (p : placed) : Z := pl_bitoff p + pl_bits p.

(** [ordered lo ps hi]: the members of [ps] lie one after the other between the bits
    [lo] and [hi]. *)
Fixpoint ordered (lo : Z) (ps : list placed) (hi : Z) : Prop :=
  match ps with
  | [] => lo <= hi
  | p :: ps' => lo <= pl_bitoff p ∧ 0 <= pl_bits p ∧ ordered (pl_end p) ps' hi
  end.

Lemma ordered_lookup lo ps hi i p :
  ordered lo ps hi → ps !! i = Some p → lo <= pl_bitoff p ∧ 0 <= pl_bits p ∧ pl_end p <= hi.
Proof.
  revert lo i. induction ps as [|q ps IH]; intros lo i Ho Hi; [done|].
  destruct Ho as (Hlo & Hb & Ho). destruct i as [|i]; simplify_eq/=.
  - split_and!; [done..|]. clear -Ho. revert Ho. generalize (pl_end p).
    induction ps as [|q ps IH]; intros z Ho; simpl in *; [done|].
    destruct Ho as (? & ? & Ho%IH). unfold pl_end in *. lia.
  - destruct (IH _ _ Ho Hi) as (? & ? & ?). unfold pl_end in *. lia.
Qed.

Lemma ordered_disjoint lo ps hi i j p q :
  ordered lo ps hi → ps !! i = Some p → ps !! j = Some q → (i < j)%nat →
  pl_end p <= pl_bitoff q.
Proof.
  revert lo i j. induction ps as [|r ps IH]; intros lo i j Ho Hi Hj Hij; [done|].
  destruct Ho as (Hlo & Hb & Ho). destruct i as [|i], j as [|j]; simplify_eq/=; try lia.
  - by destruct (ordered_lookup _ _ _ _ _ Ho Hj) as (? & ? & ?).
  - apply (IH _ i j Ho); auto; lia.
Qed.

Section placement.
  Context (sa : ctype → option (Z * Z)).

Definition field_ok (f : cfield) : Prop :=
  wf_bits f.1.2 f.2 = true ∧
  ∀ s a, sa f.2 = Some (s, a) → 0 <= s ∧ 0 < a ∧ (∀ b, f.2 = TBase b → s = base_size b).

Lemma field_ok_member n w t s a :
  field_ok (n, w, t) → sa t = Some (s, a) →
  0 <= member_bits w s ∧ 0 < a ∧ (w ≠ None → 0 < s).
Proof.
  intros [Hw Hsa] H. destruct (Hsa _ _ H) as (? & ? & Hb). simpl in *.
  destruct w as [w|]; simpl in *; [|naive_solver lia].
  destruct t; try done. rewrite (Hb _ eq_refl).
  pose proof (base_size_pos b). split_and!; [lia|done|done].
Qed.

Lemma place_struct_ordered fs pos al ps pos' al' :
  Forall field_ok fs → place_struct sa fs pos al = Some (ps, pos', al') →
  ordered pos ps pos' ∧ al <= al'.
Proof.
  revert pos al ps. induction fs as [|[[n w] t] fs IH]; intros pos al ps Hok H; simplify_eq/=.
  { lia. }
  apply Forall_cons in Hok as [Hf Hok].
  destruct (sa t) as [[s a]|] eqn:Hsa; [|done].
  destruct (field_ok_member _ _ _ _ _ Hf Hsa) as (Hb & Ha & Hs).
  destruct (place_struct sa fs _ _) as [[[ps' q'] a']|] eqn:Hp; simplify_eq/=.
  destruct (IH _ _ _ Hok Hp) as [Ho Hal]. unfold pl_end; simpl.
  split_and!; auto using place_at_ge; lia.
Qed.

Lemma place_union_width fs w0 al ps w' al' :
  Forall field_ok fs → place_union sa fs w0 al = Some (ps, w', al') →
  w0 <= w' ∧ al <= al' ∧ Forall (λ p, pl_bitoff p = 0 ∧ 0 <= pl_bits p ∧ pl_end p <= w') ps.
Proof.
  revert w0 al ps. induction fs as [|[[n w] t] fs IH]; intros w0 al ps Hok H; simplify_eq/=.
  { split_and!; auto; lia. }
  apply Forall_cons in Hok as [Hf Hok].
  destruct (sa t) as [[s a]|] eqn:Hsa; [|done].
  destruct (field_ok_member _ _ _ _ _ Hf Hsa) as (Hb & Ha & Hs).
  destruct (place_union sa fs _ _) as [[[ps' q'] a']|] eqn:Hp; simplify_eq/=.
  destruct (IH _ _ _ Hok Hp) as (? & ? & Ho).
  split_and!; [lia..|]. constructor; [|done]. unfold pl_end; simpl. lia.
Qed.

Lemma place_size u fs g :
  Forall field_ok fs → place sa u fs = Some g →
  0 <= ag_size g ∧ 1 <= ag_align g ∧ (ag_align g | ag_size g).
Proof.
  intros Hok H. unfold place in H.
  destruct (if u then _ else _) as [[[ps w] al]|] eqn:Hp; simplify_eq/=.
  assert (0 <= w ∧ 1 <= al) as [Hw Hal].
  { destruct u.
    - by destruct (place_union_width _ _ _ _ _ _ Hok Hp) as (? & ? & ?).
    - destruct (place_struct_ordered _ _ _ _ _ _ Hok Hp) as [Ho ?]. split; [|done].
      clear -Ho. revert Ho. generalize 0. induction ps as [|p ps IH]; intros z Ho; simpl in *; [done|].
      destruct Ho as (? & ? & Ho%IH). unfold pl_end in Ho. lia. }
  split_and!; [|done|apply round_up_divide].
  etrans; [|apply round_up_ge; lia].
  pose proof (round_up_ge w 8). pose proof (Z.div_pos (round_up w 8) 8). lia.
Qed.
End placement.

(** Sizes are non-negative and alignments positive, for well-formed types over a
    well-formed environment. *)
Lemma size_align_ok E t s a :
  env_ok E → wf_type t = true → size_align E t = Some (s, a) →
  0 <= s ∧ 0 < a ∧ (∀ b, t = TBase b → s = base_size b).
Proof.
  intros HE. revert s a. induction t as [b|p|t n IH|x|u fs IH] using ctype_fields_ind;
    intros s a Hwf H; simplify_eq/=.
  - pose proof (base_size_pos b). naive_solver lia.
  - naive_solver lia.
  - apply andb_true_iff in Hwf as [? Hwf].
    destruct (size_align E t) as [[s' a']|]; simplify_eq/=.
    destruct (IH _ _ Hwf eq_refl) as (? & ? & _). split_and!; [nia|done|done].
  - destruct (E !! x) as [i|] eqn:Hx; simplify_eq/=.
    destruct (HE _ _ Hx) as (? & ? & _). naive_solver.
  - destruct (place (size_align E) u fs) as [g|] eqn:Hp; simplify_eq/=.
    assert (Forall (field_ok (size_align E)) fs) as Hok.
    { rewrite forallb_forall in Hwf. apply Forall_forall. intros [[n w] t] Hin.
      rewrite Forall_forall in IH. specialize (IH _ Hin).
      apply list_elem_of_In, Hwf, andb_true_iff in Hin as [? ?].
      split; [done|]. intros s a Ht. by apply IH. }
    destruct (place_size _ _ _ _ Hok Hp) as (? & ? & _). split_and!; [lia..|done].
Qed.

Lemma fields_ok E u fs :
  env_ok E → wf_type (TAgg u fs) = true → Forall (field_ok (size_align E)) fs.
Proof.
  intros HE Hwf. simpl in Hwf. rewrite forallb_forall in Hwf.
  apply Forall_forall. intros [[n w] t] Hin.
  apply list_elem_of_In, Hwf, andb_true_iff in Hin as [? ?].
  split; [done|]. intros s a Ht. by apply (size_align_ok E).
Qed.

Lemma declare_all_ok ds E E' :
  env_ok E → wf_decls ds = true → declare_all E ds = Some E' → env_ok E'.
Proof.
  revert E. induction ds as [|[x t] ds IH]; intros E HE Hwf H; simplify_eq/=; [done|].
  apply andb_true_iff in Hwf as [Ht Hwf]. unfold declare in H; simpl in *.
  destruct (size_align E t) as [[s a]|] eqn:Hsa; [|done].
  destruct (resolve E t) as [b|] eqn:Hb; [|done]. eapply IH; [|done..].
  apply map_Forall_insert_2; [|done].
  destruct (size_align_ok _ _ _ _ HE Ht Hsa) as (? & ? & _). split_and!; [done..|].
  destruct t as [| | |y|]; simplify_eq/=; try done.
  destruct (E !! y) as [i|] eqn:Hy; simplify_eq/=. by destruct (HE _ _ Hy) as (? & ? & ?).
Qed.

(** The members of a structure are in order, pairwise disjoint and inside the
    structure; its size is a multiple of its alignment. *)
Lemma struct_layout_legal E fs g :
  env_ok E → wf_type (TAgg false fs) = true →
  place (size_align E) false fs = Some g →
  (ag_align g | ag_size g) ∧
  ∀ i j p q, ag_members g !! i = Some p → ag_members g !! j = Some q → (i < j)%nat →
    0 <= pl_bitoff p ∧ pl_end p <= pl_bitoff q ∧ pl_end q <= 8 * ag_size g.
Proof.
  intros HE Hwf Hg. pose proof (fields_ok _ _ _ HE Hwf) as Hok.
  pose proof (place_size _ _ _ _ Hok Hg) as (_ & _ & Hdiv). split; [done|].
  unfold place in Hg. destruct (place_struct _ fs 0 1) as [[[ps w] al]|] eqn:Hp; simplify_eq/=.
  destruct (place_struct_ordered _ _ _ _ _ _ _ Hok Hp) as [Ho Hal].
  intros i j p q Hi Hj Hij.
  pose proof (ordered_lookup _ _ _ _ _ Ho Hi) as (? & ? & _).
  pose proof (ordered_lookup _ _ _ _ _ Ho Hj) as (_ & _ & ?).
  pose proof (ordered_disjoint _ _ _ _ _ _ _ Ho Hi Hj Hij).
  split_and!; [done..|].
  pose proof (round_up_ge w 8). pose proof (round_up_divide w 8) as [k Hk].
  pose proof (round_up_ge (round_up w 8 / 8) al). rewrite Hk, Z.div_mul in * by lia. lia.
Qed.
