(* ===== verification/VmlinuxX86.v ===== *)
(** * Kernel types of [src/bpf/vmlinux_generated_x86.h]

    The kernel declarations the eBPF programs read through, with every declaration they
    contain by value, in dependency order, one definition per declaration of the header
    (a [typedef], a tagged [struct] or [union], an [enum]; the one-line [typedef]s of integer
    types are together, and so are declarations on consecutive lines).  Field order, types, array
    lengths, bit-fields and padding are those of the header; only the pointed-to types
    of pointers are kept as text and qualifiers are dropped. *)
From S2P Require Import Prelude CLayout.
From stdpp Require Import strings gmap list.
Local Open Scope Z_scope.

(** The one-line [typedef]s of integer types, in dependency order. *)
Definition x86_typedefs : list decl := [
  CTypedef (TBase c_bool) "bool";
  CTypedef (TBase c_int) "__kernel_clockid_t";
  CTypedef (TBase c_int) "__kernel_pid_t";
  CTypedef (TBase c_int) "__s32";
  CTypedef (TName "__kernel_clockid_t") "clockid_t";
  CTypedef (TName "__s32") "s32";
  CTypedef (TName "__kernel_pid_t") "pid_t";
  CTypedef (TBase c_llong) "__s64";
  CTypedef (TBase c_llong) "__kernel_loff_t";
  CTypedef (TName "__s64") "s64";
  CTypedef (TName "s64") "ktime_t";
  CTypedef (TName "__kernel_loff_t") "loff_t";
  CTypedef (TBase c_ullong) "__u64";
  CTypedef (TName "__u64") "u64";
  CTypedef (TBase c_ulong) "__kernel_ulong_t";
  CTypedef (TName "__kernel_ulong_t") "__kernel_size_t";
  CTypedef (TName "__kernel_size_t") "size_t";
  CTypedef (TBase c_ushort) "__u16";
  CTypedef (TName "__u16") "u16";
  CTypedef (TBase c_ushort) "umode_t";
  CTypedef (TBase c_uchar) "__u8";
  CTypedef (TName "__u8") "u8";
  CTypedef (TBase c_uint) "__u32";
  CTypedef (TName "__u32") "u32";
  CTypedef (TBase c_uint) "__kernel_uid32_t";
  CTypedef (TName "u32") "errseq_t";
  CTypedef (TBase c_uint) "fmode_t";
  CTypedef (TName "__kernel_uid32_t") "uid_t"].

Definition x86_thread_info_decls : list decl := [
  CStruct "thread_info" [
  fld "flags" (TBase c_ulong);
  fld "syscall_work" (TBase c_ulong);
  fld "status" (TName "u32");
  fld "cpu" (TName "u32")];
  CStruct "vtime" [
  fld "seqcount" (TName "seqcount_t");
  fld "starttime" (TBase c_ullong);
  fld "state" (TBase c_enum);
  fld "cpu" (TBase c_uint);
  fld "utime" (TName "u64");
  fld "stime" (TName "u64");
  fld "gtime" (TName "u64")];
  CStruct "wake_q_node" [
  fld "next" (TPtr "struct wake_q_node")];
  CStruct "tlbflush_unmap_batch" [
  fld "arch" (TName "struct arch_tlbflush_unmap_batch");
  fld "flush_required" (TName "bool");
  fld "writable" (TName "bool")];
  CStruct "thread_shstk" [
  fld "base" (TName "u64");
  fld "size" (TName "u64")];
  CStruct "thread_struct" [
  fld "tls_array" (TArr (TName "struct desc_struct") 3);
  fld "sp" (TBase c_ulong);
  fld "es" (TBase c_ushort);
  fld "ds" (TBase c_ushort);
  fld "fsindex" (TBase c_ushort);
  fld "gsindex" (TBase c_ushort);
  fld "fsbase" (TBase c_ulong);
  fld "gsbase" (TBase c_ulong);
  fld "ptrace_bps" (TArr (TPtr "struct perf_event") 4);
  fld "virtual_dr6" (TBase c_ulong);
  fld "ptrace_dr7" (TBase c_ulong);
  fld "cr2" (TBase c_ulong);
  fld "trap_nr" (TBase c_ulong);
  fld "error_code" (TBase c_ulong);
  fld "io_bitmap" (TPtr "struct io_bitmap");
  fld "iopl_emul" (TBase c_ulong);
  bits "iopl_warn" c_uint 1;
  fld "pkru" (TName "u32");
  fld "features" (TBase c_ulong);
  fld "features_locked" (TBase c_ulong);
  fld "shstk" (TName "struct thread_shstk");
  pad c_long 64;
  fld "fpu" (TName "struct fpu")]].

Definition x86_llist_node_decls : list decl := [
  CStruct "llist_node" [
  fld "next" (TPtr "struct llist_node")];
  CStruct "__call_single_node" [
  fld "llist" (TName "struct llist_node");
  anon (TAgg true [
    fld "u_flags" (TBase c_uint);
    fld "a_flags" (TName "atomic_t")]);
  fld "src" (TName "u16");
  fld "dst" (TName "u16")]].

Definition x86_load_weight_decls : list decl := [
  CStruct "load_weight" [
  fld "weight" (TBase c_ulong);
  fld "inv_weight" (TName "u32")];
  CStruct "sched_avg" [
  fld "last_update_time" (TName "u64");
  fld "load_sum" (TName "u64");
  fld "runnable_sum" (TName "u64");
  fld "util_sum" (TName "u32");
  fld "period_contrib" (TName "u32");
  fld "load_avg" (TBase c_ulong);
  fld "runnable_avg" (TBase c_ulong);
  fld "util_avg" (TBase c_ulong);
  fld "util_est" (TBase c_uint)]].

Definition x86_rb_node_decls : list decl := [
  CStruct "rb_node" [
  fld "__rb_parent_color" (TBase c_ulong);
  fld "rb_right" (TPtr "struct rb_node");
  fld "rb_left" (TPtr "struct rb_node")];
  CStruct "timerqueue_node" [
  fld "node" (TName "struct rb_node");
  fld "expires" (TName "ktime_t")]].

Definition x86_sched_entity_decls : list decl := [
  CStruct "sched_entity" [
  fld "load" (TName "struct load_weight");
  fld "run_node" (TName "struct rb_node");
  fld "deadline" (TName "u64");
  fld "min_vruntime" (TName "u64");
  fld "min_slice" (TName "u64");
  fld "group_node" (TName "struct list_head");
  fld "on_rq" (TBase c_uchar);
  fld "sched_delayed" (TBase c_uchar);
  fld "rel_deadline" (TBase c_uchar);
  fld "custom_slice" (TBase c_uchar);
  fld "exec_start" (TName "u64");
  fld "sum_exec_runtime" (TName "u64");
  fld "prev_sum_exec_runtime" (TName "u64");
  fld "vruntime" (TName "u64");
  fld "vlag" (TName "s64");
  fld "slice" (TName "u64");
  fld "nr_migrations" (TName "u64");
  fld "depth" (TBase c_int);
  fld "parent" (TPtr "struct sched_entity");
  fld "cfs_rq" (TPtr "struct cfs_rq");
  fld "my_q" (TPtr "struct cfs_rq");
  fld "runnable_weight" (TBase c_ulong);
  pad c_long 64;
  fld "avg" (TName "struct sched_avg")];
  CStruct "sched_statistics" [
  fld "wait_start" (TName "u64");
  fld "wait_max" (TName "u64");
  fld "wait_count" (TName "u64");
  fld "wait_sum" (TName "u64");
  fld "iowait_count" (TName "u64");
  fld "iowait_sum" (TName "u64");
  fld "sleep_start" (TName "u64");
  fld "sleep_max" (TName "u64");
  fld "sum_sleep_runtime" (TName "s64");
  fld "block_start" (TName "u64");
  fld "block_max" (TName "u64");
  fld "sum_block_runtime" (TName "s64");
  fld "exec_max" (TName "s64");
  fld "slice_max" (TName "u64");
  fld "nr_migrations_cold" (TName "u64");
  fld "nr_failed_migrations_affine" (TName "u64");
  fld "nr_failed_migrations_running" (TName "u64");
  fld "nr_failed_migrations_hot" (TName "u64");
  fld "nr_forced_migrations" (TName "u64");
  fld "nr_wakeups" (TName "u64");
  fld "nr_wakeups_sync" (TName "u64");
  fld "nr_wakeups_migrate" (TName "u64");
  fld "nr_wakeups_local" (TName "u64");
  fld "nr_wakeups_remote" (TName "u64");
  fld "nr_wakeups_affine" (TName "u64");
  fld "nr_wakeups_affine_attempts" (TName "u64");
  fld "nr_wakeups_passive" (TName "u64");
  fld "nr_wakeups_idle" (TName "u64");
  fld "core_forceidle_sum" (TName "u64");
  pad c_long 64;
  pad c_long 64;
  pad c_long 64]].

Definition x86_sched_rt_entity : decl :=
  CStruct "sched_rt_entity" [
  fld "run_list" (TName "struct list_head");
  fld "timeout" (TBase c_ulong);
  fld "watchdog_stamp" (TBase c_ulong);
  fld "time_slice" (TBase c_uint);
  fld "on_rq" (TBase c_ushort);
  fld "on_list" (TBase c_ushort);
  fld "back" (TPtr "struct sched_rt_entity")].

Definition x86_hrtimer : decl :=
  CStruct "hrtimer" [
  fld "node" (TName "struct timerqueue_node");
  fld "_softexpires" (TName "ktime_t");
  fld "function" (TPtr "fn");
  fld "base" (TPtr "struct hrtimer_clock_base");
  fld "state" (TName "u8");
  fld "is_rel" (TName "u8");
  fld "is_soft" (TName "u8");
  fld "is_hard" (TName "u8")].

Definition x86_dl_server_has_tasks_f_decls : list decl := [
  CTypedef (TPtr "fn") "dl_server_has_tasks_f";
  CTypedef (TPtr "fn") "dl_server_pick_f";
  CStruct "sched_dl_entity" [
  fld "rb_node" (TName "struct rb_node");
  fld "dl_runtime" (TName "u64");
  fld "dl_deadline" (TName "u64");
  fld "dl_period" (TName "u64");
  fld "dl_bw" (TName "u64");
  fld "dl_density" (TName "u64");
  fld "runtime" (TName "s64");
  fld "deadline" (TName "u64");
  fld "flags" (TBase c_uint);
  bits "dl_throttled" c_uint 1;
  bits "dl_yielded" c_uint 1;
  bits "dl_non_contending" c_uint 1;
  bits "dl_overrun" c_uint 1;
  bits "dl_server" c_uint 1;
  bits "dl_server_active" c_uint 1;
  bits "dl_defer" c_uint 1;
  bits "dl_defer_armed" c_uint 1;
  bits "dl_defer_running" c_uint 1;
  fld "dl_timer" (TName "struct hrtimer");
  fld "inactive_timer" (TName "struct hrtimer");
  fld "rq" (TPtr "struct rq");
  fld "server_has_tasks" (TName "dl_server_has_tasks_f");
  fld "server_pick_task" (TName "dl_server_pick_f");
  fld "pi_se" (TPtr "struct sched_dl_entity")];
  CStruct "sched_info" [
  fld "pcount" (TBase c_ulong);
  fld "run_delay" (TBase c_ullong);
  fld "last_arrival" (TBase c_ullong);
  fld "last_queued" (TBase c_ullong)]].

Definition x86_scx_dsq_list_node : decl :=
  CStruct "scx_dsq_list_node" [
  fld "node" (TName "struct list_head");
  fld "flags" (TName "u32");
  fld "priv" (TName "u32")].

Definition x86_atomic64_t_decls : list decl := [
  CTypedef (TAgg false [
  fld "counter" (TName "s64")]) "atomic64_t";
  CTypedef (TName "atomic64_t") "atomic_long_t";
  CTypedef (TAgg false [
  fld "counter" (TBase c_int)]) "atomic_t"].

Definition x86_sched_ext_entity : decl :=
  CStruct "sched_ext_entity" [
  fld "dsq" (TPtr "struct scx_dispatch_q");
  fld "dsq_list" (TName "struct scx_dsq_list_node");
  fld "dsq_priq" (TName "struct rb_node");
  fld "dsq_seq" (TName "u32");
  fld "dsq_flags" (TName "u32");
  fld "flags" (TName "u32");
  fld "weight" (TName "u32");
  fld "sticky_cpu" (TName "s32");
  fld "holding_cpu" (TName "s32");
  fld "kf_mask" (TName "u32");
  fld "kf_tasks" (TArr (TPtr "struct task_struct") 2);
  fld "ops_state" (TName "atomic_long_t");
  fld "runnable_node" (TName "struct list_head");
  fld "runnable_at" (TBase c_ulong);
  fld "core_sched_at" (TName "u64");
  fld "ddsp_dsq_id" (TName "u64");
  fld "ddsp_enq_flags" (TName "u64");
  fld "slice" (TName "u64");
  fld "dsq_vtime" (TName "u64");
  fld "disallow" (TName "bool");
  fld "cgrp_moving_from" (TPtr "struct cgroup");
  fld "tasks_node" (TName "struct list_head")].

Definition x86_uclamp_se : decl :=
  CStruct "uclamp_se" [
  bits "value" c_uint 11;
  bits "bucket_id" c_uint 3;
  bits "active" c_uint 1;
  bits "user_defined" c_uint 1].

Definition x86_hlist_head : decl :=
  CStruct "hlist_head" [
  fld "first" (TPtr "struct hlist_node")].

Definition x86_cpumask_decls : list decl := [
  CStruct "cpumask" [
  fld "bits" (TArr (TBase c_ulong) 128)];
  CTypedef (TName "struct cpumask") "cpumask_t"].

Definition x86_rcu_special : decl :=
  CUnion "rcu_special" [
  fld "b" (TAgg false [
    fld "blocked" (TName "u8");
    fld "need_qs" (TName "u8");
    fld "exp_hint" (TName "u8");
    fld "need_mb" (TName "u8")]);
  fld "s" (TName "u32")].

Definition x86_plist_node : decl :=
  CStruct "plist_node" [
  fld "prio" (TBase c_int);
  fld "prio_list" (TName "struct list_head");
  fld "node_list" (TName "struct list_head")].

Definition x86_restart_block : decl :=
  CStruct "restart_block" [
  fld "arch_data" (TBase c_ulong);
  fld "fn" (TPtr "fn");
  anon (TAgg true [
    fld "futex" (TAgg false [
      fld "uaddr" (TPtr "u32");
      fld "val" (TName "u32");
      fld "flags" (TName "u32");
      fld "bitset" (TName "u32");
      fld "time" (TName "u64");
      fld "uaddr2" (TPtr "u32")]);
    fld "nanosleep" (TAgg false [
      fld "clockid" (TName "clockid_t");
      fld "type" (TBase c_enum);
      anon (TAgg true [
        fld "rmtp" (TPtr "struct __kernel_timespec");
        fld "compat_rmtp" (TPtr "struct old_timespec32")]);
      fld "expires" (TName "u64")]);
    fld "poll" (TAgg false [
      fld "ufds" (TPtr "struct pollfd");
      fld "nfds" (TBase c_int);
      fld "has_timeout" (TBase c_int);
      fld "tv_sec" (TBase c_ulong);
      fld "tv_nsec" (TBase c_ulong)])])].

Definition x86_hlist_node_decls : list decl := [
  CStruct "hlist_node" [
  fld "next" (TPtr "struct hlist_node");
  fld "pprev" (TPtr "struct hlist_node *")];
  CStruct "refcount_struct" [
  fld "refs" (TName "atomic_t")];
  CTypedef (TName "struct refcount_struct") "refcount_t"].

Definition x86_qspinlock_decls : list decl := [
  CStruct "qspinlock" [
  anon (TAgg true [
    fld "val" (TName "atomic_t");
    anon (TAgg false [
      fld "locked" (TName "u8");
      fld "pending" (TName "u8")]);
    anon (TAgg false [
      fld "locked_pending" (TName "u16");
      fld "tail" (TName "u16")])])];
  CTypedef (TName "struct qspinlock") "arch_spinlock_t"].

Definition x86_raw_spinlock_t : decl := CTypedef (TName "struct raw_spinlock") "raw_spinlock_t".

Definition x86_seqcount_decls : list decl := [
  CStruct "seqcount" [
  fld "sequence" (TBase c_uint)];
  CTypedef (TName "struct seqcount") "seqcount_t"].

Definition x86_rb_root_decls : list decl := [
  CStruct "rb_root" [
  fld "rb_node" (TPtr "struct rb_node")];
  CStruct "rb_root_cached" [
  fld "rb_root" (TName "struct rb_root");
  fld "rb_leftmost" (TPtr "struct rb_node")]].

Definition x86_timerqueue_head : decl :=
  CStruct "timerqueue_head" [
  fld "rb_root" (TName "struct rb_root_cached")].

Definition x86_posix_cputimer_base_decls : list decl := [
  CStruct "posix_cputimer_base" [
  fld "nextevt" (TName "u64");
  fld "tqhead" (TName "struct timerqueue_head")];
  CStruct "posix_cputimers" [
  fld "bases" (TArr (TName "struct posix_cputimer_base") 3);
  fld "timers_active" (TBase c_uint);
  fld "expiry_active" (TBase c_uint)];
  CStruct "posix_cputimers_work" [
  fld "work" (TName "struct callback_head");
  fld "mutex" (TName "struct mutex");
  fld "scheduled" (TBase c_uint)]].

Definition x86_callback_head : decl :=
  CStruct "callback_head" [
  fld "next" (TPtr "struct callback_head");
  fld "func" (TPtr "fn")].

Definition x86_optimistic_spin_queue_decls : list decl := [
  CStruct "optimistic_spin_queue" [
  fld "tail" (TName "atomic_t")];
  CStruct "raw_spinlock" [
  fld "raw_lock" (TName "arch_spinlock_t")];
  CStruct "list_head" [
  fld "next" (TPtr "struct list_head");
  fld "prev" (TPtr "struct list_head")]].

Definition x86_mutex : decl :=
  CStruct "mutex" [
  fld "owner" (TName "atomic_long_t");
  fld "wait_lock" (TName "raw_spinlock_t");
  fld "osq" (TName "struct optimistic_spin_queue");
  fld "wait_list" (TName "struct list_head")].

Definition x86_sysv_sem_decls : list decl := [
  CStruct "sysv_sem" [
  fld "undo_list" (TPtr "struct sem_undo_list")];
  CStruct "sysv_shm" [
  fld "shm_clist" (TName "struct list_head")]].

Definition x86_sigset_t : decl :=
  CTypedef (TAgg false [
  fld "sig" (TArr (TBase c_ulong) 1)]) "sigset_t".

Definition x86_sigpending : decl :=
  CStruct "sigpending" [
  fld "list" (TName "struct list_head");
  fld "signal" (TName "sigset_t")].

Definition x86_kuid_t : decl :=
  CTypedef (TAgg false [
  fld "val" (TName "uid_t")]) "kuid_t".

Definition x86_seccomp : decl :=
  CStruct "seccomp" [
  fld "mode" (TBase c_int);
  fld "filter_count" (TName "atomic_t");
  fld "filter" (TPtr "struct seccomp_filter")].

Definition x86_syscall_user_dispatch : decl :=
  CStruct "syscall_user_dispatch" [
  fld "selector" (TPtr "char");
  fld "offset" (TBase c_ulong);
  fld "len" (TBase c_ulong);
  fld "on_dispatch" (TName "bool")].

Definition x86_spinlock_t : decl := CTypedef (TName "struct spinlock") "spinlock_t".

Definition x86_task_io_accounting : decl :=
  CStruct "task_io_accounting" [
  fld "rchar" (TName "u64");
  fld "wchar" (TName "u64");
  fld "syscr" (TName "u64");
  fld "syscw" (TName "u64");
  fld "read_bytes" (TName "u64");
  fld "write_bytes" (TName "u64");
  fld "cancelled_write_bytes" (TName "u64")].

Definition x86_nodemask_t : decl :=
  CTypedef (TAgg false [
  fld "bits" (TArr (TBase c_ulong) 16)]) "nodemask_t".

Definition x86_seqcount_spinlock_decls : list decl := [
  CStruct "seqcount_spinlock" [
  fld "seqcount" (TName "seqcount_t")];
  CTypedef (TName "struct seqcount_spinlock") "seqcount_spinlock_t";
  CStruct "spinlock" [
  anon (TAgg true [
    fld "rlock" (TName "struct raw_spinlock")])]].

Definition x86_arch_tlbflush_unmap_batch : decl :=
  CStruct "arch_tlbflush_unmap_batch" [
  fld "cpumask" (TName "struct cpumask")].

Definition x86_page_frag : decl :=
  CStruct "page_frag" [
  fld "page" (TPtr "struct page");
  fld "offset" (TName "__u32");
  fld "size" (TName "__u32")].

Definition x86_latency_record : decl :=
  CStruct "latency_record" [
  fld "backtrace" (TArr (TBase c_ulong) 12);
  fld "count" (TBase c_uint);
  fld "time" (TBase c_ulong);
  fld "max" (TBase c_ulong)].

Definition x86_kmap_ctrl : decl := CStruct "kmap_ctrl" [].

Definition x86_timer_list : decl :=
  CStruct "timer_list" [
  fld "entry" (TName "struct hlist_node");
  fld "expires" (TBase c_ulong);
  fld "function" (TPtr "fn");
  fld "flags" (TName "u32")].

Definition x86_llist_head : decl :=
  CStruct "llist_head" [
  fld "first" (TPtr "struct llist_node")].

Definition x86_da_monitor : decl :=
  CStruct "da_monitor" [
  fld "monitoring" (TName "bool");
  fld "curr_state" (TBase c_uint)].

Definition x86_rv_task_monitor : decl :=
  CUnion "rv_task_monitor" [
  fld "da_mon" (TName "struct da_monitor")].

Definition x86_desc_struct : decl :=
  CStruct "desc_struct" [
  fld "limit0" (TName "u16");
  fld "base0" (TName "u16");
  bits "base1" c_ushort 8;
  bits "type" c_ushort 4;
  bits "s" c_ushort 1;
  bits "dpl" c_ushort 2;
  bits "p" c_ushort 1;
  bits "limit1" c_ushort 4;
  bits "avl" c_ushort 1;
  bits "l" c_ushort 1;
  bits "d" c_ushort 1;
  bits "g" c_ushort 1;
  bits "base2" c_ushort 8].

Definition x86_fregs_state_decls : list decl := [
  CStruct "fregs_state" [
  fld "cwd" (TName "u32");
  fld "swd" (TName "u32");
  fld "twd" (TName "u32");
  fld "fip" (TName "u32");
  fld "fcs" (TName "u32");
  fld "foo" (TName "u32");
  fld "fos" (TName "u32");
  fld "st_space" (TArr (TName "u32") 20);
  fld "status" (TName "u32")];
  CStruct "fxregs_state" [
  fld "cwd" (TName "u16");
  fld "swd" (TName "u16");
  fld "twd" (TName "u16");
  fld "fop" (TName "u16");
  anon (TAgg true [
    anon (TAgg false [
      fld "rip" (TName "u64");
      fld "rdp" (TName "u64")]);
    anon (TAgg false [
      fld "fip" (TName "u32");
      fld "fcs" (TName "u32");
      fld "foo" (TName "u32");
      fld "fos" (TName "u32")])]);
  fld "mxcsr" (TName "u32");
  fld "mxcsr_mask" (TName "u32");
  fld "st_space" (TArr (TName "u32") 32);
  fld "xmm_space" (TArr (TName "u32") 64);
  fld "padding" (TArr (TName "u32") 12);
  anon (TAgg true [
    fld "padding1" (TArr (TName "u32") 12);
    fld "sw_reserved" (TArr (TName "u32") 12)])]].

Definition x86_swregs_state_decls : list decl := [
  CStruct "swregs_state" [
  fld "cwd" (TName "u32");
  fld "swd" (TName "u32");
  fld "twd" (TName "u32");
  fld "fip" (TName "u32");
  fld "fcs" (TName "u32");
  fld "foo" (TName "u32");
  fld "fos" (TName "u32");
  fld "st_space" (TArr (TName "u32") 20);
  fld "ftop" (TName "u8");
  fld "changed" (TName "u8");
  fld "lookahead" (TName "u8");
  fld "no_update" (TName "u8");
  fld "rm" (TName "u8");
  fld "alimit" (TName "u8");
  fld "info" (TPtr "struct math_emu_info");
  fld "entry_eip" (TName "u32")];
  CStruct "xstate_header" [
  fld "xfeatures" (TName "u64");
  fld "xcomp_bv" (TName "u64");
  fld "reserved" (TArr (TName "u64") 6)];
  CStruct "xregs_state" [
  fld "i387" (TName "struct fxregs_state");
  fld "header" (TName "struct xstate_header");
  fld "extended_state_area" (TArr (TName "u8") 0)];
  CUnion "fpregs_state" [
  fld "fsave" (TName "struct fregs_state");
  fld "fxsave" (TName "struct fxregs_state");
  fld "soft" (TName "struct swregs_state");
  fld "xsave" (TName "struct xregs_state");
  fld "__padding" (TArr (TName "u8") 4096)]].

Definition x86_fpstate_decls : list decl := [
  CStruct "fpstate" [
  fld "size" (TBase c_uint);
  fld "user_size" (TBase c_uint);
  fld "xfeatures" (TName "u64");
  fld "user_xfeatures" (TName "u64");
  fld "xfd" (TName "u64");
  bits "is_valloc" c_uint 1;
  bits "is_guest" c_uint 1;
  bits "is_confidential" c_uint 1;
  bits "in_use" c_uint 1;
  pad c_long 64;
  pad c_long 64;
  pad c_long 64;
  fld "regs" (TName "union fpregs_state")];
  CStruct "fpu_state_perm" [
  fld "__state_perm" (TName "u64");
  fld "__state_size" (TBase c_uint);
  fld "__user_state_size" (TBase c_uint)];
  CStruct "fpu" [
  fld "last_cpu" (TBase c_uint);
  fld "avx512_timestamp" (TBase c_ulong);
  fld "fpstate" (TPtr "struct fpstate");
  fld "__task_fpstate" (TPtr "struct fpstate");
  fld "perm" (TName "struct fpu_state_perm");
  fld "guest_perm" (TName "struct fpu_state_perm");
  fld "__fpstate" (TName "struct fpstate")]].

Definition x86_task_struct_part1 : list cfield := [
  fld "thread_info" (TName "struct thread_info");
  fld "__state" (TBase c_uint);
  fld "saved_state" (TBase c_uint);
  fld "stack" (TPtr "void");
  fld "usage" (TName "refcount_t");
  fld "flags" (TBase c_uint);
  fld "ptrace" (TBase c_uint);
  fld "on_cpu" (TBase c_int);
  fld "wake_entry" (TName "struct __call_single_node");
  fld "wakee_flips" (TBase c_uint);
  fld "wakee_flip_decay_ts" (TBase c_ulong);
  fld "last_wakee" (TPtr "struct task_struct");
  fld "recent_used_cpu" (TBase c_int);
  fld "wake_cpu" (TBase c_int);
  fld "on_rq" (TBase c_int);
  fld "prio" (TBase c_int);
  fld "static_prio" (TBase c_int);
  fld "normal_prio" (TBase c_int);
  fld "rt_priority" (TBase c_uint);
  fld "se" (TName "struct sched_entity");
  fld "rt" (TName "struct sched_rt_entity");
  fld "dl" (TName "struct sched_dl_entity");
  fld "dl_server" (TPtr "struct sched_dl_entity");
  fld "scx" (TName "struct sched_ext_entity");
  fld "sched_class" (TPtr "struct sched_class");
  fld "core_node" (TName "struct rb_node");
  fld "core_cookie" (TBase c_ulong);
  fld "core_occupation" (TBase c_uint);
  fld "sched_task_group" (TPtr "struct task_group");
  fld "uclamp_req" (TArr (TName "struct uclamp_se") 2);
  fld "uclamp" (TArr (TName "struct uclamp_se") 2);
  pad c_long 64;
  pad c_long 64;
  pad c_long 64;
  pad c_long 64;
  pad c_long 64;
  pad c_long 64;
  pad c_long 64;
  fld "stats" (TName "struct sched_statistics");
  fld "preempt_notifiers" (TName "struct hlist_head");
  fld "btrace_seq" (TBase c_uint);
  fld "policy" (TBase c_uint);
  fld "max_allowed_capacity" (TBase c_ulong);
  fld "nr_cpus_allowed" (TBase c_int);
  fld "cpus_ptr" (TPtr "cpumask_t");
  fld "user_cpus_ptr" (TPtr "cpumask_t");
  fld "cpus_mask" (TName "cpumask_t");
  fld "migration_pending" (TPtr "void");
  fld "migration_disabled" (TBase c_ushort);
  fld "migration_flags" (TBase c_ushort);
  fld "rcu_read_lock_nesting" (TBase c_int);
  fld "rcu_read_unlock_special" (TName "union rcu_special");
  fld "rcu_node_entry" (TName "struct list_head");
  fld "rcu_blocked_node" (TPtr "struct rcu_node");
  fld "rcu_tasks_nvcsw" (TBase c_ulong);
  fld "rcu_tasks_holdout" (TName "u8");
  fld "rcu_tasks_idx" (TName "u8");
  fld "rcu_tasks_idle_cpu" (TBase c_int);
  fld "rcu_tasks_holdout_list" (TName "struct list_head");
  fld "rcu_tasks_exit_cpu" (TBase c_int);
  fld "rcu_tasks_exit_list" (TName "struct list_head");
  fld "trc_reader_nesting" (TBase c_int);
  fld "trc_ipi_to_cpu" (TBase c_int);
  fld "trc_reader_special" (TName "union rcu_special");
  fld "trc_holdout_list" (TName "struct list_head");
  fld "trc_blkd_node" (TName "struct list_head");
  fld "trc_blkd_cpu" (TBase c_int);
  fld "sched_info" (TName "struct sched_info");
  fld "tasks" (TName "struct list_head");
  fld "pushable_tasks" (TName "struct plist_node");
  fld "pushable_dl_tasks" (TName "struct rb_node");
  fld "mm" (TPtr "struct mm_struct");
  fld "active_mm" (TPtr "struct mm_struct");
  fld "faults_disabled_mapping" (TPtr "struct address_space");
  fld "exit_state" (TBase c_int);
  fld "exit_code" (TBase c_int);
  fld "exit_signal" (TBase c_int);
  fld "pdeath_signal" (TBase c_int);
  fld "jobctl" (TBase c_ulong);
  fld "personality" (TBase c_uint);
  bits "sched_reset_on_fork" c_uint 1;
  bits "sched_contributes_to_load" c_uint 1;
  bits "sched_migrated" c_uint 1;
  pad c_long 29;
  bits "sched_remote_wakeup" c_uint 1;
  bits "sched_rt_mutex" c_uint 1;
  bits "in_execve" c_uint 1;
  bits "in_iowait" c_uint 1;
  bits "restore_sigmask" c_uint 1;
  bits "in_user_fault" c_uint 1;
  bits "in_lru_fault" c_uint 1;
  bits "no_cgroup_migration" c_uint 1;
  bits "frozen" c_uint 1;
  bits "use_memdelay" c_uint 1;
  bits "in_memstall" c_uint 1;
  bits "in_page_owner" c_uint 1;
  bits "in_eventfd" c_uint 1;
  bits "pasid_activated" c_uint 1;
  bits "reported_split_lock" c_uint 1;
  bits "in_thrashing" c_uint 1;
  fld "atomic_flags" (TBase c_ulong);
  fld "restart_block" (TName "struct restart_block");
  fld "pid" (TName "pid_t");
  fld "tgid" (TName "pid_t");
  fld "stack_canary" (TBase c_ulong);
  fld "real_parent" (TPtr "struct task_struct");
  fld "parent" (TPtr "struct task_struct");
  fld "children" (TName "struct list_head");
  fld "sibling" (TName "struct list_head");
  fld "group_leader" (TPtr "struct task_struct");
  fld "ptraced" (TName "struct list_head");
  fld "ptrace_entry" (TName "struct list_head");
  fld "thread_pid" (TPtr "struct pid");
  fld "pid_links" (TArr (TName "struct hlist_node") 4);
  fld "thread_node" (TName "struct list_head");
  fld "vfork_done" (TPtr "struct completion");
  fld "set_child_tid" (TPtr "int");
  fld "clear_child_tid" (TPtr "int");
  fld "worker_private" (TPtr "void");
  fld "utime" (TName "u64");
  fld "stime" (TName "u64");
  fld "gtime" (TName "u64");
  fld "prev_cputime" (TName "struct prev_cputime");
  fld "vtime" (TName "struct vtime");
  fld "tick_dep_mask" (TName "atomic_t");
  fld "nvcsw" (TBase c_ulong);
  fld "nivcsw" (TBase c_ulong);
  fld "start_time" (TName "u64");
  fld "start_boottime" (TName "u64");
  fld "min_flt" (TBase c_ulong);
  fld "maj_flt" (TBase c_ulong);
  fld "posix_cputimers" (TName "struct posix_cputimers");
  fld "posix_cputimers_work" (TName "struct posix_cputimers_work");
  fld "ptracer_cred" (TPtr "struct cred");
  fld "real_cred" (TPtr "struct cred");
  fld "cred" (TPtr "struct cred");
  fld "cached_requested_key" (TPtr "struct key");
  fld "comm" (TArr (TBase c_char) 16);
  fld "nameidata" (TPtr "struct nameidata");
  fld "sysvsem" (TName "struct sysv_sem");
  fld "sysvshm" (TName "struct sysv_shm")].

Definition x86_task_struct_part2 : list cfield := [
  fld "fs" (TPtr "struct fs_struct");
  fld "files" (TPtr "struct files_struct");
  fld "io_uring" (TPtr "struct io_uring_task");
  fld "nsproxy" (TPtr "struct nsproxy");
  fld "signal" (TPtr "struct signal_struct");
  fld "sighand" (TPtr "struct sighand_struct");
  fld "blocked" (TName "sigset_t");
  fld "real_blocked" (TName "sigset_t");
  fld "saved_sigmask" (TName "sigset_t");
  fld "pending" (TName "struct sigpending");
  fld "sas_ss_sp" (TBase c_ulong);
  fld "sas_ss_size" (TName "size_t");
  fld "sas_ss_flags" (TBase c_uint);
  fld "task_works" (TPtr "struct callback_head");
  fld "audit_context" (TPtr "struct audit_context");
  fld "loginuid" (TName "kuid_t");
  fld "sessionid" (TBase c_uint);
  fld "seccomp" (TName "struct seccomp");
  fld "syscall_dispatch" (TName "struct syscall_user_dispatch");
  fld "parent_exec_id" (TName "u64");
  fld "self_exec_id" (TName "u64");
  fld "alloc_lock" (TName "spinlock_t");
  fld "pi_lock" (TName "raw_spinlock_t");
  fld "wake_q" (TName "struct wake_q_node");
  fld "pi_waiters" (TName "struct rb_root_cached");
  fld "pi_top_task" (TPtr "struct task_struct");
  fld "pi_blocked_on" (TPtr "struct rt_mutex_waiter");
  fld "in_ubsan" (TBase c_uint);
  fld "journal_info" (TPtr "void");
  fld "bio_list" (TPtr "struct bio_list");
  fld "plug" (TPtr "struct blk_plug");
  fld "reclaim_state" (TPtr "struct reclaim_state");
  fld "io_context" (TPtr "struct io_context");
  fld "capture_control" (TPtr "struct capture_control");
  fld "ptrace_message" (TBase c_ulong);
  fld "last_siginfo" (TPtr "kernel_siginfo_t");
  fld "ioac" (TName "struct task_io_accounting");
  fld "psi_flags" (TBase c_uint);
  fld "acct_rss_mem1" (TName "u64");
  fld "acct_vm_mem1" (TName "u64");
  fld "acct_timexpd" (TName "u64");
  fld "mems_allowed" (TName "nodemask_t");
  fld "mems_allowed_seq" (TName "seqcount_spinlock_t");
  fld "cpuset_mem_spread_rotor" (TBase c_int);
  fld "cgroups" (TPtr "struct css_set");
  fld "cg_list" (TName "struct list_head");
  fld "closid" (TName "u32");
  fld "rmid" (TName "u32");
  fld "robust_list" (TPtr "struct robust_list_head");
  fld "compat_robust_list" (TPtr "struct compat_robust_list_head");
  fld "pi_state_list" (TName "struct list_head");
  fld "pi_state_cache" (TPtr "struct futex_pi_state");
  fld "futex_exit_mutex" (TName "struct mutex");
  fld "futex_state" (TBase c_uint);
  fld "perf_recursion" (TArr (TName "u8") 4);
  fld "perf_event_ctxp" (TPtr "struct perf_event_context");
  fld "perf_event_mutex" (TName "struct mutex");
  fld "perf_event_list" (TName "struct list_head");
  fld "mempolicy" (TPtr "struct mempolicy");
  fld "il_prev" (TBase c_short);
  fld "il_weight" (TName "u8");
  fld "pref_node_fork" (TBase c_short);
  fld "numa_scan_seq" (TBase c_int);
  fld "numa_scan_period" (TBase c_uint);
  fld "numa_scan_period_max" (TBase c_uint);
  fld "numa_preferred_nid" (TBase c_int);
  fld "numa_migrate_retry" (TBase c_ulong);
  fld "node_stamp" (TName "u64");
  fld "last_task_numa_placement" (TName "u64");
  fld "last_sum_exec_runtime" (TName "u64");
  fld "numa_work" (TName "struct callback_head");
  fld "numa_group" (TPtr "struct numa_group");
  fld "numa_faults" (TPtr "long unsigned int");
  fld "total_numa_faults" (TBase c_ulong);
  fld "numa_faults_locality" (TArr (TBase c_ulong) 3);
  fld "numa_pages_migrated" (TBase c_ulong);
  fld "rseq" (TPtr "struct rseq");
  fld "rseq_len" (TName "u32");
  fld "rseq_sig" (TName "u32");
  fld "rseq_event_mask" (TBase c_ulong);
  fld "mm_cid" (TBase c_int);
  fld "last_mm_cid" (TBase c_int);
  fld "migrate_from_cpu" (TBase c_int);
  fld "mm_cid_active" (TBase c_int);
  fld "cid_work" (TName "struct callback_head");
  fld "tlb_ubc" (TName "struct tlbflush_unmap_batch");
  fld "splice_pipe" (TPtr "struct pipe_inode_info");
  fld "task_frag" (TName "struct page_frag");
  fld "delays" (TPtr "struct task_delay_info");
  fld "nr_dirtied" (TBase c_int);
  fld "nr_dirtied_pause" (TBase c_int);
  fld "dirty_paused_when" (TBase c_ulong);
  fld "latency_record_count" (TBase c_int);
  fld "latency_record" (TArr (TName "struct latency_record") 32);
  fld "timer_slack_ns" (TName "u64");
  fld "default_timer_slack_ns" (TName "u64");
  fld "kunit_test" (TPtr "struct kunit");
  fld "curr_ret_stack" (TBase c_int);
  fld "curr_ret_depth" (TBase c_int);
  fld "ret_stack" (TPtr "long unsigned int");
  fld "ftrace_timestamp" (TBase c_ullong);
  fld "trace_overrun" (TName "atomic_t");
  fld "tracing_graph_pause" (TName "atomic_t");
  fld "trace_recursion" (TBase c_ulong);
  fld "memcg_in_oom" (TPtr "struct mem_cgroup");
  fld "memcg_nr_pages_over_high" (TBase c_uint);
  fld "active_memcg" (TPtr "struct mem_cgroup");
  fld "objcg" (TPtr "struct obj_cgroup");
  fld "throttle_disk" (TPtr "struct gendisk");
  fld "utask" (TPtr "struct uprobe_task");
  fld "sequential_io" (TBase c_uint);
  fld "sequential_io_avg" (TBase c_uint);
  fld "kmap_ctrl" (TName "struct kmap_ctrl");
  fld "rcu" (TName "struct callback_head");
  fld "rcu_users" (TName "refcount_t");
  fld "pagefault_disabled" (TBase c_int);
  fld "oom_reaper_list" (TPtr "struct task_struct");
  fld "oom_reaper_timer" (TName "struct timer_list");
  fld "stack_vm_area" (TPtr "struct vm_struct");
  fld "stack_refcount" (TName "refcount_t");
  fld "patch_state" (TBase c_int);
  fld "security" (TPtr "void");
  fld "bpf_storage" (TPtr "struct bpf_local_storage");
  fld "bpf_ctx" (TPtr "struct bpf_run_ctx");
  fld "bpf_net_context" (TPtr "struct bpf_net_context");
  fld "mce_vaddr" (TPtr "void");
  fld "mce_kflags" (TName "__u64");
  fld "mce_addr" (TName "u64");
  bits "mce_ripv" c_ullong 1;
  bits "mce_whole_page" c_ullong 1;
  bits "__mce_reserved" c_ullong 62;
  fld "mce_kill_me" (TName "struct callback_head");
  fld "mce_count" (TBase c_int);
  fld "kretprobe_instances" (TName "struct llist_head");
  fld "rethooks" (TName "struct llist_head");
  fld "l1d_flush_kill" (TName "struct callback_head");
  fld "rv" (TArr (TName "union rv_task_monitor") 1);
  pad c_long 64;
  pad c_long 64;
  fld "thread" (TName "struct thread_struct")].

Definition x86_task_struct : decl :=
  CStruct "task_struct" (x86_task_struct_part1 ++ x86_task_struct_part2).

Definition x86_css_set : decl :=
  CStruct "css_set" [
  fld "subsys" (TArr (TPtr "struct cgroup_subsys_state") 14);
  fld "refcount" (TName "refcount_t");
  fld "dom_cset" (TPtr "struct css_set");
  fld "dfl_cgrp" (TPtr "struct cgroup");
  fld "nr_tasks" (TBase c_int);
  fld "tasks" (TName "struct list_head");
  fld "mg_tasks" (TName "struct list_head");
  fld "dying_tasks" (TName "struct list_head");
  fld "task_iters" (TName "struct list_head");
  fld "e_cset_node" (TArr (TName "struct list_head") 14);
  fld "threaded_csets" (TName "struct list_head");
  fld "threaded_csets_node" (TName "struct list_head");
  fld "hlist" (TName "struct hlist_node");
  fld "cgrp_links" (TName "struct list_head");
  fld "mg_src_preload_node" (TName "struct list_head");
  fld "mg_dst_preload_node" (TName "struct list_head");
  fld "mg_node" (TName "struct list_head");
  fld "mg_src_cgrp" (TPtr "struct cgroup");
  fld "mg_dst_cgrp" (TPtr "struct cgroup");
  fld "mg_dst_cset" (TPtr "struct css_set");
  fld "dead" (TName "bool");
  fld "callback_head" (TName "struct callback_head")].

Definition x86_percpu_ref : decl :=
  CStruct "percpu_ref" [
  fld "percpu_count_ptr" (TBase c_ulong);
  fld "data" (TPtr "struct percpu_ref_data")].

Definition x86_work_func_t_decls : list decl := [
  CTypedef (TPtr "fn") "work_func_t";
  CStruct "work_struct" [
  fld "data" (TName "atomic_long_t");
  fld "entry" (TName "struct list_head");
  fld "func" (TName "work_func_t")]].

Definition x86_rcu_work : decl :=
  CStruct "rcu_work" [
  fld "work" (TName "struct work_struct");
  fld "rcu" (TName "struct callback_head");
  fld "wq" (TPtr "struct workqueue_struct")].

Definition x86_cgroup_subsys_state : decl :=
  CStruct "cgroup_subsys_state" [
  fld "cgroup" (TPtr "struct cgroup");
  fld "ss" (TPtr "struct cgroup_subsys");
  fld "refcnt" (TName "struct percpu_ref");
  fld "sibling" (TName "struct list_head");
  fld "children" (TName "struct list_head");
  fld "rstat_css_node" (TName "struct list_head");
  fld "id" (TBase c_int);
  fld "flags" (TBase c_uint);
  fld "serial_nr" (TName "u64");
  fld "online_cnt" (TName "atomic_t");
  fld "destroy_work" (TName "struct work_struct");
  fld "destroy_rwork" (TName "struct rcu_work");
  fld "parent" (TPtr "struct cgroup_subsys_state");
  fld "nr_descendants" (TBase c_int)].

Definition x86_cgroup_file_decls : list decl := [
  CStruct "cgroup_file" [
  fld "kn" (TPtr "struct kernfs_node");
  fld "notified_at" (TBase c_ulong);
  fld "notify_timer" (TName "struct timer_list")];
  CStruct "task_cputime" [
  fld "stime" (TName "u64");
  fld "utime" (TName "u64");
  fld "sum_exec_runtime" (TBase c_ullong)];
  CStruct "cgroup_base_stat" [
  fld "cputime" (TName "struct task_cputime");
  fld "forceidle_sum" (TName "u64")];
  CStruct "prev_cputime" [
  fld "utime" (TName "u64");
  fld "stime" (TName "u64");
  fld "lock" (TName "raw_spinlock_t")];
  CStruct "cgroup_bpf" [
  fld "effective" (TArr (TPtr "struct bpf_prog_array") 38);
  fld "progs" (TArr (TName "struct hlist_head") 38);
  fld "flags" (TArr (TName "u8") 38);
  fld "storages" (TName "struct list_head");
  fld "inactive" (TPtr "struct bpf_prog_array");
  fld "refcnt" (TName "struct percpu_ref");
  fld "release_work" (TName "struct work_struct")];
  CStruct "cgroup_freezer_state" [
  fld "freeze" (TName "bool");
  fld "e_freeze" (TBase c_int);
  fld "nr_frozen_descendants" (TBase c_int);
  fld "nr_frozen_tasks" (TBase c_int)]].

Definition x86_cacheline_padding : decl :=
  CStruct "cacheline_padding" [
  fld "x" (TArr (TBase c_char) 0)].

Definition x86_wait_queue_head_decls : list decl := [
  CStruct "wait_queue_head" [
  fld "lock" (TName "spinlock_t");
  fld "head" (TName "struct list_head")];
  CTypedef (TName "struct wait_queue_head") "wait_queue_head_t"].

Definition x86_cgroup : decl :=
  CStruct "cgroup" [
  fld "self" (TName "struct cgroup_subsys_state");
  fld "flags" (TBase c_ulong);
  fld "level" (TBase c_int);
  fld "max_depth" (TBase c_int);
  fld "nr_descendants" (TBase c_int);
  fld "nr_dying_descendants" (TBase c_int);
  fld "max_descendants" (TBase c_int);
  fld "nr_populated_csets" (TBase c_int);
  fld "nr_populated_domain_children" (TBase c_int);
  fld "nr_populated_threaded_children" (TBase c_int);
  fld "nr_threaded_children" (TBase c_int);
  fld "kn" (TPtr "struct kernfs_node");
  fld "procs_file" (TName "struct cgroup_file");
  fld "events_file" (TName "struct cgroup_file");
  fld "psi_files" (TArr (TName "struct cgroup_file") 4);
  fld "subtree_control" (TName "u16");
  fld "subtree_ss_mask" (TName "u16");
  fld "old_subtree_control" (TName "u16");
  fld "old_subtree_ss_mask" (TName "u16");
  fld "subsys" (TArr (TPtr "struct cgroup_subsys_state") 14);
  fld "nr_dying_subsys" (TArr (TBase c_int) 14);
  fld "root" (TPtr "struct cgroup_root");
  fld "cset_links" (TName "struct list_head");
  fld "e_csets" (TArr (TName "struct list_head") 14);
  fld "dom_cgrp" (TPtr "struct cgroup");
  fld "old_dom_cgrp" (TPtr "struct cgroup");
  fld "rstat_cpu" (TPtr "struct cgroup_rstat_cpu");
  fld "rstat_css_list" (TName "struct list_head");
  pad c_long 64;
  pad c_long 64;
  pad c_long 64;
  fld "_pad_" (TName "struct cacheline_padding");
  fld "rstat_flush_next" (TPtr "struct cgroup");
  fld "last_bstat" (TName "struct cgroup_base_stat");
  fld "bstat" (TName "struct cgroup_base_stat");
  fld "prev_cputime" (TName "struct prev_cputime");
  fld "pidlists" (TName "struct list_head");
  fld "pidlist_mutex" (TName "struct mutex");
  fld "offline_waitq" (TName "wait_queue_head_t");
  fld "release_agent_work" (TName "struct work_struct");
  fld "psi" (TPtr "struct psi_group");
  fld "bpf" (TName "struct cgroup_bpf");
  fld "freezer" (TName "struct cgroup_freezer_state");
  fld "bpf_cgrp_storage" (TPtr "struct bpf_local_storage");
  fld "ancestors" (TArr (TPtr "struct cgroup") 0);
  pad c_long 64].

Definition x86_kernfs_elem_attr_decls : list decl := [
  CStruct "kernfs_elem_attr" [
  fld "ops" (TPtr "struct kernfs_ops");
  fld "open" (TPtr "struct kernfs_open_node");
  fld "size" (TName "loff_t");
  fld "notify_next" (TPtr "struct kernfs_node")];
  CStruct "kernfs_elem_dir" [
  fld "subdirs" (TBase c_ulong);
  fld "children" (TName "struct rb_root");
  fld "root" (TPtr "struct kernfs_root");
  fld "rev" (TBase c_ulong)];
  CStruct "kernfs_elem_symlink" [
  fld "target_kn" (TPtr "struct kernfs_node")]].

Definition x86_kernfs_node : decl :=
  CStruct "kernfs_node" [
  fld "count" (TName "atomic_t");
  fld "active" (TName "atomic_t");
  fld "parent" (TPtr "struct kernfs_node");
  fld "name" (TPtr "char");
  fld "rb" (TName "struct rb_node");
  fld "ns" (TPtr "void");
  fld "hash" (TBase c_uint);
  fld "flags" (TBase c_ushort);
  fld "mode" (TName "umode_t");
  anon (TAgg true [
    fld "dir" (TName "struct kernfs_elem_dir");
    fld "symlink" (TName "struct kernfs_elem_symlink");
    fld "attr" (TName "struct kernfs_elem_attr")]);
  fld "id" (TName "u64");
  fld "priv" (TPtr "void");
  fld "iattr" (TPtr "struct kernfs_iattrs");
  fld "rcu" (TName "struct callback_head")].

Definition x86_nsproxy : decl :=
  CStruct "nsproxy" [
  fld "count" (TName "refcount_t");
  fld "uts_ns" (TPtr "struct uts_namespace");
  fld "ipc_ns" (TPtr "struct ipc_namespace");
  fld "mnt_ns" (TPtr "struct mnt_namespace");
  fld "pid_ns_for_children" (TPtr "struct pid_namespace");
  fld "net_ns" (TPtr "struct net");
  fld "time_ns" (TPtr "struct time_namespace");
  fld "time_ns_for_children" (TPtr "struct time_namespace");
  fld "cgroup_ns" (TPtr "struct cgroup_namespace")].

Definition x86_ns_common : decl :=
  CStruct "ns_common" [
  fld "stashed" (TPtr "struct dentry");
  fld "ops" (TPtr "struct proc_ns_operations");
  fld "inum" (TBase c_uint);
  fld "count" (TName "refcount_t")].

Definition x86_mnt_namespace : decl :=
  CStruct "mnt_namespace" [
  fld "ns" (TName "struct ns_common");
  fld "root" (TPtr "struct mount");
  fld "mounts" (TName "struct rb_root");
  fld "user_ns" (TPtr "struct user_namespace");
  fld "ucounts" (TPtr "struct ucounts");
  fld "seq" (TName "u64");
  fld "poll" (TName "wait_queue_head_t");
  fld "event" (TName "u64");
  fld "nr_mounts" (TBase c_uint);
  fld "pending_mounts" (TBase c_uint);
  fld "mnt_ns_tree_node" (TName "struct rb_node");
  fld "passive" (TName "refcount_t")].

Definition x86_path : decl :=
  CStruct "path" [
  fld "mnt" (TPtr "struct vfsmount");
  fld "dentry" (TPtr "struct dentry")].

Definition x86_file_ra_state : decl :=
  CStruct "file_ra_state" [
  fld "start" (TBase c_ulong);
  fld "size" (TBase c_uint);
  fld "async_size" (TBase c_uint);
  fld "ra_pages" (TBase c_uint);
  fld "mmap_miss" (TBase c_uint);
  fld "prev_pos" (TName "loff_t")].

Definition x86_freeptr_t : decl :=
  CTypedef (TAgg false [
  fld "v" (TBase c_ulong)]) "freeptr_t".

Definition x86_file : decl :=
  CStruct "file" [
  fld "f_count" (TName "atomic_long_t");
  fld "f_lock" (TName "spinlock_t");
  fld "f_mode" (TName "fmode_t");
  fld "f_op" (TPtr "struct file_operations");
  fld "f_mapping" (TPtr "struct address_space");
  fld "private_data" (TPtr "void");
  fld "f_inode" (TPtr "struct inode");
  fld "f_flags" (TBase c_uint);
  fld "f_iocb_flags" (TBase c_uint);
  fld "f_cred" (TPtr "struct cred");
  fld "f_path" (TName "struct path");
  anon (TAgg true [
    fld "f_pos_lock" (TName "struct mutex");
    fld "f_pipe" (TName "u64")]);
  fld "f_pos" (TName "loff_t");
  fld "f_security" (TPtr "void");
  fld "f_owner" (TPtr "struct fown_struct");
  fld "f_wb_err" (TName "errseq_t");
  fld "f_sb_err" (TName "errseq_t");
  fld "f_ep" (TPtr "struct hlist_head");
  anon (TAgg true [
    fld "f_task_work" (TName "struct callback_head");
    fld "f_llist" (TName "struct llist_node");
    fld "f_ra" (TName "struct file_ra_state");
    fld "f_freeptr" (TName "freeptr_t")])].

Definition x86_hlist_bl_node_decls : list decl := [
  CStruct "hlist_bl_node" [
  fld "next" (TPtr "struct hlist_bl_node");
  fld "pprev" (TPtr "struct hlist_bl_node *")];
  CStruct "lockref" [
  anon (TAgg true [
    fld "lock_count" (TName "__u64");
    anon (TAgg false [
      fld "lock" (TName "spinlock_t");
      fld "count" (TBase c_int)])])]].

Definition x86_qstr : decl :=
  CStruct "qstr" [
  anon (TAgg true [
    anon (TAgg false [
      fld "hash" (TName "u32");
      fld "len" (TName "u32")]);
    fld "hash_len" (TName "u64")]);
  fld "name" (TPtr "unsigned char")].

Definition x86_dentry : decl :=
  CStruct "dentry" [
  fld "d_flags" (TBase c_uint);
  fld "d_seq" (TName "seqcount_spinlock_t");
  fld "d_hash" (TName "struct hlist_bl_node");
  fld "d_parent" (TPtr "struct dentry");
  fld "d_name" (TName "struct qstr");
  fld "d_inode" (TPtr "struct inode");
  fld "d_iname" (TArr (TBase c_uchar) 40);
  fld "d_op" (TPtr "struct dentry_operations");
  fld "d_sb" (TPtr "struct super_block");
  fld "d_time" (TBase c_ulong);
  fld "d_fsdata" (TPtr "void");
  fld "d_lockref" (TName "struct lockref");
  anon (TAgg true [
    fld "d_lru" (TName "struct list_head");
    fld "d_wait" (TPtr "wait_queue_head_t")]);
  fld "d_sib" (TName "struct hlist_node");
  fld "d_children" (TName "struct hlist_head");
  fld "d_u" (TAgg true [
    fld "d_alias" (TName "struct hlist_node");
    fld "d_in_lookup_hash" (TName "struct hlist_bl_node");
    fld "d_rcu" (TName "struct callback_head")])].

Definition x86_vfsmount : decl :=
  CStruct "vfsmount" [
  fld "mnt_root" (TPtr "struct dentry");
  fld "mnt_sb" (TPtr "struct super_block");
  fld "mnt_flags" (TBase c_int);
  fld "mnt_idmap" (TPtr "struct mnt_idmap")].

Definition x86_mount : decl :=
  CStruct "mount" [
  fld "mnt_hash" (TName "struct hlist_node");
  fld "mnt_parent" (TPtr "struct mount");
  fld "mnt_mountpoint" (TPtr "struct dentry");
  fld "mnt" (TName "struct vfsmount");
  anon (TAgg true [
    fld "mnt_rcu" (TName "struct callback_head");
    fld "mnt_llist" (TName "struct llist_node")]);
  fld "mnt_pcp" (TPtr "struct mnt_pcp");
  fld "mnt_mounts" (TName "struct list_head");
  fld "mnt_child" (TName "struct list_head");
  fld "mnt_instance" (TName "struct list_head");
  fld "mnt_devname" (TPtr "char");
  anon (TAgg true [
    fld "mnt_node" (TName "struct rb_node");
    fld "mnt_list" (TName "struct list_head")]);
  fld "mnt_expire" (TName "struct list_head");
  fld "mnt_share" (TName "struct list_head");
  fld "mnt_slave_list" (TName "struct list_head");
  fld "mnt_slave" (TName "struct list_head");
  fld "mnt_master" (TPtr "struct mount");
  fld "mnt_ns" (TPtr "struct mnt_namespace");
  fld "mnt_mp" (TPtr "struct mountpoint");
  anon (TAgg true [
    fld "mnt_mp_list" (TName "struct hlist_node");
    fld "mnt_umount" (TName "struct hlist_node")]);
  fld "mnt_umounting" (TName "struct list_head");
  fld "mnt_fsnotify_marks" (TPtr "struct fsnotify_mark_connector");
  fld "mnt_fsnotify_mask" (TName "__u32");
  fld "mnt_id" (TBase c_int);
  fld "mnt_id_unique" (TName "u64");
  fld "mnt_group_id" (TBase c_int);
  fld "mnt_expiry_mark" (TBase c_int);
  fld "mnt_pins" (TName "struct hlist_head");
  fld "mnt_stuck_children" (TName "struct hlist_head")].

Definition x86_fs_struct : decl :=
  CStruct "fs_struct" [
  fld "users" (TBase c_int);
  fld "lock" (TName "spinlock_t");
  fld "seq" (TName "seqcount_spinlock_t");
  fld "umask" (TBase c_int);
  fld "in_exec" (TBase c_int);
  fld "root" (TName "struct path");
  fld "pwd" (TName "struct path")].

Definition x86_rlimit_decls : list decl := [
  CStruct "rlimit" [
  fld "rlim_cur" (TName "__kernel_ulong_t");
  fld "rlim_max" (TName "__kernel_ulong_t")];
  CStruct "linux_binprm" [
  fld "vma" (TPtr "struct vm_area_struct");
  fld "vma_pages" (TBase c_ulong);
  fld "argmin" (TBase c_ulong);
  fld "mm" (TPtr "struct mm_struct");
  fld "p" (TBase c_ulong);
  bits "have_execfd" c_uint 1;
  bits "execfd_creds" c_uint 1;
  bits "secureexec" c_uint 1;
  bits "point_of_no_return" c_uint 1;
  fld "executable" (TPtr "struct file");
  fld "interpreter" (TPtr "struct file");
  fld "file" (TPtr "struct file");
  fld "cred" (TPtr "struct cred");
  fld "unsafe" (TBase c_int);
  fld "per_clear" (TBase c_uint);
  fld "argc" (TBase c_int);
  fld "envc" (TBase c_int);
  fld "filename" (TPtr "char");
  fld "interp" (TPtr "char");
  fld "fdpath" (TPtr "char");
  fld "interp_flags" (TBase c_uint);
  fld "execfd" (TBase c_int);
  fld "loader" (TBase c_ulong);
  fld "exec" (TBase c_ulong);
  fld "rlim_stack" (TName "struct rlimit");
  fld "buf" (TArr (TBase c_char) 256)]].

Definition x86_bpf_func_id_part1 : list (string * Z) := [
  ("BPF_FUNC_unspec", 0);
  ("BPF_FUNC_map_lookup_elem", 1);
  ("BPF_FUNC_map_update_elem", 2);
  ("BPF_FUNC_map_delete_elem", 3);
  ("BPF_FUNC_probe_read", 4);
  ("BPF_FUNC_ktime_get_ns", 5);
  ("BPF_FUNC_trace_printk", 6);
  ("BPF_FUNC_get_prandom_u32", 7);
  ("BPF_FUNC_get_smp_processor_id", 8);
  ("BPF_FUNC_skb_store_bytes", 9);
  ("BPF_FUNC_l3_csum_replace", 10);
  ("BPF_FUNC_l4_csum_replace", 11);
  ("BPF_FUNC_tail_call", 12);
  ("BPF_FUNC_clone_redirect", 13);
  ("BPF_FUNC_get_current_pid_tgid", 14);
  ("BPF_FUNC_get_current_uid_gid", 15);
  ("BPF_FUNC_get_current_comm", 16);
  ("BPF_FUNC_get_cgroup_classid", 17);
  ("BPF_FUNC_skb_vlan_push", 18);
  ("BPF_FUNC_skb_vlan_pop", 19);
  ("BPF_FUNC_skb_get_tunnel_key", 20);
  ("BPF_FUNC_skb_set_tunnel_key", 21);
  ("BPF_FUNC_perf_event_read", 22);
  ("BPF_FUNC_redirect", 23);
  ("BPF_FUNC_get_route_realm", 24);
  ("BPF_FUNC_perf_event_output", 25);
  ("BPF_FUNC_skb_load_bytes", 26);
  ("BPF_FUNC_get_stackid", 27);
  ("BPF_FUNC_csum_diff", 28);
  ("BPF_FUNC_skb_get_tunnel_opt", 29);
  ("BPF_FUNC_skb_set_tunnel_opt", 30);
  ("BPF_FUNC_skb_change_proto", 31);
  ("BPF_FUNC_skb_change_type", 32);
  ("BPF_FUNC_skb_under_cgroup", 33);
  ("BPF_FUNC_get_hash_recalc", 34);
  ("BPF_FUNC_get_current_task", 35);
  ("BPF_FUNC_probe_write_user", 36);
  ("BPF_FUNC_current_task_under_cgroup", 37);
  ("BPF_FUNC_skb_change_tail", 38);
  ("BPF_FUNC_skb_pull_data", 39);
  ("BPF_FUNC_csum_update", 40);
  ("BPF_FUNC_set_hash_invalid", 41);
  ("BPF_FUNC_get_numa_node_id", 42);
  ("BPF_FUNC_skb_change_head", 43);
  ("BPF_FUNC_xdp_adjust_head", 44);
  ("BPF_FUNC_probe_read_str", 45);
  ("BPF_FUNC_get_socket_cookie", 46);
  ("BPF_FUNC_get_socket_uid", 47);
  ("BPF_FUNC_set_hash", 48);
  ("BPF_FUNC_setsockopt", 49);
  ("BPF_FUNC_skb_adjust_room", 50);
  ("BPF_FUNC_redirect_map", 51);
  ("BPF_FUNC_sk_redirect_map", 52);
  ("BPF_FUNC_sock_map_update", 53);
  ("BPF_FUNC_xdp_adjust_meta", 54);
  ("BPF_FUNC_perf_event_read_value", 55);
  ("BPF_FUNC_perf_prog_read_value", 56);
  ("BPF_FUNC_getsockopt", 57);
  ("BPF_FUNC_override_return", 58);
  ("BPF_FUNC_sock_ops_cb_flags_set", 59);
  ("BPF_FUNC_msg_redirect_map", 60);
  ("BPF_FUNC_msg_apply_bytes", 61);
  ("BPF_FUNC_msg_cork_bytes", 62);
  ("BPF_FUNC_msg_pull_data", 63);
  ("BPF_FUNC_bind", 64);
  ("BPF_FUNC_xdp_adjust_tail", 65);
  ("BPF_FUNC_skb_get_xfrm_state", 66);
  ("BPF_FUNC_get_stack", 67);
  ("BPF_FUNC_skb_load_bytes_relative", 68);
  ("BPF_FUNC_fib_lookup", 69);
  ("BPF_FUNC_sock_hash_update", 70);
  ("BPF_FUNC_msg_redirect_hash", 71);
  ("BPF_FUNC_sk_redirect_hash", 72);
  ("BPF_FUNC_lwt_push_encap", 73);
  ("BPF_FUNC_lwt_seg6_store_bytes", 74);
  ("BPF_FUNC_lwt_seg6_adjust_srh", 75);
  ("BPF_FUNC_lwt_seg6_action", 76);
  ("BPF_FUNC_rc_repeat", 77);
  ("BPF_FUNC_rc_keydown", 78);
  ("BPF_FUNC_skb_cgroup_id", 79);
  ("BPF_FUNC_get_current_cgroup_id", 80);
  ("BPF_FUNC_get_local_storage", 81);
  ("BPF_FUNC_sk_select_reuseport", 82);
  ("BPF_FUNC_skb_ancestor_cgroup_id", 83);
  ("BPF_FUNC_sk_lookup_tcp", 84);
  ("BPF_FUNC_sk_lookup_udp", 85);
  ("BPF_FUNC_sk_release", 86);
  ("BPF_FUNC_map_push_elem", 87);
  ("BPF_FUNC_map_pop_elem", 88);
  ("BPF_FUNC_map_peek_elem", 89);
  ("BPF_FUNC_msg_push_data", 90);
  ("BPF_FUNC_msg_pop_data", 91);
  ("BPF_FUNC_rc_pointer_rel", 92);
  ("BPF_FUNC_spin_lock", 93);
  ("BPF_FUNC_spin_unlock", 94);
  ("BPF_FUNC_sk_fullsock", 95);
  ("BPF_FUNC_tcp_sock", 96);
  ("BPF_FUNC_skb_ecn_set_ce", 97);
  ("BPF_FUNC_get_listener_sock", 98);
  ("BPF_FUNC_skc_lookup_tcp", 99);
  ("BPF_FUNC_tcp_check_syncookie", 100);
  ("BPF_FUNC_sysctl_get_name", 101);
  ("BPF_FUNC_sysctl_get_current_value", 102);
  ("BPF_FUNC_sysctl_get_new_value", 103);
  ("BPF_FUNC_sysctl_set_new_value", 104);
  ("BPF_FUNC_strtol", 105);
  ("BPF_FUNC_strtoul", 106)].

Definition x86_bpf_func_id_part2 : list (string * Z) := [
  ("BPF_FUNC_sk_storage_get", 107);
  ("BPF_FUNC_sk_storage_delete", 108);
  ("BPF_FUNC_send_signal", 109);
  ("BPF_FUNC_tcp_gen_syncookie", 110);
  ("BPF_FUNC_skb_output", 111);
  ("BPF_FUNC_probe_read_user", 112);
  ("BPF_FUNC_probe_read_kernel", 113);
  ("BPF_FUNC_probe_read_user_str", 114);
  ("BPF_FUNC_probe_read_kernel_str", 115);
  ("BPF_FUNC_tcp_send_ack", 116);
  ("BPF_FUNC_send_signal_thread", 117);
  ("BPF_FUNC_jiffies64", 118);
  ("BPF_FUNC_read_branch_records", 119);
  ("BPF_FUNC_get_ns_current_pid_tgid", 120);
  ("BPF_FUNC_xdp_output", 121);
  ("BPF_FUNC_get_netns_cookie", 122);
  ("BPF_FUNC_get_current_ancestor_cgroup_id", 123);
  ("BPF_FUNC_sk_assign", 124);
  ("BPF_FUNC_ktime_get_boot_ns", 125);
  ("BPF_FUNC_seq_printf", 126);
  ("BPF_FUNC_seq_write", 127);
  ("BPF_FUNC_sk_cgroup_id", 128);
  ("BPF_FUNC_sk_ancestor_cgroup_id", 129);
  ("BPF_FUNC_ringbuf_output", 130);
  ("BPF_FUNC_ringbuf_reserve", 131);
  ("BPF_FUNC_ringbuf_submit", 132);
  ("BPF_FUNC_ringbuf_discard", 133);
  ("BPF_FUNC_ringbuf_query", 134);
  ("BPF_FUNC_csum_level", 135);
  ("BPF_FUNC_skc_to_tcp6_sock", 136);
  ("BPF_FUNC_skc_to_tcp_sock", 137);
  ("BPF_FUNC_skc_to_tcp_timewait_sock", 138);
  ("BPF_FUNC_skc_to_tcp_request_sock", 139);
  ("BPF_FUNC_skc_to_udp6_sock", 140);
  ("BPF_FUNC_get_task_stack", 141);
  ("BPF_FUNC_load_hdr_opt", 142);
  ("BPF_FUNC_store_hdr_opt", 143);
  ("BPF_FUNC_reserve_hdr_opt", 144);
  ("BPF_FUNC_inode_storage_get", 145);
  ("BPF_FUNC_inode_storage_delete", 146);
  ("BPF_FUNC_d_path", 147);
  ("BPF_FUNC_copy_from_user", 148);
  ("BPF_FUNC_snprintf_btf", 149);
  ("BPF_FUNC_seq_printf_btf", 150);
  ("BPF_FUNC_skb_cgroup_classid", 151);
  ("BPF_FUNC_redirect_neigh", 152);
  ("BPF_FUNC_per_cpu_ptr", 153);
  ("BPF_FUNC_this_cpu_ptr", 154);
  ("BPF_FUNC_redirect_peer", 155);
  ("BPF_FUNC_task_storage_get", 156);
  ("BPF_FUNC_task_storage_delete", 157);
  ("BPF_FUNC_get_current_task_btf", 158);
  ("BPF_FUNC_bprm_opts_set", 159);
  ("BPF_FUNC_ktime_get_coarse_ns", 160);
  ("BPF_FUNC_ima_inode_hash", 161);
  ("BPF_FUNC_sock_from_file", 162);
  ("BPF_FUNC_check_mtu", 163);
  ("BPF_FUNC_for_each_map_elem", 164);
  ("BPF_FUNC_snprintf", 165);
  ("BPF_FUNC_sys_bpf", 166);
  ("BPF_FUNC_btf_find_by_name_kind", 167);
  ("BPF_FUNC_sys_close", 168);
  ("BPF_FUNC_timer_init", 169);
  ("BPF_FUNC_timer_set_callback", 170);
  ("BPF_FUNC_timer_start", 171);
  ("BPF_FUNC_timer_cancel", 172);
  ("BPF_FUNC_get_func_ip", 173);
  ("BPF_FUNC_get_attach_cookie", 174);
  ("BPF_FUNC_task_pt_regs", 175);
  ("BPF_FUNC_get_branch_snapshot", 176);
  ("BPF_FUNC_trace_vprintk", 177);
  ("BPF_FUNC_skc_to_unix_sock", 178);
  ("BPF_FUNC_kallsyms_lookup_name", 179);
  ("BPF_FUNC_find_vma", 180);
  ("BPF_FUNC_loop", 181);
  ("BPF_FUNC_strncmp", 182);
  ("BPF_FUNC_get_func_arg", 183);
  ("BPF_FUNC_get_func_ret", 184);
  ("BPF_FUNC_get_func_arg_cnt", 185);
  ("BPF_FUNC_get_retval", 186);
  ("BPF_FUNC_set_retval", 187);
  ("BPF_FUNC_xdp_get_buff_len", 188);
  ("BPF_FUNC_xdp_load_bytes", 189);
  ("BPF_FUNC_xdp_store_bytes", 190);
  ("BPF_FUNC_copy_from_user_task", 191);
  ("BPF_FUNC_skb_set_tstamp", 192);
  ("BPF_FUNC_ima_file_hash", 193);
  ("BPF_FUNC_kptr_xchg", 194);
  ("BPF_FUNC_map_lookup_percpu_elem", 195);
  ("BPF_FUNC_skc_to_mptcp_sock", 196);
  ("BPF_FUNC_dynptr_from_mem", 197);
  ("BPF_FUNC_ringbuf_reserve_dynptr", 198);
  ("BPF_FUNC_ringbuf_submit_dynptr", 199);
  ("BPF_FUNC_ringbuf_discard_dynptr", 200);
  ("BPF_FUNC_dynptr_read", 201);
  ("BPF_FUNC_dynptr_write", 202);
  ("BPF_FUNC_dynptr_data", 203);
  ("BPF_FUNC_tcp_raw_gen_syncookie_ipv4", 204);
  ("BPF_FUNC_tcp_raw_gen_syncookie_ipv6", 205);
  ("BPF_FUNC_tcp_raw_check_syncookie_ipv4", 206);
  ("BPF_FUNC_tcp_raw_check_syncookie_ipv6", 207);
  ("BPF_FUNC_ktime_get_tai_ns", 208);
  ("BPF_FUNC_user_ringbuf_drain", 209);
  ("BPF_FUNC_cgrp_storage_get", 210);
  ("BPF_FUNC_cgrp_storage_delete", 211);
  ("__BPF_FUNC_MAX_ID", 212)].

Definition x86_bpf_func_id : list (string * Z) := x86_bpf_func_id_part1 ++ x86_bpf_func_id_part2.

Definition x86_cgroup_subsys_id : list (string * Z) := [
  ("cpuset_cgrp_id", 0);
  ("cpu_cgrp_id", 1);
  ("cpuacct_cgrp_id", 2);
  ("io_cgrp_id", 3);
  ("memory_cgrp_id", 4);
  ("devices_cgrp_id", 5);
  ("freezer_cgrp_id", 6);
  ("net_cls_cgrp_id", 7);
  ("perf_event_cgrp_id", 8);
  ("net_prio_cgrp_id", 9);
  ("hugetlb_cgrp_id", 10);
  ("pids_cgrp_id", 11);
  ("rdma_cgrp_id", 12);
  ("misc_cgrp_id", 13);
  ("CGROUP_SUBSYS_COUNT", 14)].

(** All declarations, in dependency order. *)
Definition x86_decls : list decl :=
  x86_typedefs ++
  x86_atomic64_t_decls ++
  x86_qspinlock_decls ++
  [x86_freeptr_t; x86_kuid_t] ++
  x86_optimistic_spin_queue_decls ++
  [x86_raw_spinlock_t; x86_mutex; x86_nodemask_t] ++
  x86_seqcount_decls ++
  x86_seqcount_spinlock_decls ++
  [x86_spinlock_t; x86_sigset_t] ++
  x86_wait_queue_head_decls ++
  x86_hlist_node_decls ++
  [x86_callback_head] ++
  x86_rb_node_decls ++
  [x86_hrtimer] ++
  x86_work_func_t_decls ++
  x86_llist_node_decls ++
  [x86_timer_list; x86_rcu_work; x86_plist_node] ++
  x86_rb_root_decls ++
  [x86_timerqueue_head; x86_page_frag; x86_llist_head] ++
  x86_cpumask_decls ++
  [x86_arch_tlbflush_unmap_batch; x86_path; x86_qstr; x86_hlist_head; x86_percpu_ref;
   x86_file_ra_state; x86_file; x86_cgroup_subsys_state; x86_scx_dsq_list_node;
   x86_cacheline_padding] ++
  x86_load_weight_decls ++
  x86_cgroup_file_decls ++
  [x86_cgroup; x86_ns_common; x86_css_set; x86_da_monitor] ++
  x86_hlist_bl_node_decls ++
  [x86_dentry; x86_desc_struct] ++
  x86_fregs_state_decls ++
  x86_swregs_state_decls ++
  x86_fpstate_decls ++
  [x86_fs_struct] ++
  x86_kernfs_elem_attr_decls ++
  [x86_kernfs_node; x86_kmap_ctrl; x86_latency_record] ++
  x86_rlimit_decls ++
  [x86_mnt_namespace; x86_vfsmount; x86_mount; x86_nsproxy] ++
  x86_posix_cputimer_base_decls ++
  [x86_rcu_special; x86_restart_block] ++
  x86_dl_server_has_tasks_f_decls ++
  [x86_rv_task_monitor] ++
  x86_sched_entity_decls ++
  [x86_sched_ext_entity; x86_sched_rt_entity; x86_seccomp; x86_sigpending; x86_task_io_accounting;
   x86_syscall_user_dispatch] ++
  x86_sysv_sem_decls ++
  [x86_uclamp_se] ++
  x86_thread_info_decls ++
  [x86_task_struct].

(** The layout of every declaration. *)
Definition x86_env : tenv := default ∅ (declare_all ∅ x86_decls).
