(* ===== verification/ProgramTypes.v ===== *)
(** * The structures of the program

    The structures the eBPF sources declare themselves ([src/bpf/load_conf.h],
    [src/bpf/debug.h], [src/bpf/main.c], [src/bpf/d_path_resolution.h] and the two
    compatibility types of [src/bpf/vmlinux.h]), as layouts, so that the byte offsets
    user space relies on can be computed. *)
From S2P Require Import Prelude CLayout.
Local Open Scope Z_scope.

(** The fixed-width integer names the sources use. *)
Definition int_typedefs : list decl := [
  CTypedef (TBase c_uchar) "__u8"; CTypedef (TName "__u8") "u8";
  CTypedef (TBase c_ushort) "__u16"; CTypedef (TName "__u16") "u16";
  CTypedef (TBase c_uint) "__u32"; CTypedef (TName "__u32") "u32";
  CTypedef (TBase c_ullong) "__u64"; CTypedef (TName "__u64") "u64";
  CTypedef (TBase c_bool) "bool"; CTypedef (TBase c_enum) "log_code"].

Definition TASK_COMM_LEN : Z := 16.
Definition MAX_PATH_LEN : Z := 4096.

Definition load_conf_decl : decl :=
  CStruct "load_conf" [
  fld "cgrp_fs_magic" (TName "__u64");
  fld "host_mnt_ns_inum" (TName "__u64");
  fld "cgrpv1_subsys_idx" (TName "__u32");
  fld "debug_mode" (TName "__u8");
  fld "learning_enabled" (TName "__u8");
  fld "pad" (TArr (TName "__u8") 2)].

Definition log_evt_decl : decl :=
  CStruct "log_evt" [
  fld "code" (TName "log_code");
  fld "comm" (TArr (TBase c_char) TASK_COMM_LEN);
  fld "cg_tracker_id" (TName "u64");
  fld "pid" (TName "u32");
  fld "tgid" (TName "u32");
  fld "arg1" (TName "u64");
  fld "arg2" (TName "u64")].

Definition process_evt_decl : decl :=
  CStruct "process_evt" [
  fld "cg_tracker_id" (TName "u64");
  fld "path_len" (TName "u16");
  fld "mode" (TName "u8");
  fld "foreign" (TName "u8");
  fld "path" (TArr (TBase c_char) (MAX_PATH_LEN * 3))].

Definition policy_settings_decl : decl :=
  CStruct "policy_settings" [
  fld "mode" (TName "__u8");
  fld "allow_foreign_root" (TName "__u8")].

Definition kernfs_node_id_decl : decl :=
  CUnion "kernfs_node_id" [
  anon (TAgg false [
    fld "ino" (TName "u32");
    fld "generation" (TName "u32")]);
  fld "id" (TName "u64")].

Definition kernfs_node_old_decl : decl :=
  CStruct "kernfs_node___old" [
  fld "id" (TName "union kernfs_node_id")].

Definition cgroup_new_decl : decl :=
  CStruct "cgroup___new" [
  fld "level" (TBase c_int);
  fld "ancestors" (TArr (TPtr "struct cgroup") 0)].

Definition path_read_data_decl : decl :=
  CStruct "path_read_data" [
  fld "root_dentry" (TPtr "struct dentry");
  fld "root_mnt" (TPtr "struct vfsmount");
  fld "dentry" (TPtr "struct dentry");
  fld "vfsmnt" (TPtr "struct vfsmount");
  fld "mnt" (TPtr "struct mount");
  fld "bptr" (TPtr "char");
  fld "curr_off" (TName "u32");
  fld "resolved" (TName "bool")].

Definition program_decls : list decl :=
  int_typedefs ++ [
  load_conf_decl; log_evt_decl; process_evt_decl; policy_settings_decl;
  kernfs_node_id_decl; kernfs_node_old_decl; cgroup_new_decl; path_read_data_decl].

Definition program_env : tenv := default ∅ (declare_all ∅ program_decls).

(** The host-to-kernel load configuration has no padding: its fields fill it. *)
Definition no_padding (E : tenv) (t : string) : bool :=
  match size_of E (TName t), resolve E (TName t) with
  | Some s, Some (TAgg false fs) =>
      match place (size_align E) false fs with
      | Some g =>
          (sum_list_with (λ p, Z.to_nat (pl_bits p)) (ag_members g) =? Z.to_nat (8 * s))%nat
      | None => false
      end
  | _, _ => false
  end.
