(* ===== verification/KernelLayout.v ===== *)
(** * The kernel structures as the programs see them

    [KernelLayout] is the interface between the kernel's data layout and the programs:
    the byte offset of every kernel field the programs read.  libbpf fills these offsets
    in at load time (CO-RE relocations); [layout_of_env] computes them from a set of
    declarations, and [x86_layout] and [arm64_layout] are its values on the two headers
    of the repository.  The table [kernel_reads] lists every read of kernel memory of
    [src/bpf/main.c] and [src/bpf/d_path_resolution.h] with the declared type of the
    variable it fills, and is type-checked against the headers. *)
From S2P Require Import Prelude CLayout VmlinuxX86 VmlinuxArm64 ProgramTypes.
Local Open Scope Z_scope.

Class KernelLayout := {
  task_cgroups : Z; task_nsproxy : Z; task_real_parent : Z; task_fs : Z;
  css_set_dfl_cgrp : Z; css_set_subsys : Z;
  css_cgroup : Z; css_parent : Z;
  cgroup_self : Z; cgroup_level : Z; cgroup_kn : Z; cgroup_ancestors : Z;
  kernfs_node_id : Z; kernfs_node_old_id : Z;
  nsproxy_mnt_ns : Z; mnt_namespace_ns_inum : Z;
  bprm_file : Z; file_f_path : Z; path_mnt : Z; path_dentry : Z;
  dentry_d_parent : Z; dentry_d_hash : Z; dentry_d_name : Z; hlist_bl_node_pprev : Z;
  qstr_size : Z; qstr_len : Z; qstr_name : Z;
  vfsmount_mnt_root : Z; vfsmount_mnt_flags : Z;
  mount_mnt : Z; mount_mnt_parent : Z; mount_mnt_mountpoint : Z; mount_mnt_ns : Z;
  fs_root : Z;
  pids_cgrp_id : Z;
}.

Definition enumerator (es : list (string * Z)) (x : string) : option Z :=
  snd <$> List.find (λ e, (fst e =? x)%string) es.

Section of_env.
  Context (E : tenv) (subsys : list (string * Z)).

Definition off (t : string) (xs : list string) : Z := default 0 (offset_of E t xs).

Definition layout_of_env : KernelLayout := {|
  task_cgroups := off "struct task_struct" ["cgroups"];
  task_nsproxy := off "struct task_struct" ["nsproxy"];
  task_real_parent := off "struct task_struct" ["real_parent"];
  task_fs := off "struct task_struct" ["fs"];
  css_set_dfl_cgrp := off "struct css_set" ["dfl_cgrp"];
  css_set_subsys := off "struct css_set" ["subsys"];
  css_cgroup := off "struct cgroup_subsys_state" ["cgroup"];
  css_parent := off "struct cgroup_subsys_state" ["parent"];
  cgroup_self := off "struct cgroup" ["self"];
  cgroup_level := off "struct cgroup" ["level"];
  cgroup_kn := off "struct cgroup" ["kn"];
  cgroup_ancestors := off "struct cgroup" ["ancestors"];
  kernfs_node_id := off "struct kernfs_node" ["id"];
  (* [struct kernfs_node___old] is matched against the running kernel's [kernfs_node] *)
  kernfs_node_old_id := off "struct kernfs_node" ["id"];
  nsproxy_mnt_ns := off "struct nsproxy" ["mnt_ns"];
  mnt_namespace_ns_inum := off "struct mnt_namespace" ["ns"; "inum"];
  bprm_file := off "struct linux_binprm" ["file"];
  file_f_path := off "struct file" ["f_path"];
  path_mnt := off "struct path" ["mnt"];
  path_dentry := off "struct path" ["dentry"];
  dentry_d_parent := off "struct dentry" ["d_parent"];
  dentry_d_hash := off "struct dentry" ["d_hash"];
  dentry_d_name := off "struct dentry" ["d_name"];
  hlist_bl_node_pprev := off "struct hlist_bl_node" ["pprev"];
  qstr_size := default 0 (size_of E (TName "struct qstr"));
  qstr_len := off "struct qstr" ["len"];
  qstr_name := off "struct qstr" ["name"];
  vfsmount_mnt_root := off "struct vfsmount" ["mnt_root"];
  vfsmount_mnt_flags := off "struct vfsmount" ["mnt_flags"];
  mount_mnt := off "struct mount" ["mnt"];
  mount_mnt_parent := off "struct mount" ["mnt_parent"];
  mount_mnt_mountpoint := off "struct mount" ["mnt_mountpoint"];
  mount_mnt_ns := off "struct mount" ["mnt_ns"];
  fs_root := off "struct fs_struct" ["root"];
  pids_cgrp_id := default 0 (enumerator subsys "pids_cgrp_id");
|}.
End of_env.

Definition x86_layout : KernelLayout :=
  Eval vm_compute in layout_of_env x86_env x86_cgroup_subsys_id.
Definition arm64_layout : KernelLayout :=
  Eval vm_compute in layout_of_env arm64_env arm64_cgroup_subsys_id.

(** ** The reads of the program *)

(** [bpf_core_read(&dst, sizeof(dst), &p->f)] or the last link of a [BPF_CORE_READ]
    chain: the structure the chain starts from, its links, the type of [dst]. *)
Record kread := KRead { kr_from : string; kr_links : list (list string); kr_dst : ctype }.

Definition main_reads : list kread := [
  KRead "struct cgroup" [["level"]] (TBase c_uint);
  KRead "struct kernfs_node" [["id"]] (TBase c_ullong);
  KRead "struct cgroup" [["kn"]] (TPtr "struct kernfs_node");
  KRead "struct task_struct" [["cgroups"]] (TPtr "struct css_set");
  KRead "struct css_set" [["dfl_cgrp"]] (TPtr "struct cgroup");
  KRead "struct cgroup_subsys_state" [["cgroup"]] (TPtr "struct cgroup");
  KRead "struct task_struct" [["nsproxy"]; ["mnt_ns"]; ["ns"; "inum"]] (TBase c_uint);
  KRead "struct task_struct" [["real_parent"]] (TPtr "struct task_struct");
  KRead "struct linux_binprm" [["file"]] (TPtr "struct file");
  KRead "struct file" [["f_path"; "mnt"]] (TPtr "struct vfsmount");
  KRead "struct vfsmount" [["mnt_flags"]] (TBase c_int);
  KRead "struct mount" [["mnt_ns"]] (TPtr "struct mnt_namespace");
  KRead "struct mnt_namespace" [["ns"; "inum"]] (TBase c_uint);
  KRead "struct cgroup" [["kn"]; ["id"]] (TBase c_ullong);
  KRead "struct cgroup" [["self"; "parent"]] (TPtr "struct cgroup_subsys_state")].

Definition d_path_reads : list kread := [
  KRead "struct dentry" [["d_parent"]] (TPtr "struct dentry");
  KRead "struct hlist_bl_node" [["pprev"]] (TPtr "struct hlist_bl_node *");
  KRead "struct dentry" [["d_name"]] (TName "struct qstr");
  KRead "struct vfsmount" [["mnt_root"]] (TPtr "struct dentry");
  KRead "struct mount" [["mnt_parent"]] (TPtr "struct mount");
  KRead "struct mount" [["mnt_mountpoint"]] (TPtr "struct dentry");
  KRead "struct path" [["dentry"]] (TPtr "struct dentry");
  KRead "struct path" [["mnt"]] (TPtr "struct vfsmount");
  KRead "struct task_struct" [["fs"]] (TPtr "struct fs_struct");
  KRead "struct fs_struct" [["root"]] (TPtr "struct path")].

Definition kernel_reads : list kread := main_reads ++ d_path_reads.

Definition base_of (E : tenv) (t : ctype) : option cbase :=
  match resolve E t with Some (TBase b) => Some b | _ => None end.

(** The variable has the type of the field: the same pointer type, an integer of the
    same width, or the same structure. *)
Definition read_well_typed (E : tenv) (r : kread) : bool :=
  match access_chain E (kr_from r) (kr_links r) with
  | None => false
  | Some (_, t) =>
      match kr_dst r, t with
      | TPtr a, TPtr b => (a =? b)%string
      | TName a, TName b => (a =? b)%string
      | TBase a, _ =>
          match base_of E t with
          | Some b => base_size a =? base_size b
          | None => false
          end
      | _, _ => false
      end
  end.

Definition ill_typed_reads (E : tenv) : list kread :=
  List.filter (λ r, negb (read_well_typed E r)) kernel_reads.

(** ** Properties *)

Definition declared (ds : list decl) : bool :=
  wf_decls ds && match declare_all ∅ ds with Some _ => true | None => false end.

Lemma declared_env_ok ds : declared ds = true → env_ok (default ∅ (declare_all ∅ ds)).
Proof.
  unfold declared. intros [Hwf Hd]%andb_true_iff. destruct (declare_all ∅ ds) as [E|] eqn:HE; [|done].
  by eapply declare_all_ok; [apply map_Forall_empty|..].
Qed.

(** The two headers of the repository. *)
Definition is_header (E : tenv) : Prop := E = x86_env ∨ E = arm64_env.

(** The declarations of both headers are well-formed and can be laid out. *)
Lemma header_env_ok E : is_header E → env_ok E.
Proof. intros [->| ->]; apply declared_env_ok; vm_compute; reflexivity. Qed.


(** The type of the variable each kernel read fills is the type of the field read, on
    both architectures, with one exception: [fs->root], a structure that is read into a
    pointer. *)
Theorem kernel_reads_typed :
  ill_typed_reads x86_env = [KRead "struct fs_struct" [["root"]] (TPtr "struct path")] ∧
  ill_typed_reads arm64_env = [KRead "struct fs_struct" [["root"]] (TPtr "struct path")] ∧
  type_of x86_env "struct fs_struct" ["root"] = Some (TName "struct path").
Proof. split_and!; vm_compute; reflexivity. Qed.

(** The number of elements of an array field. *)
Definition array_length (E : tenv) (t f : string) : option Z :=
  match type_of E t [f] with Some (TArr _ n) => Some n | _ => None end.

(** The cgroup v1 controller index that passes the bound check of [get_task_cgroup] is
    a valid index of [css_set.subsys], on both architectures. *)
Theorem subsys_index_in_bounds :
  (∃ n, array_length x86_env "struct css_set" "subsys" = Some n ∧ @pids_cgrp_id x86_layout < n) ∧
  (∃ n, array_length arm64_env "struct css_set" "subsys" = Some n ∧ @pids_cgrp_id arm64_layout < n).
Proof. split; eexists; (split; [vm_compute; reflexivity|reflexivity]). Qed.


(** ** Instances *)

Definition path_fields : list cfield := match snd x86_path with TAgg _ fs => fs | _ => [] end.

