(* ===== verification/Kernel.v ===== *)
(** * The kernel side of the programs

    What the eBPF programs use of the kernel: the helpers they call ([Kernel], a
    parameter of every model below, with the documented laws of the helpers in
    [KernelOk]), the maps and ring buffers they own ([bpf_state]), and the state monad the
    programs are written in. *)
From S2P Require Import Prelude CLayout ProgramTypes KernelLayout.
Local Open Scope Z_scope.

(** ** Configuration and records of the program *)

Record load_conf := LoadConf {
  cgrp_fs_magic : Z;
  host_mnt_ns_inum : Z;
  cgrpv1_subsys_idx : Z;
  debug_mode : Z;
  learning_enabled : Z;
}.

Inductive log_code :=
  | LOG_FAIL_TO_LOOKUP_EVT_MAP
  | LOG_MISSING_FILE_STRUCT
  | LOG_FAIL_TO_RESOLVE_PATH
  | LOG_EMPTY_PATH
  | LOG_FAIL_TO_COPY_EXEC_PATH
  | LOG_DROP_EXEC_EVENT
  | LOG_PATH_LEN_TOO_LONG
  | LOG_POLICY_MODE_MISSING
  | LOG_DROP_VIOLATION
  | LOG_FAIL_TO_RESOLVE_CGROUP_ID
  | LOG_FAIL_TO_RESOLVE_PARENT_CGROUP_ID.

#[export] Instance log_code_eq_dec : EqDecision log_code.
Proof. solve_decision. Defined.

Definition log_code_val (c : log_code) : Z :=
  match c with
  | LOG_FAIL_TO_LOOKUP_EVT_MAP => 1
  | LOG_MISSING_FILE_STRUCT => 2
  | LOG_FAIL_TO_RESOLVE_PATH => 3
  | LOG_EMPTY_PATH => 4
  | LOG_FAIL_TO_COPY_EXEC_PATH => 5
  | LOG_DROP_EXEC_EVENT => 6
  | LOG_PATH_LEN_TOO_LONG => 7
  | LOG_POLICY_MODE_MISSING => 8
  | LOG_DROP_VIOLATION => 9
  | LOG_FAIL_TO_RESOLVE_CGROUP_ID => 10
  | LOG_FAIL_TO_RESOLVE_PARENT_CGROUP_ID => 11
  end.

Record log_evt := LogEvt {
  le_code : log_code;
  le_comm : bytes;
  le_cg_tracker_id : Z;
  le_pid : Z;
  le_tgid : Z;
  le_arg1 : Z;
  le_arg2 : Z;
}.

Record process_evt := ProcessEvt {
  pe_cg_tracker_id : Z;
  pe_path_len : Z;
  pe_mode : Z;
  pe_foreign : Z;
  pe_path : bytes;
}.

Definition set_cg_tracker_id (x : Z) (e : process_evt) : process_evt :=
  ProcessEvt x (pe_path_len e) (pe_mode e) (pe_foreign e) (pe_path e).
Definition set_path_len (x : Z) (e : process_evt) : process_evt :=
  ProcessEvt (pe_cg_tracker_id e) x (pe_mode e) (pe_foreign e) (pe_path e).
Definition set_mode (x : Z) (e : process_evt) : process_evt :=
  ProcessEvt (pe_cg_tracker_id e) (pe_path_len e) x (pe_foreign e) (pe_path e).
Definition set_foreign (x : Z) (e : process_evt) : process_evt :=
  ProcessEvt (pe_cg_tracker_id e) (pe_path_len e) (pe_mode e) x (pe_path e).
Definition set_path (x : bytes) (e : process_evt) : process_evt :=
  ProcessEvt (pe_cg_tracker_id e) (pe_path_len e) (pe_mode e) (pe_foreign e) x.

(** The bytes of a [struct process_evt] up to the end of its [path] array. *)
Definition process_evt_bytes (e : process_evt) : bytes :=
  le_bytes 8 (pe_cg_tracker_id e) ++ le_bytes 2 (pe_path_len e) ++
  [pe_mode e; pe_foreign e] ++ pe_path e.

Record policy_settings := PolicySettings {
  ps_mode : Z;
  ps_allow_foreign_root : Z;
}.

(** An inner string map of a policy: a hash keyed by [im_key_size] bytes. *)
Record inner_map := InnerMap {
  im_key_size : nat;
  im_keys : gset bytes;
}.

(** ** Maps and ring buffers *)

Definition TRACKER_MAP_MAX_ENTRIES : Z := 65536.
Definition CGROUP_TO_POLICY_MAX_ENTRIES : Z := 65536.
Definition POLICY_MAP_MAX_ENTRIES : Z := 65536.

Record bpf_state := BpfState {
  cgtracker_map : gmap Z Z;
  cg_to_policy_map : gmap Z Z;
  policy_settings_map : gmap Z policy_settings;
  pol_str_maps : list (gmap Z inner_map);
  process_evt_storage : process_evt;
  ringbuf_logs : list log_evt;
  ringbuf_monitoring : list bytes;
  ringbuf_execve : list bytes;
}.

Definition set_cgtracker_map (m : gmap Z Z) (s : bpf_state) : bpf_state :=
  BpfState m (cg_to_policy_map s) (policy_settings_map s) (pol_str_maps s)
    (process_evt_storage s) (ringbuf_logs s) (ringbuf_monitoring s) (ringbuf_execve s).
Definition set_cg_to_policy_map (m : gmap Z Z) (s : bpf_state) : bpf_state :=
  BpfState (cgtracker_map s) m (policy_settings_map s) (pol_str_maps s)
    (process_evt_storage s) (ringbuf_logs s) (ringbuf_monitoring s) (ringbuf_execve s).
Definition set_policy_settings_map (m : gmap Z policy_settings) (s : bpf_state) : bpf_state :=
  BpfState (cgtracker_map s) (cg_to_policy_map s) m (pol_str_maps s)
    (process_evt_storage s) (ringbuf_logs s) (ringbuf_monitoring s) (ringbuf_execve s).
Definition set_pol_str_maps (m : list (gmap Z inner_map)) (s : bpf_state) : bpf_state :=
  BpfState (cgtracker_map s) (cg_to_policy_map s) (policy_settings_map s) m
    (process_evt_storage s) (ringbuf_logs s) (ringbuf_monitoring s) (ringbuf_execve s).
Definition set_process_evt_storage (e : process_evt) (s : bpf_state) : bpf_state :=
  BpfState (cgtracker_map s) (cg_to_policy_map s) (policy_settings_map s) (pol_str_maps s)
    e (ringbuf_logs s) (ringbuf_monitoring s) (ringbuf_execve s).
Definition set_ringbuf_logs (l : list log_evt) (s : bpf_state) : bpf_state :=
  BpfState (cgtracker_map s) (cg_to_policy_map s) (policy_settings_map s) (pol_str_maps s)
    (process_evt_storage s) l (ringbuf_monitoring s) (ringbuf_execve s).
Definition set_ringbuf_monitoring (l : list bytes) (s : bpf_state) : bpf_state :=
  BpfState (cgtracker_map s) (cg_to_policy_map s) (policy_settings_map s) (pol_str_maps s)
    (process_evt_storage s) (ringbuf_logs s) l (ringbuf_execve s).
Definition set_ringbuf_execve (l : list bytes) (s : bpf_state) : bpf_state :=
  BpfState (cgtracker_map s) (cg_to_policy_map s) (policy_settings_map s) (pol_str_maps s)
    (process_evt_storage s) (ringbuf_logs s) (ringbuf_monitoring s) l.

(** ** Helpers *)

Inductive ringbuf := RB_logs | RB_monitoring | RB_execve.

(** One run of a program sees one value of each of these.  [probe_read a n] is
    [bpf_probe_read_kernel(dst, n, a)]: the return code and the [n] bytes left in [dst].
    The flags are what libbpf resolves at load time; [ringbuf_reserve_ok] and [map_alloc]
    say whether the kernel finds room in a ring buffer and memory for a new map entry;
    [storage_available] and [storage_read_err] are the outcomes of looking up the per-CPU
    slot and of reading it back. *)
Class Kernel := {
  probe_read : Z → nat → Z * bytes;
  bpf_get_current_task : Z;
  bpf_get_current_cgroup_id : Z;
  bpf_get_current_pid_tgid : Z;
  bpf_get_current_comm : Z * bytes;
  bpf_get_smp_processor_id : Z;
  LINUX_KERNEL_VERSION : Z;
  has_get_current_cgroup_id : bool;
  has_kernfs_node_old_id : bool;
  has_cgroup_ancestors : bool;
  has_bpf_iter_num_new : bool;
  ringbuf_reserve_ok : ringbuf → nat → bool;
  map_alloc : Z → bool;
  storage_available : bool;
  storage_read_err : Z;
}.

(** Documented behaviour of [bpf_probe_read_kernel]: [dst] receives [n] bytes, zeroes
    when the read faults. *)
Class KernelOk (K : Kernel) : Prop := {
  probe_read_length a n : length (snd (probe_read a n)) = n;
  probe_read_bytes a n : Forall is_byte (snd (probe_read a n));
  probe_read_fault a n : fst (probe_read a n) ≠ 0 → snd (probe_read a n) = replicate n 0;
}.

(** ** The program monad *)

Definition prog (A : Type) : Type := bpf_state → A * bpf_state.

#[export] Instance prog_ret : MRet prog := λ A x s, (x, s).
#[export] Instance prog_bind : MBind prog := λ A B f c s, let '(x, s') := c s in f x s'.

Definition get_state : prog bpf_state := λ s, (s, s).
Definition modify (f : bpf_state → bpf_state) : prog unit := λ s, (tt, f s).

Section helpers.
  Context `{K : Kernel}.

(** [bpf_core_read(&x, n, a)] into an integer or pointer: return code and value. *)
Definition core_read (n : nat) (a : Z) : Z * Z :=
  let '(r, bs) := probe_read a n in (r, le_val bs).

Definition read_ptr (a : Z) : Z := snd (core_read 8 a).
Definition read_u64 (a : Z) : Z := snd (core_read 8 a).
Definition read_u32 (a : Z) : Z := snd (core_read 4 a).

(** [&p->f] and [container_of(p, T, f)]: 64-bit address arithmetic. *)
Definition field_addr (p o : Z) : Z := u64 (p + o).
Definition container_of (p o : Z) : Z := u64 (p - o).

(** [bpf_map_update_elem] on a [BPF_F_NO_PREALLOC] hash with [BPF_ANY]: an existing key
    is overwritten; a new one needs a free entry and memory for it. *)
Definition E2BIG : Z := 7.
Definition ENOMEM : Z := 12.
Definition hash_update {V} (max : Z) (k : Z) (v : V) (m : gmap Z V) : Z * gmap Z V :=
  match m !! k with
  | Some _ => (0, <[k := v]> m)
  | None =>
      if max <=? Z.of_nat (size m) then (- E2BIG, m)
      else if map_alloc k then (0, <[k := v]> m) else (- ENOMEM, m)
  end.

(** [bpf_ringbuf_output]: [0] when the record is queued. *)
Definition ringbuf_full : Z := 11.
Definition ringbuf_output (rb : ringbuf) (rec : bytes) : prog Z := λ s,
  if ringbuf_reserve_ok rb (length rec) then
    (0, match rb with
        | RB_monitoring => set_ringbuf_monitoring (ringbuf_monitoring s ++ [rec]) s
        | RB_execve => set_ringbuf_execve (ringbuf_execve s ++ [rec]) s
        | RB_logs => s
        end)
  else (- ringbuf_full, s).
End helpers.

(** Pointers of a 64-bit kernel. *)
Definition is_ptr (p : Z) : Prop := 0 <= p < 18446744073709551616.

Lemma container_of_field_addr p o : is_ptr p → container_of (field_addr p o) o = p.
Proof.
  intros Hp. unfold container_of, field_addr, u64, wrap.
  rewrite Zminus_mod_idemp_l. replace (p + o - o) with p by lia. by apply Z.mod_small.
Qed.

Lemma field_addr_container_of p o : is_ptr p → field_addr (container_of p o) o = p.
Proof.
  intros Hp. unfold container_of, field_addr, u64, wrap.
  rewrite Zplus_mod_idemp_l. replace (p - o + o) with p by lia. by apply Z.mod_small.
Qed.

Lemma field_addr_is_ptr p o : is_ptr (field_addr p o).
Proof. apply u64_range. Qed.

Lemma read_ptr_is_ptr `{K : Kernel, !KernelOk K} a : is_ptr (read_ptr a).
Proof.
  unfold read_ptr, core_read. pose proof (probe_read_length a 8) as Hl.
  pose proof (probe_read_bytes a 8) as Hb. destruct (probe_read a 8) as [r bs]; simpl in *.
  apply le_val_range in Hb. rewrite Hl in Hb. done.
Qed.

Lemma read_u32_range `{K : Kernel, !KernelOk K} a : 0 <= read_u32 a < 4294967296.
Proof.
  unfold read_u32, core_read. pose proof (probe_read_length a 4) as Hl.
  pose proof (probe_read_bytes a 4) as Hb. destruct (probe_read a 4) as [r bs]; simpl in *.
  apply le_val_range in Hb. rewrite Hl in Hb. done.
Qed.

(** A faulting read leaves zero. *)
Lemma core_read_fault `{K : Kernel, !KernelOk K} n a :
  fst (core_read n a) ≠ 0 → snd (core_read n a) = 0.
Proof.
  unfold core_read. pose proof (probe_read_fault a n).
  destruct (probe_read a n); simpl in *. intros Hr. rewrite (H Hr). apply le_val_replicate_0.
Qed.
#[export] Hint Resolve field_addr_is_ptr read_ptr_is_ptr : bpf.
