(* ===== verification/ConcreteKernel.v ===== *)
(** * A kernel that can be run

    An instance of the [Kernel] interface whose memory is a table of byte regions, with the
    laws of [KernelOk] proved, and sample machines (a task in a container that executes a
    file) on which the models of the programs evaluate.  The theorems of the development
    are instantiated on them. *)
From S2P Require Import Prelude CLayout VmlinuxX86 VmlinuxArm64 ProgramTypes KernelLayout Kernel.
Local Open Scope Z_scope.

(** ** Memory *)

(** Byte regions, indexed by the page they start in. *)
Definition regions : Type := list (Z * bytes).
Definition memory : Type := gmap Z regions.

Definition EFAULT : Z := 14.
Definition page (a : Z) : Z := Z.shiftr a 12.

Definition map_region (r : Z * bytes) (m : memory) : memory :=
  <[page (fst r) := r :: default [] (m !! page (fst r))]> m.

Definition map_regions (rs : regions) : memory := foldr map_region ∅ rs.

(** The first region that holds all of [a, a + n). *)
Fixpoint region_read (rs : regions) (a : Z) (n : nat) : option bytes :=
  match rs with
  | [] => None
  | (base, bs) :: rs' =>
      if (base <=? a) && (a + Z.of_nat n <=? base + Z.of_nat (length bs))
      then Some (u8 <$> read (a - base) n bs)
      else region_read rs' a n
  end.

Definition mem_read (m : memory) (a : Z) (n : nat) : option bytes :=
  m !! page a ≫= λ rs, region_read rs a n.

Definition mem_probe_read (m : memory) (a : Z) (n : nat) : Z * bytes :=
  match mem_read m a n with
  | Some bs => (0, bs)
  | None => (- EFAULT, replicate n 0)
  end.

Record machine := Machine {
  mc_memory : memory;
  mc_task : Z;
  mc_cgroup_id : Z;
  mc_version : Z;
  mc_has_cgroup_id_helper : bool;
  mc_old_kernfs : bool;
  mc_has_ancestors : bool;
  mc_has_iter : bool;
}.

(** A machine whose ring buffers, maps and per-CPU storage never fail. *)
Definition machine_kernel (mc : machine) : Kernel := {|
  probe_read := mem_probe_read (mc_memory mc);
  bpf_get_current_task := mc_task mc;
  bpf_get_current_cgroup_id := mc_cgroup_id mc;
  bpf_get_current_pid_tgid := 42 + Z.shiftl 40 32;
  bpf_get_current_comm := (0, replicate 16 97);
  bpf_get_smp_processor_id := 0;
  LINUX_KERNEL_VERSION := mc_version mc;
  has_get_current_cgroup_id := mc_has_cgroup_id_helper mc;
  has_kernfs_node_old_id := mc_old_kernfs mc;
  has_cgroup_ancestors := mc_has_ancestors mc;
  has_bpf_iter_num_new := mc_has_iter mc;
  ringbuf_reserve_ok := λ _ _, true;
  map_alloc := λ _, true;
  storage_available := true;
  storage_read_err := 0;
|}.

Lemma region_read_ok rs a n bs :
  region_read rs a n = Some bs → length bs = n ∧ Forall is_byte bs.
Proof.
  induction rs as [|[base r] rs IH]; simpl; [done|]. case_match eqn:Hin; [|done].
  intros [= <-]. rewrite length_fmap. split; [apply length_read; lia|].
  apply Forall_fmap, Forall_true. intros b. apply (wrap_range 8). lia.
Qed.

Lemma mem_read_ok m a n bs : mem_read m a n = Some bs → length bs = n ∧ Forall is_byte bs.
Proof. unfold mem_read. intros (rs & _ & H)%bind_Some. by apply region_read_ok in H. Qed.

#[export] Instance machine_kernel_ok mc : KernelOk (machine_kernel mc).
Proof.
  split; intros a n; simpl; unfold mem_probe_read;
    destruct (mem_read (mc_memory mc) a n) as [bs|] eqn:Hr; simpl.
  - by apply mem_read_ok in Hr as [? ?].
  - apply length_replicate.
  - by apply mem_read_ok in Hr as [? ?].
  - apply Forall_replicate. unfold is_byte. lia.
  - done.
  - done.
Qed.

(** ** A container that executes a file *)

Definition TASK : Z := 0x10000.
Definition PARENT : Z := 0x20000.
Definition NSPROXY : Z := 0x30000.
Definition TASK_NS : Z := 0x31000.
Definition FS : Z := 0x32000.
Definition BPRM : Z := 0x40000.
Definition FILE : Z := 0x41000.
Definition FILE_NS : Z := 0x42000.
Definition MOUNT : Z := 0x50000.
Definition SUPER_BLOCK : Z := 0x58000.
Definition CSS_SET : Z := 0x60000.
Definition CSS : Z := 0x61000.
Definition CGROUP : Z := 0x62000.
Definition KERNFS : Z := 0x64000.
Definition PARENT_CGROUP : Z := 0x65000.
Definition PARENT_KERNFS : Z := 0x67000.
Definition DENTRY (i : nat) : Z := 0x100000 + 0x1000 * Z.of_nat i.
Definition NAME (i : nat) : Z := 0x8100000 + 0x1000 * Z.of_nat i.

Definition host_mnt_ns : Z := 4026531841.
Definition container_mnt_ns : Z := 4026532500.
Definition container_cgroup : Z := 7001.
Definition pod_cgroup : Z := 7000.

Section sample.
  Context `{L : KernelLayout}.

Definition ptr_at (p o v : Z) : Z * bytes := (p + o, le_bytes 8 v).
Definition u32_at (p o v : Z) : Z * bytes := (p + o, le_bytes 4 v).

(** The dentry of the component [name], child number [i] of the chain. *)
Definition dentry_mem (i : nat) (parent : Z) (hashed : bool) (name : bytes) : regions := [
  ptr_at (DENTRY i) dentry_d_parent parent;
  ptr_at (DENTRY i) (dentry_d_hash + hlist_bl_node_pprev) (if hashed then 0x77000 else 0);
  (DENTRY i + dentry_d_name,
   le_bytes 4 0 ++ le_bytes 4 (Z.of_nat (length name)) ++ le_bytes 8 (NAME i));
  (NAME i, name)].

(** A chain of dentries below number [i]: the first name is the topmost component. *)
Fixpoint chain_mem (i : nat) (hashed : bool) (names : list bytes) : regions :=
  match names with
  | [] => []
  | name :: names' =>
      dentry_mem (S i) (DENTRY i) hashed name ++ chain_mem (S i) hashed names'
  end.

(** One mount, whose root dentry is number [0] and which is its own parent; the file is
    the last dentry of the chain. *)
Definition file_mem (root : bytes) (hashed : bool) (file_ns : Z) (names : list bytes) : regions :=
  dentry_mem 0 (DENTRY 0) true root ++ chain_mem 0 hashed names ++ [
  ptr_at BPRM bprm_file FILE;
  ptr_at FILE (file_f_path + path_mnt) (MOUNT + mount_mnt);
  ptr_at FILE (file_f_path + path_dentry) (DENTRY (length names));
  ptr_at MOUNT (mount_mnt + vfsmount_mnt_root) (DENTRY 0);
  ptr_at MOUNT (mount_mnt + 8) SUPER_BLOCK;
  u32_at MOUNT (mount_mnt + vfsmount_mnt_flags) 0;
  ptr_at MOUNT mount_mnt_parent MOUNT;
  ptr_at MOUNT mount_mnt_mountpoint (DENTRY 0);
  ptr_at MOUNT mount_mnt_ns FILE_NS;
  u32_at FILE_NS mnt_namespace_ns_inum file_ns].

(** The task, its parent, their namespaces and cgroups (version 2 and the pids
    controller of version 1). *)
Definition task_mem : regions := [
  ptr_at TASK task_nsproxy NSPROXY;
  ptr_at TASK task_real_parent PARENT;
  ptr_at TASK task_fs FS;
  ptr_at TASK task_cgroups CSS_SET;
  ptr_at NSPROXY nsproxy_mnt_ns TASK_NS;
  u32_at TASK_NS mnt_namespace_ns_inum container_mnt_ns;
  ptr_at FS fs_root (MOUNT + mount_mnt);
  ptr_at CSS_SET css_set_dfl_cgrp CGROUP;
  ptr_at CSS_SET (css_set_subsys + 8 * pids_cgrp_id) CSS;
  ptr_at CSS css_cgroup CGROUP;
  ptr_at CGROUP cgroup_kn KERNFS;
  u32_at CGROUP cgroup_level 2;
  ptr_at CGROUP (cgroup_ancestors + 8) PARENT_CGROUP;
  ptr_at CGROUP (cgroup_self + css_parent) (PARENT_CGROUP + cgroup_self);
  ptr_at KERNFS kernfs_node_id container_cgroup;
  ptr_at PARENT_CGROUP cgroup_kn PARENT_KERNFS;
  ptr_at PARENT_KERNFS kernfs_node_id pod_cgroup].

(** A recent kernel with cgroup v2. *)
Definition sample_machine (hashed : bool) (file_ns : Z) (names : list bytes) : machine :=
  Machine (map_regions (task_mem ++ file_mem [47] hashed file_ns names)) TASK container_cgroup
    (Z.shiftl 6 16 + Z.shiftl 8 8) true false true true.

(** The same for a file that is the root of its own mount, as memfd files are. *)
Definition memfd_machine (name : bytes) : machine :=
  Machine (map_regions (task_mem ++ file_mem name true container_mnt_ns [])) TASK container_cgroup
    (Z.shiftl 6 16 + Z.shiftl 8 8) true false true true.

(** A kernel without the open-coded iterators: the walk is limited to 512 steps. *)
Definition fallback_machine (names : list bytes) : machine :=
  Machine (map_regions (task_mem ++ file_mem [47] true container_mnt_ns names)) TASK container_cgroup
    (Z.shiftl 5 16 + Z.shiftl 15 8) true false true false.
End sample.

Definition sample_conf : load_conf := LoadConf 0x63677270 host_mnt_ns 11 0 1.

(** An event buffer that has not been used yet. *)
Definition fresh_evt : process_evt := ProcessEvt 0 0 0 0 (replicate (Z.to_nat 12288) 0).

(** Nothing in the maps; and one container that is tracked. *)
Definition empty_state : bpf_state :=
  BpfState ∅ ∅ ∅ (replicate 11 ∅) fresh_evt [] [] [].
Definition tracked_state : bpf_state :=
  set_cgtracker_map {[ container_cgroup := container_cgroup ]} empty_state.

(** Execution of [/bin/sh], in the container's own mount namespace or in another. *)
Definition bin_sh : list bytes := [bytes_of_string "bin"; bytes_of_string "sh"].
Definition bin_sh_path : bytes := bytes_of_string "/bin/sh".
Definition x86_exec (names : list bytes) : Kernel :=
  machine_kernel (sample_machine (L := x86_layout) true container_mnt_ns names).
Definition x86_foreign_exec (names : list bytes) : Kernel :=
  machine_kernel (sample_machine (L := x86_layout) true host_mnt_ns names).

(** A component of [n] letters. *)
Definition letters (n : nat) : bytes := replicate n 97.
