(* ===== verification/StringMaps.v ===== *)
(** * String maps

    [src/bpf/string_maps.h] and the two length functions of [src/bpf/main.c]: the allowed
    paths of a policy live in eleven hash maps with growing key sizes, each path padded
    with zeroes to the key size of its map. *)
From S2P Require Import Prelude CLayout ProgramTypes KernelLayout Kernel.
Local Open Scope Z_scope.

Definition POLICY_STR_OUTER_MAX_ENTRIES : Z := 65536.
Definition POLICY_STR_INNER_MAX_ENTRIES : Z := 1.

Definition STRING_MAPS_KEY_INC_SIZE : Z := 24.
Definition STRING_MAPS_SIZE_0 : Z := 1 * STRING_MAPS_KEY_INC_SIZE.
Definition STRING_MAPS_SIZE_1 : Z := 2 * STRING_MAPS_KEY_INC_SIZE.
Definition STRING_MAPS_SIZE_2 : Z := 3 * STRING_MAPS_KEY_INC_SIZE.
Definition STRING_MAPS_SIZE_3 : Z := 4 * STRING_MAPS_KEY_INC_SIZE.
Definition STRING_MAPS_SIZE_4 : Z := 5 * STRING_MAPS_KEY_INC_SIZE.
Definition STRING_MAPS_SIZE_5 : Z := 6 * STRING_MAPS_KEY_INC_SIZE.
Definition STRING_MAPS_SIZE_6 : Z := 256.
Definition STRING_MAPS_SIZE_7 : Z := 512.
Definition STRING_MAPS_SIZE_8 : Z := 1024.
Definition STRING_MAPS_SIZE_9 : Z := 2048.
Definition STRING_MAPS_SIZE_10 : Z := 4096.

(** The key size each [DEFINE_POLICY_STR_HASH_OF_MAPS(N)] declares for its inner maps. *)
Definition pol_str_maps_key_sizes : list Z := [
  STRING_MAPS_SIZE_0; STRING_MAPS_SIZE_1; STRING_MAPS_SIZE_2; STRING_MAPS_SIZE_3;
  STRING_MAPS_SIZE_4; STRING_MAPS_SIZE_5; STRING_MAPS_SIZE_6; STRING_MAPS_SIZE_7;
  STRING_MAPS_SIZE_8; STRING_MAPS_SIZE_9; STRING_MAPS_SIZE_10].

(** [get_policy_string_map(index, &policy_id)]: [None] is the null pointer. *)
Definition get_policy_string_map (maps : list (gmap Z inner_map)) (index policy_id : Z)
  : option inner_map :=
  match index with
  | 0 => maps !! 0%nat ≫= λ m, m !! policy_id
  | 1 => maps !! 1%nat ≫= λ m, m !! policy_id
  | 2 => maps !! 2%nat ≫= λ m, m !! policy_id
  | 3 => maps !! 3%nat ≫= λ m, m !! policy_id
  | 4 => maps !! 4%nat ≫= λ m, m !! policy_id
  | 5 => maps !! 5%nat ≫= λ m, m !! policy_id
  | 6 => maps !! 6%nat ≫= λ m, m !! policy_id
  | 7 => maps !! 7%nat ≫= λ m, m !! policy_id
  | 8 => maps !! 8%nat ≫= λ m, m !! policy_id
  | 9 => maps !! 9%nat ≫= λ m, m !! policy_id
  | 10 => maps !! 10%nat ≫= λ m, m !! policy_id
  | _ => None
  end.

Definition string_padded_len (len : Z) : Z :=
  if len <? STRING_MAPS_SIZE_5 then
    if negb (len mod STRING_MAPS_KEY_INC_SIZE =? 0)
    then u16 ((len / STRING_MAPS_KEY_INC_SIZE + 1) * STRING_MAPS_KEY_INC_SIZE)
    else len
  else if len <=? STRING_MAPS_SIZE_6 then STRING_MAPS_SIZE_6
  else if len <=? STRING_MAPS_SIZE_7 then STRING_MAPS_SIZE_7
  else if len <=? STRING_MAPS_SIZE_8 then STRING_MAPS_SIZE_8
  else if len <=? STRING_MAPS_SIZE_9 then STRING_MAPS_SIZE_9
  else STRING_MAPS_SIZE_10.

(** The [switch] has no case for [STRING_MAPS_SIZE_5]. *)
Definition string_map_index (padded_len : Z) : Z :=
  if padded_len <? STRING_MAPS_SIZE_5
  then padded_len / STRING_MAPS_KEY_INC_SIZE - 1
  else if padded_len =? STRING_MAPS_SIZE_6 then 6
  else if padded_len =? STRING_MAPS_SIZE_7 then 7
  else if padded_len =? STRING_MAPS_SIZE_8 then 8
  else if padded_len =? STRING_MAPS_SIZE_9 then 9
  else 10.

(** [bpf_map_lookup_elem(string_map, key)]: the key is the first [im_key_size] bytes. *)
Definition inner_map_match (m : inner_map) (buf : bytes) (off : Z) : bool :=
  bool_decide (read off (im_key_size m) buf ∈ im_keys m).

(** ** Properties *)

(** Decide a property of every length up to [n] by evaluation. *)
Definition forall_upto (n : nat) (P : Z → bool) : bool :=
  forallb (λ i, P (Z.of_nat i)) (seq 0 n).

Lemma forall_upto_spec n P len :
  forall_upto n P = true → 0 <= len < Z.of_nat n → P len = true.
Proof.
  unfold forall_upto. rewrite forallb_forall. intros H Hlen.
  rewrite <- (Z2Nat.id len) by lia. apply H, in_seq. lia.
Qed.

Ltac upto n :=
  match goal with
  | |- ?P ?len = true => apply (forall_upto_spec n P len); [by vm_compute | lia]
  end.

Lemma string_padded_len_above len : 4096 < len → string_padded_len len = 4096.
Proof.
  intros. unfold string_padded_len, STRING_MAPS_SIZE_5, STRING_MAPS_KEY_INC_SIZE,
    STRING_MAPS_SIZE_6, STRING_MAPS_SIZE_7, STRING_MAPS_SIZE_8, STRING_MAPS_SIZE_9,
    STRING_MAPS_SIZE_10.
  repeat case_match; lia.
Qed.

(** Key size of the map the program looks a path of length [len] up in. *)
Definition lookup_key_size (len : Z) : option Z :=
  let index := string_map_index (string_padded_len len) in
  if index <? 0 then None else pol_str_maps_key_sizes !! Z.to_nat index.

Definition key_size_ok (len : Z) : bool :=
  match lookup_key_size len with
  | Some k => (0 <? len) && (len <=? k) && (k <=? 4096)
  | None => len =? 0
  end.

(** A path of 1 to 4096 bytes fits the key of its map; the length [0] selects no map. *)
Lemma lookup_key_size_spec len :
  0 <= len →
  match lookup_key_size len with
  | Some k => 0 < len ∧ k <= 4096 ∧ (len <= 4096 → len <= k)
  | None => len = 0
  end.
Proof.
  intros Hlen. destruct (decide (len <= 144)) as [Hs|Hl].
  - assert (key_size_ok len = true) as H by upto 145%nat. unfold key_size_ok in H.
    destruct (lookup_key_size len); lia.
  - unfold lookup_key_size, string_padded_len. change STRING_MAPS_SIZE_5 with 144.
    change STRING_MAPS_SIZE_6 with 256. change STRING_MAPS_SIZE_7 with 512.
    change STRING_MAPS_SIZE_8 with 1024. change STRING_MAPS_SIZE_9 with 2048.
    replace (len <? 144) with false by lia.
    repeat match goal with |- context [if len <=? ?n then _ else _] =>
      destruct (len <=? n) eqn:?; [cbv -[Z.le Z.lt]; lia|] end.
    cbv -[Z.le Z.lt]. lia.
Qed.
