(* ===== verification/PolicyValues.v ===== *)
(** * Allowed binaries: the user-space side of the string maps

    [src/internal/bpf/policy_values.go]: how the agent turns the allow-list of a policy
    into the inner string maps the eBPF program looks paths up in. *)
From S2P Require Import Prelude CLayout ProgramTypes KernelLayout Kernel ConcreteKernel StringMaps.
Local Open Scope Z_scope.

(** An [error] result: [None] is [nil]. *)
Abbreviation go_error := (option string).

(** A Go call returns, returns an error, or panics. *)
Inductive go_result (A : Type) :=
  | Ok (x : A)
  | Err (e : string)
  | Panic (e : string).
Arguments Ok {A} _.
Arguments Err {A} _.
Arguments Panic {A} _.

Inductive PolicyValuesOperation :=
  | AddValuesToPolicy
  | RemoveValuesFromPolicy
  | ReplaceValuesInPolicy.

Definition StringMapsNumSubMaps : nat := 11.
Definition MaxStringMapsSize : nat := 4096.
Definition stringMapsKeyIncSize : Z := 24.
Definition stringMapSize0 : Z := 1 * stringMapsKeyIncSize.
Definition stringMapSize1 : Z := 2 * stringMapsKeyIncSize.
Definition stringMapSize2 : Z := 3 * stringMapsKeyIncSize.
Definition stringMapSize3 : Z := 4 * stringMapsKeyIncSize.
Definition stringMapSize4 : Z := 5 * stringMapsKeyIncSize.
Definition stringMapSize5 : Z := 6 * stringMapsKeyIncSize.
Definition stringMapSize6 : Z := 256.
Definition stringMapSize7 : Z := 512.
Definition stringMapSize8 : Z := 1024.
Definition stringMapSize9 : Z := 2048.
Definition stringMapSize10 : Z := 4096.
Definition fixedMaxEntriesPre5_9 : Z := 500.

Definition stringMapsSizes : list Z := [
  stringMapSize0; stringMapSize1; stringMapSize2; stringMapSize3; stringMapSize4;
  stringMapSize5; stringMapSize6; stringMapSize7; stringMapSize8; stringMapSize9;
  stringMapSize10].

(** [map[[MaxStringMapsSize]byte]struct{}], one per size. *)
Definition createStringMaps : list (gset bytes) := replicate StringMapsNumSubMaps ∅.

Definition stringPaddedLen (s : Z) : Z :=
  if s <=? 6 * stringMapsKeyIncSize then
    if negb (s mod stringMapsKeyIncSize =? 0)
    then (s / stringMapsKeyIncSize + 1) * stringMapsKeyIncSize
    else s
  else if s <=? stringMapSize6 then stringMapSize6
  else if s <=? stringMapSize7 then stringMapSize7
  else if s <=? stringMapSize8 then stringMapSize8
  else if s <=? stringMapSize9 then stringMapSize9
  else stringMapSize10.

(** [kernels.KernelStringToNumeric] of a [major.minor] version. *)
Definition kernel_version (major minor : Z) : Z :=
  Z.shiftl major 16 + Z.shiftl minor 8.

(** The loop that drops trailing nul characters; indexing the empty string panics. *)
Fixpoint remove_trailing_nul (rev_v : bytes) : option bytes :=
  match rev_v with
  | [] => None
  | 0 :: r => remove_trailing_nul r
  | _ => Some (rev rev_v)
  end.

(** [copy(ret[:], b)] into a zeroed array of [n] bytes. *)
Definition pad_to (n : nat) (b : bytes) : bytes := take n b ++ replicate (n - length b) 0.

Definition argStringSelectorValue (v : bytes) (removeNul : bool) (currKernelVer : Z)
  : go_result (bytes * Z) :=
  match (if removeNul then remove_trailing_nul (rev v) else Some v) with
  | None => Panic "index out of range"
  | Some v =>
      let s := Z.of_nat (length v) in
      if s =? 0 then Err "string is empty"
      else if (if currKernelVer <? kernel_version 5 11
               then stringMapSize7 <? s
               else Z.of_nat MaxStringMapsSize <? s)
      then Err "string is too long"
      else Ok (pad_to MaxStringMapsSize v, stringPaddedLen s)
  end.

(** The index of the first map size equal to [size]. *)
Fixpoint find_size (sizes : list Z) (size : Z) (idx : nat) : option nat :=
  match sizes with
  | [] => None
  | s :: sizes' => if size =? s then Some idx else find_size sizes' size (S idx)
  end.

Definition putValueInMap (ver : Z) (m : list (gset bytes)) (v : bytes)
  : go_error * list (gset bytes) :=
  match argStringSelectorValue v false ver with
  | Ok (value, size) =>
      match find_size stringMapsSizes size 0 with
      | Some i => (None, alter (λ sub, {[value]} ∪ sub) i m)
      | None => (Some "value has unsupported padded size", m)
      end
  | Err e => (Some e, m)
  | Panic e => (Some e, m)  (* not reached: only [removeNul] can panic *)
  end.

Fixpoint put_values (ver : Z) (values : list bytes) (m : list (gset bytes))
  : go_error * list (gset bytes) :=
  match values with
  | [] => (None, m)
  | v :: values' =>
      match putValueInMap ver m v with
      | (None, m') => put_values ver values' m'
      | (Some e, m') => (Some e, m')
      end
  end.

Definition convertValuesToBPFStringMaps (ver : Z) (values : list bytes)
  : go_error * list (gset bytes) :=
  put_values ver values createStringMaps.

(** ** The maps in the kernel

    [Ebpf] is the part of github.com/cilium/ebpf the agent calls: the errors of creating a
    map, of inserting a key into an inner map, of publishing an inner map and of deleting
    an entry, other than those the flags and the absence of the key decide. *)
Class Ebpf := {
  new_map_err : Z → nat → go_error;
  inner_update_ok : Z → nat → bytes → bool;
  outer_update_err : Z → nat → go_error;
  outer_delete_err : Z → nat → go_error;
}.

Inductive update_flag := UpdateAny | UpdateNoExist.

(** The errors of a map operation ([ebpf.ErrKeyExist], [ebpf.ErrKeyNotExist], others). *)
Inductive map_error := ErrKeyExist | ErrKeyNotExist | ErrOther (e : string).

Section maps.
  Context `{B : Ebpf} (ver : Z).

Definition isKernelPre5_9 : bool := ver <? kernel_version 5 9.

(** The inner map of one size: its keys are the values cut to the key size.  A map
    created with room for [max] entries refuses the next one. *)
Definition fill_inner (policyID : Z) (index : nat) (isPre5_9 : bool) (subMap : gset bytes)
  : go_result inner_map :=
  let mapKeySize := Z.to_nat (nth index stringMapsSizes 0) in
  let max := if isPre5_9 then fixedMaxEntriesPre5_9 else Z.of_nat (size subMap) in
  match new_map_err policyID index with
  | Some _ => Err "failed to create inner_map"
  | None =>
      let keys := set_map (take mapKeySize) subMap : gset bytes in
      if negb (forallb (inner_update_ok policyID index) (elements keys))
         || (max <? Z.of_nat (size keys))
      then Err "failed to insert value into inner map"
      else Ok (InnerMap mapKeySize keys)
  end.

Definition outer_present (policyID : Z) (index : nat) (maps : list (gmap Z inner_map)) : bool :=
  match maps !! index ≫= lookup policyID with Some _ => true | None => false end.

(** [m.policyStringMaps[index].Update(policyID, inner, flag)]. *)
Definition outer_update (policyID : Z) (index : nat) (inner : inner_map) (flag : update_flag)
  (maps : list (gmap Z inner_map)) : option map_error * list (gmap Z inner_map) :=
  match flag, outer_present policyID index maps with
  | UpdateNoExist, true => (Some ErrKeyExist, maps)
  | _, _ =>
      match outer_update_err policyID index with
      | Some e => (Some (ErrOther e), maps)
      | None => (None, alter (insert policyID inner) index maps)
      end
  end.

(** [m.policyStringMaps[index].Delete(policyID)]. *)
Definition outer_delete (policyID : Z) (index : nat) (maps : list (gmap Z inner_map))
  : option map_error * list (gmap Z inner_map) :=
  if outer_present policyID index maps then
    match outer_delete_err policyID index with
    | Some e => (Some (ErrOther e), maps)
    | None => (None, alter (delete policyID) index maps)
    end
  else (Some ErrKeyNotExist, maps).

Definition generateInnerBPFMaps (policyID : Z) (index : nat) (isPre5_9 : bool)
  (subMap : gset bytes) (maps : list (gmap Z inner_map)) : go_error * list (gmap Z inner_map) :=
  match fill_inner policyID index isPre5_9 subMap with
  | Ok inner =>
      let '(err, maps1) := outer_update policyID index inner UpdateNoExist maps in
      let '(err, maps2) :=
        match err with
        | Some ErrKeyExist => outer_update policyID index inner UpdateAny maps1
        | _ => (err, maps1)
        end in
      match err with
      | Some _ => (Some "failed to insert inner policy map", maps2)
      | None => (None, maps2)
      end
  | Err e | Panic e => (Some e, maps)
  end.

Fixpoint generate_from (policyID : Z) (i : nat) (subMaps : list (gset bytes))
  (maps : list (gmap Z inner_map)) : go_error * list (gmap Z inner_map) :=
  match subMaps with
  | [] => (None, maps)
  | subMap :: subMaps' =>
      if (size subMap =? 0)%nat then generate_from policyID (S i) subMaps' maps
      else
        match generateInnerBPFMaps policyID i isKernelPre5_9 subMap maps with
        | (None, maps') => generate_from policyID (S i) subMaps' maps'
        | (Some e, maps') => (Some e, maps')
        end
  end.

Definition generateBPFMaps (policyID : Z) (values : list bytes) (maps : list (gmap Z inner_map))
  : go_error * list (gmap Z inner_map) :=
  match convertValuesToBPFStringMaps ver values with
  | (Some e, _) => (Some e, maps)
  | (None, subMaps) => generate_from policyID 0 subMaps maps
  end.

(** Deleting a key that is not there is not an error. *)
Definition delete_outer (policyID : Z) (i : nat) (maps : list (gmap Z inner_map))
  : go_error * list (gmap Z inner_map) :=
  match outer_delete policyID i maps with
  | (Some ErrKeyNotExist, maps') => (None, maps')
  | (Some _, maps') => (Some "failed to remove policy from map", maps')
  | (None, maps') => (None, maps')
  end.

Fixpoint remove_from (policyID : Z) (i n : nat) (maps : list (gmap Z inner_map))
  : go_error * list (gmap Z inner_map) :=
  match n with
  | O => (None, maps)
  | S n' =>
      match delete_outer policyID i maps with
      | (None, maps') => remove_from policyID (S i) n' maps'
      | (Some e, maps') => (Some e, maps')
      end
  end.

Definition removeBPFMaps (policyID : Z) (maps : list (gmap Z inner_map))
  : go_error * list (gmap Z inner_map) :=
  remove_from policyID 0 (length maps) maps.

Definition replaceInnerBPFMap (policyID : Z) (index : nat) (isPre5_9 : bool)
  (subMap : gset bytes) (maps : list (gmap Z inner_map)) : go_error * list (gmap Z inner_map) :=
  match fill_inner policyID index isPre5_9 subMap with
  | Ok inner =>
      match outer_update policyID index inner UpdateAny maps with
      | (Some _, maps') => (Some "failed to update inner policy map", maps')
      | (None, maps') => (None, maps')
      end
  | Err e | Panic e => (Some e, maps)
  end.

Fixpoint replace_from (policyID : Z) (i : nat) (subMaps : list (gset bytes))
  (maps : list (gmap Z inner_map)) : go_error * list (gmap Z inner_map) :=
  match subMaps with
  | [] => (None, maps)
  | subMap :: subMaps' =>
      match (if (size subMap =? 0)%nat then delete_outer policyID i maps
             else replaceInnerBPFMap policyID i isKernelPre5_9 subMap maps) with
      | (None, maps') => replace_from policyID (S i) subMaps' maps'
      | (Some e, maps') => (Some e, maps')
      end
  end.

Definition replaceBPFMaps (policyID : Z) (values : list bytes) (maps : list (gmap Z inner_map))
  : go_error * list (gmap Z inner_map) :=
  match convertValuesToBPFStringMaps ver values with
  | (Some e, _) => (Some e, maps)
  | (None, subMaps) => replace_from policyID 0 subMaps maps
  end.

(** [handleErrOnShutdown]: errors are dropped while the agent stops. *)
Definition handleErrOnShutdown (isShuttingDown : bool) (err : go_error) : go_error :=
  if isShuttingDown then None else err.

Definition PolicyUpdateBinaries (isShuttingDown : bool) (policyID : Z) (values : list bytes)
  (op : PolicyValuesOperation) (maps : list (gmap Z inner_map))
  : go_error * list (gmap Z inner_map) :=
  let '(err, maps') :=
    match op with
    | AddValuesToPolicy => generateBPFMaps policyID values maps
    | RemoveValuesFromPolicy => removeBPFMaps policyID maps
    | ReplaceValuesInPolicy => replaceBPFMaps policyID values maps
    end in
  (handleErrOnShutdown isShuttingDown err, maps').
End maps.

#[global] Arguments outer_update : simpl never.
#[global] Arguments outer_delete : simpl never.

(** ** What the maps hold *)

(** The map a value is stored in. *)
Definition bucket (v : bytes) : option nat :=
  find_size stringMapsSizes (stringPaddedLen (Z.of_nat (length v))) 0.

Definition max_value_len (ver : Z) : Z :=
  if ver <? kernel_version 5 11 then stringMapSize7 else Z.of_nat MaxStringMapsSize.

Definition valid_value (ver : Z) (v : bytes) : Prop :=
  1 <= Z.of_nat (length v) <= max_value_len ver.

Definition key_size (i : nat) : nat := Z.to_nat (nth i stringMapsSizes 0).

(** The keys of map [i] for the allow-list [values]. *)
Definition policy_keys (values : list bytes) (i : nat) : gset bytes :=
  list_to_set (pad_to (key_size i) <$> filter (λ v, bucket v = Some i) values).

(** The inner map of the allow-list in map [i], if any value goes there. *)
Definition policy_inner (values : list bytes) (i : nat) : option inner_map :=
  if bool_decide (policy_keys values i = ∅) then None
  else Some (InnerMap (key_size i) (policy_keys values i)).

Lemma max_value_len_le ver : max_value_len ver <= 4096.
Proof. unfold max_value_len. case_match; done. Qed.

Definition bucket_len_ok (len : Z) : bool :=
  (len =? 0) ||
  match find_size stringMapsSizes (stringPaddedLen len) 0 with
  | Some i => (i <? 11)%nat && (len <=? nth i stringMapsSizes 0)
  | None => false
  end.

(** Above 144 bytes the size is the next power of two. *)
Definition large_size (len : Z) : Z :=
  if len <=? 256 then 256 else if len <=? 512 then 512 else if len <=? 1024 then 1024
  else if len <=? 2048 then 2048 else 4096.

Lemma stringPaddedLen_large len : 144 < len → stringPaddedLen len = large_size len.
Proof.
  intros. unfold stringPaddedLen. change (6 * stringMapsKeyIncSize) with 144.
  by replace (len <=? 144) with false by lia.
Qed.

Lemma bucket_len_ok_upto len : 0 <= len <= 4096 → bucket_len_ok len = true.
Proof.
  intros Hlen. destruct (decide (len <= 144)); [upto 145%nat|].
  unfold bucket_len_ok. rewrite stringPaddedLen_large by lia. unfold large_size.
  repeat match goal with |- context [if len <=? ?n then _ else _] => destruct (len <=? n) eqn:? end;
    (match goal with |- context [find_size ?l ?x ?i] => eval_term (find_size l x i) end);
    cbn [nth stringMapsSizes Nat.ltb Nat.leb andb];
    unfold stringMapSize6, stringMapSize7, stringMapSize8, stringMapSize9, stringMapSize10; lia.
Qed.

(** Every value of a legal length has a map, whose key size holds it. *)
Lemma bucket_total v :
  1 <= Z.of_nat (length v) <= 4096 →
  ∃ i, bucket v = Some i ∧ (i < 11)%nat ∧ (length v <= key_size i)%nat.
Proof.
  intros Hl. pose proof (bucket_len_ok_upto (Z.of_nat (length v)) ltac:(lia)) as H.
  unfold bucket_len_ok in H. unfold bucket, key_size.
  destruct (find_size _ _ _) as [i|]; [|lia]. exists i. split_and!; [done|lia..].
Qed.

Lemma argStringSelectorValue_ok ver v :
  valid_value ver v →
  argStringSelectorValue v false ver =
    Ok (pad_to MaxStringMapsSize v, stringPaddedLen (Z.of_nat (length v))).
Proof.
  unfold valid_value, max_value_len, argStringSelectorValue.
  destruct (ver <? kernel_version 5 11); intros Hv;
    destruct (Z.of_nat (length v) =? 0) eqn:?; try lia;
    match goal with |- context [if ?b then _ else _] => destruct b eqn:? end; done || lia.
Qed.

Lemma argStringSelectorValue_err ver v :
  ¬ valid_value ver v → ∃ e, argStringSelectorValue v false ver = Err e.
Proof.
  unfold valid_value, max_value_len, argStringSelectorValue.
  destruct (ver <? kernel_version 5 11); intros Hv;
    destruct (Z.of_nat (length v) =? 0) eqn:?; eauto;
    match goal with |- context [if ?b then _ else _] => destruct b eqn:? end; eauto; lia.
Qed.

(** One value: refused when its length is not supported, stored in its map otherwise. *)
Lemma putValueInMap_spec ver m v :
  match putValueInMap ver m v with
  | (None, m') =>
      valid_value ver v ∧
      ∃ i, bucket v = Some i ∧ m' = alter (λ sub, {[pad_to MaxStringMapsSize v]} ∪ sub) i m
  | (Some _, m') => ¬ valid_value ver v ∧ m' = m
  end.
Proof.
  unfold putValueInMap. destruct (decide (1 <= Z.of_nat (length v) <= max_value_len ver)) as [Hv|Hv].
  - rewrite argStringSelectorValue_ok by done. pose proof (max_value_len_le ver).
    destruct (bucket_total v) as (i & Hi & _); [unfold valid_value in *; lia|].
    unfold bucket in *. rewrite Hi. eauto.
  - by destruct (argStringSelectorValue_err ver v Hv) as [e ->].
Qed.

(** The conversion succeeds exactly when every value has a supported length, and then
    map [i] holds the padded values of bucket [i]. *)
Lemma put_values_spec ver values m :
  match put_values ver values m with
  | (None, m') =>
      Forall (valid_value ver) values ∧ length m' = length m ∧
      ∀ i sub, m !! i = Some sub → ∃ sub', m' !! i = Some sub' ∧
        ∀ k, k ∈ sub' ↔ k ∈ sub ∨
          ∃ v, v ∈ values ∧ bucket v = Some i ∧ k = pad_to MaxStringMapsSize v
  | (Some _, _) => ¬ Forall (valid_value ver) values
  end.
Proof.
  revert m. induction values as [|v values IH]; intros m; simpl.
  { split_and!; [done..|]. intros i sub Hi. exists sub. set_solver. }
  pose proof (putValueInMap_spec ver m v) as Hv. destruct (putValueInMap ver m v) as [[e|] m1].
  { intros [? _]%Forall_cons. naive_solver. }
  destruct Hv as [Hv (j & Hj & ->)]. specialize (IH (alter (λ sub, {[pad_to MaxStringMapsSize v]} ∪ sub) j m)).
  destruct (put_values ver values _) as [[e|] m'].
  { intros [_ ?]%Forall_cons. done. }
  destruct IH as (Hvs & Hlen & Hsub). rewrite length_alter in Hlen. split_and!; [by constructor|done|].
  intros i sub Hi. destruct (decide (i = j)) as [->|Hij].
  - destruct (Hsub j ({[pad_to MaxStringMapsSize v]} ∪ sub)) as (sub' & ? & Hk).
    { by rewrite list_lookup_alter_eq, Hi. }
    exists sub'. split; [done|]. intros k. rewrite Hk. set_solver.
  - destruct (Hsub i sub) as (sub' & ? & Hk); [by rewrite list_lookup_alter_ne|].
    exists sub'. split; [done|]. intros k. rewrite Hk.
    split; [set_solver|]. intros [?|(w & [->|?]%elem_of_cons & ? & ?)]; naive_solver.
Qed.

(** ** Padded keys *)

Lemma length_pad_to n b : (length b <= n)%nat → length (pad_to n b) = n.
Proof. intros. unfold pad_to. len. Qed.

Lemma pad_to_le n b : (length b <= n)%nat → pad_to n b = b ++ replicate (n - length b) 0.
Proof. intros. unfold pad_to. by rewrite take_ge by lia. Qed.

Lemma take_pad_to n m b : (n <= m)%nat → (length b <= n)%nat → take n (pad_to m b) = pad_to n b.
Proof.
  intros. rewrite !pad_to_le by lia. rewrite take_app_ge by lia. f_equal.
  rewrite take_replicate. f_equal. lia.
Qed.

(** Padding is injective on strings without nul bytes. *)
Lemma pad_to_inj n a b :
  (length a <= n)%nat → (length b <= n)%nat → 0 ∉ a → 0 ∉ b →
  pad_to n a = pad_to n b → a = b.
Proof.
  intros Ha Hb H0a H0b. rewrite !pad_to_le by done.
  revert b n Ha Hb H0b. induction a as [|x a IH]; intros [|y b] n Ha Hb H0b H; [done| | |].
  - exfalso. destruct n as [|n]; simpl in *; [lia|]. injection H as Hy _. set_solver.
  - exfalso. destruct n as [|n]; simpl in *; [lia|]. injection H as Hx _. set_solver.
  - simpl in *. injection H as -> H. f_equal. destruct n as [|n]; [lia|].
    apply (IH ltac:(set_solver) b n); [lia|lia|set_solver|done].
Qed.

Lemma key_size_le i : (key_size i <= 4096)%nat.
Proof. do 11 (destruct i as [|i]; [vm_compute; lia|]). unfold key_size. simpl. destruct i; simpl; lia. Qed.

(** ** The outer maps after an update *)

(** Set or clear the entry of a policy in the outer map [i]. *)
Definition put_outer (policyID : Z) (val : option inner_map) (i : nat)
  (maps : list (gmap Z inner_map)) : list (gmap Z inner_map) :=
  alter (partial_alter (λ _, val) policyID) i maps.

Definition inner_of (i : nat) (sub : gset bytes) : option inner_map :=
  if (size sub =? 0)%nat then None
  else Some (InnerMap (key_size i) (set_map (take (key_size i)) sub)).

Section outer.
  Context `{B : Ebpf} (ver : Z).
  Implicit Types maps : list (gmap Z inner_map).

Lemma fill_inner_ok pid i pre sub inner :
  (size sub =? 0)%nat = false → fill_inner pid i pre sub = Ok inner → Some inner = inner_of i sub.
Proof. unfold fill_inner, inner_of. intros ->. intros. case_all. Qed.

Lemma outer_update_put pid i inner flag maps maps' :
  outer_update pid i inner flag maps = (None, maps') → maps' = put_outer pid (Some inner) i maps.
Proof. unfold outer_update, put_outer. intros. case_all. Qed.

Lemma outer_update_err_same pid i inner flag maps e maps' :
  outer_update pid i inner flag maps = (Some e, maps') → maps' = maps.
Proof. unfold outer_update. intros. case_all. Qed.

Lemma delete_outer_put pid i maps maps' :
  delete_outer pid i maps = (None, maps') → maps' = put_outer pid None i maps.
Proof.
  unfold delete_outer, outer_delete, outer_present, put_outer. intros H.
  destruct (maps !! i ≫= lookup pid) as [x|] eqn:Hx; [by case_all|]. simplify_eq.
  apply list_eq. intros j. destruct (decide (i = j)) as [<-|?].
  - rewrite list_lookup_alter_eq. destruct (maps' !! i) as [m|] eqn:Hm; simpl in *; [|done].
    f_equal. symmetry. exact (delete_id m pid Hx).
  - by rewrite list_lookup_alter_ne.
Qed.

Lemma replace_step pid i sub maps maps' :
  (if (size sub =? 0)%nat then delete_outer pid i maps
   else replaceInnerBPFMap pid i (isKernelPre5_9 ver) sub maps) = (None, maps') →
  maps' = put_outer pid (inner_of i sub) i maps.
Proof.
  destruct (size sub =? 0)%nat eqn:Hs.
  { unfold inner_of. rewrite Hs. apply delete_outer_put. }
  unfold replaceInnerBPFMap. intros H.
  destruct (fill_inner pid i _ sub) as [inner| |] eqn:Hf; simplify_eq.
  rewrite <- (fill_inner_ok _ _ _ _ _ Hs Hf).
  destruct (outer_update pid i inner UpdateAny maps) as [[e|] m] eqn:Hu; simplify_eq.
  by apply outer_update_put in Hu.
Qed.

Lemma generate_step pid i sub maps maps' :
  (size sub =? 0)%nat = false →
  generateInnerBPFMaps pid i (isKernelPre5_9 ver) sub maps = (None, maps') →
  maps' = put_outer pid (inner_of i sub) i maps.
Proof.
  intros Hs. unfold generateInnerBPFMaps. intros H.
  destruct (fill_inner pid i _ sub) as [inner| |] eqn:Hf; simplify_eq.
  rewrite <- (fill_inner_ok _ _ _ _ _ Hs Hf).
  destruct (outer_update pid i inner UpdateNoExist maps) as [err m] eqn:Hu.
  destruct err as [[| |e]|]; simpl in H; simplify_eq; [|by apply outer_update_put in Hu].
  apply outer_update_err_same in Hu as ->.
  destruct (outer_update pid i inner UpdateAny maps) as [[e|] m] eqn:Hu; simplify_eq.
  by apply outer_update_put in Hu.
Qed.

(** The entry of [subs] that outer map [j] gets when the loop starts at [i]. *)
Definition sub_at (i j : nat) (subs : list (gset bytes)) : option (gset bytes) :=
  if (i <=? j)%nat then subs !! (j - i)%nat else None.

Lemma sub_at_nil i j : sub_at i j [] = None.
Proof. unfold sub_at. rewrite lookup_nil. by case_match. Qed.

Lemma sub_at_cons i j sub subs :
  sub_at i j (sub :: subs) = if (i =? j)%nat then Some sub else sub_at (S i) j subs.
Proof.
  unfold sub_at. destruct (i <=? j)%nat eqn:?, (i =? j)%nat eqn:?, (S i <=? j)%nat eqn:?; try lia; try done.
  - by replace (j - i)%nat with 0%nat by lia.
  - by replace (j - i)%nat with (S (j - S i)) by lia.
Qed.

Lemma lookup_put_outer pid val i j maps m :
  maps !! j = Some m →
  put_outer pid val i maps !! j =
    Some (if (i =? j)%nat then partial_alter (λ _, val) pid m else m).
Proof.
  intros Hm. unfold put_outer. destruct (i =? j)%nat eqn:?.
  - replace j with i in * by lia. by rewrite list_lookup_alter_eq, Hm.
  - rewrite list_lookup_alter_ne by lia. done.
Qed.

Lemma replace_from_lookup pid i subs maps maps' :
  replace_from ver pid i subs maps = (None, maps') →
  ∀ j m, maps !! j = Some m →
    maps' !! j = Some match sub_at i j subs with
                      | Some sub => partial_alter (λ _, inner_of j sub) pid m
                      | None => m
                      end.
Proof.
  revert i maps. induction subs as [|sub subs IH]; intros i maps H j m Hj; simpl in H.
  { simplify_eq. by rewrite sub_at_nil. }
  destruct (if (size sub =? 0)%nat then _ else _) as [[e|] maps1] eqn:Hstep; [done|].
  apply replace_step in Hstep as ->. rewrite sub_at_cons.
  rewrite (IH _ _ H j _ (lookup_put_outer _ _ _ _ _ _ Hj)).
  destruct (i =? j)%nat eqn:Hij; [|done]. replace j with i in * by lia.
  unfold sub_at. by replace (S i <=? i)%nat with false by lia.
Qed.

Lemma generate_from_lookup pid i subs maps maps' :
  generate_from ver pid i subs maps = (None, maps') →
  ∀ j m, maps !! j = Some m →
    maps' !! j = Some match sub_at i j subs ≫= inner_of j with
                      | Some inner => <[pid := inner]> m
                      | None => m
                      end.
Proof.
  revert i maps. induction subs as [|sub subs IH]; intros i maps H j m Hj; simpl in H.
  { simplify_eq. by rewrite sub_at_nil. }
  rewrite sub_at_cons. destruct (size sub =? 0)%nat eqn:Hs.
  - rewrite (IH _ _ H j _ Hj). destruct (i =? j)%nat eqn:Hij; [|done].
    replace j with i in * by lia. unfold sub_at. replace (S i <=? i)%nat with false by lia.
    unfold inner_of. simpl. by rewrite Hs.
  - destruct (generateInnerBPFMaps _ _ _ _ _) as [[e|] maps1] eqn:Hstep; [done|].
    apply generate_step in Hstep as ->; [|done].
    rewrite (IH _ _ H j _ (lookup_put_outer _ _ _ _ _ _ Hj)).
    destruct (i =? j)%nat eqn:Hij; [|done]. replace j with i in * by lia.
    unfold sub_at. replace (S i <=? i)%nat with false by lia.
    unfold inner_of. simpl. by rewrite Hs.
Qed.

Lemma remove_from_lookup pid i n maps maps' :
  remove_from pid i n maps = (None, maps') →
  ∀ j m, maps !! j = Some m →
    maps' !! j = Some (if (i <=? j)%nat && (j <? i + n)%nat then delete pid m else m).
Proof.
  revert i maps. induction n as [|n IH]; intros i maps H j m Hj; simpl in H.
  { simplify_eq. by replace ((i <=? j)%nat && (j <? i + 0)%nat) with false by lia. }
  destruct (delete_outer pid i maps) as [[e|] maps1] eqn:Hstep; [done|].
  apply delete_outer_put in Hstep as ->.
  rewrite (IH _ _ H j _ (lookup_put_outer _ _ _ _ _ _ Hj)).
  destruct (i =? j)%nat eqn:?; repeat case_match; try lia; done.
Qed.
End outer.

(** The maps the conversion builds hold the keys of [policy_keys]. *)
Lemma convert_inner ver values subs i :
  convertValuesToBPFStringMaps ver values = (None, subs) → (i < 11)%nat →
  ∃ sub, subs !! i = Some sub ∧ inner_of i sub = policy_inner values i.
Proof.
  intros H Hi. unfold convertValuesToBPFStringMaps in H.
  pose proof (put_values_spec ver values createStringMaps) as Hs. rewrite H in Hs.
  destruct Hs as (Hvs & _ & Hsub).
  destruct (Hsub i ∅) as (sub & Hlk & Hk).
  { unfold createStringMaps. by apply lookup_replicate. }
  exists sub. split; [done|]. unfold inner_of, policy_inner.
  assert (set_map (take (key_size i)) sub = policy_keys values i) as Hkeys.
  { apply set_eq. intros x. unfold policy_keys.
    rewrite elem_of_map, elem_of_list_to_set, list_elem_of_fmap. setoid_rewrite list_elem_of_filter.
    assert (∀ v, v ∈ values → bucket v = Some i →
      take (key_size i) (pad_to MaxStringMapsSize v) = pad_to (key_size i) v) as Hpad.
    { intros v Hv Hb. rewrite Forall_forall in Hvs. specialize (Hvs _ Hv).
      destruct (bucket_total v) as (i' & Hb' & _ & ?); [unfold valid_value in Hvs; pose proof (max_value_len_le ver); lia|].
      simplify_eq. apply take_pad_to; [apply key_size_le|done]. }
    setoid_rewrite Hk. split.
    - intros (k & -> & [?|(v & Hv & Hb & ->)]); [set_solver|]. exists v. auto.
    - intros (v & -> & Hb & Hv). eexists. split; [symmetry; by apply Hpad|]. eauto. }
  rewrite Hkeys. destruct (size sub =? 0)%nat eqn:Hsz; case_bool_decide as He; try done.
  - destruct He. rewrite <- Hkeys. apply Nat.eqb_eq, size_empty_inv in Hsz. set_solver.
  - destruct (decide (sub = ∅)) as [->|Hne]; [done|].
    apply set_choose_L in Hne as [k Hin]. rewrite <- Hkeys in He. set_solver.
Qed.

(** ** Lookup *)

(** A padded path is a key of map [i] exactly when it is an allowed value stored there. *)
Lemma policy_keys_lookup values i p :
  Forall (λ v, 1 <= Z.of_nat (length v) <= 4096 ∧ 0 ∉ v) values →
  0 ∉ p → (length p <= key_size i)%nat →
  pad_to (key_size i) p ∈ policy_keys values i ↔ p ∈ values ∧ bucket p = Some i.
Proof.
  intros Hvs Hp Hlen. unfold policy_keys.
  rewrite elem_of_list_to_set, list_elem_of_fmap. setoid_rewrite list_elem_of_filter.
  split; [|naive_solver]. intros (v & Heq & Hb & Hv).
  rewrite Forall_forall in Hvs. destruct (Hvs _ Hv) as [Hvl Hv0].
  destruct (bucket_total v Hvl) as (j & Hj & _ & ?). simplify_eq.
  apply pad_to_inj in Heq as ->; done.
Qed.

(** An inner map of a policy, looked up with a padded path. *)
Lemma policy_inner_lookup values i p :
  Forall (λ v, 1 <= Z.of_nat (length v) <= 4096 ∧ 0 ∉ v) values →
  0 ∉ p → (length p <= key_size i)%nat →
  match policy_inner values i with
  | Some im => im_key_size im = key_size i ∧
      (pad_to (key_size i) p ∈ im_keys im ↔ p ∈ values ∧ bucket p = Some i)
  | None => ¬ (p ∈ values ∧ bucket p = Some i)
  end.
Proof.
  intros Hvs Hp Hlen. pose proof (policy_keys_lookup values i p Hvs Hp Hlen) as H.
  unfold policy_inner. case_bool_decide as He; simpl; [|done].
  rewrite <- H, He. set_solver.
Qed.

(** ** Updates of a policy *)

Section updates.
  Context `{B : Ebpf} (ver : Z).

(** Outer map [i] holds the inner map of [values] for [pid], and for every other policy
    what it held in [maps]. *)
Definition holds (pid : Z) (values : list bytes) (maps maps' : list (gmap Z inner_map)) : Prop :=
  ∀ i, (i < 11)%nat → ∃ m m', maps !! i = Some m ∧ maps' !! i = Some m' ∧
    m' !! pid = policy_inner values i ∧ ∀ q, q ≠ pid → m' !! q = m !! q.

Lemma lookup_eleven (maps : list (gmap Z inner_map)) i :
  length maps = 11%nat → (i < 11)%nat → ∃ m, maps !! i = Some m.
Proof. intros. destruct (lookup_lt_is_Some_2 maps i) as [m Hm]; [lia|eauto]. Qed.

Lemma sub_at_0 i subs : sub_at 0 i subs = subs !! i.
Proof. unfold sub_at. simpl. by rewrite Nat.sub_0_r. Qed.

Lemma replaceBPFMaps_holds pid values maps maps' :
  length maps = 11%nat → replaceBPFMaps ver pid values maps = (None, maps') →
  holds pid values maps maps'.
Proof.
  intros Hlen H i Hi. unfold replaceBPFMaps in H.
  destruct (convertValuesToBPFStringMaps ver values) as [[e|] subs] eqn:Hc; [done|].
  destruct (lookup_eleven maps i) as [m Hm]; [done..|].
  destruct (convert_inner _ _ _ i Hc Hi) as (sub & Hsub & Hin).
  pose proof (replace_from_lookup _ _ _ _ _ _ H i m Hm) as Hr.
  rewrite sub_at_0, Hsub in Hr. eexists m, _. split_and!; [done|done| |].
  - by rewrite lookup_partial_alter_eq.
  - intros q Hq. by rewrite lookup_partial_alter_ne.
Qed.

Lemma generateBPFMaps_holds pid values maps maps' :
  length maps = 11%nat → (∀ i m, maps !! i = Some m → m !! pid = None) →
  generateBPFMaps ver pid values maps = (None, maps') → holds pid values maps maps'.
Proof.
  intros Hlen Hfresh H i Hi. unfold generateBPFMaps in H.
  destruct (convertValuesToBPFStringMaps ver values) as [[e|] subs] eqn:Hc; [done|].
  destruct (lookup_eleven maps i) as [m Hm]; [done..|].
  destruct (convert_inner _ _ _ i Hc Hi) as (sub & Hsub & Hin).
  pose proof (generate_from_lookup _ _ _ _ _ _ H i m Hm) as Hr.
  rewrite sub_at_0, Hsub in Hr. cbn [mbind option_bind] in Hr. rewrite Hin in Hr.
  eexists m, _. split_and!; [done|done|..].
  - destruct (policy_inner values i); [apply lookup_insert_eq|eauto].
  - intros q Hq. destruct (policy_inner values i); [by apply lookup_insert_ne|done].
Qed.

Lemma removeBPFMaps_holds pid maps maps' :
  length maps = 11%nat → removeBPFMaps pid maps = (None, maps') → holds pid [] maps maps'.
Proof.
  intros Hlen Hr i Hi. unfold removeBPFMaps in Hr.
  destruct (lookup_eleven maps i) as [m Hm]; [done..|].
  pose proof (remove_from_lookup _ _ _ _ _ Hr i m Hm) as Hl.
  replace ((0 <=? i)%nat && (i <? 0 + length maps)%nat) with true in Hl by lia.
  eexists m, _. split_and!; [done|done|..].
  - rewrite lookup_delete_eq. unfold policy_inner. by rewrite bool_decide_eq_true_2.
  - intros q Hq. by apply lookup_delete_ne.
Qed.

(** A conversion that fails is refused as a whole; one that succeeds is of legal values. *)
Lemma convertValues_valid values :
  (∃ subs, convertValuesToBPFStringMaps ver values = (None, subs)) ↔ Forall (valid_value ver) values.
Proof.
  unfold convertValuesToBPFStringMaps. pose proof (put_values_spec ver values createStringMaps) as H.
  destruct (put_values ver values createStringMaps) as [[e|] subs]; split.
  - by intros (subs' & [=]).
  - done.
  - by intros _; destruct H.
  - eauto.
Qed.

(** C11: replacing the values of a policy.  When the update is reported successful, each of
    the eleven outer maps holds exactly the padded values of its size for the policy (no
    inner map where it has none), and the entries of every other policy are untouched. *)
Theorem replaceBPFMaps_installs pid values maps maps' :
  length maps = 11%nat →
  PolicyUpdateBinaries ver false pid values ReplaceValuesInPolicy maps = (None, maps') →
  Forall (valid_value ver) values ∧ holds pid values maps maps'.
Proof.
  intros Hlen H. unfold PolicyUpdateBinaries in H.
  destruct (replaceBPFMaps ver pid values maps) as [[e|] m] eqn:Hr; simplify_eq/=.
  split; [|by apply replaceBPFMaps_holds]. apply convertValues_valid. unfold replaceBPFMaps in Hr.
  destruct (convertValuesToBPFStringMaps ver values) as [[e|] subs]; [done|eauto].
Qed.

(** Adding the values of a new policy, one that has no entry yet, gives the same maps
    as replacing them. *)
Theorem generateBPFMaps_installs pid values maps maps' :
  length maps = 11%nat → (∀ i m, maps !! i = Some m → m !! pid = None) →
  PolicyUpdateBinaries ver false pid values AddValuesToPolicy maps = (None, maps') →
  holds pid values maps maps'.
Proof.
  intros Hlen Hfresh H. unfold PolicyUpdateBinaries in H.
  destruct (generateBPFMaps ver pid values maps) as [[e|] m] eqn:Hr; simplify_eq/=.
  by apply generateBPFMaps_holds.
Qed.

(** Removing the values of a policy leaves it no entry in any of the outer maps, and
    leaves the others as they are. *)
Theorem removeBPFMaps_removes pid values maps maps' :
  length maps = 11%nat →
  PolicyUpdateBinaries ver false pid values RemoveValuesFromPolicy maps = (None, maps') →
  holds pid [] maps maps'.
Proof.
  intros Hlen H. unfold PolicyUpdateBinaries in H.
  destruct (removeBPFMaps pid maps) as [[e|] m] eqn:Hr; simplify_eq/=. by apply removeBPFMaps_holds.
Qed.

Lemma size_list_to_set_le (l : list bytes) : (size (list_to_set l : gset bytes) <= length l)%nat.
Proof.
  induction l as [|x l IH]; [done|]. cbn [list_to_set length]. rewrite size_union_alt, size_singleton.
  enough (size ((list_to_set l : gset bytes) ∖ {[x]}) <= size (list_to_set l : gset bytes))%nat by lia.
  apply subseteq_size. set_solver.
Qed.

Lemma size_set_map_le (f : bytes → bytes) (X : gset bytes) : (size (set_map f X : gset bytes) <= size X)%nat.
Proof. unfold set_map. etrans; [apply size_list_to_set_le|]. by rewrite length_fmap. Qed.

(** The kernel accepts every request the maps themselves allow. *)
Record no_failures : Prop := NoFailures {
  nf_new pid i : new_map_err pid i = None;
  nf_inner pid i k : inner_update_ok pid i k = true;
  nf_update pid i : outer_update_err pid i = None;
  nf_delete pid i : outer_delete_err pid i = None;
}.

Lemma fill_inner_succeeds pid i sub :
  no_failures → ∃ inner, fill_inner pid i false sub = Ok inner.
Proof.
  intros [Hn Hi _ _]. unfold fill_inner. rewrite Hn. pose proof (size_set_map_le (take (key_size i)) sub).
  fold (key_size i). rewrite (proj2 (forallb_forall _ _)) by auto. cbn [negb orb].
  case_match; [lia|eauto].
Qed.

Lemma replace_from_succeeds pid i subs maps :
  no_failures → isKernelPre5_9 ver = false → ∃ maps', replace_from ver pid i subs maps = (None, maps').
Proof.
  intros Hnf Hver. revert i maps. induction subs as [|sub subs IH]; intros i maps; cbn [replace_from]; [eauto|].
  assert (∃ m', (if (size sub =? 0)%nat then delete_outer pid i maps
    else replaceInnerBPFMap pid i (isKernelPre5_9 ver) sub maps) = (None, m')) as [m' ->]; [|apply IH].
  rewrite Hver. destruct (size sub =? 0)%nat.
  - unfold delete_outer, outer_delete. rewrite (nf_delete Hnf). destruct (outer_present pid i maps); eauto.
  - unfold replaceInnerBPFMap. destruct (fill_inner_succeeds pid i sub Hnf) as [inner ->].
    unfold outer_update. rewrite (nf_update Hnf). eauto.
Qed.

Lemma generate_from_succeeds pid i subs maps :
  no_failures → isKernelPre5_9 ver = false → ∃ maps', generate_from ver pid i subs maps = (None, maps').
Proof.
  intros Hnf Hver. revert i maps. induction subs as [|sub subs IH]; intros i maps; cbn [generate_from]; [eauto|].
  destruct (size sub =? 0)%nat; [apply IH|]. rewrite Hver. unfold generateInnerBPFMaps.
  destruct (fill_inner_succeeds pid i sub Hnf) as [inner ->]. unfold outer_update.
  rewrite (nf_update Hnf). destruct (outer_present pid i maps); apply IH.
Qed.

Lemma update_succeeds pid values maps op :
  no_failures → isKernelPre5_9 ver = false → Forall (valid_value ver) values →
  op ≠ RemoveValuesFromPolicy →
  ∃ maps', PolicyUpdateBinaries ver false pid values op maps = (None, maps').
Proof.
  intros Hnf Hver [subs Hc]%convertValues_valid Hop.
  unfold PolicyUpdateBinaries, generateBPFMaps, replaceBPFMaps. rewrite Hc.
  destruct (generate_from_succeeds pid 0 subs maps Hnf Hver) as [m1 ->].
  destruct (replace_from_succeeds pid 0 subs maps Hnf Hver) as [m2 ->].
  destruct op; [by exists m1|done|by exists m2].
Qed.

(** C39: on kernels since 5.9, a policy whose values all have a supported length can always
    be installed: unless a system call fails, the replacement succeeds, whatever the maps
    hold. *)
Theorem replaceBPFMaps_succeeds pid values maps :
  no_failures → isKernelPre5_9 ver = false → Forall (valid_value ver) values →
  ∃ maps', PolicyUpdateBinaries ver false pid values ReplaceValuesInPolicy maps = (None, maps').
Proof. intros. by apply update_succeeds. Qed.

(** A value is refused exactly when its length is not supported: empty, or longer than
    512 bytes before Linux 5.11 and 4096 bytes since; the whole update then fails before
    any map is touched. *)
Theorem invalid_values_rejected pid values maps op :
  op ≠ RemoveValuesFromPolicy → ¬ Forall (valid_value ver) values →
  ∃ e, PolicyUpdateBinaries ver false pid values op maps = (Some e, maps).
Proof.
  intros Hop Hv. rewrite <- convertValues_valid in Hv.
  unfold PolicyUpdateBinaries, generateBPFMaps, replaceBPFMaps.
  destruct (convertValuesToBPFStringMaps ver values) as [[e|] subs] eqn:Hc; [|naive_solver].
  destruct op; [by exists e|done|by exists e].
Qed.
End updates.

(** ** Other policies *)

(** What the outer maps hold for the policy [q]. *)
Definition maps_entry (maps : list (gmap Z inner_map)) (q : Z) : list (option inner_map) :=
  lookup q <$> maps.

(** [maps'] has the entries of [maps] for every policy but [pid]. *)
Definition same_others (pid : Z) (maps maps' : list (gmap Z inner_map)) : Prop :=
  ∀ q, q ≠ pid → maps_entry maps' q = maps_entry maps q.

#[export] Instance same_others_preorder pid : PreOrder (same_others pid).
Proof. split; [done|]. intros ??? H1 H2 q Hq. by rewrite H2, H1. Qed.

Lemma same_others_length pid maps maps' : same_others pid maps maps' → length maps' = length maps.
Proof.
  intros H. specialize (H (pid + 1) ltac:(lia)). apply (f_equal length) in H.
  unfold maps_entry in H. by rewrite !length_fmap in H.
Qed.

Lemma same_others_alter pid f i maps :
  (∀ m q, q ≠ pid → f m !! q = m !! q) → same_others pid maps (alter f i maps).
Proof.
  intros Hf q Hq. apply list_eq. intros j. unfold maps_entry. rewrite !list_lookup_fmap.
  destruct (decide (i = j)) as [<-|Hij].
  - rewrite list_lookup_alter_eq. destruct (maps !! i); simpl; [by rewrite Hf|done].
  - by rewrite list_lookup_alter_ne.
Qed.

Section others.
  Context `{B : Ebpf} (ver : Z) (pid : Z).

Lemma outer_update_others i inner flag maps :
  same_others pid maps (snd (outer_update pid i inner flag maps)).
Proof.
  unfold outer_update. repeat case_match; try reflexivity; apply same_others_alter;
    intros m q Hq; by apply lookup_insert_ne.
Qed.

Lemma delete_outer_others i maps : same_others pid maps (snd (delete_outer pid i maps)).
Proof.
  unfold delete_outer, outer_delete. destruct (outer_present pid i maps); [|reflexivity].
  destruct (outer_delete_err pid i); [reflexivity|]. apply same_others_alter.
  intros m q Hq. by apply lookup_delete_ne.
Qed.

Lemma generateInner_others i pre sub maps :
  same_others pid maps (snd (generateInnerBPFMaps pid i pre sub maps)).
Proof.
  unfold generateInnerBPFMaps. destruct (fill_inner pid i pre sub) as [inner|e|e]; [|reflexivity..].
  pose proof (outer_update_others i inner UpdateNoExist maps) as H1.
  destruct (outer_update pid i inner UpdateNoExist maps) as [err m1]. cbn [snd] in H1.
  pose proof (outer_update_others i inner UpdateAny m1) as H2.
  destruct (outer_update pid i inner UpdateAny m1) as [err2 m2]. cbn [snd] in H2.
  destruct err as [[| |e]|]; try exact H1. etrans; [exact H1|]. by destruct err2.
Qed.

Lemma replaceInner_others i pre sub maps :
  same_others pid maps (snd (replaceInnerBPFMap pid i pre sub maps)).
Proof.
  unfold replaceInnerBPFMap. destruct (fill_inner pid i pre sub) as [inner|e|e]; [|reflexivity..].
  pose proof (outer_update_others i inner UpdateAny maps) as H.
  by destruct (outer_update pid i inner UpdateAny maps) as [[e|] m].
Qed.

Lemma generate_from_others i subs maps : same_others pid maps (snd (generate_from ver pid i subs maps)).
Proof.
  revert i maps. induction subs as [|sub subs IH]; intros i maps; cbn [generate_from]; [reflexivity|].
  destruct (size sub =? 0)%nat; [apply IH|].
  pose proof (generateInner_others i (isKernelPre5_9 ver) sub maps) as H.
  destruct (generateInnerBPFMaps _ _ _ _ _) as [[e|] m]; [exact H|]. etrans; [exact H|apply IH].
Qed.

Lemma replace_from_others i subs maps : same_others pid maps (snd (replace_from ver pid i subs maps)).
Proof.
  revert i maps. induction subs as [|sub subs IH]; intros i maps; cbn [replace_from]; [reflexivity|].
  pose proof (replaceInner_others i (isKernelPre5_9 ver) sub maps) as H1.
  pose proof (delete_outer_others i maps) as H2.
  destruct (size sub =? 0)%nat.
  - destruct (delete_outer pid i maps) as [[e|] m]; [exact H2|]. etrans; [exact H2|apply IH].
  - destruct (replaceInnerBPFMap _ _ _ _ _) as [[e|] m]; [exact H1|]. etrans; [exact H1|apply IH].
Qed.

Lemma remove_from_others i n maps : same_others pid maps (snd (remove_from pid i n maps)).
Proof.
  revert i maps. induction n as [|n IH]; intros i maps; cbn [remove_from]; [reflexivity|].
  pose proof (delete_outer_others i maps) as H.
  destruct (delete_outer pid i maps) as [[e|] m]; [exact H|]. etrans; [exact H|apply IH].
Qed.

(** An update of one policy, successful or not, leaves the other policies alone. *)
Lemma PolicyUpdateBinaries_others sd values op maps :
  same_others pid maps (snd (PolicyUpdateBinaries ver sd pid values op maps)).
Proof.
  unfold PolicyUpdateBinaries, generateBPFMaps, replaceBPFMaps, removeBPFMaps.
  destruct (convertValuesToBPFStringMaps ver values) as [[e|] subs].
  all: pose proof (remove_from_others 0 (length maps) maps).
  - destruct op; [reflexivity| |reflexivity]. by destruct (remove_from _ _ _ _).
  - pose proof (generate_from_others 0 subs maps). pose proof (replace_from_others 0 subs maps).
    destruct op; [by destruct (generate_from _ _ _ _ _)|by destruct (remove_from _ _ _ _)
      |by destruct (replace_from _ _ _ _ _)].
Qed.
End others.

(** The entry that [holds] describes. *)
Lemma holds_entry pid values maps maps' :
  length maps = 11%nat → length maps' = 11%nat → holds pid values maps maps' →
  maps_entry maps' pid = policy_inner values <$> seq 0 11.
Proof.
  intros Hl Hl' H. apply list_eq. intros i. unfold maps_entry. rewrite !list_lookup_fmap.
  destruct (decide (i < 11)%nat) as [Hi|Hi].
  - destruct (H i Hi) as (m & m' & _ & -> & Hm & _). rewrite lookup_seq_lt by done. cbn. by rewrite Hm.
  - rewrite !lookup_ge_None_2; [done|rewrite length_seq; lia|lia].
Qed.

(** ** Instances *)

Definition linux_6_8 : Z := kernel_version 6 8.

#[export] Instance working_ebpf : Ebpf := {|
  new_map_err := λ _ _, None;
  inner_update_ok := λ _ _ _, true;
  outer_update_err := λ _ _, None;
  outer_delete_err := λ _ _, None;
|}.

Definition two_values : list bytes := [bin_sh_path; letters 130].
Definition empty_maps : list (gmap Z inner_map) := replicate 11 ∅.

Lemma working_ebpf_ok : no_failures.
Proof. by split. Qed.

Lemma two_values_valid : Forall (valid_value linux_6_8) two_values.
Proof. repeat constructor; vm_compute; discriminate. Qed.

Lemma replaceBPFMaps_succeeds_witness :
  ∃ maps', PolicyUpdateBinaries linux_6_8 false 5 two_values ReplaceValuesInPolicy empty_maps =
    (None, maps').
Proof.
  apply (replaceBPFMaps_succeeds linux_6_8 5 two_values empty_maps);
    [exact working_ebpf_ok|reflexivity|exact two_values_valid].
Defined.

Lemma replaceBPFMaps_installs_witness : ∃ maps', holds 5 two_values empty_maps maps'.
Proof.
  destruct (update_succeeds linux_6_8 5 two_values empty_maps ReplaceValuesInPolicy) as [maps' H];
    [exact working_ebpf_ok|reflexivity|exact two_values_valid|done|].
  exists maps'. exact (proj2 (replaceBPFMaps_installs linux_6_8 5 two_values empty_maps maps' eq_refl H)).
Defined.

Lemma generateBPFMaps_installs_witness : ∃ maps', holds 5 two_values empty_maps maps'.
Proof.
  destruct (update_succeeds linux_6_8 5 two_values empty_maps AddValuesToPolicy) as [maps' H];
    [exact working_ebpf_ok|reflexivity|exact two_values_valid|done|].
  exists maps'. apply (generateBPFMaps_installs linux_6_8 5 two_values empty_maps maps' eq_refl); [|exact H].
  intros i m [-> _]%lookup_replicate. reflexivity.
Defined.

(** One map in which policies [5] and [6] have an entry. *)
Definition used_maps : list (gmap Z inner_map) :=
  {[ 5 := InnerMap 24 ∅; 6 := InnerMap 24 ∅ ]} :: replicate 10 ∅.

Lemma removeBPFMaps_removes_witness :
  holds 5 [] used_maps (snd (PolicyUpdateBinaries linux_6_8 false 5 [] RemoveValuesFromPolicy used_maps)).
Proof.
  apply (removeBPFMaps_removes linux_6_8 5 [] used_maps); [reflexivity|vm_compute; reflexivity].
Defined.

Lemma invalid_values_rejected_witness :
  ∃ e, PolicyUpdateBinaries linux_6_8 false 5 [bin_sh_path; []] AddValuesToPolicy empty_maps =
    (Some e, empty_maps).
Proof.
  apply (invalid_values_rejected linux_6_8 5 [bin_sh_path; []] empty_maps AddValuesToPolicy); [discriminate|].
  intros [_ [[H _] _]%Forall_cons]%Forall_cons. by vm_compute in H.
Defined.
