(* ===== verification/Names.v ===== *)
(** * Workload names, cgroup paths and kernel versions

    The text the agent reads from its environment: the workload a pod belongs to, from its
    name and labels ([src/internal/podworkload/workload.go]); the cgroup path of a container,
    from the container runtime ([src/internal/cgroups/cgroup_parse.go]); and the kernel
    release ([src/internal/kernels/kernels.go]). *)
From Stdlib Require Import Ascii.
From S2P Require Import Prelude GoStd PolicyValues.
Local Open Scope Z_scope.
Local Open Scope string_scope.

Definition dash : Ascii.ascii := "-"%char.
Definition colon : Ascii.ascii := ":"%char.
Definition dot : Ascii.ascii := "."%char.

(** ** Workloads *)

(** [workloadkind.Kind]: a string with these constants. *)
Definition KindPod : string := "Pod".
Definition KindDeployment : string := "Deployment".
Definition KindDaemonSet : string := "DaemonSet".
Definition KindStatefulSet : string := "StatefulSet".
Definition KindJob : string := "Job".
Definition KindCronJob : string := "CronJob".

Definition podTemplateHashLabel : string := "pod-template-hash".
Definition oldJobNameLabel : string := "job-name".
Definition newJobNameLabel : string := "batch.kubernetes.io/job-name".
Definition statefulsetLabel : string := "statefulset.kubernetes.io/pod-name".
Definition daemonsetLabel : string := "controller-revision-hash".
Definition truncatedSuffix : string := "-trnc".
Definition randomSuffixLen : nat := 5.
Definition minTemplateHashMatch : nat := 5.

(** The loop over the prefixes of the pattern, from the longest of [i] bytes to the one of
    five; the first one the name ends with is cut. *)
Fixpoint match_hash (podPrefix exactPattern : string) (i : nat) : option string :=
  match i with
  | O => None
  | S i' =>
      if (i <? minTemplateHashMatch)%nat then None
      else match CutSuffix podPrefix (default "" (str_take i exactPattern)) with
           | Some before => Some before
           | None => match_hash podPrefix exactPattern i'
           end
  end.

Definition parseDeployment (podName templateHash : string) : go_result (string * string) :=
  match drop_last randomSuffixLen podName with
  | None => Panic "slice bounds out of range"
  | Some podPrefixWithPartialHash =>
      let exactPattern := "-" ++ templateHash ++ "-" in
      match match_hash podPrefixWithPartialHash exactPattern (String.length exactPattern) with
      | Some name => Ok (name, KindDeployment)
      | None => Ok (TrimSuffix podPrefixWithPartialHash "-" ++ truncatedSuffix, KindDeployment)
      end
  end.

Definition parseDaemonSet (podName : string) : go_result (string * string) :=
  match drop_last randomSuffixLen podName with
  | None => Panic "slice bounds out of range"
  | Some nameWithoutSuffix =>
      match CutSuffix nameWithoutSuffix "-" with
      | Some before => Ok (before, KindDaemonSet)
      | None => Ok (nameWithoutSuffix ++ truncatedSuffix, KindDaemonSet)
      end
  end.

(** The match of [(.+)-\d{8,10}$] on a text of one line.  The digits hold no dash, so the dash
    of the match is the last one of the text. *)
Definition cronJobNameRegexp (jobName : string) : option string :=
  match cut_last dash jobName with
  | Some (name, digits) =>
      let len := String.length digits in
      if negb (name =? "") && all_digits digits && (8 <=? len)%nat && (len <=? 10)%nat
      then Some name else None
  | None => None
  end.

Definition parseJobCronJob (jobName : string) : string * string :=
  match cronJobNameRegexp jobName with
  | Some name => (name, KindCronJob)
  | None => (jobName, KindJob)
  end.

Definition parseStatefulSet (podName : string) : go_result (string * string) :=
  match cut_last dash podName with
  | None => Panic "statefulset: missing last '-' in pod name"
  | Some (name, _) => Ok (name, KindStatefulSet)
  end.

Definition getWorkloadInfo (podName : string) (labels : gmap string string) : go_result (string * string) :=
  match labels !! podTemplateHashLabel with
  | Some hash => parseDeployment podName hash
  | None =>
      match labels !! statefulsetLabel with
      | Some statefulPodName => parseStatefulSet statefulPodName
      | None =>
          match labels !! daemonsetLabel with
          | Some _ => parseDaemonSet podName
          | None =>
              match labels !! oldJobNameLabel with
              | Some jobName => Ok (parseJobCronJob jobName)
              | None =>
                  match labels !! newJobNameLabel with
                  | Some jobName => Ok (parseJobCronJob jobName)
                  | None => Ok (podName, KindPod)
                  end
              end
          end
      end
  end.

Definition GetTruncatedWorkloadInfo (podName : string) (labels : gmap string string)
  : go_result (string * string * bool) :=
  match getWorkloadInfo podName labels with
  | Ok (workloadName, workloadKind) => Ok (workloadName, workloadKind, HasSuffix workloadName truncatedSuffix)
  | Err e => Err e
  | Panic e => Panic e
  end.

(** ** Cgroup paths *)

Definition slice_suffix : string := ".slice".

(** The loop over the components of the slice name, with the path and the prefix built so
    far. *)
Fixpoint expand_components (components : list string) (path prefix : string) : option string :=
  match components with
  | [] => Some path
  | component :: rest =>
      if component =? "" then None
      else expand_components rest (path ++ "/" ++ prefix ++ component ++ slice_suffix)
             (prefix ++ component ++ "-")
  end.

Definition SystemdExpandSlice (slice : string) : go_result string :=
  if (String.length slice <=? String.length slice_suffix)%nat || negb (HasSuffix slice slice_suffix)
  then Err "invalid slice name"
  else if contains slash slice then Err "invalid slice name"
  else
    let sliceName := TrimSuffix slice slice_suffix in
    if sliceName =? "-" then Ok "/"
    else match expand_components (Split dash sliceName) "" "" with
         | Some path => Ok path
         | None => Err "invalid slice name"
         end.

Definition ParseCgroupsPath (cgroupPath : string) : go_result string :=
  if contains slash cgroupPath then Ok cgroupPath
  else match Split colon cgroupPath with
       | [slice; containerRuntimeName; containerID] =>
           match SystemdExpandSlice slice with
           | Ok slice =>
               let containerID :=
                 if HasSuffix containerID slice_suffix then containerID
                 else containerRuntimeName ++ "-" ++ containerID ++ ".scope" in
               Ok (path_Join slice containerID)
           | _ => Err "failed to parse cgroup path"
           end
       | _ => Err "unknown cgroup path"
       end.

(** ** Kernel versions *)

Definition KernelStringToNumeric (ver : string) : Z :=
  let verStr := default "" (Split dash ver !! 0%nat) in
  let numeric := TrimRight plus_char verStr in
  let vers := Split dot numeric in
  let majorS := default "" (vers !! 0%nat) in
  let minorS := default "" (vers !! 1%nat) in
  let patchS := default "" (vers !! 2%nat) in
  match ParseInt32 majorS with
  | None => 0
  | Some major =>
      let minor := default 0 (ParseInt32 minorS) in
      let patch := default 0 (ParseInt32 patchS) in
      let patch := if (255 <? patch)%Z then 255 else patch in
      (Z.shiftl major 16 + Z.shiftl minor 8 + patch)%Z
  end.

(** The version computed at start from the release that [uname] reports. *)
Definition currKernelVersion (release : string) : Z :=
  KernelStringToNumeric (TrimSuffix (default "" (Split dash release !! 0%nat)) "+").

Definition CurrVersionIsLowerThan (release kernel : string) : bool :=
  (currKernelVersion release <? KernelStringToNumeric kernel)%Z.

(** ** The workload of a pod *)

(** How the controllers of Kubernetes name and label the pods of a workload. *)
Inductive pod_of (name : string) : string → string → gmap string string → Prop :=
  (** The pod of a deployment: the name, a part of at least five bytes of [-hash-] (all of it
      unless the name is too long), and the random suffix. *)
  | pod_of_deployment podName labels hash part rest random :
      labels !! podTemplateHashLabel = Some hash → contains dash hash = false →
      "-" ++ hash ++ "-" = part ++ rest → (minTemplateHashMatch <= String.length part)%nat →
      String.length random = randomSuffixLen → podName = name ++ part ++ random →
      pod_of name KindDeployment podName labels
  | pod_of_statefulset podName labels ordinal :
      labels !! podTemplateHashLabel = None →
      labels !! statefulsetLabel = Some (name ++ "-" ++ ordinal) → contains dash ordinal = false →
      pod_of name KindStatefulSet podName labels
  | pod_of_daemonset podName labels random :
      labels !! podTemplateHashLabel = None → labels !! statefulsetLabel = None →
      is_Some (labels !! daemonsetLabel) → String.length random = randomSuffixLen →
      podName = name ++ "-" ++ random →
      pod_of name KindDaemonSet podName labels
  | pod_of_cronjob podName labels jobName digits :
      labels !! podTemplateHashLabel = None → labels !! statefulsetLabel = None →
      labels !! daemonsetLabel = None →
      (labels !! oldJobNameLabel = Some jobName ∨
       labels !! oldJobNameLabel = None ∧ labels !! newJobNameLabel = Some jobName) →
      jobName = name ++ "-" ++ digits → name ≠ "" → contains dash digits = false →
      all_digits digits = true → (8 <= String.length digits <= 10)%nat →
      pod_of name KindCronJob podName labels
  | pod_of_job podName labels :
      labels !! podTemplateHashLabel = None → labels !! statefulsetLabel = None →
      labels !! daemonsetLabel = None →
      (labels !! oldJobNameLabel = Some name ∨
       labels !! oldJobNameLabel = None ∧ labels !! newJobNameLabel = Some name) →
      (∀ before digits, name = before ++ "-" ++ digits → all_digits digits = true →
        (8 <= String.length digits <= 10)%nat → False) →
      pod_of name KindJob podName labels
  | pod_of_pod labels :
      labels !! podTemplateHashLabel = None → labels !! statefulsetLabel = None →
      labels !! daemonsetLabel = None → labels !! oldJobNameLabel = None →
      labels !! newJobNameLabel = None →
      pod_of name KindPod name labels.

Lemma match_hash_step prefix pattern i :
  (minTemplateHashMatch <= i)%nat →
  match_hash prefix pattern i =
    match CutSuffix prefix (default "" (str_take i pattern)) with
    | Some before => Some before
    | None => match_hash prefix pattern (Nat.pred i)
    end.
Proof.
  unfold minTemplateHashMatch. intros Hi. destruct i as [|i]; [lia|]. cbn [match_hash Nat.pred].
  destruct (Nat.ltb_spec (S i) minTemplateHashMatch); [unfold minTemplateHashMatch in *; lia|done].
Qed.

(** The loop reaches the length of the part the name ends with when no longer part of the
    pattern is a suffix. *)
Lemma match_hash_finds name part rest i :
  (minTemplateHashMatch <= String.length part <= i)%nat → (i <= String.length (part ++ rest))%nat →
  (∀ q rest', rest = q ++ rest' → q ≠ "" → CutSuffix (name ++ part) (part ++ q) = None) →
  match_hash (name ++ part) (part ++ rest) i = Some name.
Proof.
  intros [H5 Hi] Hl Hno. remember (i - String.length part)%nat as k eqn:Hk. revert i Hi Hl Hk.
  induction k as [|k IH]; intros i Hi Hl Hk.
  - replace i with (String.length part) by lia. rewrite match_hash_step by done.
    by rewrite str_take_app, CutSuffix_app.
  - rewrite match_hash_step by lia. rewrite string_app_length in Hl.
    destruct (str_take_Some (i - String.length part) rest) as (q & rest' & _ & -> & Hq); [lia|].
    assert (str_take i (part ++ (q ++ rest')) = Some (part ++ q)) as ->.
    { rewrite <- string_app_assoc. replace i with (String.length (part ++ q)) by (rewrite string_app_length; lia).
      apply str_take_app. }
    change (default "" (Some (part ++ q))) with (part ++ q). rewrite (Hno q rest') by (done || (intros ->; cbn in Hq; lia)).
    apply IH; [lia|rewrite string_app_length; lia|lia].
Qed.

Lemma string_app_eq_nil (s t : string) : s = s ++ t → t = "".
Proof.
  intros H. apply (f_equal String.length) in H. rewrite string_app_length in H.
  destruct t; [done|]. cbn in H. lia.
Qed.

(** A proper prefix of a text and one more byte is a prefix of the text. *)
Lemma proper_prefix (s p r : string) c : s ++ String c "" = p ++ r → r ≠ "" → ∃ u, s = p ++ u.
Proof.
  intros He Hr. revert p He. induction s as [|d s IH]; intros p He.
  - destruct p as [|e p]; [by exists ""|]. exfalso.
    apply (f_equal String.length) in He. rewrite !string_app_length in He. destruct r; [done|]. cbn in He. lia.
  - destruct p as [|e p]; [by eexists|]. rewrite !string_app_cons in He. injection He as -> He.
    destruct (IH p He) as [u ->]. by exists u.
Qed.

Lemma proper_prefix_plain hash p r :
  contains dash hash = false → hash ++ "-" = p ++ r → r ≠ "" → contains dash p = false.
Proof.
  intros Hd He Hr. destruct (proper_prefix hash p r dash He Hr) as [u ->].
  rewrite contains_app in Hd. by apply orb_false_iff in Hd as [-> _].
Qed.

(** A name that ends in a dash and at least one byte of the hash does not end in a longer part
    of the pattern. *)
Lemma longer_part_no_suffix name hash h1 q rest' :
  contains dash hash = false → hash ++ "-" = h1 ++ (q ++ rest') → h1 ≠ "" → q ≠ "" →
  CutSuffix (name ++ String dash h1) (String dash h1 ++ q) = None.
Proof.
  intros Hd He Hne Hq. destruct (CutSuffix _ _) as [t|] eqn:Hc; [exfalso|done].
  apply CutSuffix_Some, (f_equal (cut_last dash)) in Hc.
  rewrite string_app_cons, cut_last_app in Hc
    by (eapply proper_prefix_plain; [done..|]; by destruct q).
  destruct (decide (rest' = "")) as [->|Hr].
  - rewrite string_app_nil in He. rewrite <- He, <- string_app_cons, <- string_app_assoc in Hc.
    change "-" with (String dash "") in Hc. rewrite cut_last_app in Hc by done. by injection Hc.
  - rewrite <- string_app_assoc in He. rewrite cut_last_app in Hc by by eapply proper_prefix_plain.
    injection Hc as _ Hc. by apply string_app_eq_nil in Hc.
Qed.

Lemma parseDeployment_part name hash part rest random :
  contains dash hash = false → "-" ++ hash ++ "-" = part ++ rest →
  (minTemplateHashMatch <= String.length part)%nat → String.length random = randomSuffixLen →
  parseDeployment (name ++ part ++ random) hash = Ok (name, KindDeployment).
Proof.
  intros Hd He Hl Hr. unfold parseDeployment. rewrite <- string_app_assoc, drop_last_app, He by done.
  rewrite match_hash_finds; [done| |done|].
  { split; [done|]. rewrite string_app_length. lia. }
  intros q rest' -> Hq. destruct part as [|c h1]; [cbn in Hl; unfold minTemplateHashMatch in Hl; lia|].
  change ("-" ++ hash ++ "-") with (String dash (hash ++ "-")) in He.
  rewrite string_app_cons in He. injection He as <- He.
  apply (longer_part_no_suffix name hash h1 q rest'); [done|done| |done].
  intros ->. cbn in Hl. unfold minTemplateHashMatch in Hl. lia.
Qed.

Lemma cronJob_match name digits :
  name ≠ "" → contains dash digits = false → all_digits digits = true →
  (8 <= String.length digits <= 10)%nat → cronJobNameRegexp (name ++ "-" ++ digits) = Some name.
Proof.
  intros Hne Hd Ha Hl. unfold cronJobNameRegexp. change ("-" ++ digits) with (String dash digits).
  rewrite cut_last_app by done. apply String.eqb_neq in Hne. rewrite Hne, Ha.
  replace (8 <=? String.length digits)%nat with true by (symmetry; apply Nat.leb_le; lia).
  by replace (String.length digits <=? 10)%nat with true by (symmetry; apply Nat.leb_le; lia).
Qed.

Lemma cronJob_no_match name :
  (∀ before digits, name = before ++ "-" ++ digits → all_digits digits = true →
    (8 <= String.length digits <= 10)%nat → False) → cronJobNameRegexp name = None.
Proof.
  intros H. unfold cronJobNameRegexp. destruct (cut_last dash name) as [[before digits]|] eqn:Hc; [|done].
  apply cut_last_Some in Hc as [-> _]. destruct (_ && _) eqn:Hb; [exfalso|done].
  rewrite !andb_true_iff in Hb. destruct Hb as [[[_ Ha] H8%Nat.leb_le] H10%Nat.leb_le].
  by eapply (H before digits).
Qed.


(** The pods the agent cannot attribute.  The names of pods that are labelled as pods of a
    deployment or of a daemon set are cut by five bytes and the label of a stateful set is cut
    at its last dash without a check of what is there: the agent panics exactly when such a name
    is shorter, or such a label has no dash. *)
Theorem getWorkloadInfo_panics_iff podName labels :
  (∃ e, getWorkloadInfo podName labels = Panic e) ↔
  match labels !! podTemplateHashLabel, labels !! statefulsetLabel with
  | Some _, _ => (String.length podName < 5)%nat
  | None, Some statefulPodName => contains dash statefulPodName = false
  | None, None => is_Some (labels !! daemonsetLabel) ∧ (String.length podName < 5)%nat
  end.
Proof.
  unfold getWorkloadInfo, parseDeployment, parseStatefulSet, parseDaemonSet.
  pose proof (drop_last_None 5 podName) as Hdrop. unfold randomSuffixLen.
  destruct (labels !! podTemplateHashLabel) as [hash|].
  { rewrite <- Hdrop. destruct (drop_last 5 podName); [|naive_solver].
    destruct (match_hash _ _ _); naive_solver. }
  destruct (labels !! statefulsetLabel) as [sts|].
  { rewrite <- cut_last_None. destruct (cut_last dash sts) as [[]|]; naive_solver. }
  rewrite <- Hdrop. destruct (labels !! daemonsetLabel) as [x|].
  { destruct (drop_last 5 podName); [|naive_solver]. destruct (CutSuffix _ _); naive_solver. }
  destruct (labels !! oldJobNameLabel), (labels !! newJobNameLabel); naive_solver.
Qed.

(** ** The path of a slice *)

(** The slices from the root to the slice whose name has these components: [a.slice],
    [a-b.slice], ... *)
Definition slice_names (prefix : string) (components : list string) : list string :=
  map (λ k, prefix ++ Join dash (take k components) ++ slice_suffix) (seq 1 (length components)).

(** Components of a slice name. *)
Definition component_ok (c : string) : Prop := c ≠ "" ∧ contains dash c = false ∧ contains slash c = false.

Lemma slice_names_cons prefix c cs :
  slice_names prefix (c :: cs) = (prefix ++ c ++ slice_suffix) :: slice_names (prefix ++ c ++ "-") cs.
Proof.
  unfold slice_names. cbn [length seq map]. f_equal. rewrite <- seq_shift, map_map.
  apply map_ext_in. intros k [Hk Hl]%in_seq. rewrite !string_app_assoc. f_equal.
  destruct cs as [|c' cs]; [cbn in Hl; lia|]. destruct k as [|k]; [lia|].
  cbn [take]. change (Join dash (c :: c' :: take k cs)) with (c ++ String dash (Join dash (c' :: take k cs))).
  by rewrite string_app_assoc.
Qed.

Lemma expand_components_ok cs path prefix :
  Forall (λ c, c ≠ "") cs →
  expand_components cs path prefix = Some (path ++ abs_path (slice_names prefix cs)).
Proof.
  intros H. revert path prefix. induction H as [|c cs Hc _ IH]; intros path prefix.
  - cbn [expand_components]. change (abs_path (slice_names prefix [])) with "". by rewrite string_app_nil.
  - cbn [expand_components]. apply String.eqb_neq in Hc. rewrite Hc, IH, slice_names_cons.
    change (abs_path (?x :: ?l)) with ("/" ++ x ++ abs_path l). by rewrite !string_app_assoc.
Qed.

Lemma expand_components_Some cs path prefix res :
  expand_components cs path prefix = Some res → Forall (λ c, c ≠ "") cs.
Proof.
  revert path prefix. induction cs as [|c cs IH]; intros path prefix; cbn [expand_components]; [by constructor|].
  destruct (String.eqb_spec c ""); [done|]. intros H. constructor; [done|eauto].
Qed.

Lemma contains_Join sep d cs :
  Ascii.eqb sep d = false → contains d (Join sep cs) = false ↔ Forall (λ c, contains d c = false) cs.
Proof.
  intros Hs. induction cs as [|c cs IH]; [by split; [constructor|]|]. destruct cs as [|c' cs].
  - rewrite Forall_singleton. done.
  - change (Join sep (c :: c' :: cs)) with (c ++ String sep (Join sep (c' :: cs))).
    rewrite contains_app, Forall_cons, <- IH. cbn [contains]. rewrite Hs. by rewrite orb_false_iff.
Qed.

Lemma Join_length sep cs : cs ≠ [] → Forall (λ c, c ≠ "") cs → (0 < String.length (Join sep cs))%nat.
Proof.
  destruct cs as [|[|a c] cs]; [done| |]; intros _ H; [by inversion H|]. rewrite Join_cons. cbn. lia.
Qed.

Lemma expand_slice_ok cs :
  cs ≠ [] → Forall component_ok cs →
  SystemdExpandSlice (Join dash cs ++ slice_suffix) = Ok (abs_path (slice_names "" cs)).
Proof.
  intros Hcs Hok. unfold SystemdExpandSlice.
  assert (Forall (λ c, c ≠ "") cs) as Hne by (apply (Forall_impl component_ok _ _ Hok); by intros c [? _]).
  assert (Forall (λ c, contains dash c = false) cs) as Hd by (apply (Forall_impl component_ok _ _ Hok); by intros c [_ [? _]]).
  assert (Forall (λ c, contains slash c = false) cs) as Hsl by (apply (Forall_impl component_ok _ _ Hok); by intros c [_ [_ ?]]).
  pose proof (Join_length dash cs Hcs Hne) as Hlen. rewrite string_app_length.
  destruct (Nat.leb_spec (String.length (Join dash cs) + String.length slice_suffix) (String.length slice_suffix)); [lia|].
  rewrite (proj2 (HasSuffix_spec _ _)) by eauto. cbn [negb orb].
  rewrite contains_app, (proj2 (contains_Join dash slash cs eq_refl)) by done.
  change (contains slash slice_suffix) with false. cbn [orb].
  unfold TrimSuffix. rewrite CutSuffix_app. change (default _ (Some ?x)) with x.
  destruct (String.eqb_spec (Join dash cs) "-") as [He|]; [|by rewrite Split_Join, expand_components_ok].
  exfalso. apply (f_equal (Split dash)) in He. rewrite Split_Join in He by done. subst cs.
  by inversion Hne.
Qed.

(** The path of a slice.  [SystemdExpandSlice] succeeds exactly on the root slice and on
    names [c1-...-cn.slice] of nonempty components without slash, and then returns the path
    through the slices of all the prefixes of the name. *)
Theorem SystemdExpandSlice_iff slice path :
  SystemdExpandSlice slice = Ok path ↔
  slice = "-.slice" ∧ path = "/" ∨
  ∃ components, components ≠ [] ∧ Forall component_ok components ∧
    slice = Join dash components ++ slice_suffix ∧ path = abs_path (slice_names "" components).
Proof.
  split; [|intros [[-> ->]|(cs & Hcs & Hok & -> & ->)]; [by vm_compute|by apply expand_slice_ok]].
  unfold SystemdExpandSlice. destruct (HasSuffix slice slice_suffix) eqn:Hs; [|by rewrite orb_true_r].
  apply HasSuffix_spec in Hs as [name ->]. unfold TrimSuffix. rewrite CutSuffix_app.
  change (default _ (Some name)) with name.
  destruct (_ || _); [done|]. destruct (contains slash _) eqn:Hsl; [done|].
  destruct (String.eqb_spec name "-") as [->|]; [intros [= <-]; by left|].
  destruct (expand_components _ _ _) as [res|] eqn:He; [|done]. intros [= <-]. right.
  apply expand_components_Some in He as Hne. rewrite expand_components_ok in He by done. injection He as <-.
  destruct (Split_words dash name) as [Hw Hd]. exists (Split dash name). rewrite Join_Split. split_and!; [done| |done|done].
  rewrite contains_app, orb_false_iff, <- (Join_Split dash name), contains_Join in Hsl by done.
  destruct Hsl as [Hsl _]. rewrite !Forall_forall in *. unfold component_ok. auto.
Qed.

(** A name that ends in [.slice] or [.scope] is not special in a path. *)
Lemma plain_suffix s t : contains slash s = false → contains slash t = false → (2 < String.length t)%nat → plain_name (s ++ t).
Proof.
  intros Hs Ht Hl. unfold plain_name. rewrite contains_app, Hs, Ht. split_and!; [done|..];
    intros H; apply (f_equal String.length) in H; rewrite string_app_length in H; cbn in H; lia.
Qed.

Lemma slice_names_plain prefix cs :
  contains slash prefix = false → Forall component_ok cs → Forall plain_name (slice_names prefix cs).
Proof.
  intros Hp H. revert prefix Hp. induction H as [|c cs (_ & _ & Hc) _ IH]; intros prefix Hp; [by constructor|].
  rewrite slice_names_cons. constructor.
  - rewrite <- string_app_assoc. apply plain_suffix; [by rewrite contains_app, Hp, Hc|done|cbn; lia].
  - apply IH. by rewrite !contains_app, Hp, Hc.
Qed.

Lemma Split3 sep a b c :
  contains sep a = false → contains sep b = false → contains sep c = false →
  Split sep (a ++ String sep (b ++ String sep c)) = [a; b; c].
Proof. intros Ha Hb Hc. rewrite Split_app by done. rewrite Split_app by done. by rewrite Split_plain. Qed.

(** The cgroup path of a container under systemd.  The path [slice:runtime:id] of a
    container runtime becomes the path through the slices of the prefixes of the slice name to
    the scope [runtime-id.scope]. *)
Theorem ParseCgroupsPath_systemd components runtime id :
  components ≠ [] → Forall component_ok components → Forall (λ c, contains colon c = false) components →
  contains colon runtime = false → contains slash runtime = false →
  contains colon id = false → contains slash id = false → HasSuffix id slice_suffix = false →
  ParseCgroupsPath (Join dash components ++ slice_suffix ++ ":" ++ runtime ++ ":" ++ id) =
    Ok (abs_path (slice_names "" components ++ [runtime ++ "-" ++ id ++ ".scope"])).
Proof.
  intros Hne Hok Hcol Hrc Hrs Hic His Hsuf. unfold ParseCgroupsPath.
  change (":" ++ runtime ++ ":" ++ id) with (String colon (runtime ++ String colon id)).
  assert (contains slash (Join dash components) = false) as Hs.
  { apply contains_Join; [done|]. apply (Forall_impl component_ok _ _ Hok). by intros c (_ & _ & ?). }
  rewrite !contains_app, Hs. cbn [contains]. rewrite contains_app, Hrs. cbn [contains]. rewrite His.
  change (contains slash slice_suffix) with false. cbn [orb Ascii.eqb].
  rewrite <- string_app_assoc, Split3; [|rewrite contains_app; by rewrite (proj2 (contains_Join dash colon _ eq_refl))|done..].
  assert (SystemdExpandSlice (Join dash components ++ slice_suffix) = Ok (abs_path (slice_names "" components))) as ->.
  { by apply expand_slice_ok. }
  rewrite Hsuf. f_equal. apply path_Join_name; [by apply slice_names_plain| |by left].
  rewrite <- !string_app_assoc. apply plain_suffix; [|done|cbn; lia]. by rewrite !contains_app, Hrs, His.
Qed.

(** ** Kernel versions *)

(** The release of a kernel [major.minor.patch], with what a vendor appends after a dash. *)
Definition version_string (major minor patch : Z) : string :=
  FormatInt major ++ "." ++ FormatInt minor ++ "." ++ FormatInt patch.
Definition release_of (major minor patch : Z) (vendor : option string) : string :=
  version_string major minor patch ++ match vendor with Some v => "-" ++ v | None => "" end.

Lemma Split_dash_release s vendor :
  contains dash s = false →
  default "" (Split dash (s ++ match vendor with Some v => "-" ++ v | None => "" end) !! 0%nat) = s.
Proof.
  intros Hs. destruct vendor as [v|]; [|by rewrite string_app_nil, Split_plain].
  change ("-" ++ v) with (String dash v). by rewrite Split_app.
Qed.

Lemma contains_version c major minor patch :
  digit_value c = None → Ascii.eqb dot c = false → 0 <= major → 0 <= minor → 0 <= patch →
  contains c (version_string major minor patch) = false.
Proof.
  intros Hc Hd H1 H2 H3. unfold version_string. change "." with (String dot ""). rewrite !contains_app, !contains_FormatInt by done.
  cbn [contains]. by rewrite Hd.
Qed.

Lemma TrimSuffix_plain s c : contains c s = false → TrimSuffix s (String c "") = s.
Proof.
  intros Hs. unfold TrimSuffix. destruct (CutSuffix s _) as [t|] eqn:Hc; [|done].
  apply CutSuffix_Some in Hc as ->. rewrite contains_app in Hs. cbn in Hs.
  by rewrite Ascii.eqb_refl, !orb_true_r in Hs.
Qed.

Lemma currKernelVersion_release major minor patch vendor :
  0 <= major < 2 ^ 31 → 0 <= minor < 2 ^ 31 → 0 <= patch < 2 ^ 31 →
  currKernelVersion (release_of major minor patch vendor) = major * 2 ^ 16 + minor * 2 ^ 8 + Z.min patch 255.
Proof.
  intros HM Hm Hp. unfold currKernelVersion, release_of, KernelStringToNumeric.
  pose proof (contains_version dash major minor patch eq_refl eq_refl ltac:(lia) ltac:(lia) ltac:(lia)) as Hdash.
  pose proof (contains_version plus_char major minor patch eq_refl eq_refl ltac:(lia) ltac:(lia) ltac:(lia)) as Hplus.
  rewrite Split_dash_release by done. change "+" with (String plus_char ""). rewrite TrimSuffix_plain by done.
  rewrite (Split_plain dash) by done. change (default "" ([?x] !! 0%nat)) with x. rewrite TrimRight_plain by done.
  unfold version_string.
  change (?a ++ "." ++ ?b ++ "." ++ ?c) with (a ++ String dot (b ++ String dot c)). rewrite Split3 by (apply contains_FormatInt; [done|lia]).
  cbn [lookup list_lookup default from_option id]. rewrite !ParseInt32_FormatInt by lia. cbn [from_option id].
  rewrite !Z.shiftl_mul_pow2 by lia. destruct (Z.ltb_spec 255 patch); lia.
Qed.

Lemma KernelStringToNumeric_short a b :
  0 <= a < 2 ^ 31 → 0 <= b < 2 ^ 31 →
  KernelStringToNumeric (FormatInt a ++ "." ++ FormatInt b) = a * 2 ^ 16 + b * 2 ^ 8.
Proof.
  intros Ha Hb. unfold KernelStringToNumeric. change ("." ++ ?x) with (String dot x).
  assert (∀ c, digit_value c = None → Ascii.eqb dot c = false →
    contains c (FormatInt a ++ String dot (FormatInt b)) = false) as Hno.
  { intros c Hc Hd. rewrite contains_app. cbn [contains]. rewrite Hd, !contains_FormatInt; (done || lia). }
  rewrite (Split_plain dash) by by apply Hno. change (default "" ([?x] !! 0%nat)) with x.
  rewrite TrimRight_plain by by apply Hno.
  rewrite Split_app, Split_plain by (apply contains_FormatInt; [done|lia]).
  cbn [lookup list_lookup default from_option id]. rewrite !ParseInt32_FormatInt by lia.
  change (ParseInt32 "") with (@None Z). cbn [from_option id]. rewrite !Z.shiftl_mul_pow2 by lia. change (255 <? 0)%Z with false. cbn match. lia.
Qed.

(** Kernel releases are compared as versions.  For a release [major.minor.patch], with or
    without a vendor suffix, the test against a version [a.b] is the lexicographic order of the
    numbers, whatever the patch number is, as long as the minor numbers fit in a byte.  The tests
    that choose the layout of the string maps are those of [5.9] and [5.11]. *)
Theorem CurrVersionIsLowerThan_iff major minor patch vendor a b :
  0 <= major < 2 ^ 31 → 0 <= minor <= 255 → 0 <= patch < 2 ^ 31 → 0 <= a < 2 ^ 31 → 0 <= b <= 255 →
  CurrVersionIsLowerThan (release_of major minor patch vendor) (FormatInt a ++ "." ++ FormatInt b) = true ↔
  major < a ∨ major = a ∧ minor < b.
Proof.
  intros. unfold CurrVersionIsLowerThan. rewrite currKernelVersion_release, KernelStringToNumeric_short by lia. lia.
Qed.

Lemma isKernelPre5_9_release release : isKernelPre5_9 (currKernelVersion release) = CurrVersionIsLowerThan release "5.9".
Proof. reflexivity. Qed.

(** ** Instances *)

(** A pod of the deployment [ubuntu-deployment]. *)
Definition ubuntu_labels : gmap string string := {[ podTemplateHashLabel := "674bcc58f4" ]}.

Lemma ubuntu_pod : pod_of "ubuntu-deployment" KindDeployment "ubuntu-deployment-674bcc58f4-pwvps" ubuntu_labels.
Proof.
  apply (pod_of_deployment _ _ _ "674bcc58f4" "-674bcc58f4-" "" "pwvps");
    try reflexivity. apply Nat.leb_le. vm_compute. reflexivity.
Qed.


Lemma CurrVersionIsLowerThan_iff_witness :
  CurrVersionIsLowerThan "5.4.300-1104-aws" "5.9" = true.
Proof. apply (CurrVersionIsLowerThan_iff 5 4 300 (Some "1104-aws") 5 9); lia. Defined.

(** The example of the comment of [ParseCgroupsPath], shortened. *)
Lemma ParseCgroupsPath_systemd_witness :
  ParseCgroupsPath "kubelet-kubepods-pod83b090de.slice:cri-containerd:18b2adc8" =
  Ok "/kubelet.slice/kubelet-kubepods.slice/kubelet-kubepods-pod83b090de.slice/cri-containerd-18b2adc8.scope".
Proof.
  refine (ParseCgroupsPath_systemd ["kubelet"; "kubepods"; "pod83b090de"] "cri-containerd" "18b2adc8" _ _ _ _ _ _ _ _);
    try reflexivity; try done; repeat constructor; done.
Defined.
