(* ===== verification/CgroupTracker.v ===== *)
(** * Cgroup resolution and the cgroup tracker

    The first half of [src/bpf/main.c]: how a task is mapped to a cgroup id, how cgroup ids
    are mapped to tracker ids (the id of the container cgroup they descend from), the
    tests that recognise container bootstrap and foreign-root execs, the log ring buffer,
    and the two tracepoint programs that keep [cgtracker_map] up to date. *)
From S2P Require Import Prelude CLayout ProgramTypes KernelLayout Kernel ConcreteKernel.
Local Open Scope Z_scope.

Definition CGROUP_SUPER_MAGIC : Z := 0x27e0eb.
Definition CGROUP2_SUPER_MAGIC : Z := 0x63677270.
Definition MNT_INTERNAL : Z := 0x4000.

Section programs.
  Context `{K : Kernel, L : KernelLayout} (load_time_config : load_conf).

(** [cgrp_get_tracker_id]: [0] when the cgroup is not tracked. *)
Definition cgrp_get_tracker_id (s : bpf_state) (cgid : Z) : Z :=
  match cgtracker_map s !! cgid with
  | Some ret => ret
  | None => 0
  end.

(** ** Cgroup helpers *)

Definition get_cgroup_level (cgrp : Z) : Z :=
  read_u32 (field_addr cgrp cgroup_level).

Definition __get_cgroup_kn_id (kn : Z) : Z :=
  if kn =? 0 then 0
  else if has_kernfs_node_old_id then
    let '(r, id) := core_read 8 (field_addr kn kernfs_node_old_id) in
    if negb (r =? 0) then 0 else id
  else read_u64 (field_addr kn kernfs_node_id).

Definition __get_cgroup_kn (cgrp : Z) : Z :=
  if cgrp =? 0 then 0
  else read_ptr (field_addr cgrp cgroup_kn).

Definition get_cgroup_id (cgrp : Z) : Z :=
  let kn := __get_cgroup_kn cgrp in
  __get_cgroup_kn_id kn.

Definition get_task_cgroup (task cgrp_fs_ver subsys_idx : Z) : Z :=
  let cgroups := read_ptr (field_addr task task_cgroups) in
  if cgroups =? 0 then 0
  else if cgrp_fs_ver =? CGROUP2_SUPER_MAGIC then
    read_ptr (field_addr cgroups css_set_dfl_cgrp)
  else if pids_cgrp_id <? subsys_idx then 0
  else
    let subsys := read_ptr (field_addr cgroups (css_set_subsys + 8 * subsys_idx)) in
    if subsys =? 0 then 0
    else read_ptr (field_addr subsys css_cgroup).

Definition tg_get_current_cgroup_id : Z :=
  if has_get_current_cgroup_id && (cgrp_fs_magic load_time_config =? CGROUP2_SUPER_MAGIC)
  then bpf_get_current_cgroup_id
  else
    let task := bpf_get_current_task in
    let cgrp := get_task_cgroup task (cgrp_fs_magic load_time_config)
                  (cgrpv1_subsys_idx load_time_config) in
    if cgrp =? 0 then 0 else get_cgroup_id cgrp.

Definition get_tracker_id_from_curr_task (s : bpf_state) : Z :=
  let cgroupid := tg_get_current_cgroup_id in
  if cgroupid =? 0 then 0
  else
    let trackerid := cgrp_get_tracker_id s cgroupid in
    if trackerid =? 0 then 0 else trackerid.

Definition get_tracker_id_from_task (s : bpf_state) (task : Z) : Z :=
  let cgrp := get_task_cgroup task (cgrp_fs_magic load_time_config)
                (cgrpv1_subsys_idx load_time_config) in
  if cgrp =? 0 then 0
  else
    let cgroupid := get_cgroup_id cgrp in
    if cgroupid =? 0 then 0 else cgrp_get_tracker_id s cgroupid.

(** [BPF_CORE_READ(task, nsproxy, mnt_ns, ns.inum)]. *)
Definition read_mnt_ns_inum (task : Z) : Z :=
  let nsproxy := read_ptr (field_addr task task_nsproxy) in
  let mnt_ns := read_ptr (field_addr nsproxy nsproxy_mnt_ns) in
  read_u32 (field_addr mnt_ns mnt_namespace_ns_inum).

Definition exec_is_runtime_bootstrap (s : bpf_state) (cg_tracker_id : Z) : bool :=
  let ref := host_mnt_ns_inum load_time_config in
  if ref =? 0 then false
  else
    let task := bpf_get_current_task in
    let inum := read_mnt_ns_inum task in
    if negb (inum =? ref) then false
    else
      let parent := read_ptr (field_addr task task_real_parent) in
      if parent =? 0 then false
      else negb (get_tracker_id_from_task s parent =? cg_tracker_id).

Definition exec_is_foreign_root (bprm : Z) : bool :=
  let file := read_ptr (field_addr bprm bprm_file) in
  if file =? 0 then false
  else
    let vfsmnt := read_ptr (field_addr file (file_f_path + path_mnt)) in
    if vfsmnt =? 0 then false
    else
      let mnt_flags := read_u32 (field_addr vfsmnt vfsmount_mnt_flags) in
      if negb (Z.land mnt_flags MNT_INTERNAL =? 0) then false
      else
        let mnt := container_of vfsmnt mount_mnt in
        let file_ns := read_ptr (field_addr mnt mount_mnt_ns) in
        if file_ns =? 0 then false
        else
          let file_inum := read_u32 (field_addr file_ns mnt_namespace_ns_inum) in
          let task := bpf_get_current_task in
          let task_inum := read_mnt_ns_inum task in
          negb (file_inum =? task_inum).

(** ** Log helpers *)

(** [sizeof(struct log_evt)], see [ProgramTypes.log_evt_decl]. *)
Definition sizeof_log_evt : nat := 56.

Definition emit_log_event_args (code : log_code) (arg1 arg2 : Z) : prog unit := λ s,
  if ringbuf_reserve_ok RB_logs sizeof_log_evt then
    let evt := {|
      le_code := code;
      le_comm := snd bpf_get_current_comm;
      le_cg_tracker_id := get_tracker_id_from_curr_task s;
      le_pid := Z.land bpf_get_current_pid_tgid 0xFFFFFFFF;
      le_tgid := u32 (Z.shiftr bpf_get_current_pid_tgid 32);
      le_arg1 := arg1;
      le_arg2 := arg2 |} in
    (tt, set_ringbuf_logs (ringbuf_logs s ++ [evt]) s)
  else (tt, s).

Definition emit_log_event (code : log_code) : prog unit := emit_log_event_args code 0 0.
Definition emit_log_event_1 (code : log_code) (arg1 : Z) : prog unit :=
  emit_log_event_args code arg1 0.
Definition emit_log_event_2 (code : log_code) (arg1 arg2 : Z) : prog unit :=
  emit_log_event_args code arg1 arg2.

(** ** Nested cgroup tracker *)

Definition cgroup_get_parent_id (cgrp : Z) : Z :=
  if has_cgroup_ancestors then
    let level := get_cgroup_level cgrp in
    if level <=? 0 then 0
    else
      let ancestor := read_ptr (field_addr cgrp (cgroup_ancestors + 8 * (level - 1))) in
      let kn := read_ptr (field_addr ancestor cgroup_kn) in
      read_u64 (field_addr kn kernfs_node_id)
  else
    let parent_css := read_ptr (field_addr cgrp (cgroup_self + css_parent)) in
    if negb (parent_css =? 0) then
      let parent := container_of parent_css cgroup_self in
      get_cgroup_id parent
    else 0.

Definition tg_cgtracker_cgroup_mkdir (cgrp : Z) : prog Z :=
  let cgid := get_cgroup_id cgrp in
  if cgid =? 0 then
    emit_log_event LOG_FAIL_TO_RESOLVE_CGROUP_ID ;; mret 0
  else
    let cgid_parent := cgroup_get_parent_id cgrp in
    if cgid_parent =? 0 then
      emit_log_event LOG_FAIL_TO_RESOLVE_PARENT_CGROUP_ID ;; mret 0
    else
      s ← get_state;
      match cgtracker_map s !! cgid_parent with
      | Some cgid_tracker =>
          modify (λ s, set_cgtracker_map
            (snd (hash_update TRACKER_MAP_MAX_ENTRIES cgid cgid_tracker (cgtracker_map s))) s) ;;
          mret 0
      | None => mret 0
      end.

Definition tg_cgtracker_cgroup_release (cgrp : Z) : prog Z :=
  let cgid := get_cgroup_id cgrp in
  if cgid =? 0 then
    emit_log_event LOG_FAIL_TO_RESOLVE_CGROUP_ID ;; mret 0
  else
    modify (λ s, set_cgtracker_map (delete cgid (cgtracker_map s)) s) ;;
    mret 0.
End programs.

(** ** Properties *)

Section resolution.
  Context `{K : Kernel, L : KernelLayout} (conf : load_conf).

(** Both ways to find the parent of a cgroup agree with the cgroup tree.  When the
    kernel's data says that the parent of [cgrp] is the cgroup [par] (the last entry of
    [ancestors] on new kernels, the [self.parent] state on older ones), the id the tracker
    computes is the id of [par]. *)
Theorem cgroup_get_parent_id_correct cgrp par :
  is_ptr par → par ≠ 0 → __get_cgroup_kn par ≠ 0 → 0 < get_cgroup_level cgrp →
  (if has_cgroup_ancestors
   then has_kernfs_node_old_id = false ∧
        read_ptr (field_addr cgrp (cgroup_ancestors + 8 * (get_cgroup_level cgrp - 1))) = par
   else read_ptr (field_addr cgrp (cgroup_self + css_parent)) = field_addr par cgroup_self ∧
        field_addr par cgroup_self ≠ 0) →
  cgroup_get_parent_id cgrp = get_cgroup_id par.
Proof.
  intros Hptr Hpar Hkn Hlevel H. unfold cgroup_get_parent_id, get_cgroup_id, __get_cgroup_kn_id.
  destruct has_cgroup_ancestors; destruct H as [H1 H2].
  - rewrite (proj2 (Z.leb_gt _ _) Hlevel), H1, H2, (proj2 (Z.eqb_neq _ 0) Hkn).
    unfold __get_cgroup_kn. by rewrite (proj2 (Z.eqb_neq _ 0) Hpar).
  - rewrite H1, (proj2 (Z.eqb_neq _ 0) H2). cbn [negb]. by rewrite container_of_field_addr.
Qed.

Lemma tracker_of_cgroup s cg :
  (let id := if cg =? 0 then 0 else get_cgroup_id cg in
   if id =? 0 then 0
   else let t := cgrp_get_tracker_id s id in if t =? 0 then 0 else t) =
  if cg =? 0 then 0
  else let id := get_cgroup_id cg in if id =? 0 then 0 else cgrp_get_tracker_id s id.
Proof.
  destruct (cg =? 0); [done|]. cbv zeta. destruct (get_cgroup_id cg =? 0); [done|].
  destruct (cgrp_get_tracker_id s (get_cgroup_id cg) =? 0) eqn:?; lia.
Qed.

(** The fast path that finds the container of the current task agrees with the general
    one.  If [bpf_get_current_cgroup_id] returns, as documented, the id of the task's cgroup
    in the default hierarchy, both functions give the same tracker id. *)
Theorem current_task_fast_path s :
  (cgrp_fs_magic conf = CGROUP2_SUPER_MAGIC →
   bpf_get_current_cgroup_id =
     get_cgroup_id (read_ptr (field_addr (read_ptr (field_addr bpf_get_current_task task_cgroups))
                                css_set_dfl_cgrp))) →
  read_ptr (field_addr bpf_get_current_task task_cgroups) ≠ 0 →
  get_tracker_id_from_curr_task conf s = get_tracker_id_from_task conf s bpf_get_current_task.
Proof.
  intros Hcur Hcss. unfold get_tracker_id_from_curr_task, get_tracker_id_from_task,
    tg_get_current_cgroup_id, get_task_cgroup.
  rewrite (proj2 (Z.eqb_neq _ 0) Hcss).
  destruct (cgrp_fs_magic conf =? CGROUP2_SUPER_MAGIC) eqn:Hv2.
  - rewrite andb_true_r, Hcur by lia. set (cg := read_ptr (field_addr _ css_set_dfl_cgrp)).
    etrans; [|apply (tracker_of_cgroup s cg)]. destruct has_get_current_cgroup_id; [|done].
    destruct (cg =? 0) eqn:H0; [|done]. by replace cg with 0 by lia.
  - rewrite andb_false_r. apply (tracker_of_cgroup s).
Qed.

(** ** The tracepoint programs *)

(** The tracker map after a cgroup [id] is created under [parent]. *)
Definition tracker_mkdir (id parent : Z) (m : gmap Z Z) : gmap Z Z :=
  match m !! parent with
  | Some t => snd (hash_update TRACKER_MAP_MAX_ENTRIES id t m)
  | None => m
  end.

Lemma mkdir_run cgrp s :
  get_cgroup_id cgrp ≠ 0 → cgroup_get_parent_id cgrp ≠ 0 →
  tg_cgtracker_cgroup_mkdir conf cgrp s =
    (0, set_cgtracker_map
          (tracker_mkdir (get_cgroup_id cgrp) (cgroup_get_parent_id cgrp) (cgtracker_map s)) s).
Proof.
  intros Hid Hp. unfold tg_cgtracker_cgroup_mkdir, tracker_mkdir.
  rewrite (proj2 (Z.eqb_neq _ 0) Hid), (proj2 (Z.eqb_neq _ 0) Hp).
  unfold get_state, modify, mbind, prog_bind, mret, prog_ret. case_match; [done|]. by destruct s.
Qed.

Lemma release_run cgrp s :
  get_cgroup_id cgrp ≠ 0 →
  tg_cgtracker_cgroup_release conf cgrp s =
    (0, set_cgtracker_map (delete (get_cgroup_id cgrp) (cgtracker_map s)) s).
Proof.
  intros Hid. unfold tg_cgtracker_cgroup_release. by rewrite (proj2 (Z.eqb_neq _ 0) Hid).
Qed.

Lemma tracker_mkdir_lookup id p m k :
  tracker_mkdir id p m !! k = m !! k ∨ k = id ∧ tracker_mkdir id p m !! id = m !! p.
Proof.
  unfold tracker_mkdir. destruct (m !! p) as [t|] eqn:Hp; [|by left].
  unfold hash_update. destruct (decide (k = id)) as [->|Hne].
  - repeat case_match; simpl; try rewrite lookup_insert_eq; auto.
  - repeat case_match; simpl; try rewrite lookup_insert_ne by done; auto.
Qed.
End resolution.

(** ** Instances *)

Lemma cgroup_get_parent_id_correct_witness :
  let K := x86_exec bin_sh in let L := x86_layout in
  cgroup_get_parent_id CGROUP = get_cgroup_id PARENT_CGROUP ∧
  get_cgroup_id PARENT_CGROUP = pod_cgroup.
Proof.
  intros K L. split; [|vm_compute; reflexivity].
  apply (cgroup_get_parent_id_correct CGROUP PARENT_CGROUP);
    [vm_compute; split; [discriminate|reflexivity]|discriminate|vm_compute; discriminate
    |vm_compute; reflexivity|vm_compute; split; reflexivity].
Defined.

Lemma current_task_fast_path_witness :
  let K := x86_exec bin_sh in let L := x86_layout in
  get_tracker_id_from_curr_task sample_conf tracked_state =
    get_tracker_id_from_task sample_conf tracked_state bpf_get_current_task.
Proof.
  intros K L. apply (current_task_fast_path sample_conf tracked_state); [intros _; vm_compute; reflexivity|].
  vm_compute. discriminate.
Defined.
