(* ===== verification/CgroupInfo.v ===== *)
(** * The cgroup hierarchy of the host

    [src/internal/cgroups/cgroup_info.go] and [cgroup_parse.go] (the id of a cgroup), and
    [src/internal/bpf/config.go]: how the agent finds the cgroup hierarchy in which it resolves
    the cgroups of containers, and the configuration it gives to the eBPF programs, which
    resolve the cgroup of a task in the kernel.  The system calls are parameters. *)
From S2P Require Import Prelude GoStd CLayout ProgramTypes KernelLayout Kernel StringMaps PolicyValues CgroupTracker Names.
Local Open Scope Z_scope.

(** [lstat], [statfs], [stat] and [name_to_handle_at], and the lines of a file. *)
Class HostFs := {
  Lstat_Dev : string → go_result Z;
  Statfs_Type : string → go_result Z;
  Stat_Ino : string → go_result Z;
  file_lines : string → go_result (list string);
  NameToHandleAt : string → go_result bytes;
}.

Definition CgroupSubsysCount : nat := 14.
Definition defaultCgroupMountPoint : string := "/proc/1/root/sys/fs/cgroup".
Definition procCgroupPath : string := "/proc/cgroups".
Definition memoryControllerName : string := "memory".
Definition hostInitMntNsPath : string := "/proc/1/ns/mnt".

Definition TMPFS_MAGIC : Z := 16914836.

Record CgroupInfo := MkCgroupInfo {
  cgroupResolutionPrefix : string;
  fsMagic : Z;
  subsysV1Idx : Z;
}.

(** [filepath.Dir] of a clean absolute path. *)
Definition path_Dir (path : string) : string :=
  match cut_last slash path with
  | Some (EmptyString, _) => "/"
  | Some (dir, _) => dir
  | None => "."
  end.

(** The loop over the lines after the first one: the first fields, at most
    [CgroupSubsysCount] of them, [idx] of which are read already. *)
Fixpoint controller_names (lines : list string) (idx : nat) : go_result (list string) :=
  match lines with
  | [] => Ok []
  | line :: lines' =>
      match Fields line with
      | [] => Err "failed to parse cgroupv1 controllers: line has no fields"
      | name :: _ =>
          if (CgroupSubsysCount <=? S idx)%nat then Ok [name]
          else match controller_names lines' (S idx) with
               | Ok names => Ok (name :: names)
               | e => e
               end
      end
  end.

Fixpoint index_of (name : string) (names : list string) (i : Z) : option Z :=
  match names with
  | [] => None
  | n :: names' => if (n =? name)%string then Some i else index_of name names' (i + 1)
  end.

Section host.
  Context `{H : HostFs}.

Definition findMemoryController (path : string) : go_result Z :=
  match file_lines path with
  | Ok lines =>
      match controller_names (tail lines) 0 with
      | Ok names =>
          match index_of memoryControllerName names 0 with
          | Some i => Ok i
          | None => Err "no 'memory' controller"
          end
      | Err e => Err e
      | Panic e => Panic e
      end
  | _ => Err "failed to open"
  end.

Definition getMountPointType (path : string) : go_result Z :=
  match Lstat_Dev path with
  | Ok dev =>
      match Lstat_Dev (path_Dir path) with
      | Ok pdev =>
          if dev =? pdev then Err "does not appear to be a mount point"
          else match Statfs_Type path with
               | Ok fstype => Ok fstype
               | _ => Err "failed to get fs info"
               end
      | _ => Err "error accessing parent path"
      end
  | _ => Err "error accessing path"
  end.

Definition getCgroupInfo : go_result CgroupInfo :=
  match getMountPointType defaultCgroupMountPoint with
  | Ok fsType =>
      if fsType =? CGROUP2_SUPER_MAGIC then Ok (MkCgroupInfo defaultCgroupMountPoint CGROUP2_SUPER_MAGIC 0)
      else if fsType =? TMPFS_MAGIC then
        match findMemoryController procCgroupPath with
        | Ok idx =>
            let controllerPath := path_Join defaultCgroupMountPoint memoryControllerName in
            match getMountPointType controllerPath with
            | Ok _ => Ok (MkCgroupInfo controllerPath CGROUP_SUPER_MAGIC idx)
            | _ => Err "cannot get mount point type"
            end
        | Err e => Err e
        | Panic e => Panic e
        end
      else Err "unsupported cgroup filesystem type"
  | _ => Err "cannot get mount point type"
  end.

Definition GetCgroupResolutionPrefix : go_result string :=
  match getCgroupInfo with
  | Ok info => Ok (cgroupResolutionPrefix info)
  | _ => Panic "cgroup info should be initialized by the bpf manager"
  end.

(** The first eight bytes of the handle, in the order of the machine. *)
Definition GetCgroupIDFromPath (cgroupPath : string) : go_result Z :=
  match NameToHandleAt cgroupPath with
  | Ok handle =>
      if (length handle <? 8)%nat then Err "decoding NameToHandleAt data failed"
      else Ok (le_val (take 8 handle))
  | _ => Err "nameToHandle failed"
  end.

Definition getHostMntNsInum : Z :=
  match Stat_Ino hostInitMntNsPath with
  | Ok ino => ino
  | _ => 0
  end.

Definition getLoadTimeConfig (enableLearning : bool) : go_result load_conf :=
  match getCgroupInfo with
  | Ok cgInfo =>
      Ok (LoadConf (fsMagic cgInfo) getHostMntNsInum (subsysV1Idx cgInfo) 0
            (if enableLearning then 1 else 0))
  | _ => Err "cannot get cgroup info"
  end.
End host.

(** ** Which hierarchy is used *)

(** The controller a line of [/proc/cgroups] is about. *)
Definition line_controller (line : string) : option string := head (Fields line).

Lemma controller_names_spec lines idx names :
  controller_names lines idx = Ok names → (idx < CgroupSubsysCount)%nat →
  (idx + length names <= CgroupSubsysCount)%nat ∧
  ∀ i name, names !! i = Some name → ∃ line, lines !! i = Some line ∧ line_controller line = Some name.
Proof.
  unfold CgroupSubsysCount. revert idx names. induction lines as [|line lines IH]; intros idx names H Hidx; cbn [controller_names] in H.
  { injection H as <-. split; [cbn; lia|done]. }
  destruct (Fields line) as [|name rest] eqn:Hf; [done|].
  assert (line_controller line = Some name) as Hl by (unfold line_controller; by rewrite Hf).
  destruct (Nat.leb_spec CgroupSubsysCount (S idx)) as [|Hlt].
  { injection H as <-. split; [cbn; lia|]. intros [|i] n Hn; [|done]. injection Hn as <-. eauto. }
  destruct (controller_names lines (S idx)) as [names'| |] eqn:Hr; [|done..]. injection H as <-.
  destruct (IH _ _ Hr) as [Hlen Hall]; [unfold CgroupSubsysCount in Hlt; lia|]. split; [cbn; lia|].
  intros [|i] n Hn; [injection Hn as <-; eauto|]. by apply Hall.
Qed.

Lemma index_of_Some name names i j :
  index_of name names i = Some j →
  ∃ k, j = i + Z.of_nat k ∧ names !! k = Some name.
Proof.
  revert i. induction names as [|n names IH]; intros i; cbn [index_of]; [done|].
  destruct (String.eqb_spec n name) as [->|]; [intros [= <-]; exists 0%nat; split; [lia|done]|].
  intros (k & -> & Hk)%IH. exists (S k). split; [lia|done].
Qed.

(** The program and the agent agree on the hierarchy of [conf]: on a unified hierarchy both use
    the mount point; on a host with version 1 hierarchies both use the memory controller, the
    program through its number, the one of its line in [/proc/cgroups] (without the first). *)
Definition same_hierarchy `{HostFs} (conf : load_conf) (prefix : string) : Prop :=
  cgrp_fs_magic conf = CGROUP2_SUPER_MAGIC ∧ prefix = defaultCgroupMountPoint ∨
  cgrp_fs_magic conf ≠ CGROUP2_SUPER_MAGIC ∧ prefix = (defaultCgroupMountPoint ++ "/memory")%string ∧
  ∃ lines k line, file_lines procCgroupPath = Ok lines ∧ (k < CgroupSubsysCount)%nat ∧
    cgrpv1_subsys_idx conf = Z.of_nat k ∧ lines !! S k = Some line ∧
    line_controller line = Some memoryControllerName.

Section agreement.
  Context `{H : HostFs}.

Lemma findMemoryController_Ok path i :
  findMemoryController path = Ok i →
  ∃ lines k line, file_lines path = Ok lines ∧ (k < CgroupSubsysCount)%nat ∧ i = Z.of_nat k ∧
    lines !! S k = Some line ∧ line_controller line = Some memoryControllerName.
Proof.
  unfold findMemoryController. destruct (file_lines path) as [lines| |]; [|done..].
  destruct (controller_names (tail lines) 0) as [names| |] eqn:Hc; [|done..].
  destruct (index_of _ _ _) as [j|] eqn:Hi; [|done]. intros [= <-].
  apply index_of_Some in Hi as (k & -> & Hk).
  apply controller_names_spec in Hc as [Hlen Hall]; [|unfold CgroupSubsysCount; lia].
  destruct (Hall _ _ Hk) as (line & Hline & Hl). exists lines, k, line.
  apply lookup_lt_Some in Hk. split_and!; [done|lia|done| |done]. by destruct lines.
Qed.

(** C27: the agent and the eBPF programs resolve cgroups in the same hierarchy.  When the
    configuration of the programs can be computed, the path prefix under which the agent looks
    up the cgroups of containers is known, and both are the unified hierarchy or both are that of
    the memory controller, whose number is in the range of the kernel's table. *)
Theorem getLoadTimeConfig_agrees learning conf :
  getLoadTimeConfig learning = Ok conf →
  debug_mode conf = 0 ∧ (learning_enabled conf = 1 ↔ learning = true) ∧
  ∃ prefix, GetCgroupResolutionPrefix = Ok prefix ∧ same_hierarchy conf prefix.
Proof.
  unfold getLoadTimeConfig, GetCgroupResolutionPrefix, getCgroupInfo.
  destruct (getMountPointType defaultCgroupMountPoint) as [t| |]; [|done..].
  destruct (t =? CGROUP2_SUPER_MAGIC).
  { intros [= <-]. split_and!; [done|by destruct learning|]. eexists. split; [done|]. by left. }
  destruct (t =? TMPFS_MAGIC); [|done].
  destruct (findMemoryController procCgroupPath) as [idx| |] eqn:Hf; [|done..].
  destruct (getMountPointType _) as [t'| |]; [|done..]. intros [= <-].
  split_and!; [done|by destruct learning|]. eexists. split; [done|]. right.
  apply findMemoryController_Ok in Hf as (lines & k & line & ? & ? & -> & ? & ?).
  split_and!; [done|by vm_compute|]. by exists lines, k, line.
Qed.
End agreement.

(** ** A host with version 1 hierarchies *)

Definition v1_host : HostFs := {|
  Lstat_Dev := λ path,
    Ok (if (path =? defaultCgroupMountPoint)%string then 2
        else if (path =? "/proc/1/root/sys/fs/cgroup/memory")%string then 3 else 1);
  Statfs_Type := λ _, Ok TMPFS_MAGIC;
  Stat_Ino := λ _, Ok 4026531841;
  file_lines := λ _, Ok ["#subsys_name hierarchy num_cgroups enabled"; "cpuset 12 192 1"; "cpu 7 610 1"; "memory 13 623 1"];
  NameToHandleAt := λ _, Err "not found";
|}.

Lemma getLoadTimeConfig_agrees_witness :
  ∃ conf prefix, getLoadTimeConfig (H := v1_host) true = Ok conf ∧ cgrpv1_subsys_idx conf = 2 ∧
    same_hierarchy (H := v1_host) conf prefix.
Proof.
  eexists.
  destruct (getLoadTimeConfig_agrees (H := v1_host) true (LoadConf CGROUP_SUPER_MAGIC 4026531841 2 0 1))
    as (_ & _ & prefix & _ & Hs).
  { vm_compute. reflexivity. }
  exists prefix. split_and!; [vm_compute; reflexivity|reflexivity|exact Hs].
Defined.
