(* ===== verification/DPath.v ===== *)
(** * Path resolution

    [src/bpf/d_path_resolution.h]: the approximation of the kernel's [d_path] that rebuilds
    the path of an executable from its dentry and mount, from the last component to the
    first, into the second of the three [MAX_PATH_LEN] segments of a buffer. *)
From S2P Require Import Prelude CLayout VmlinuxX86 VmlinuxArm64 ProgramTypes KernelLayout Kernel ConcreteKernel.
Local Open Scope Z_scope.

Definition MAX_COMPONENT_LEN : Z := 256.
Definition FALLBACK_PATH_ITERATIONS : nat := 512.
Definition PATH_ITERATIONS : nat := 2048.

Definition DELETED_STRING : bytes := bytes_of_string " (deleted)".

Definition SAFE_PATH_LEN (x : Z) : Z := Z.land x (MAX_PATH_LEN - 1).
Definition SAFE_PATH_ACCESS (x : Z) : Z := Z.land x (MAX_PATH_LEN * 2 - 1).
Definition SAFE_COMPONENT_ACCESS (x : Z) : Z := Z.land x (MAX_COMPONENT_LEN - 1).

Definition slash : Z := 47.

(** The working state of the walk; the buffer [bptr] points to is part of it. *)
Record path_read_data := PathReadData {
  rd_root_dentry : Z;
  rd_root_mnt : Z;
  rd_dentry : Z;
  rd_vfsmnt : Z;
  rd_mnt : Z;
  rd_bptr : bytes;
  rd_curr_off : Z;
  rd_resolved : bool;
}.

Definition set_resolved (d : path_read_data) : path_read_data :=
  PathReadData (rd_root_dentry d) (rd_root_mnt d) (rd_dentry d) (rd_vfsmnt d) (rd_mnt d)
    (rd_bptr d) (rd_curr_off d) true.
Definition set_location (dentry vfsmnt mnt : Z) (d : path_read_data) : path_read_data :=
  PathReadData (rd_root_dentry d) (rd_root_mnt d) dentry vfsmnt mnt
    (rd_bptr d) (rd_curr_off d) (rd_resolved d).
Definition set_buffer (buf : bytes) (off : Z) (d : path_read_data) : path_read_data :=
  PathReadData (rd_root_dentry d) (rd_root_mnt d) (rd_dentry d) (rd_vfsmnt d) (rd_mnt d)
    buf off (rd_resolved d).

Section d_path.
  Context `{K : Kernel, L : KernelLayout}.

Definition IS_ROOT (dentry : Z) : bool :=
  let d_parent := read_ptr (field_addr dentry dentry_d_parent) in
  dentry =? d_parent.

Definition hlist_bl_unhashed (h : Z) : bool :=
  let pprev := read_ptr (field_addr h hlist_bl_node_pprev) in
  pprev =? 0.

Definition d_unhashed (dentry : Z) : bool := hlist_bl_unhashed (field_addr dentry dentry_d_hash).

Definition d_unlinked (dentry : Z) : bool := d_unhashed dentry && negb (IS_ROOT dentry).

(** [bpf_core_read(&d_name, sizeof(struct qstr), &dentry->d_name)]: the length and the
    name pointer of the copy. *)
Definition read_qstr (dentry : Z) : Z * Z :=
  let q := snd (probe_read (field_addr dentry dentry_d_name) (Z.to_nat qstr_size)) in
  (le_val (read qstr_len 4 q), le_val (read qstr_name 8 q)).

(** The two stores of [copy_name]: the offset and the bytes of each. *)
Definition copy_name_stores (buflen len name : Z) : list (Z * bytes) :=
  [(SAFE_PATH_ACCESS buflen, [slash]);
   (SAFE_PATH_ACCESS (u32 (buflen + 1)),
    snd (probe_read name (Z.to_nat (SAFE_COMPONENT_ACCESS len))))].

Definition copy_name (buf : bytes) (buflen : Z) (dentry : Z) : bytes * Z :=
  let '(len, name) := read_qstr dentry in
  let buflen := u32 (buflen - u32 (len + 1)) in
  (foldl (λ b '(o, bs), write o bs b) buf (copy_name_stores buflen len name), buflen).

(** [path_read]: the new state and whether the walk stops ([return 1]). *)
Definition path_read (data : path_read_data) : path_read_data * bool :=
  let dentry := rd_dentry data in
  let vfsmnt := rd_vfsmnt data in
  let mnt := rd_mnt data in
  if (dentry =? rd_root_dentry data) && (vfsmnt =? rd_root_mnt data) then
    (set_resolved data, true)
  else
    let vfsmnt_mnt_root := read_ptr (field_addr vfsmnt vfsmount_mnt_root) in
    if (dentry =? vfsmnt_mnt_root) || IS_ROOT dentry then
      let m_parent := read_ptr (field_addr mnt mount_mnt_parent) in
      if rd_mnt data =? m_parent then (set_resolved data, true)
      else
        let mountpoint := read_ptr (field_addr mnt mount_mnt_mountpoint) in
        (set_location mountpoint (field_addr m_parent mount_mnt) m_parent data, false)
    else
      let '(buf, off) := copy_name (rd_bptr data) (rd_curr_off data) dentry in
      let d_parent := read_ptr (field_addr dentry dentry_d_parent) in
      (set_location d_parent vfsmnt mnt (set_buffer buf off data), false).

(** [bpf_repeat(n)] and the bounded [for]: at most [n] steps. *)
Fixpoint path_loop (n : nat) (data : path_read_data) : path_read_data :=
  match n with
  | O => data
  | S n' => let '(data', stop) := path_read data in
            if stop then data' else path_loop n' data'
  end.

(** The dentry and mount the walk treats as the root.  [root] receives the first
    [sizeof(root)] bytes of [fs->root]. *)
Definition read_task_root : Z * Z :=
  let fs := read_ptr (field_addr bpf_get_current_task task_fs) in
  let root := read_ptr (field_addr fs fs_root) in
  (read_ptr (field_addr root path_dentry), read_ptr (field_addr root path_mnt)).

(** Returns the offset of the path in the buffer, [0] on failure, and the buffer. *)
Definition bpf_d_path_approx (path : Z) (buf : bytes) : Z * bytes :=
  let off := MAX_PATH_LEN * 2 in
  let '(err, dentry) := core_read 8 (field_addr path path_dentry) in
  if negb (err =? 0) then (0, buf)
  else
    let '(off, buf) :=
      if d_unlinked dentry then
        let off := off - Z.of_nat (length DELETED_STRING) in
        (off, write (SAFE_PATH_ACCESS off) DELETED_STRING buf)
      else (off, buf) in
    let '(root_dentry, root_mnt) := read_task_root in
    let dentry := read_ptr (field_addr path path_dentry) in
    let vfsmnt := read_ptr (field_addr path path_mnt) in
    let mnt := container_of vfsmnt mount_mnt in
    let data := PathReadData root_dentry root_mnt dentry vfsmnt mnt buf off false in
    let data :=
      if has_bpf_iter_num_new then path_loop PATH_ITERATIONS data
      else path_loop FALLBACK_PATH_ITERATIONS data in
    let '(buf, off) :=
      if rd_curr_off data =? MAX_PATH_LEN * 2
      then copy_name (rd_bptr data) (rd_curr_off data) (rd_dentry data)
      else (rd_bptr data, rd_curr_off data) in
    if rd_resolved data then (off, buf) else (0, buf).
End d_path.

(** ** Masks *)

Lemma SAFE_PATH_LEN_mod x : SAFE_PATH_LEN x = x mod 4096.
Proof. apply (land_mask x 12). lia. Qed.
Lemma SAFE_PATH_ACCESS_mod x : SAFE_PATH_ACCESS x = x mod 8192.
Proof. apply (land_mask x 13). lia. Qed.
Lemma SAFE_COMPONENT_ACCESS_mod x : SAFE_COMPONENT_ACCESS x = x mod 256.
Proof. apply (land_mask x 8). lia. Qed.

Lemma SAFE_PATH_LEN_range x : 0 <= SAFE_PATH_LEN x < 4096.
Proof. rewrite SAFE_PATH_LEN_mod. apply Z.mod_pos_bound. lia. Qed.
Lemma SAFE_PATH_ACCESS_range x : 0 <= SAFE_PATH_ACCESS x < 8192.
Proof. rewrite SAFE_PATH_ACCESS_mod. apply Z.mod_pos_bound. lia. Qed.
Lemma SAFE_COMPONENT_ACCESS_range x : 0 <= SAFE_COMPONENT_ACCESS x < 256.
Proof. rewrite SAFE_COMPONENT_ACCESS_mod. apply Z.mod_pos_bound. lia. Qed.

Lemma SAFE_PATH_LEN_small x : 0 <= x < 4096 → SAFE_PATH_LEN x = x.
Proof. intros. rewrite SAFE_PATH_LEN_mod. by apply Z.mod_small. Qed.
Lemma SAFE_PATH_ACCESS_small x : 0 <= x < 8192 → SAFE_PATH_ACCESS x = x.
Proof. intros. rewrite SAFE_PATH_ACCESS_mod. by apply Z.mod_small. Qed.
Lemma SAFE_COMPONENT_ACCESS_small x : 0 <= x < 256 → SAFE_COMPONENT_ACCESS x = x.
Proof. intros. rewrite SAFE_COMPONENT_ACCESS_mod. by apply Z.mod_small. Qed.

Lemma write_nil off buf : write off [] buf = buf.
Proof. unfold write. rewrite take_nil, Nat.add_0_r. simpl. apply take_drop. Qed.

(** ** What the walk computes

    [walk rd rv d m cs n]: following parents from the dentry [d] on the mount [m], the
    root (the pair [rd], [rv] or the root of the mount tree) is reached in [n] steps, over
    the path components [cs], last component first. *)
Section spec.
  Context `{K : Kernel, L : KernelLayout}.

Definition vfsmnt_of (m : Z) : Z := field_addr m mount_mnt.
Definition d_parent_of (d : Z) : Z := read_ptr (field_addr d dentry_d_parent).
Definition mount_parent_of (m : Z) : Z := read_ptr (field_addr m mount_mnt_parent).
Definition mountpoint_of (m : Z) : Z := read_ptr (field_addr m mount_mnt_mountpoint).

(** [d] is the root dentry of the mount [m]. *)
Definition at_mount_root (d m : Z) : bool :=
  (d =? read_ptr (field_addr (vfsmnt_of m) vfsmount_mnt_root)) || IS_ROOT d.

(** The name of a dentry: at most 255 bytes, as the kernel guarantees. *)
Definition dentry_name (d : Z) : option bytes :=
  let '(len, name) := read_qstr d in
  if len <? 256 then Some (snd (probe_read name (Z.to_nat len))) else None.

Inductive walk (rd rv : Z) : Z → Z → list bytes → nat → Prop :=
  | walk_task_root d m :
      d = rd → vfsmnt_of m = rv → walk rd rv d m [] 0
  | walk_global_root d m :
      ¬ (d = rd ∧ vfsmnt_of m = rv) → at_mount_root d m = true → mount_parent_of m = m →
      walk rd rv d m [] 0
  | walk_mountpoint d m cs n :
      ¬ (d = rd ∧ vfsmnt_of m = rv) → at_mount_root d m = true → mount_parent_of m ≠ m →
      walk rd rv (mountpoint_of m) (mount_parent_of m) cs n →
      walk rd rv d m cs (S n)
  | walk_component d m nm cs n :
      ¬ (d = rd ∧ vfsmnt_of m = rv) → at_mount_root d m = false → dentry_name d = Some nm →
      walk rd rv (d_parent_of d) m cs n →
      walk rd rv d m (nm :: cs) (S n).

(** The path string of components given last first. *)
Definition path_of (cs : list bytes) : bytes := concat ((cons slash) <$> rev cs).

Lemma path_of_cons nm cs : path_of (nm :: cs) = path_of cs ++ slash :: nm.
Proof. unfold path_of. simpl. rewrite fmap_app, concat_app. simpl. by rewrite app_nil_r. Qed.

(** The walk as a function: the components and the number of steps. *)
Fixpoint run_walk (fuel : nat) (rd rv d m : Z) : option (list bytes * nat) :=
  if (d =? rd) && (vfsmnt_of m =? rv) then Some ([], 0%nat)
  else if at_mount_root d m then
    if mount_parent_of m =? m then Some ([], 0%nat)
    else
      match fuel with
      | O => None
      | S fuel' =>
          prod_map id S <$> run_walk fuel' rd rv (mountpoint_of m) (mount_parent_of m)
      end
  else
    match fuel, dentry_name d with
    | S fuel', Some nm => prod_map (cons nm) S <$> run_walk fuel' rd rv (d_parent_of d) m
    | _, _ => None
    end.

Lemma run_walk_sound fuel rd rv d m cs n :
  run_walk fuel rd rv d m = Some (cs, n) → walk rd rv d m cs n.
Proof.
  revert d m cs n. induction fuel as [|fuel IH]; intros d m cs n; simpl;
    (destruct ((d =? rd) && (vfsmnt_of m =? rv)) eqn:Hroot;
      [intros; simplify_eq; apply walk_task_root; lia|]);
    (destruct (at_mount_root d m) eqn:Hat;
      [destruct (mount_parent_of m =? m) eqn:Hm;
        [intros; simplify_eq; apply walk_global_root; [lia|done|lia]|]|]); try done.
  - intros ([cs' n'] & Hw & Heq)%fmap_Some. simplify_eq/=. apply walk_mountpoint; [lia|done|lia|by apply IH].
  - destruct (dentry_name d) as [nm|] eqn:Hnm; [|done].
    intros ([cs' n'] & Hw & Heq)%fmap_Some. simplify_eq/=. apply walk_component; [lia|done|done|by apply IH].
Qed.

(** ** [copy_name] *)

(** A component that fits in front of what is already there is stored exactly, with
    its slash; nothing else changes. *)
Lemma copy_name_fits `{!KernelOk K} d nm off pre old post :
  dentry_name d = Some nm → off <= 8192 →
  length old = S (length nm) → Z.of_nat (length pre) = off - Z.of_nat (S (length nm)) →
  copy_name (pre ++ old ++ post) off d = (pre ++ (slash :: nm) ++ post, off - Z.of_nat (S (length nm))).
Proof.
  intros Hnm Hoff Hold Hpre. unfold dentry_name in Hnm. unfold copy_name.
  destruct (read_qstr d) as [len name] eqn:Hq.
  assert (0 <= len) as Hlen0.
  { unfold read_qstr in Hq. simplify_eq. apply le_val_range.
    unfold read. apply Forall_take, Forall_drop, probe_read_bytes. }
  destruct (len <? 256) eqn:Hlen; simplify_eq/=.
  pose proof (probe_read_length name (Z.to_nat len)) as Hnl.
  rewrite Hnl in *. rewrite (u32_small (len + 1)) by lia.
  rewrite (u32_small (off - (len + 1))) by lia.
  replace (off - (len + 1)) with (Z.of_nat (length pre)) by lia.
  rewrite (u32_small (Z.of_nat (length pre) + 1)) by lia.
  rewrite (SAFE_COMPONENT_ACCESS_small len) by lia.
  rewrite (SAFE_PATH_ACCESS_small (Z.of_nat (length pre))) by lia.
  f_equal; [|lia].
  destruct old as [|x old]; [done|].
  rewrite (write_app pre [x] (old ++ post) [slash]) by len.
  set (nm := snd (probe_read name (Z.to_nat len))) in *.
  destruct (decide (len = 0)) as [->|Hne].
  { destruct nm; [|done]. destruct old; [|done]. by rewrite write_nil. }
  rewrite (SAFE_PATH_ACCESS_small (Z.of_nat (length pre) + 1)) by lia.
  rewrite (app_assoc pre [slash]), (write_app (pre ++ [slash]) old post nm) by (simpl in *; len).
  by rewrite <- app_assoc.
Qed.

(** ** One step of the walk *)

Lemma path_read_stop rd rv buf off b d m :
  (d = rd ∧ vfsmnt_of m = rv) ∨ (at_mount_root d m = true ∧ mount_parent_of m = m) →
  path_read (PathReadData rd rv d (vfsmnt_of m) m buf off b) =
    (PathReadData rd rv d (vfsmnt_of m) m buf off true, true).
Proof.
  unfold path_read, at_mount_root, mount_parent_of, set_resolved; simpl.
  intros [[-> ->]|[Hr Hp]]; [by rewrite !Z.eqb_refl|].
  case_match; [done|]. by rewrite Hr, Hp, Z.eqb_refl.
Qed.

Lemma path_read_mountpoint rd rv buf off b d m :
  ¬ (d = rd ∧ vfsmnt_of m = rv) → at_mount_root d m = true → mount_parent_of m ≠ m →
  path_read (PathReadData rd rv d (vfsmnt_of m) m buf off b) =
    (PathReadData rd rv (mountpoint_of m) (vfsmnt_of (mount_parent_of m)) (mount_parent_of m) buf off b,
     false).
Proof.
  unfold path_read, at_mount_root, mount_parent_of, mountpoint_of, set_location; simpl.
  intros Hroot Hr Hp. case_match eqn:Hc; [lia|]. rewrite Hr.
  case_match eqn:Hm; [lia|done].
Qed.

Lemma path_read_component rd rv buf off b d m :
  ¬ (d = rd ∧ vfsmnt_of m = rv) → at_mount_root d m = false →
  path_read (PathReadData rd rv d (vfsmnt_of m) m buf off b) =
    (PathReadData rd rv (d_parent_of d) (vfsmnt_of m) m
       (fst (copy_name buf off d)) (snd (copy_name buf off d)) b, false).
Proof.
  unfold path_read, at_mount_root, d_parent_of, set_location, set_buffer; simpl.
  intros Hroot Hr. case_match eqn:Hc; [lia|]. rewrite Hr.
  by destruct (copy_name buf off d).
Qed.

(** ** The loop *)

(** With enough iterations and enough room, the walk writes its path in front of what the
    buffer already holds and leaves the rest alone. *)
Lemma path_loop_walk `{!KernelOk K} rd rv d m cs n fuel off pre cur :
  walk rd rv d m cs n → (n < fuel)%nat →
  off = Z.of_nat (length pre) → off <= 8192 → Z.of_nat (length (path_of cs)) <= off →
  ∃ d' m' pre',
    path_loop fuel (PathReadData rd rv d (vfsmnt_of m) m (pre ++ cur) off false) =
      PathReadData rd rv d' (vfsmnt_of m') m' (pre' ++ path_of cs ++ cur)
        (off - Z.of_nat (length (path_of cs))) true ∧
    Z.of_nat (length pre') = off - Z.of_nat (length (path_of cs)) ∧
    pre' = take (length pre') pre ∧
    (cs = [] → n = 0%nat → d' = d).
Proof.
  intros Hw. revert fuel off pre cur.
  induction Hw as [d m Hd Hm|d m Hroot Hr Hp|d m cs n Hroot Hr Hp Hw IH|d m nm cs n Hroot Hr Hnm Hw IH];
    intros [|fuel] off pre cur Hn Hoff Hmax Hlen; try lia; cbn [path_loop].
  - rewrite path_read_stop by auto. exists d, m, pre. cbn. rewrite Z.sub_0_r, firstn_all. done.
  - rewrite path_read_stop by auto. exists d, m, pre. cbn. rewrite Z.sub_0_r, firstn_all. done.
  - rewrite path_read_mountpoint by done.
    destruct (IH fuel off pre cur) as (d' & m' & pre' & -> & Hpre' & Htake & _); [lia|done..|].
    exists d', m', pre'. done.
  - rewrite path_read_component by done. rewrite path_of_cons in *.
    set (k := (length pre - S (length nm))%nat).
    assert (length pre = (k + S (length nm))%nat) as Hk by (unfold k; autorewrite with len in *; lia).
    rewrite <- (take_drop k pre). rewrite <- !app_assoc.
    rewrite (copy_name_fits d nm off (take k pre) (drop k pre) cur Hnm Hmax) by len.
    cbn [fst snd].
    destruct (IH fuel (off - Z.of_nat (S (length nm))) (take k pre) ((slash :: nm) ++ cur))
      as (d' & m' & pre' & Heq & Hpre' & Htake & _); [autorewrite with len in *; lia..|].
    rewrite Heq. exists d', m', pre'. autorewrite with len in *.
    split_and!; [|lia| |done].
    + f_equal; first [lia | by rewrite <- !app_assoc].
    + rewrite Htake at 1. rewrite take_take, take_app_le by len.
      rewrite take_take. f_equal.
Qed.

(** With fewer iterations than the walk needs, it does not resolve. *)
Lemma path_loop_short rd rv d m cs n fuel buf off :
  walk rd rv d m cs n → (fuel <= n)%nat →
  rd_resolved (path_loop fuel (PathReadData rd rv d (vfsmnt_of m) m buf off false)) = false.
Proof.
  intros Hw. revert fuel buf off.
  induction Hw as [d m Hd Hm|d m Hroot Hr Hp|d m cs n Hroot Hr Hp Hw IH|d m nm cs n Hroot Hr Hnm Hw IH];
    intros [|fuel] buf off Hn; try lia; try done; cbn [path_loop].
  - rewrite path_read_mountpoint by done. apply IH. lia.
  - rewrite path_read_component by done. apply IH. lia.
Qed.
End spec.

(** ** The whole resolution *)
Section resolution.
  Context `{K : Kernel, L : KernelLayout, !KernelOk K}.

Definition path_iterations : nat :=
  if has_bpf_iter_num_new then PATH_ITERATIONS else FALLBACK_PATH_ITERATIONS.

(** The mount a [struct path] is on. *)
Definition path_mount (path : Z) : Z := container_of (read_ptr (field_addr path path_mnt)) mount_mnt.

Lemma vfsmnt_of_path_mount path : vfsmnt_of (path_mount path) = read_ptr (field_addr path path_mnt).
Proof. apply field_addr_container_of, read_ptr_is_ptr. Qed.

Definition deleted_suffix (d : Z) : bytes := if d_unlinked d then DELETED_STRING else [].

(** The buffer once the marker of a deleted file, if any, is in place. *)
Definition start_off (d : Z) : Z := 8192 - Z.of_nat (length (deleted_suffix d)).
Definition start_buf (d : Z) (buf : bytes) : bytes :=
  take (Z.to_nat (start_off d)) buf ++ deleted_suffix d ++ drop (Z.to_nat 8192) buf.

Lemma start_buf_eq d buf :
  Z.of_nat (length buf) = 12288 →
  (if d_unlinked d then
     (8192 - Z.of_nat (length DELETED_STRING),
      write (SAFE_PATH_ACCESS (8192 - Z.of_nat (length DELETED_STRING))) DELETED_STRING buf)
   else (8192, buf)) = (start_off d, start_buf d buf).
Proof.
  intros Hlen. unfold start_buf, start_off, deleted_suffix. destruct (d_unlinked d); simpl length.
  - f_equal. change (SAFE_PATH_ACCESS _) with 8182. unfold write.
    rewrite (take_ge DELETED_STRING) by (simpl length; lia).
    simpl length. f_equal.
  - f_equal. rewrite app_nil_l. symmetry. apply take_drop.
Qed.

(** The state the walk starts from. *)
Lemma d_path_start path buf d :
  core_read 8 (field_addr path path_dentry) = (0, d) → Z.of_nat (length buf) = 12288 →
  bpf_d_path_approx path buf =
    let data := path_loop path_iterations
      (PathReadData (fst read_task_root) (snd read_task_root) d
         (vfsmnt_of (path_mount path)) (path_mount path) (start_buf d buf) (start_off d) false) in
    let '(buf', off') :=
      if rd_curr_off data =? 8192 then copy_name (rd_bptr data) (rd_curr_off data) (rd_dentry data)
      else (rd_bptr data, rd_curr_off data) in
    if rd_resolved data then (off', buf') else (0, buf').
Proof.
  intros Hd Hlen. unfold bpf_d_path_approx. rewrite Hd. cbn [negb Z.eqb].
  change (MAX_PATH_LEN * 2) with 8192. rewrite (start_buf_eq d buf Hlen).
  replace (read_ptr (field_addr path path_dentry)) with d by (unfold read_ptr; by rewrite Hd).
  rewrite vfsmnt_of_path_mount. fold (path_mount path). unfold path_iterations.
  destruct read_task_root as [rd rv]. by destruct has_bpf_iter_num_new.
Qed.

Lemma bpf_d_path_approx_run path buf d cs n p :
  core_read 8 (field_addr path path_dentry) = (0, d) →
  walk (fst read_task_root) (snd read_task_root) d (path_mount path) cs n →
  (n < path_iterations)%nat → cs ≠ [] →
  p = path_of cs ++ deleted_suffix d →
  Z.of_nat (length p) <= 8192 → Z.of_nat (length buf) = 12288 →
  bpf_d_path_approx path buf =
    (8192 - Z.of_nat (length p),
     take (Z.to_nat (8192 - Z.of_nat (length p))) buf ++ p ++ drop (Z.to_nat 8192) buf).
Proof.
  intros Hd Hw Hn Hcs -> Hp Hlen. rewrite (d_path_start path buf d Hd Hlen).
  rewrite length_app in Hp.
  destruct (path_loop_walk _ _ _ _ _ _ path_iterations (start_off d)
    (take (Z.to_nat (start_off d)) buf) (deleted_suffix d ++ drop (Z.to_nat 8192) buf) Hw Hn)
    as (d' & m' & pre' & Heq & Hpre' & Htake & _); [unfold start_off in *; len..|].
  unfold start_buf. rewrite Heq. cbn [rd_curr_off rd_bptr rd_resolved].
  assert (1 <= Z.of_nat (length (path_of cs))).
  { destruct cs as [|c cs]; [done|]. rewrite path_of_cons. len. }
  unfold start_off in *. rewrite (proj2 (Z.eqb_neq _ 8192)) by lia. cbn.
  apply (f_equal2 pair); [len|]. rewrite <- app_assoc. f_equal.
  rewrite Htake, take_take. f_equal. len.
Qed.

(** C7: path resolution is correct.  When the dentry of the executable is reached from the
    root of the walk over the components [cs] within the iteration bound, and the path
    (with the marker of deleted files) fits the two first segments, the program returns the
    offset of exactly that path string, which it has written just before the third segment;
    the third segment, and every byte below the path, are as before. *)
Theorem bpf_d_path_approx_correct path buf d cs n p :
  core_read 8 (field_addr path path_dentry) = (0, d) →
  walk (fst read_task_root) (snd read_task_root) d (path_mount path) cs n →
  (n < path_iterations)%nat → cs ≠ [] →
  p = path_of cs ++ deleted_suffix d →
  Z.of_nat (length p) <= 8192 → Z.of_nat (length buf) = 12288 →
  bpf_d_path_approx path buf =
    (8192 - Z.of_nat (length p),
     take (Z.to_nat (8192 - Z.of_nat (length p))) buf ++ p ++ drop (Z.to_nat 8192) buf).
Proof. apply bpf_d_path_approx_run. Qed.

(** Files without a path (memfd files: the dentry is its own parent on a mount that is
    its own parent) resolve to a slash and the name of their dentry. *)
Theorem bpf_d_path_approx_memfd path buf d nm :
  core_read 8 (field_addr path path_dentry) = (0, d) →
  IS_ROOT d = true → mount_parent_of (path_mount path) = path_mount path →
  dentry_name d = Some nm → Z.of_nat (length buf) = 12288 →
  bpf_d_path_approx path buf =
    (8192 - Z.of_nat (S (length nm)),
     take (Z.to_nat (8192 - Z.of_nat (S (length nm)))) buf ++ (slash :: nm) ++
     drop (Z.to_nat 8192) buf).
Proof.
  intros Hd Hroot Hm Hnm Hlen. rewrite (d_path_start path buf d Hd Hlen).
  assert (deleted_suffix d = []) as Hsuf.
  { unfold deleted_suffix, d_unlinked. by rewrite Hroot, andb_false_r. }
  assert (length nm <= 255)%nat as Hnl.
  { unfold dentry_name in Hnm. destruct (read_qstr d) as [l a]. case_match; simplify_eq.
    rewrite probe_read_length. lia. }
  assert (at_mount_root d (path_mount path) = true) as Hat.
  { unfold at_mount_root. by rewrite Hroot, orb_true_r. }
  unfold start_buf, start_off. rewrite Hsuf. cbn [length app]. rewrite Z.sub_0_r.
  assert (∃ fuel, path_iterations = S fuel) as [fuel ->].
  { unfold path_iterations. destruct has_bpf_iter_num_new; eexists; reflexivity. }
  cbn [path_loop]. rewrite path_read_stop by auto.
  cbn [rd_curr_off rd_bptr rd_dentry rd_resolved]. rewrite Z.eqb_refl.
  set (k := Z.to_nat (8192 - Z.of_nat (S (length nm)))).
  rewrite <- (take_drop k (take (Z.to_nat 8192) buf)), <- app_assoc.
  rewrite (copy_name_fits d nm 8192 _ _ _ Hnm) by (unfold k; len).
  rewrite take_take, Nat.min_l by (unfold k; lia). done.
Qed.

(** A path deeper than the iteration bound is a failure (offset [0]), never a
    truncated path. *)
Theorem bpf_d_path_approx_too_deep path buf d cs n :
  core_read 8 (field_addr path path_dentry) = (0, d) →
  walk (fst read_task_root) (snd read_task_root) d (path_mount path) cs n →
  (path_iterations <= n)%nat → Z.of_nat (length buf) = 12288 →
  fst (bpf_d_path_approx path buf) = 0.
Proof.
  intros Hd Hw Hn Hlen. rewrite (d_path_start path buf d Hd Hlen). cbn zeta.
  rewrite (path_loop_short _ _ _ _ _ _ _ _ _ Hw Hn). by case_match.
Qed.

(** Whatever the kernel memory holds, every store of [copy_name] is inside the
    three-segment buffer: no length or offset read from the kernel can make the program
    write past it. *)
Theorem copy_name_stores_in_bounds buflen len name o bs :
  (o, bs) ∈ copy_name_stores buflen len name →
  0 <= o ∧ o + Z.of_nat (length bs) <= MAX_PATH_LEN * 3.
Proof.
  unfold copy_name_stores. change (MAX_PATH_LEN * 3) with 12288.
  intros [H|[H|[]%elem_of_nil]%elem_of_cons]%elem_of_cons; simplify_eq.
  - pose proof (SAFE_PATH_ACCESS_range buflen). simpl. lia.
  - pose proof (SAFE_PATH_ACCESS_range (u32 (buflen + 1))).
    pose proof (SAFE_COMPONENT_ACCESS_range len). rewrite probe_read_length. lia.
Qed.
End resolution.

(** ** Instances *)

Lemma bpf_d_path_approx_correct_witness :
  let K := x86_exec bin_sh in let L := x86_layout in
  bpf_d_path_approx (FILE + file_f_path) (pe_path fresh_evt) =
    (8185, take (Z.to_nat 8185) (pe_path fresh_evt) ++ bin_sh_path ++
           drop (Z.to_nat 8192) (pe_path fresh_evt)).
Proof.
  intros K L.
  apply (bpf_d_path_approx_correct (FILE + file_f_path) (pe_path fresh_evt) (DENTRY 2) (rev bin_sh) 2
    bin_sh_path); [vm_compute; reflexivity| |vm_compute; lia|done|vm_compute; reflexivity|done..].
  apply (run_walk_sound 2). vm_compute. reflexivity.
Defined.

Lemma bpf_d_path_approx_memfd_witness :
  let K := machine_kernel (memfd_machine (L := x86_layout) (bytes_of_string "memfd:x")) in
  let L := x86_layout in
  fst (bpf_d_path_approx (FILE + file_f_path) (pe_path fresh_evt)) = 8184.
Proof.
  intros K L. rewrite (bpf_d_path_approx_memfd _ _ (DENTRY 0) (bytes_of_string "memfd:x"));
    vm_compute; reflexivity.
Defined.

(** 512 directories below each other. *)
Definition deep_names : list bytes := replicate 512 (letters 1).

Lemma bpf_d_path_approx_too_deep_witness :
  let K := machine_kernel (fallback_machine (L := x86_layout) deep_names) in let L := x86_layout in
  fst (bpf_d_path_approx (FILE + file_f_path) (pe_path fresh_evt)) = 0.
Proof.
  intros K L.
  apply (bpf_d_path_approx_too_deep _ _ (DENTRY 512) deep_names 512);
    [vm_compute; reflexivity| |vm_compute; lia|done].
  apply (run_walk_sound 512). vm_compute. reflexivity.
Defined.

Lemma copy_name_stores_in_bounds_witness :
  let K := x86_exec bin_sh in
  0 <= 4999 ∧ 4999 + 1 <= MAX_PATH_LEN * 3.
Proof.
  intros K. apply (copy_name_stores_in_bounds 13191 2 (NAME 2) 4999 [slash]).
  vm_compute. left.
Defined.

(** ** The root the walk compares with *)

(** The location a task's root really is: the [struct path] embedded in its
    [struct fs_struct]. *)
Definition task_root_path `{K : Kernel, L : KernelLayout} : Z :=
  field_addr (read_ptr (field_addr bpf_get_current_task task_fs)) fs_root.

(** [fs->root] is a [struct path] stored in [struct fs_struct], not a pointer.  The
    program loads its first eight bytes, the address of the root's [vfsmount], and reads a
    [struct path] there: what it takes for the root dentry is the [mnt_sb] (super block)
    of that [vfsmount], and what it takes for the root mount is its [mnt_root] dentry. *)
Theorem read_task_root_is_vfsmount `{K : Kernel} :
  let reads_vfsmount (L : KernelLayout) (mnt_root mnt_sb : Z) :=
    let vfsmnt := read_ptr (field_addr task_root_path path_mnt) in
    read_task_root = (read_ptr (field_addr vfsmnt mnt_sb), read_ptr (field_addr vfsmnt mnt_root)) in
  reads_vfsmount x86_layout (off x86_env "struct vfsmount" ["mnt_root"])
    (off x86_env "struct vfsmount" ["mnt_sb"]) ∧
  reads_vfsmount arm64_layout (off arm64_env "struct vfsmount" ["mnt_root"])
    (off arm64_env "struct vfsmount" ["mnt_sb"]).
Proof.
  intros reads. unfold reads, read_task_root, task_root_path.
  replace (off x86_env "struct vfsmount" ["mnt_root"]) with 0 by (vm_compute; done).
  replace (off x86_env "struct vfsmount" ["mnt_sb"]) with 8 by (vm_compute; done).
  replace (off arm64_env "struct vfsmount" ["mnt_root"]) with 0 by (vm_compute; done).
  replace (off arm64_env "struct vfsmount" ["mnt_sb"]) with 8 by (vm_compute; done).
  assert (∀ a, field_addr (field_addr a 24) 0 = field_addr a 24) as Ha.
  { intros a. unfold field_addr at 1. rewrite Z.add_0_r. apply u64_small, field_addr_is_ptr. }
  split; cbn [x86_layout arm64_layout fs_root path_mnt path_dentry task_fs]; by rewrite Ha.
Qed.
