(* ===== verification/Enforce.v ===== *)
(** * The exec hook

    The second half of [src/bpf/main.c]: the program attached to
    [security_bprm_creds_for_exec], which learns, reports or denies the execution of a
    binary in a tracked cgroup. *)
From S2P Require Import Prelude CLayout ProgramTypes KernelLayout Kernel ConcreteKernel StringMaps CgroupTracker DPath.
Local Open Scope Z_scope.

Definition POLICY_MODE_MONITOR : Z := 1.
Definition POLICY_MODE_PROTECT : Z := 2.
Definition EPERM : Z := 1.

(** [KERNEL_VERSION(a, b, c)]. *)
Definition KERNEL_VERSION (a b c : Z) : Z :=
  Z.shiftl a 16 + Z.shiftl b 8 + (if 255 <? c then 255 else c).

Section hook.
  Context `{K : Kernel, L : KernelLayout} (load_time_config : load_conf).

Definition get_evt : prog process_evt := s ← get_state; mret (process_evt_storage s).
Definition put_evt (f : process_evt → process_evt) : prog unit :=
  modify (λ s, set_process_evt_storage (f (process_evt_storage s)) s).

Definition populate_evt_with_path (bprm : Z) : prog Z :=
  let file := read_ptr (field_addr bprm bprm_file) in
  if file =? 0 then
    emit_log_event load_time_config LOG_MISSING_FILE_STRUCT ;; mret 0
  else
    let path_arg := field_addr file file_f_path in
    evt ← get_evt;
    let '(current_offset, buf) := bpf_d_path_approx path_arg (pe_path evt) in
    put_evt (set_path buf) ;;
    if current_offset =? 0 then
      emit_log_event load_time_config LOG_FAIL_TO_RESOLVE_PATH ;; mret 0
    else if current_offset =? MAX_PATH_LEN * 2 then
      emit_log_event load_time_config LOG_EMPTY_PATH ;; mret 0
    else
      put_evt (set_path_len (u16 (u32 (MAX_PATH_LEN * 2 - current_offset)))) ;;
      mret current_offset.

(** [get_process_evt]: the slot of the current CPU; [false] is the null pointer. *)
Definition get_process_evt : prog bool :=
  if storage_available then mret true
  else
    emit_log_event_1 load_time_config LOG_FAIL_TO_LOOKUP_EVT_MAP (u32 bpf_get_smp_processor_id) ;;
    mret false.

(** [bpf_probe_read_kernel(evt->path, SAFE_PATH_LEN(evt->path_len + 1),
    &evt->path[SAFE_PATH_ACCESS(offset)])]. *)
Definition copy_path_to_front (offset : Z) : prog Z :=
  evt ← get_evt;
  let n := Z.to_nat (SAFE_PATH_LEN (pe_path_len evt + 1)) in
  let src := read (SAFE_PATH_ACCESS offset) n (pe_path evt) in
  put_evt (set_path (write 0 (if storage_read_err =? 0 then src else replicate n 0) (pe_path evt))) ;;
  mret storage_read_err.

(** [bpf_ringbuf_output(rb, evt, n, 0)]. *)
Definition output_evt (rb : ringbuf) (n : Z) : prog Z :=
  evt ← get_evt;
  ringbuf_output rb (take (Z.to_nat n) (process_evt_bytes evt)).

(** No policy for this cgroup: report the exec to the learning ring buffer. *)
Definition learn_exec (bprm cg_tracker_id : Z) (foreign : bool) : prog Z :=
  if learning_enabled load_time_config =? 0 then mret 0
  else
    levt ← get_process_evt;
    if negb levt then mret 0
    else
      put_evt (set_cg_tracker_id cg_tracker_id) ;;
      put_evt (set_mode 0) ;;
      if (foreign : bool) then
        put_evt (set_foreign 1) ;;
        put_evt (set_path_len 0) ;;
        ferr ← output_evt RB_execve 19;
        (if negb (ferr =? 0) then emit_log_event load_time_config LOG_DROP_EXEC_EVENT else mret tt) ;;
        mret 0
      else
        put_evt (set_foreign 0) ;;
        loffset ← populate_evt_with_path bprm;
        if loffset =? 0 then mret 0
        else
          lerr ← copy_path_to_front loffset;
          if negb (lerr =? 0) then
            emit_log_event load_time_config LOG_FAIL_TO_COPY_EXEC_PATH ;; mret 0
          else
            levt ← get_evt;
            lerr ← output_evt RB_execve (19 + SAFE_PATH_LEN (pe_path_len levt));
            (if negb (lerr =? 0) then emit_log_event load_time_config LOG_DROP_EXEC_EVENT else mret tt) ;;
            mret 0.

(** Report a violation under the settings of the policy and return the verdict. *)
Definition report_violation (settings : policy_settings) (policy_id : Z) : prog Z :=
  put_evt (set_mode (ps_mode settings)) ;;
  evt ← get_evt;
  err ← output_evt RB_monitoring (19 + SAFE_PATH_LEN (pe_path_len evt));
  (if negb (err =? 0)
   then emit_log_event_2 load_time_config LOG_DROP_VIOLATION policy_id (pe_mode evt)
   else mret tt) ;;
  if ps_mode settings =? POLICY_MODE_MONITOR then mret 0 else mret (- EPERM).

(** The exec resolved to a file on a foreign root file system. *)
Definition foreign_exec (policy_id current_offset : Z) : prog Z :=
  s ← get_state;
  match policy_settings_map s !! policy_id with
  | None => emit_log_event_1 load_time_config LOG_POLICY_MODE_MISSING policy_id ;; mret 0
  | Some settings =>
      if negb (ps_allow_foreign_root settings =? 0) then mret 0
      else
        ferr ← copy_path_to_front current_offset;
        if negb (ferr =? 0) then
          emit_log_event load_time_config LOG_FAIL_TO_COPY_EXEC_PATH ;; mret 0
        else report_violation settings policy_id
  end.

(** Compare the resolved path with the allow-list of the policy. *)
Definition check_allow_list (policy_id current_offset : Z) : prog Z :=
  evt ← get_evt;
  if (LINUX_KERNEL_VERSION <? KERNEL_VERSION 5 11 0) && (STRING_MAPS_SIZE_7 <? pe_path_len evt) then
    emit_log_event load_time_config LOG_PATH_LEN_TOO_LONG ;; mret 0
  else
    let padded_len := string_padded_len (pe_path_len evt) in
    let index := string_map_index padded_len in
    s ← get_state;
    let matched :=
      match get_policy_string_map (pol_str_maps s) index policy_id with
      | Some string_map => inner_map_match string_map (pe_path evt) (SAFE_PATH_ACCESS current_offset)
      | None => false
      end in
    if (matched : bool) then mret 0
    else
      err ← copy_path_to_front current_offset;
      if negb (err =? 0) then
        emit_log_event load_time_config LOG_FAIL_TO_COPY_EXEC_PATH ;; mret 0
      else
        s ← get_state;
        match policy_settings_map s !! policy_id with
        | None => emit_log_event_1 load_time_config LOG_POLICY_MODE_MISSING policy_id ;; mret 0
        | Some settings => report_violation settings policy_id
        end.

Definition enforce_cgroup_policy (bprm : Z) : prog Z :=
  s ← get_state;
  let cg_tracker_id := get_tracker_id_from_curr_task load_time_config s in
  if cg_tracker_id =? 0 then mret 0
  else if exec_is_runtime_bootstrap load_time_config s cg_tracker_id then mret 0
  else
    let foreign := exec_is_foreign_root bprm in
    match cg_to_policy_map s !! cg_tracker_id with
    | None => learn_exec bprm cg_tracker_id foreign
    | Some policy_id =>
        evt ← get_process_evt;
        if negb evt then mret 0
        else
          put_evt (set_cg_tracker_id cg_tracker_id) ;;
          put_evt (set_foreign (if foreign then 1 else 0)) ;;
          current_offset ← populate_evt_with_path bprm;
          if current_offset =? 0 then mret 0
          else if foreign then foreign_exec policy_id current_offset
          else check_allow_list policy_id current_offset
    end.
End hook.

(** ** What a run may change *)

(** [keeps R c]: every run of [c] relates its initial and final states by [R]. *)
Definition keeps {A} (R : relation bpf_state) (c : prog A) : Prop := ∀ s, R s (snd (c s)).

Lemma keeps_ret {A} R `{!Reflexive R} (x : A) : keeps R (mret x).
Proof. intros s. simpl. reflexivity. Qed.

Lemma keeps_bind {A B} R `{!Transitive R} (c : prog A) (f : A → prog B) :
  keeps R c → (∀ x, keeps R (f x)) → keeps R (c ≫= f).
Proof.
  intros Hc Hf s. specialize (Hc s). unfold mbind, prog_bind. destruct (c s) as [x s'].
  simpl in Hc. etrans; [done|apply Hf].
Qed.

Lemma keeps_get R `{!Reflexive R} : keeps R get_state.
Proof. intros s. simpl. reflexivity. Qed.

(** The part of the state the hook only reads: the maps. *)
Definition maps_of (s : bpf_state) :=
  (cgtracker_map s, cg_to_policy_map s, policy_settings_map s, pol_str_maps s).
Definition same_maps : relation bpf_state := λ s s', maps_of s' = maps_of s.

#[export] Instance same_maps_refl : Reflexive same_maps.
Proof. done. Qed.
#[export] Instance same_maps_trans : Transitive same_maps.
Proof. intros ??? H1 H2. unfold same_maps in *. congruence. Qed.

(** Records are only ever appended to the ring buffers. *)
Definition appends : relation bpf_state := λ s s',
  ringbuf_logs s `prefix_of` ringbuf_logs s' ∧
  ringbuf_monitoring s `prefix_of` ringbuf_monitoring s' ∧
  ringbuf_execve s `prefix_of` ringbuf_execve s'.

#[export] Instance appends_refl : Reflexive appends.
Proof. intros s. split_and!; done. Qed.
#[export] Instance appends_trans : Transitive appends.
Proof. intros ??? (?&?&?) (?&?&?). split_and!; by etrans. Qed.

Section frame.
  Context `{K : Kernel, L : KernelLayout} (conf : load_conf).

Definition hook_frame : relation bpf_state := λ s s', same_maps s s' ∧ appends s s'.

#[export] Instance hook_frame_refl : Reflexive hook_frame.
Proof. split; reflexivity. Qed.
#[export] Instance hook_frame_trans : Transitive hook_frame.
Proof. intros ??? [] []. split; by etrans. Qed.

Lemma keeps_put_evt f : keeps hook_frame (put_evt f).
Proof. intros s. split; [done|]. split_and!; done. Qed.

Lemma keeps_emit_log code a1 a2 : keeps hook_frame (emit_log_event_args conf code a1 a2).
Proof.
  intros s. unfold emit_log_event_args. case_match; [|reflexivity].
  split; [done|]. split_and!; simpl; try done. by apply prefix_app_r.
Qed.

Lemma keeps_output rb r : keeps hook_frame (ringbuf_output rb r).
Proof.
  intros s. unfold ringbuf_output. case_match; [|reflexivity].
  destruct rb; (split; [done|]); split_and!; simpl; try done; by apply prefix_app_r.
Qed.
End frame.

(** Decompose a program along its control flow down to the primitive operations. *)
Ltac solve_keeps :=
  repeat first
    [ progress (intros; cbv zeta)
    | apply keeps_bind; [apply _|..]
    | apply keeps_ret; apply _
    | apply keeps_get; apply _
    | apply keeps_put_evt | apply keeps_emit_log | apply keeps_output
    | case_match
    | progress unfold get_evt, output_evt, emit_log_event, emit_log_event_1, emit_log_event_2 ].

Section hook_frame.
  Context `{K : Kernel, L : KernelLayout} (conf : load_conf).

Lemma keeps_populate bprm : keeps hook_frame (populate_evt_with_path conf bprm).
Proof. unfold populate_evt_with_path. solve_keeps. Qed.

Lemma keeps_get_process_evt : keeps hook_frame (get_process_evt conf).
Proof. unfold get_process_evt. solve_keeps. Qed.

Lemma keeps_copy_path off : keeps hook_frame (copy_path_to_front off).
Proof. unfold copy_path_to_front. solve_keeps. Qed.

Lemma keeps_report st pid : keeps hook_frame (report_violation conf st pid).
Proof. unfold report_violation. solve_keeps. Qed.

Lemma keeps_learn bprm t f : keeps hook_frame (learn_exec conf bprm t f).
Proof.
  unfold learn_exec. repeat first [apply keeps_populate | apply keeps_get_process_evt
    | apply keeps_copy_path | progress solve_keeps].
Qed.

(** For every kernel, configuration and state, the exec hook only reads the policy and
    tracker maps and only appends to the ring buffers: an exec can not change what is
    enforced, nor remove a record that was queued. *)
Theorem enforce_cgroup_policy_frame bprm s :
  let s' := snd (enforce_cgroup_policy conf bprm s) in
  maps_of s' = maps_of s ∧
  ringbuf_logs s `prefix_of` ringbuf_logs s' ∧
  ringbuf_monitoring s `prefix_of` ringbuf_monitoring s' ∧
  ringbuf_execve s `prefix_of` ringbuf_execve s'.
Proof.
  assert (keeps hook_frame (enforce_cgroup_policy conf bprm)) as H; [|exact (H s)].
  unfold enforce_cgroup_policy, foreign_exec, check_allow_list.
  repeat first [apply keeps_populate | apply keeps_get_process_evt | apply keeps_learn
    | apply keeps_copy_path | apply keeps_report | progress solve_keeps].
Qed.
End hook_frame.

(** ** Verdicts *)

Lemma run_bind {A B} (c : prog A) (f : A → prog B) s : (c ≫= f) s = f (c s).1 (c s).2.
Proof. unfold mbind, prog_bind. by destruct (c s). Qed.

(** Reduce the tests on constants that a case analysis leaves behind. *)
Ltac bool_simpl :=
  change (negb true) with false; change (negb false) with true; cbv iota.

Lemma run_get {A} (f : bpf_state → prog A) s : (get_state ≫= f) s = f s s.
Proof. done. Qed.

Section verdict.
  Context `{K : Kernel, L : KernelLayout} (conf : load_conf).

Lemma report_violation_verdict st pid s :
  fst (report_violation conf st pid s) =
    if ps_mode st =? POLICY_MODE_MONITOR then 0 else - EPERM.
Proof.
  unfold report_violation. rewrite !run_bind. by destruct (ps_mode st =? POLICY_MODE_MONITOR).
Qed.

Lemma learn_exec_verdict bprm t f s : fst (learn_exec conf bprm t f s) = 0.
Proof.
  unfold learn_exec. repeat first [case_match; try done | rewrite run_bind; try done].
Qed.

Lemma settings_frame s s' pid :
  same_maps s s' → policy_settings_map s' !! pid = policy_settings_map s !! pid.
Proof. unfold same_maps, maps_of. intros H. by injection H as _ _ -> _. Qed.

Lemma foreign_exec_verdict pid o s :
  fst (foreign_exec conf pid o s) ≠ 0 →
  ∃ st, policy_settings_map s !! pid = Some st ∧ ps_mode st ≠ POLICY_MODE_MONITOR ∧
    ps_allow_foreign_root st = 0 ∧ fst (foreign_exec conf pid o s) = - EPERM.
Proof.
  unfold foreign_exec. rewrite run_get. destruct (policy_settings_map s !! pid) as [st|] eqn:Hst.
  2: { rewrite run_bind. done. }
  destruct (ps_allow_foreign_root st =? 0) eqn:Hf; bool_simpl; [|done].
  rewrite run_bind. destruct ((copy_path_to_front o s).1 =? 0); bool_simpl.
  2: { rewrite run_bind. done. }
  rewrite report_violation_verdict. case_match; [done|]. intros _. exists st.
  split_and!; [done|lia..].
Qed.

Lemma check_allow_list_verdict pid o s :
  fst (check_allow_list conf pid o s) ≠ 0 →
  ∃ st, policy_settings_map s !! pid = Some st ∧ ps_mode st ≠ POLICY_MODE_MONITOR ∧
    fst (check_allow_list conf pid o s) = - EPERM.
Proof.
  unfold check_allow_list, get_evt. rewrite run_bind. cbn [fst snd].
  rewrite run_get. cbn [fst snd mret prog_ret].
  case_match; [rewrite run_bind; done|]. rewrite run_get.
  match goal with |- context [if ?b then mret 0 else _] => destruct b end; [done|].
  rewrite run_bind. destruct ((copy_path_to_front o s).1 =? 0); bool_simpl.
  2: { rewrite run_bind. done. }
  rewrite run_get, (settings_frame s) by apply keeps_copy_path.
  destruct (policy_settings_map s !! pid) as [st|]; [|rewrite run_bind; done].
  rewrite report_violation_verdict. case_match; [done|]. intros _. exists st. split_and!; [done|lia..].
Qed.

(** An exec is denied only by a policy.  Whatever the kernel state, if the hook does
    not return [0] it returns [-EPERM], and then the task runs in a tracked cgroup with a
    policy whose settings exist and whose mode is not monitor, the exec is not a container
    bootstrap, and a foreign-root exec is only denied when the policy does not allow it. *)
Theorem enforce_denies_only_with_policy bprm s :
  let ret := fst (enforce_cgroup_policy conf bprm s) in
  ret ≠ 0 →
  ret = - EPERM ∧
  get_tracker_id_from_curr_task conf s ≠ 0 ∧
  exec_is_runtime_bootstrap conf s (get_tracker_id_from_curr_task conf s) = false ∧
  ∃ pid st,
    cg_to_policy_map s !! get_tracker_id_from_curr_task conf s = Some pid ∧
    policy_settings_map s !! pid = Some st ∧ ps_mode st ≠ POLICY_MODE_MONITOR ∧
    (exec_is_foreign_root bprm = true → ps_allow_foreign_root st = 0).
Proof.
  cbv zeta. unfold enforce_cgroup_policy. rewrite run_get. cbv zeta.
  set (t := get_tracker_id_from_curr_task conf s). destruct (t =? 0) eqn:Ht; [done|].
  destruct (exec_is_runtime_bootstrap conf s t) eqn:Hb; [done|].
  destruct (cg_to_policy_map s !! t) as [pid|] eqn:Hpid.
  2: { by rewrite learn_exec_verdict. }
  rewrite run_bind. pose proof (keeps_get_process_evt conf s) as [Hm _].
  set (s1 := (get_process_evt conf s).2) in *. destruct (get_process_evt conf s).1; bool_simpl; [|done].
  rewrite !run_bind. match goal with |- context [populate_evt_with_path conf bprm ?x] => set (s2 := x) end.
  assert (same_maps s1 s2) as Hm2 by done.
  pose proof (keeps_populate conf bprm s2) as [Hm3 _].
  set (s3 := (populate_evt_with_path conf bprm s2).2) in *.
  case_match; [done|].
  destruct (exec_is_foreign_root bprm) eqn:Hf; intros Hret.
  - apply foreign_exec_verdict in Hret as (st & Hst & Hmode & Hallow & Hret).
    rewrite (settings_frame s) in Hst by (do 2 (etrans; [done|]); done).
    split_and!; [done|lia|done|]. exists pid, st. done.
  - apply check_allow_list_verdict in Hret as (st & Hst & Hmode & Hret).
    rewrite (settings_frame s) in Hst by (do 2 (etrans; [done|]); done).
    split_and!; [done|lia|done|]. exists pid, st. done.
Qed.
End verdict.

(** ** Execs that are let through *)

Section permitted.
  Context `{K : Kernel, L : KernelLayout} (conf : load_conf).

(** Processes outside containers, and the container runtime while it starts one, are
    left alone: the exec is permitted, and nothing is learned, reported or logged. *)
Theorem untracked_exec_ignored bprm s :
  let t := get_tracker_id_from_curr_task conf s in
  t = 0 ∨ exec_is_runtime_bootstrap conf s t = true →
  enforce_cgroup_policy conf bprm s = (0, s).
Proof.
  intros t Ht. unfold enforce_cgroup_policy. rewrite run_get. cbv zeta. fold t.
  destruct (t =? 0) eqn:H0; [done|]. destruct Ht as [?| ->]; [lia|done].
Qed.

(** [populate_evt_with_path] on a path that can not be resolved. *)
Lemma populate_unresolved bprm s :
  let file := read_ptr (field_addr bprm bprm_file) in
  file ≠ 0 → fst (bpf_d_path_approx (field_addr file file_f_path) (pe_path (process_evt_storage s))) = 0 →
  fst (populate_evt_with_path conf bprm s) = 0 ∧
  ringbuf_monitoring (snd (populate_evt_with_path conf bprm s)) = ringbuf_monitoring s.
Proof.
  intros file Hf Hp. unfold populate_evt_with_path. fold file.
  rewrite (proj2 (Z.eqb_neq file 0) Hf). unfold get_evt. rewrite run_bind, run_get. cbn [mret prog_ret fst snd].
  destruct (bpf_d_path_approx _ _) as [o buf]. cbn [fst] in Hp. subst o. cbn [Z.eqb].
  rewrite !run_bind. unfold emit_log_event, emit_log_event_args. cbn. by case_match.
Qed.

(** Path resolution fails open.  When the path of the executable can not be resolved
    (it is deeper than the iteration bound, for instance), the exec is permitted whatever
    the policy says, and no violation is reported; this includes files on a foreign root,
    for which the policy does not need the path. *)
Theorem unresolved_path_permitted bprm s pid :
  let file := read_ptr (field_addr bprm bprm_file) in
  file ≠ 0 → fst (bpf_d_path_approx (field_addr file file_f_path) (pe_path (process_evt_storage s))) = 0 →
  storage_available = true →
  cg_to_policy_map s !! get_tracker_id_from_curr_task conf s = Some pid →
  fst (enforce_cgroup_policy conf bprm s) = 0 ∧
  ringbuf_monitoring (snd (enforce_cgroup_policy conf bprm s)) = ringbuf_monitoring s.
Proof.
  intros file Hf Hp Hst Hpid. unfold enforce_cgroup_policy. rewrite run_get. cbv zeta.
  case_match; [done|]. case_match; [done|]. rewrite Hpid. unfold get_process_evt. rewrite Hst.
  rewrite run_bind. cbn [mret prog_ret fst snd negb]. rewrite !run_bind.
  match goal with |- context [populate_evt_with_path conf bprm ?x] =>
    destruct (populate_unresolved bprm x Hf Hp) as [-> Hmon] end.
  done.
Qed.

(** The bytes of the event buffer a lookup reads as its key: first byte and end. *)
Definition key_range (len o : Z) : option (Z * Z) :=
  (λ k, (SAFE_PATH_ACCESS o, SAFE_PATH_ACCESS o + k)) <$> lookup_key_size len.

(** Every key a lookup reads is inside the event buffer, for each value the 16-bit path
    length can have and every offset; a path of at most 4096 bytes fits the key of the map
    it is looked up in; and only the length [0] selects no map. *)
Theorem lookup_key_in_bounds len o :
  0 <= len < 65536 →
  match key_range len o with
  | Some (lo, hi) => 0 <= lo ∧ hi <= MAX_PATH_LEN * 3 ∧ (len <= 4096 → len <= hi - lo)
  | None => len = 0
  end.
Proof.
  intros Hlen. pose proof (SAFE_PATH_ACCESS_range o). pose proof (lookup_key_size_spec len).
  change (MAX_PATH_LEN * 3) with 12288. unfold key_range. destruct (lookup_key_size len); simpl; lia.
Qed.
End permitted.

(** ** Instances *)

(** A node with one container under policy [5], which allows nothing. *)
Definition strict_node : bpf_state :=
  BpfState {[ container_cgroup := container_cgroup ]} {[ container_cgroup := 5 ]}
    {[ 5 := PolicySettings POLICY_MODE_PROTECT 0 ]} (replicate 11 ∅) fresh_evt [] [] [].

Lemma enforce_denies_only_with_policy_witness :
  let K := x86_exec bin_sh in let L := x86_layout in
  fst (enforce_cgroup_policy sample_conf BPRM strict_node) = - EPERM.
Proof.
  intros K L. apply (enforce_denies_only_with_policy sample_conf BPRM strict_node).
  vm_compute. discriminate.
Defined.

Lemma untracked_exec_ignored_witness :
  let K := x86_exec bin_sh in let L := x86_layout in
  enforce_cgroup_policy sample_conf BPRM (set_cgtracker_map ∅ strict_node) =
    (0, set_cgtracker_map ∅ strict_node).
Proof.
  intros K L. apply (untracked_exec_ignored sample_conf BPRM (set_cgtracker_map ∅ strict_node)).
  left. vm_compute. reflexivity.
Defined.

Lemma unresolved_path_permitted_witness :
  let K := machine_kernel (fallback_machine (L := x86_layout) deep_names) in let L := x86_layout in
  fst (enforce_cgroup_policy sample_conf BPRM strict_node) = 0.
Proof.
  intros K L. apply (unresolved_path_permitted sample_conf BPRM strict_node 5);
    [vm_compute; discriminate|vm_compute; reflexivity|reflexivity|vm_compute; reflexivity].
Defined.

Lemma lookup_key_in_bounds_witness : 0 <= SAFE_PATH_ACCESS 8062 ∧ SAFE_PATH_ACCESS 8062 + 4096 <= 12288.
Proof.
  destruct (lookup_key_in_bounds 130 8062) as (Hlo & Hhi & _); [split; [discriminate|reflexivity]|].
  split; [exact Hlo|exact Hhi].
Defined.
