(* ===== verification/Events.v ===== *)
(** * Events in user space

    [src/internal/bpf/events_common.go]: how the agent decodes the records the exec hook
    queues, and [src/internal/types/policymode]: the policy modes both sides use. *)
From S2P Require Import Prelude CLayout ProgramTypes KernelLayout Kernel DPath PolicyValues CgroupTracker.
Local Open Scope Z_scope.

(** ** Policy modes *)

Inductive Mode := Monitor | Protect.

#[export] Instance Mode_eq_dec : EqDecision Mode.
Proof. solve_decision. Defined.

Definition Mode_uint8 (m : Mode) : Z := match m with Monitor => 1 | Protect => 2 end.

Definition Mode_String (m : Mode) : string :=
  match m with Monitor => "monitor" | Protect => "protect" end.

Definition FromUint8 (v : Z) : go_result Mode :=
  if v =? 1 then Ok Monitor
  else if v =? 2 then Ok Protect
  else Panic "unknown uint8 value for policy mode".

Definition ParseMode (s : string) : go_result Mode :=
  if (s =? "monitor")%string then Ok Monitor
  else if (s =? "protect")%string then Ok Protect
  else Panic "unknown string value for policy mode".

(** ** Decoding *)

Record ProcessEvent := MkProcessEvent {
  CgTrackerID : Z;
  ExePath : bytes;
  EvMode : string;
  ForeignRoot : bool;
}.

Record bpfEventHeader := MkHeader {
  h_CgTrackerID : Z;
  h_PathLen : Z;
  h_Mode : Z;
  h_Foreign : Z;
}.

(** [binary.Size(header)]. *)
Definition header_size : nat := 12.

(** [binary.Read(buf, binary.LittleEndian, &header)]: twelve bytes, or an error. *)
Definition read_header (raw : bytes) : option (bpfEventHeader * bytes) :=
  if (length raw <? header_size)%nat then None
  else Some
    (MkHeader (le_val (take 8 raw)) (le_val (take 2 (drop 8 raw)))
       (nth 10 raw 0) (nth 11 raw 0),
     drop header_size raw).

(** [buf.Read(pathBytes)] into a zeroed slice of [n] bytes: an empty buffer is an error
    unless nothing was asked for; a short one fills the front of the slice. *)
Definition read_path (n : nat) (rest : bytes) : option bytes :=
  if (length rest =? 0)%nat && negb (n =? 0)%nat then None
  else Some (take n rest ++ replicate (n - length rest) 0).

(** One turn of the loop of [processRingbufEvents]: the event sent, or the record
    skipped with an error. *)
Definition decode_event (raw : bytes) : go_result ProcessEvent :=
  match read_header raw with
  | None => Err "parsing ringbuf event"
  | Some (header, rest) =>
      if 4096 <? h_PathLen header then Err "invalid path length in ringbuf event"
      else
        match read_path (Z.to_nat (h_PathLen header)) rest with
        | None => Err "reading path bytes"
        | Some pathBytes =>
            let send modeString :=
              Ok (MkProcessEvent (h_CgTrackerID header) pathBytes modeString
                    (negb (h_Foreign header =? 0))) in
            if negb (h_Mode header =? 0) then
              match FromUint8 (h_Mode header) with
              | Ok m => send (Mode_String m)
              | Err e => Err e
              | Panic e => Panic e
              end
            else send ""
        end
  end.

(** The mode string an event carries for a mode byte. *)
Definition mode_string (m : Z) : go_result string :=
  if m =? 0 then Ok "" else
  match FromUint8 m with Ok m => Ok (Mode_String m) | Err e => Err e | Panic e => Panic e end.

(** ** Round trip *)

Lemma length_process_evt_bytes e : length (process_evt_bytes e) = (12 + length (pe_path e))%nat.
Proof. unfold process_evt_bytes. len. Qed.

Lemma process_evt_bytes_header e rest :
  0 <= pe_cg_tracker_id e < 18446744073709551616 → 0 <= pe_path_len e < 65536 →
  read_header (le_bytes 8 (pe_cg_tracker_id e) ++ le_bytes 2 (pe_path_len e) ++
               [pe_mode e; pe_foreign e] ++ rest) =
  Some (MkHeader (pe_cg_tracker_id e) (pe_path_len e) (pe_mode e) (pe_foreign e), rest).
Proof.
  intros Hcg Hpl. unfold read_header.
  destruct (length _ <? header_size)%nat eqn:Hl; [exfalso; revert Hl; unfold header_size; len|].
  f_equal. f_equal.
  - f_equal.
    + rewrite take_app_length', le_val_bytes by (by rewrite length_le_bytes). by apply Z.mod_small.
    + rewrite drop_app_length' by (by rewrite length_le_bytes).
      rewrite take_app_length', le_val_bytes by (by rewrite length_le_bytes). by apply Z.mod_small.
Qed.

(** A record that carries the header of [e] and then the path [p] decodes to them. *)
Lemma decode_event_record e p rest m :
  0 <= pe_cg_tracker_id e < 18446744073709551616 →
  pe_path_len e = Z.of_nat (length p) → (length p <= 4096)%nat → p ++ rest ≠ [] ∨ p = [] →
  mode_string (pe_mode e) = Ok m →
  decode_event (le_bytes 8 (pe_cg_tracker_id e) ++ le_bytes 2 (pe_path_len e) ++
                [pe_mode e; pe_foreign e] ++ p ++ rest) =
  Ok (MkProcessEvent (pe_cg_tracker_id e) p m (negb (pe_foreign e =? 0))).
Proof.
  intros Hcg Hpl Hle Hne Hm. unfold decode_event.
  rewrite process_evt_bytes_header by lia. cbn [h_PathLen h_Mode h_Foreign h_CgTrackerID].
  destruct (4096 <? pe_path_len e) eqn:?; [lia|].
  rewrite Hpl, Nat2Z.id. unfold read_path.
  assert (((length (p ++ rest) =? 0) && negb (length p =? 0))%nat = false) as ->.
  { rewrite length_app. destruct p; simpl in *; lia. }
  rewrite take_app_length. replace (length p - length (p ++ rest))%nat with 0%nat by len.
  rewrite app_nil_r. unfold mode_string in Hm. destruct (pe_mode e =? 0); simplify_eq/=; [done|].
  destruct (FromUint8 (pe_mode e)); by simplify_eq.
Qed.

(** The records have the layout user space expects.  The fields of [struct process_evt]
    are at the offsets of the twelve-byte Go header, its path follows at once, the settings
    of a policy are two bytes, the load-time configuration has no padding, and a log record
    has the size that is reserved for it. *)
Theorem wire_layout :
  let off t f := offset_of program_env t [f] in
  (off "struct process_evt" "cg_tracker_id", off "struct process_evt" "path_len",
   off "struct process_evt" "mode", off "struct process_evt" "foreign",
   off "struct process_evt" "path") = (Some 0, Some 8, Some 10, Some 11, Some (Z.of_nat header_size)) ∧
  (off "struct policy_settings" "mode", off "struct policy_settings" "allow_foreign_root",
   size_of program_env (TName "struct policy_settings")) = (Some 0, Some 1, Some 2) ∧
  no_padding program_env "struct load_conf" = true ∧
  size_of program_env (TName "struct log_evt") = Some (Z.of_nat sizeof_log_evt).
Proof. vm_compute. done. Qed.
