(* ===== verification/AgentMaps.v ===== *)
(** * The agent's updates of the hash maps

    [src/internal/bpf/cgtracker.go] ([UpdateCgTrackerMap]),
    [src/internal/bpf/cgroup_policy.go] and
    [src/internal/bpf/policy_settings_operation.go]: how the agent registers the cgroup of
    a container, associates cgroups with policies and writes the settings of a policy. *)
From S2P Require Import Prelude CLayout ProgramTypes KernelLayout Kernel ConcreteKernel StringMaps PolicyValues Events.
Local Open Scope Z_scope.

(** The failures of github.com/cilium/ebpf that the maps do not decide themselves: an
    element that can not be deleted, an iteration that is aborted, and a batch deletion
    that stops after some keys. *)
Class EbpfMap := {
  delete_err : Z → go_error;
  iterate_err : go_error;
  batch_delete : list Z → nat * go_error;
}.

(** ** The cgroup tracker map *)

(** What [filepath.WalkDir] finds under a cgroup directory: files, and directories with
    their cgroup id ([GetCgroupIDFromPath]; [None] is an error), their entries, and
    whether listing the entries fails. *)
Inductive entry :=
  | File
  | Dir (id : option Z) (read_err : bool) (entries : list entry).

(** The argument [cgroupPath]: empty, a path that can not be examined, or a directory. *)
Inductive cgroup_path :=
  | EmptyPath
  | BadPath
  | DirPath (read_err : bool) (entries : list entry).

Section tracker.
  Context `{K : Kernel}.

Definition tracker_update (k v : Z) (m : gmap Z Z) : Z * gmap Z Z :=
  hash_update TRACKER_MAP_MAX_ENTRIES k v m.

(** The walk function on a directory below [cgroupPath], then its entries. *)
Fixpoint walk_entry (cgID : Z) (e : entry) (m : gmap Z Z) : gmap Z Z :=
  match e with
  | File => m
  | Dir id read_err es =>
      let m := match id with
               | Some trackedID => snd (tracker_update trackedID cgID m)
               | None => m
               end in
      if read_err then m
      else (fix walk_entries es m :=
              match es with
              | [] => m
              | e :: es' => walk_entries es' (walk_entry cgID e m)
              end) es m
  end.

Definition walk_entries (cgID : Z) (es : list entry) (m : gmap Z Z) : gmap Z Z :=
  foldl (λ m e, walk_entry cgID e m) m es.

(** Errors of the walk are logged, not returned. *)
Definition UpdateCgTrackerMap (cgID : Z) (cgroupPath : cgroup_path) (m : gmap Z Z)
  : go_error * gmap Z Z :=
  let '(err, m1) := tracker_update cgID cgID m in
  if negb (err =? 0) then (Some "failed to update cgroup tracker map", m1)
  else
    match cgroupPath with
    | EmptyPath | BadPath => (None, m1)
    | DirPath read_err es => (None, if read_err then m1 else walk_entries cgID es m1)
    end.
End tracker.

(** ** Cgroups and policies *)

Inductive CgroupPolicyOperation := AddPolicyToCgroups | RemovePolicy | RemoveCgroups.

Section cgroup_policy.
  Context `{K : Kernel, B : EbpfMap}.

(** [Update(&cgID, &targetPolID, UpdateNoExist)], then the check of an existing key. *)
Fixpoint add_cgroups (targetPolID : Z) (cgroupIDs : list Z) (m : gmap Z Z) : go_error * gmap Z Z :=
  match cgroupIDs with
  | [] => (None, m)
  | cgID :: cgroupIDs' =>
      match m !! cgID with
      | Some existingPolID =>
          if negb (existingPolID =? targetPolID) then (Some "overlapping policies", m)
          else add_cgroups targetPolID cgroupIDs' m
      | None =>
          let '(err, m') := hash_update CGROUP_TO_POLICY_MAX_ENTRIES cgID targetPolID m in
          if negb (err =? 0) then (Some "failed to add cgroup to policy", m')
          else add_cgroups targetPolID cgroupIDs' m'
      end
  end.

Definition addPolicyToCgroups (targetPolID : Z) (cgroupIDs : list Z) (m : gmap Z Z)
  : go_error * gmap Z Z :=
  if targetPolID =? 0 then (Some "cannot add cgroups to policy 0", m)
  else add_cgroups targetPolID cgroupIDs m.

Definition removePolicyFromCgroups (targetPolID : Z) (m : gmap Z Z) : go_error * gmap Z Z :=
  if targetPolID =? 0 then (Some "cannot remove policy 0 from the map", m)
  else
    match iterate_err with
    | Some _ => (Some "failed to iterate cgroup to policy map", m)
    | None =>
        let cgIDList := fst <$> filter (λ kv, snd kv = targetPolID) (map_to_list m) in
        match cgIDList with
        | [] => (None, m)
        | _ =>
            let '(count, err) := batch_delete cgIDList in
            let m' := foldr delete m (take count cgIDList) in
            if match err with Some _ => true | None => negb (count =? length cgIDList)%nat end
            then (Some "failed to remove cgroups from policy map", m')
            else (None, m')
        end
    end.

(** Errors are joined: the last message stands for all of them. *)
Fixpoint remove_cgroups (cgroupIDs : list Z) (multiErr : go_error) (m : gmap Z Z)
  : go_error * gmap Z Z :=
  match cgroupIDs with
  | [] => (multiErr, m)
  | cgID :: cgroupIDs' =>
      match m !! cgID with
      | None => remove_cgroups cgroupIDs' multiErr m
      | Some _ =>
          match delete_err cgID with
          | Some _ => remove_cgroups cgroupIDs' (Some "failed to remove cgroup from policy map") m
          | None => remove_cgroups cgroupIDs' multiErr (delete cgID m)
          end
      end
  end.

Definition removeCgroups (targetPolID : Z) (cgroupIDs : list Z) (m : gmap Z Z)
  : go_error * gmap Z Z :=
  if negb (targetPolID =? 0) then (Some "policy ID must be 0", m)
  else remove_cgroups cgroupIDs None m.

Definition UpdateCgroupPolicy (targetPolID : Z) (cgroupIDs : list Z) (op : CgroupPolicyOperation)
  (m : gmap Z Z) : go_error * gmap Z Z :=
  match op with
  | AddPolicyToCgroups => addPolicyToCgroups targetPolID cgroupIDs m
  | RemovePolicy => removePolicyFromCgroups targetPolID m
  | RemoveCgroups => removeCgroups targetPolID cgroupIDs m
  end.

(** ** Policy settings *)

Definition updatePolicySettings (policyID : Z) (mode : Z) (allowForeignRoot : bool)
  (m : gmap Z policy_settings) : go_error * gmap Z policy_settings :=
  let settings := PolicySettings mode (if allowForeignRoot then 1 else 0) in
  let '(err, m') := hash_update POLICY_MAP_MAX_ENTRIES policyID settings m in
  if negb (err =? 0) then (Some "failed to update policy", m') else (None, m').

Definition deletePolicySettings (policyID : Z) (m : gmap Z policy_settings)
  : go_error * gmap Z policy_settings :=
  match m !! policyID with
  | None => (None, m)
  | Some _ =>
      match delete_err policyID with
      | Some _ => (Some "failed to delete policy", m)
      | None => (None, delete policyID m)
      end
  end.
End cgroup_policy.

(** ** Properties *)

Lemma hash_update_ok `{K : Kernel} {V} max k (v : V) m e m' :
  hash_update max k v m = (e, m') →
  (e = 0 ∧ m' = <[k := v]> m) ∨ (e ≠ 0 ∧ m' = m ∧ m !! k = None).
Proof. unfold hash_update, E2BIG, ENOMEM. intros. repeat case_match; simplify_eq; auto; right; split_and!; done || lia. Qed.

(** The ids of the directories the walk reaches. *)
Fixpoint reached (e : entry) : list Z :=
  match e with
  | File => []
  | Dir id read_err es =>
      option_list id ++
      (if read_err then []
       else (fix go es := match es with [] => [] | e :: es' => reached e ++ go es' end) es)
  end.

(** Enough free entries for [n] more keys, and memory for them. *)
Definition has_room `{K : Kernel} (max : Z) (n : nat) (m : gmap Z Z) : Prop :=
  Z.of_nat (size m + n) <= max ∧ ∀ k, map_alloc k = true.

Section tracker_spec.
  Context `{K : Kernel}.

Definition track_all (cgID : Z) (ks : list Z) (m : gmap Z Z) : gmap Z Z :=
  foldl (λ m k, snd (tracker_update k cgID m)) m ks.

(** The walk is a sequence of updates, one per directory it reaches. *)
Lemma walk_entry_reached cgID : ∀ e m, walk_entry cgID e m = track_all cgID (reached e) m.
Proof.
  fix IH 1. intros [|id read_err es] m; [done|]. cbn [walk_entry reached].
  unfold track_all. rewrite foldl_app. set (m1 := match id with Some _ => _ | None => m end).
  replace (foldl _ m (option_list id)) with m1 by (by destruct id).
  destruct read_err; [done|]. generalize m1. clear m1 m. induction es as [|e es IHes]; intros m; [done|].
  rewrite foldl_app, IH. apply IHes.
Qed.

Lemma walk_entries_reached cgID es m :
  walk_entries cgID es m = track_all cgID (es ≫= reached) m.
Proof.
  revert m. induction es as [|e es IH]; intros m; [done|]. cbn [mbind list_bind].
  unfold track_all, walk_entries in *. rewrite foldl_app. simpl. by rewrite IH, walk_entry_reached.
Qed.

Lemma tracker_update_room k v m n :
  has_room TRACKER_MAP_MAX_ENTRIES (S n) m →
  tracker_update k v m = (0, <[k := v]> m) ∧ has_room TRACKER_MAP_MAX_ENTRIES n (<[k := v]> m).
Proof.
  intros [Hsz Halloc]. unfold tracker_update, hash_update. destruct (m !! k) eqn:Hk.
  - split; [done|]. split; [|done]. rewrite map_size_insert_Some by done. lia.
  - rewrite Halloc. case_match; [lia|]. split; [done|]. split; [|done].
    rewrite map_size_insert_None by done. lia.
Qed.

Lemma track_all_lookup cgID ks m k :
  has_room TRACKER_MAP_MAX_ENTRIES (length ks) m →
  track_all cgID ks m !! k = if decide (k ∈ ks) then Some cgID else m !! k.
Proof.
  unfold track_all. revert m. induction ks as [|k' ks IH]; intros m Hroom; [done|].
  cbn [foldl]. apply (tracker_update_room k' cgID) in Hroom as [-> Hroom]. cbn [snd].
  rewrite IH by done. destruct (decide (k = k')) as [->|Hne].
  - rewrite lookup_insert_eq. rewrite (decide_True (P := k' ∈ k' :: ks)) by left. by case_decide.
  - rewrite lookup_insert_ne by done. repeat case_decide; set_solver.
Qed.

(** Without room, an update can be missing but none is wrong. *)
Lemma track_all_sound cgID ks m k v :
  track_all cgID ks m !! k = Some v → m !! k = Some v ∨ v = cgID ∧ k ∈ ks.
Proof.
  unfold track_all. revert m. induction ks as [|k' ks IH]; intros m H; [by left|]. cbn [foldl] in H.
  destruct (tracker_update k' cgID m) as [e m'] eqn:Hu. cbn [snd] in H.
  apply IH in H as [H|[-> H]]; [|right; set_solver].
  apply hash_update_ok in Hu as [[_ ->]|(_ & -> & _)]; [|by left].
  destruct (decide (k = k')) as [->|Hne]; [|rewrite lookup_insert_ne in H by done; by left].
  rewrite lookup_insert_eq in H. simplify_eq. right. set_solver.
Qed.

(** Registering a container.  When the tracker map has room, [UpdateCgTrackerMap]
    succeeds, maps the container's cgroup and every nested cgroup directory its walk
    reaches to the container, and changes no other entry. *)
Theorem UpdateCgTrackerMap_tracks cgID path m :
  let ids := match path with DirPath false es => es ≫= reached | _ => [] end in
  has_room TRACKER_MAP_MAX_ENTRIES (S (length ids)) m →
  ∃ m', UpdateCgTrackerMap cgID path m = (None, m') ∧
    ∀ k, m' !! k = if decide (k = cgID ∨ k ∈ ids) then Some cgID else m !! k.
Proof.
  intros ids Hroom. unfold UpdateCgTrackerMap.
  apply (tracker_update_room cgID cgID) in Hroom as [-> Hroom]. cbn [Z.eqb negb].
  assert (∀ k, track_all cgID ids (<[cgID := cgID]> m) !! k =
    if decide (k = cgID ∨ k ∈ ids) then Some cgID else m !! k) as Hlk.
  { intros k. rewrite track_all_lookup by done. destruct (decide (k = cgID)) as [->|Hne].
    - rewrite lookup_insert_eq. rewrite (decide_True (P := cgID = cgID ∨ _)) by auto. by case_decide.
    - rewrite lookup_insert_ne by done. repeat case_decide; tauto. }
  destruct path as [| |[] es]; eexists; (split; [reflexivity|]); try exact Hlk.
  intros k. rewrite walk_entries_reached. apply Hlk.
Qed.

(** Whatever fails, no cgroup is given to another container than the one registered. *)
Lemma UpdateCgTrackerMap_sound cgID path m k v :
  snd (UpdateCgTrackerMap cgID path m) !! k = Some v → m !! k = Some v ∨ v = cgID.
Proof.
  unfold UpdateCgTrackerMap. destruct (tracker_update cgID cgID m) as [e m1] eqn:Hu.
  assert (m1 !! k = Some v → m !! k = Some v ∨ v = cgID) as H1.
  { apply hash_update_ok in Hu as [[_ ->]|(_ & -> & _)]; [|by left].
    intros [[_ ?]|[_ ?]]%lookup_insert_Some; auto. }
  destruct (negb (e =? 0)); [done|]. destruct path as [| |[] es]; try done. cbn [snd].
  rewrite walk_entries_reached. intros [?|[-> _]]%track_all_sound; auto.
Qed.
End tracker_spec.

Section cgroup_policy_spec.
  Context `{K : Kernel, B : EbpfMap}.

(** One loop of [addPolicyToCgroups]: existing associations stay; new ones are only those
    asked for. *)
Lemma add_cgroups_spec pol cgs m err m' :
  add_cgroups pol cgs m = (err, m') →
  m ⊆ m' ∧ (∀ cg q, m' !! cg = Some q → m !! cg = Some q ∨ q = pol ∧ cg ∈ cgs) ∧
  (err = None → ∀ cg, cg ∈ cgs → m' !! cg = Some pol).
Proof.
  revert m. induction cgs as [|c cgs IH]; intros m H; cbn [add_cgroups] in H.
  { simplify_eq. split_and!; [done|auto|set_solver]. }
  destruct (m !! c) as [q|] eqn:Hc.
  - destruct (q =? pol) eqn:Hq; cbn [negb] in H; [|simplify_eq; split_and!; [done|auto|done]].
    destruct (IH _ H) as (Hsub & Hnew & Hok). split_and!; [done| |].
    + intros cg q' Hcg. destruct (Hnew _ _ Hcg) as [?|[??]]; [auto|right; set_solver].
    + intros He cg [->|Hcg]%elem_of_cons; [|auto]. replace pol with q by lia.
      by apply (lookup_weaken m).
  - destruct (hash_update _ c pol m) as [e m1] eqn:Hu.
    apply hash_update_ok in Hu as [[-> ->]|(He & -> & _)]; cbn [negb Z.eqb] in H.
    2: { rewrite (proj2 (Z.eqb_neq e 0)) in H by done. simplify_eq/=. split_and!; [done|auto|done]. }
    destruct (IH _ H) as (Hsub & Hnew & Hok). split_and!.
    + etrans; [apply insert_subseteq, Hc|done].
    + intros cg q Hcg. destruct (Hnew _ _ Hcg) as [[[<- <-]|[? ?]]%lookup_insert_Some|[??]];
        [right; set_solver|auto|right; set_solver].
    + intros He cg [->|Hcg]%elem_of_cons; [|auto]. apply (lookup_weaken _ _ _ _ (lookup_insert_eq m c pol) Hsub).
Qed.

(** [addPolicyToCgroups] never takes a cgroup away from another policy.  Whether it
    succeeds or stops at an error, existing associations are kept and the only new ones
    give a requested cgroup to the requested policy; on success every requested cgroup has
    the policy, so a cgroup that already has a different one makes it fail; and policy [0]
    is refused. *)
Theorem addPolicyToCgroups_spec pol cgs m :
  let '(err, m') := addPolicyToCgroups pol cgs m in
  m ⊆ m' ∧ (∀ cg q, m' !! cg = Some q → m !! cg = Some q ∨ q = pol ∧ cg ∈ cgs) ∧
  match err with
  | None => pol ≠ 0 ∧ ∀ cg, cg ∈ cgs → m' !! cg = Some pol
  | Some _ => True
  end ∧
  ((∃ cg q, cg ∈ cgs ∧ m !! cg = Some q ∧ q ≠ pol) → err ≠ None).
Proof.
  destruct (addPolicyToCgroups pol cgs m) as [err m'] eqn:H. unfold addPolicyToCgroups in H.
  destruct (pol =? 0) eqn:H0; [simplify_eq; by split_and!; auto|].
  destruct (add_cgroups_spec _ _ _ _ _ H) as (Hsub & Hnew & Hok). split_and!; [done|done| |].
  - destruct err; [done|]. split; [lia|auto].
  - intros (cg & q & Hcg & Hq & Hne) ->. specialize (Hok eq_refl cg Hcg).
    pose proof (lookup_weaken _ _ _ _ Hq Hsub). congruence.
Qed.

Lemma lookup_delete_all (ks : list Z) (m : gmap Z Z) k :
  foldr delete m ks !! k = if decide (k ∈ ks) then None else m !! k.
Proof.
  induction ks as [|k' ks IH]; [done|]. cbn [foldr]. destruct (decide (k = k')) as [->|Hne].
  - rewrite lookup_delete_eq, decide_True by left. done.
  - rewrite lookup_delete_ne, IH by done. repeat case_decide; set_solver.
Qed.

Lemma remove_cgroups_spec cgs err m err' m' :
  remove_cgroups cgs err m = (err', m') →
  m' ⊆ m ∧ (∀ cg, cg ∉ cgs → m' !! cg = m !! cg) ∧
  (err' = None → err = None ∧ ∀ cg, cg ∈ cgs → m' !! cg = None).
Proof.
  revert err m. induction cgs as [|c cgs IH]; intros err m H; cbn [remove_cgroups] in H.
  { simplify_eq. split_and!; [done..|set_solver]. }
  destruct (m !! c) as [q|] eqn:Hc; [destruct (delete_err c) eqn:Hd|];
    destruct (IH _ _ H) as (Hsub & Hkeep & Hok).
  - split_and!; [done|set_solver|]. intros He. by destruct (Hok He).
  - split_and!.
    + etrans; [done|apply delete_subseteq].
    + intros cg Hcg. rewrite Hkeep by set_solver. apply lookup_delete_ne. set_solver.
    + intros He. destruct (Hok He) as [-> Hall]. split; [done|].
      intros cg [->|Hcg]%elem_of_cons; [|auto].
      apply (lookup_weaken_None m' (delete c m)); [apply lookup_delete_eq|done].
  - split_and!; [done|set_solver|]. intros He. destruct (Hok He) as [-> Hall]. split; [done|].
    intros cg [->|Hcg]%elem_of_cons; [|auto]. by apply (lookup_weaken_None m' m).
Qed.

Lemma removePolicy_spec pol m err m' :
  removePolicyFromCgroups pol m = (err, m') →
  m' ⊆ m ∧ (∀ cg, m !! cg ≠ Some pol → m' !! cg = m !! cg) ∧
  (err = None → pol ≠ 0 ∧ ∀ cg, m' !! cg = if decide (m !! cg = Some pol) then None else m !! cg).
Proof.
  unfold removePolicyFromCgroups.
  destruct (pol =? 0) eqn:H0; [by intros [= <- <-]|]. destruct iterate_err; [by intros [= <- <-]|].
  set (ks := fst <$> _).
  assert (∀ cg, cg ∈ ks ↔ m !! cg = Some pol) as Hks.
  { intros cg. unfold ks. rewrite list_elem_of_fmap. setoid_rewrite list_elem_of_filter. split.
    - intros ([k v] & -> & Hv & Hin). simpl in Hv. subst. by apply elem_of_map_to_list in Hin.
    - intros Hcg. exists (cg, pol). by rewrite elem_of_map_to_list. }
  destruct ks as [|k0 ks0] eqn:Hnil.
  { intros [= <- <-]. split_and!; [done..|]. intros _. split; [lia|]. intros cg. specialize (Hks cg).
    case_decide as Hd; [|done]. apply Hks in Hd. set_solver. }
  rewrite <- Hnil in *. destruct (batch_delete ks) as [count e]. clear Hnil.
  set (md := foldr delete m (take count ks)). intros H.
  assert (md ⊆ m ∧ ∀ cg, m !! cg ≠ Some pol → md !! cg = m !! cg) as [Hsub Hkeep].
  { split; [apply map_subseteq_spec; intros k v; unfold md; rewrite lookup_delete_all; by case_decide|].
    intros cg Hcg. unfold md. rewrite lookup_delete_all, decide_False; [done|].
    intros Hin. apply Hcg, Hks. rewrite <- (take_drop count ks). apply elem_of_app. by left. }
  destruct e; [by simplify_eq|]. destruct (count =? length ks)%nat eqn:Hn; cbn [negb] in H; simplify_eq; [|done].
  split_and!; [done..|]. intros _. split; [lia|]. intros cg. rewrite lookup_delete_all.
  rewrite take_ge by lia. by rewrite (decide_ext _ _ _ _ (Hks cg)).
Qed.

Lemma removeCgroups_spec pol cgs m err m' :
  removeCgroups pol cgs m = (err, m') →
  m' ⊆ m ∧ (∀ cg, cg ∉ cgs → m' !! cg = m !! cg) ∧
  (err = None → pol = 0 ∧ ∀ cg, m' !! cg = if decide (cg ∈ cgs) then None else m !! cg).
Proof.
  unfold removeCgroups. destruct (pol =? 0) eqn:H0; cbn [negb]; [|by intros [= <- <-]]. intros H.
  destruct (remove_cgroups_spec _ _ _ _ _ H) as (Hsub & Hkeep & Hok). split_and!; [done..|].
  intros He. split; [lia|]. intros cg. case_decide; [by apply Hok|auto].
Qed.

(** Removing.  When [RemovePolicy] succeeds, no cgroup is left with that policy and
    every other association is untouched; when [RemoveCgroups] succeeds, none of the
    cgroups has a policy and every other association is untouched.  Neither ever adds an
    association. *)
Theorem UpdateCgroupPolicy_removes pol cgs m :
  (let '(err, m') := UpdateCgroupPolicy pol cgs RemovePolicy m in
   m' ⊆ m ∧
   (err = None → pol ≠ 0 ∧ ∀ cg, m' !! cg = if decide (m !! cg = Some pol) then None else m !! cg)) ∧
  (let '(err, m') := UpdateCgroupPolicy pol cgs RemoveCgroups m in
   m' ⊆ m ∧
   (err = None → pol = 0 ∧ ∀ cg, m' !! cg = if decide (cg ∈ cgs) then None else m !! cg)).
Proof.
  split; cbn [UpdateCgroupPolicy].
  - destruct (removePolicyFromCgroups pol m) as [err m'] eqn:H. by destruct (removePolicy_spec _ _ _ _ H) as (?&?&?).
  - destruct (removeCgroups pol cgs m) as [err m'] eqn:H. by destruct (removeCgroups_spec _ _ _ _ _ H) as (?&?&?).
Qed.
End cgroup_policy_spec.

(** ** Instances *)

Lemma UpdateCgTrackerMap_tracks_witness :
  let K := x86_exec bin_sh in
  ∃ m', UpdateCgTrackerMap 10 (DirPath false [File; Dir (Some 11) false [Dir (Some 12) true []]])
          {[ 5 := 5 ]} = (None, m') ∧ m' !! 12 = Some 10 ∧ m' !! 5 = Some 5.
Proof.
  intros K. destruct (UpdateCgTrackerMap_tracks 10
    (DirPath false [File; Dir (Some 11) false [Dir (Some 12) true []]]) {[ 5 := 5 ]}) as (m' & Hrun & Hlk).
  - split; [vm_compute; discriminate|done].
  - exists m'. split_and!; [exact Hrun|rewrite Hlk; reflexivity..].
Defined.
