(* ===== verification/CgroupTree.v ===== *)
(** * The cgroup tracker as a concurrent system

    The tracker map is written by three parties at once: the two tracepoint programs of
    [src/bpf/main.c] (a cgroup is created or released) and the agent, which registers the
    cgroup of a container and then walks its directory tree
    ([UpdateCgTrackerMap] of [src/internal/bpf/cgtracker.go]).  This file gives the step
    relation of their interleavings over a growing and shrinking cgroup tree, and proves
    that every live cgroup below a registered container is tracked to it, and to no other
    container. *)
From S2P Require Import Prelude CLayout ProgramTypes KernelLayout Kernel ConcreteKernel StringMaps PolicyValues CgroupTracker Events AgentMaps.
Local Open Scope Z_scope.

(** ** Cgroup trees *)

(** The live cgroups with their parents; the parent of the root is [0]. *)
Abbreviation tree := (gmap Z Z).

Definition edge (P : tree) (x y : Z) : Prop := P !! x = Some y.
Definition live (P : tree) (x : Z) : Prop := is_Some (P !! x).

(** [below P d a]: [d] is [a] or a descendant of [a]. *)
Definition below (P : tree) (d a : Z) : Prop := rtc (edge P) d a.

#[export] Instance below_preorder P : PreOrder (below P).
Proof. exact rtc_po. Qed.

Record tree_ok (P : tree) (used : gset Z) : Prop := TreeOk {
  tree_zero : 0 ∉ used;
  tree_used x : live P x → x ∈ used;
  tree_parent x y : edge P x y → y = 0 ∨ live P y;
}.

(** ** Worlds *)

(** What is left of the walk of a container: directories to visit and to list. *)
Inductive todo := Visit (id : Z) | ReadDir (id : Z).

Definition todo_id (t : todo) : Z := match t with Visit x | ReadDir x => x end.

Record world := World {
  w_parent : tree;
  w_used : gset Z;
  w_bpf : bpf_state;
  w_containers : gset Z;            (* registered, and their walk has ended *)
  w_walk : option (Z * list todo);  (* the registration in progress *)
}.

Definition w_map (w : world) : gmap Z Z := cgtracker_map (w_bpf w).

Definition registered (w : world) : gset Z :=
  w_containers w ∪ match w_walk w with Some (c, _) => {[c]} | None => ∅ end.

(** The agent writes one entry of the tracker map. *)
Definition agent_update `{K : Kernel} (k v : Z) (s : bpf_state) : bpf_state :=
  set_cgtracker_map (snd (tracker_update k v (cgtracker_map s))) s.

Definition roomy (K : Kernel) (w : world) : Prop :=
  has_room (K := K) TRACKER_MAP_MAX_ENTRIES 1 (w_map w).

(** A cgroup that may be registered: live, and not nested with another container. *)
Definition registrable (w : world) (c : Z) : Prop :=
  live (w_parent w) c ∧ w_walk w = None ∧
  ∀ c', c' ∈ w_containers w → ¬ below (w_parent w) c c' ∧ ¬ below (w_parent w) c' c.

(** [filepath.WalkDir] calls the walk function on a directory (which updates its entry),
    then lists it, then walks each child: [Visit] and [ReadDir].  A directory may be
    removed at any time; its id may then still be written, or not be readable any more. *)
Inductive step : world → world → Prop :=
  | step_mkdir (K : Kernel) (L : KernelLayout) conf w cgrp id p :
      roomy K w → get_cgroup_id cgrp = id → cgroup_get_parent_id cgrp = p →
      id ≠ 0 → id ∉ w_used w → live (w_parent w) p → p ≠ 0 →
      step w (World (<[id := p]> (w_parent w)) ({[id]} ∪ w_used w)
                (snd (tg_cgtracker_cgroup_mkdir conf cgrp (w_bpf w))) (w_containers w) (w_walk w))
  | step_release (K : Kernel) (L : KernelLayout) conf w cgrp id :
      get_cgroup_id cgrp = id → id ≠ 0 → live (w_parent w) id →
      (∀ x, ¬ edge (w_parent w) x id) →
      step w (World (delete id (w_parent w)) (w_used w)
                (snd (tg_cgtracker_cgroup_release conf cgrp (w_bpf w))) (w_containers w) (w_walk w))
  | step_register (K : Kernel) w c :
      roomy K w → registrable w c →
      step w (World (w_parent w) (w_used w) (agent_update c c (w_bpf w)) (w_containers w)
                (Some (c, [ReadDir c])))
  | step_register_unstarted (K : Kernel) w c :
      roomy K w → registrable w c → (∀ x, ¬ edge (w_parent w) x c) →
      step w (World (w_parent w) (w_used w) (agent_update c c (w_bpf w)) ({[c]} ∪ w_containers w) None)
  | step_visit (K : Kernel) w c x T :
      roomy K w → w_walk w = Some (c, Visit x :: T) →
      step w (World (w_parent w) (w_used w) (agent_update x c (w_bpf w)) (w_containers w)
                (Some (c, ReadDir x :: T)))
  | step_visit_gone w c x T :
      w_walk w = Some (c, Visit x :: T) → ¬ live (w_parent w) x →
      step w (World (w_parent w) (w_used w) (w_bpf w) (w_containers w) (Some (c, ReadDir x :: T)))
  | step_read_dir w c x T ys :
      w_walk w = Some (c, ReadDir x :: T) → (∀ y, y ∈ ys ↔ edge (w_parent w) y x) →
      step w (World (w_parent w) (w_used w) (w_bpf w) (w_containers w)
                (Some (c, (Visit <$> ys) ++ T)))
  | step_done w c :
      w_walk w = Some (c, []) →
      step w (World (w_parent w) (w_used w) (w_bpf w) ({[c]} ∪ w_containers w) None).

(** A node on which nothing is tracked yet. *)
Definition initial (w : world) : Prop :=
  tree_ok (w_parent w) (w_used w) ∧ w_map w = ∅ ∧ w_containers w = ∅ ∧ w_walk w = None.

Definition reachable (w : world) : Prop := ∃ w0, initial w0 ∧ rtc step w0 w.

(** ** Trees that change *)

Lemma below_live P used d a : tree_ok P used → live P d → below P d a → a = 0 ∨ live P a.
Proof.
  intros [_ _ Hp] Hd Hb. destruct (rtc_inv_r _ _ Hb) as [<-|(y & _ & He)]; [by right|].
  by apply (Hp y).
Qed.

(** The ancestors of a cgroup are in line. *)
Lemma below_linear P d a b : below P d a → below P d b → below P a b ∨ below P b a.
Proof.
  unfold below. induction 1 as [d|d y a Hdy Hya IH]; [by left|]. intros Hb.
  destruct (rtc_inv _ _ Hb) as [<-|(y' & Hdy' & Hyb)].
  - right. by eapply rtc_l.
  - apply IH. unfold edge in *. by simplify_eq.
Qed.

Lemma edge_insert_ne P id p x y : x ≠ id → edge (<[id := p]> P) x y ↔ edge P x y.
Proof. intros. unfold edge. by rewrite lookup_insert_ne by done. Qed.

(** A new leaf does not change what is below what, itself apart. *)
Lemma below_insert P id p d a :
  (∀ x, ¬ edge P x id) → ¬ live P id → d ≠ id →
  below (<[id := p]> P) d a ↔ below P d a.
Proof.
  intros Hno Hfresh Hd. split.
  - intros Hb. induction Hb as [d|d y a Hdy Hya IH]; [reflexivity|].
    apply edge_insert_ne in Hdy; [|done]. eapply rtc_l; [done|]. apply IH. intros ->. by destruct (Hno d).
  - intros Hb. induction Hb as [d|d y a Hdy Hya IH]; [reflexivity|].
    eapply rtc_l; [by apply edge_insert_ne|]. apply IH. intros ->. by destruct (Hno d).
Qed.

Lemma below_insert_new P id p a :
  (∀ x, ¬ edge P x id) → ¬ live P id → p ≠ id →
  below (<[id := p]> P) id a ↔ a = id ∨ below P p a.
Proof.
  intros Hno Hfresh Hp. split.
  - intros [<-|(y & Hy & Hya)]%rtc_inv; [by left|]. unfold edge in Hy. rewrite lookup_insert_eq in Hy.
    simplify_eq. right. by apply below_insert in Hya.
  - intros [->|Hb]; [reflexivity|]. apply rtc_l with p; [apply lookup_insert_eq|].
    by apply below_insert.
Qed.

(** Neither does removing a leaf. *)
Lemma below_delete P id d a :
  (∀ x, ¬ edge P x id) → d ≠ id → below (delete id P) d a ↔ below P d a.
Proof.
  intros Hleaf Hd. split.
  - apply rtc_subrel. intros x y. unfold edge. rewrite lookup_delete_Some. tauto.
  - intros Hb. induction Hb as [d|d y a Hdy Hya IH]; [reflexivity|].
    apply rtc_l with y; [unfold edge; by rewrite lookup_delete_ne by done|]. apply IH.
    intros ->. by destruct (Hleaf d).
Qed.

Lemma live_delete P id x : live (delete id P) x ↔ x ≠ id ∧ live P x.
Proof. unfold live. rewrite lookup_delete_is_Some. naive_solver. Qed.

Lemma live_insert P id p x : live (<[id := p]> P) x ↔ x = id ∨ live P x.
Proof. unfold live. rewrite lookup_insert_is_Some. destruct (decide (x = id)); naive_solver. Qed.

(** ** The invariant *)

(** [d] is still to be reached by the walk: it is below a directory to visit, or strictly
    below a directory to list. *)
Definition covered (P : tree) (T : list todo) (d : Z) : Prop :=
  ∃ x, below P d x ∧ (Visit x ∈ T ∨ ReadDir x ∈ T ∧ d ≠ x).

Definition is_registered (cs : gset Z) (wk : option (Z * list todo)) (c : Z) : Prop :=
  c ∈ cs ∨ ∃ T, wk = Some (c, T).

Record inv (P : tree) (used : gset Z) (m : gmap Z Z) (cs : gset Z) (wk : option (Z * list todo))
  : Prop := Inv {
  i_tree : tree_ok P used;
  i_used c : is_registered cs wk c → c ∈ used;
  i_keys k t : m !! k = Some t → k ∈ used;
  i_done c d : c ∈ cs → live P d → below P d c → m !! d = Some c;
  i_walk c T t : wk = Some (c, T) → t ∈ T →
    todo_id t ∈ used ∧ (live P (todo_id t) → below P (todo_id t) c);
  i_cover c T d : wk = Some (c, T) → live P d → below P d c → m !! d = Some c ∨ covered P T d;
  i_apart c c' : is_registered cs wk c → is_registered cs wk c' → below P c c' → c = c';
  i_sound d t : live P d → m !! d = Some t → is_registered cs wk t ∧ below P d t;
}.

Definition world_inv (w : world) : Prop :=
  inv (w_parent w) (w_used w) (w_map w) (w_containers w) (w_walk w).

Section preservation.
  Context (P : tree) (used : gset Z) (m : gmap Z Z) (cs : gset Z) (wk : option (Z * list todo)).
  Context (I : inv P used m cs wk).

(** A cgroup is below at most one container. *)
Lemma one_container d c c' :
  is_registered cs wk c → is_registered cs wk c' → below P d c → below P d c' → c = c'.
Proof.
  intros Hc Hc' Hd Hd'. destruct (below_linear _ _ _ _ Hd Hd') as [H|H].
  - by apply (i_apart _ _ _ _ _ I).
  - symmetry. by apply (i_apart _ _ _ _ _ I).
Qed.

Lemma registered_live d c : is_registered cs wk c → live P d → below P d c → live P c.
Proof.
  intros Hc Hd Hb. destruct (below_live P used d c (i_tree _ _ _ _ _ I) Hd Hb) as [->|?]; [|done].
  by apply (i_used _ _ _ _ _ I), (tree_zero _ _ (i_tree _ _ _ _ _ I)) in Hc.
Qed.

(** Fresh ids have no place in the tree. *)
Lemma fresh_not_live id : id ∉ used → ¬ live P id.
Proof. intros Hid Hl. by apply (tree_used _ _ (i_tree _ _ _ _ _ I)) in Hl. Qed.

Lemma fresh_no_edge id x : id ≠ 0 → id ∉ used → ¬ edge P x id.
Proof.
  intros H0 Hid He. destruct (tree_parent _ _ (i_tree _ _ _ _ _ I) x id He) as [?|Hl]; [done|].
  by apply fresh_not_live in Hl.
Qed.

(** *** A new cgroup [id] under [p] *)
Section mkdir.
  Context (id p : Z) (H0 : id ≠ 0) (Hid : id ∉ used) (Hp : live P p).

Let P' := <[id := p]> P.
Let m' := match m !! p with Some t => <[id := t]> m | None => m end.

Lemma mkdir_parent_ne : p ≠ id.
Proof. intros ->. by apply fresh_not_live in Hp. Qed.

Lemma mkdir_below d a : d ≠ id → below P' d a ↔ below P d a.
Proof. intros. apply below_insert; [eauto using fresh_no_edge|by apply fresh_not_live|done]. Qed.

Lemma mkdir_below_new a : below P' id a ↔ a = id ∨ below P p a.
Proof.
  apply below_insert_new; [eauto using fresh_no_edge|by apply fresh_not_live|apply mkdir_parent_ne].
Qed.

Lemma mkdir_lookup d : m' !! d = if decide (d = id) then m !! p else m !! d.
Proof.
  unfold m'. case_decide as Hd; [subst d|]; destruct (m !! p) as [t|] eqn:Hmp.
  - apply lookup_insert_eq.
  - destruct (m !! id) eqn:Hm; [|done]. by apply (i_keys _ _ _ _ _ I) in Hm.
  - by apply lookup_insert_ne.
  - done.
Qed.

Lemma mkdir_not_registered c : is_registered cs wk c → c ≠ id.
Proof. intros Hc ->. by apply (i_used _ _ _ _ _ I) in Hc. Qed.

Lemma mkdir_tree : tree_ok P' ({[id]} ∪ used).
Proof.
  destruct (i_tree _ _ _ _ _ I) as [Hz Hu Hpar]. split; [set_solver|..].
  - intros x [->|Hx]%live_insert; [set_solver|]. apply Hu in Hx. set_solver.
  - intros x y He. unfold P'. rewrite live_insert. destruct (decide (x = id)) as [->|Hx].
    + unfold edge, P' in He. rewrite lookup_insert_eq in He. simplify_eq. auto.
    + apply edge_insert_ne in He; [|done]. apply Hpar in He as [?|?]; auto.
Qed.

Lemma mkdir_cover c T d :
  wk = Some (c, T) → live P' d → below P' d c → m' !! d = Some c ∨ covered P' T d.
Proof.
  intros Hw Hl Hd. rewrite mkdir_lookup. case_decide as Hdi; [subst d|].
  - apply mkdir_below_new in Hd as [->|Hd].
    { by destruct (mkdir_not_registered id ltac:(right; eauto)). }
    destruct (i_cover _ _ _ _ _ I c T p Hw Hp Hd) as [Ht|(x & Hx & HxT)]; [by left|].
    right. exists x. split; [apply mkdir_below_new; auto|]. destruct HxT as [?|[HxT ?]]; [by left|right].
    split; [done|]. intros <-. by destruct (i_walk _ _ _ _ _ I c T _ Hw HxT).
  - apply live_insert in Hl as [?|Hl]; [done|]. apply mkdir_below in Hd; [|done].
    destruct (i_cover _ _ _ _ _ I c T d Hw Hl Hd) as [?|(x & Hx & HxT)]; [auto|].
    right. exists x. split; [by apply mkdir_below|done].
Qed.

Lemma inv_mkdir : inv P' ({[id]} ∪ used) m' cs wk.
Proof.
  split; [apply mkdir_tree|..|apply mkdir_cover| |].
  - intros c Hc. apply (i_used _ _ _ _ _ I) in Hc. set_solver.
  - intros k t. rewrite mkdir_lookup. case_decide; [set_solver|].
    intros Hk%(i_keys _ _ _ _ _ I). set_solver.
  - intros c d Hc Hl Hd. rewrite mkdir_lookup. case_decide as Hdi; [subst d|].
    + apply mkdir_below_new in Hd as [->|Hd]; [by destruct (mkdir_not_registered id (or_introl Hc))|].
      by apply (i_done _ _ _ _ _ I).
    + apply live_insert in Hl as [?|Hl]; [done|]. apply mkdir_below in Hd; [|done].
      by apply (i_done _ _ _ _ _ I).
  - intros c T t Hw Ht. destruct (i_walk _ _ _ _ _ I c T t Hw Ht) as [Hu Hl].
    split; [set_solver|]. intros [Heq|Hlive]%live_insert; [by rewrite Heq in Hu|].
    apply mkdir_below; [by intros Heq; rewrite Heq in Hu|auto].
  - intros c c' Hc Hc' Hbb. apply mkdir_below in Hbb; [|by apply mkdir_not_registered].
    by apply (i_apart _ _ _ _ _ I).
  - intros d t Hl. rewrite mkdir_lookup. case_decide as Hdi; [subst d|]; intros Ht.
    + destruct (i_sound _ _ _ _ _ I p t Hp Ht). split; [done|]. apply mkdir_below_new. auto.
    + apply live_insert in Hl as [?|Hl]; [done|].
      destruct (i_sound _ _ _ _ _ I d t Hl Ht). split; [done|by apply mkdir_below].
Qed.
End mkdir.

(** *** A cgroup without children is released *)
Lemma inv_release id :
  (∀ x, ¬ edge P x id) → inv (delete id P) used (delete id m) cs wk.
Proof.
  intros Hleaf. pose proof (below_delete P id) as Hb.
  assert (∀ d, live (delete id P) d → delete id m !! d = m !! d) as Hm.
  { intros d [Hd _]%live_delete. by apply lookup_delete_ne. }
  split.
  - destruct (i_tree _ _ _ _ _ I) as [Hz Hu Hpar]. split; [done|..].
    + intros x [_ Hx]%live_delete. auto.
    + intros x y [_ He]%lookup_delete_Some. rewrite live_delete.
      destruct (Hpar x y He) as [?|?]; [auto|]. right. split; [|done]. intros ->. by destruct (Hleaf x).
  - apply (i_used _ _ _ _ _ I).
  - intros k t [_ Hk]%lookup_delete_Some. by apply (i_keys _ _ _ _ _ I) in Hk.
  - intros c d Hc Hl Hd. rewrite Hm by done. apply live_delete in Hl as [Hd' Hl].
    apply (i_done _ _ _ _ _ I); [done|done|by apply Hb].
  - intros c T t Hw Ht. destruct (i_walk _ _ _ _ _ I c T t Hw Ht) as [Hu Hl]. split; [done|].
    intros [Hd Hlt]%live_delete. apply Hb; auto.
  - intros c T d Hw Hl Hd. rewrite Hm by done. apply live_delete in Hl as [Hd' Hl].
    apply Hb in Hd; [|done|done].
    destruct (i_cover _ _ _ _ _ I c T d Hw Hl Hd) as [?|(x & Hx & HxT)]; [by left|].
    right. exists x. split; [by apply Hb|done].
  - intros c c' Hc Hc' Hbb. destruct (decide (c = id)) as [->|Hne].
    + apply rtc_inv in Hbb as [?|(y & He & _)]; [done|]. unfold edge in He. by rewrite lookup_delete_eq in He.
    + apply Hb in Hbb; [|done|done]. by apply (i_apart _ _ _ _ _ I).
  - intros d t Hl. rewrite Hm by done. apply live_delete in Hl as [Hd' Hl]. intros Ht.
    destruct (i_sound _ _ _ _ _ I d t Hl Ht). split; [done|by apply Hb].
Qed.

(** *** A container is registered *)
Section register.
  Context (c : Z) (Hc : live P c) (Hwk : wk = None).
  Context (Hapart : ∀ c', c' ∈ cs → ¬ below P c c' ∧ ¬ below P c' c).

Lemma register_apart wk' a b :
  (∀ x, is_registered cs wk' x ↔ x = c ∨ x ∈ cs) →
  is_registered cs wk' a → is_registered cs wk' b → below P a b → a = b.
Proof.
  intros Hreg [->|Ha]%Hreg [->|Hb]%Hreg Hab; [done|by destruct (Hapart b Hb)|by destruct (Hapart a Ha)|].
  apply (i_apart _ _ _ _ _ I); [by left|by left|done].
Qed.

Lemma register_done c' d : c' ∈ cs → live P d → below P d c' → <[c := c]> m !! d = Some c'.
Proof.
  intros Hc' Hl Hd. rewrite lookup_insert_ne; [by apply (i_done _ _ _ _ _ I)|].
  intros <-. by destruct (Hapart c' Hc').
Qed.

Lemma register_keys k t : <[c := c]> m !! k = Some t → k ∈ used.
Proof.
  intros [[<- _]|[_ Hk]]%lookup_insert_Some; [|by apply (i_keys _ _ _ _ _ I) in Hk].
  by apply (tree_used _ _ (i_tree _ _ _ _ _ I)).
Qed.

Lemma register_used wk' x : (∀ x, is_registered cs wk' x ↔ x = c ∨ x ∈ cs) →
  is_registered cs wk' x → x ∈ used.
Proof.
  intros Hreg [->|Hx]%Hreg; [by apply (tree_used _ _ (i_tree _ _ _ _ _ I))|].
  apply (i_used _ _ _ _ _ I). by left.
Qed.

Lemma register_sound d t : live P d → <[c := c]> m !! d = Some t → (t = c ∨ t ∈ cs) ∧ below P d t.
Proof.
  intros Hl [[<- <-]|[_ Ht]]%lookup_insert_Some; [split; [by left|reflexivity]|].
  destruct (i_sound _ _ _ _ _ I d t Hl Ht) as [[Hr|(T & Hr)] Hb]; [auto|by rewrite Hwk in Hr].
Qed.

Lemma inv_register : inv P used (<[c := c]> m) cs (Some (c, [ReadDir c])).
Proof.
  assert (∀ x, is_registered cs (Some (c, [ReadDir c])) x ↔ x = c ∨ x ∈ cs) as Hreg.
  { intros x. unfold is_registered. split; [intros [?|(T & [= <- <-])]; auto|].
    intros [->|?]; [right; eauto|by left]. }
  split; [apply I|eauto using register_used|apply register_keys|apply register_done|..].
  - intros c' T t [= <- <-] ->%list_elem_of_singleton. cbn.
    split; [by apply (tree_used _ _ (i_tree _ _ _ _ _ I))|reflexivity].
  - intros c' T d [= <- <-] Hl Hd. destruct (decide (d = c)) as [->|Hne].
    + left. apply lookup_insert_eq.
    + right. exists c. split; [done|]. right. split; [by apply list_elem_of_singleton|done].
  - intros a b. by apply register_apart.
  - intros d t Hl Ht. rewrite Hreg. by apply register_sound.
Qed.
End register.

(** *** The walk *)
Section walk.
  Context (c : Z) (T : list todo) (x : Z).

Lemma registered_walk T' y :
  wk = Some (c, T) → is_registered cs (Some (c, T')) y ↔ is_registered cs wk y.
Proof. intros ->. unfold is_registered. naive_solver. Qed.

(** Replacing the head of the list: what it covered is tracked or covered by [T']. *)
Lemma inv_walk_step m' T' :
  wk = Some (c, T) →
  (∀ d, m' !! d = m !! d ∨ d = x ∧ m' !! d = Some c) →
  (x ∈ used ∧ (live P x → below P x c)) →
  (∀ t, t ∈ T' → todo_id t ∈ used ∧ (live P (todo_id t) → below P (todo_id t) c)) →
  (∀ d, live P d → covered P T d → m' !! d = Some c ∨ covered P T' d) →
  inv P used m' cs (Some (c, T')).
Proof.
  intros Hwk Hm [Hx Hxl] HT' Hcov. pose proof (registered_walk T') as Hreg.
  assert (is_registered cs wk c) as Hcr by (right; eauto).
  split; [apply I|..].
  - intros y Hy. by apply (i_used _ _ _ _ _ I), Hreg.
  - intros k t Ht. destruct (Hm k) as [Hk|[-> _]]; [|done]. rewrite Hk in Ht.
    by apply (i_keys _ _ _ _ _ I) in Ht.
  - intros c' d Hc' Hl Hd. destruct (Hm d) as [->|[-> ->]]; [by apply (i_done _ _ _ _ _ I)|].
    f_equal. apply (one_container x); [done|by left|auto|done].
  - intros c' T'' t [= <- <-] Ht. auto.
  - intros c' T'' d [= <- <-] Hl Hd.
    destruct (i_cover _ _ _ _ _ I c T d Hwk Hl Hd) as [Hd'|?]; [|auto].
    left. by destruct (Hm d) as [->|[_ ?]].
  - intros a b Ha Hb. apply (i_apart _ _ _ _ _ I); by apply Hreg.
  - intros d t Hl Ht. destruct (Hm d) as [Hd|[-> Hd]]; rewrite Hd in Ht.
    + destruct (i_sound _ _ _ _ _ I d t Hl Ht). split; [by apply Hreg|done].
    + simplify_eq. split; [by apply Hreg|auto].
Qed.
End walk.

Lemma inv_visit c x T m' :
  wk = Some (c, Visit x :: T) →
  (∀ d, m' !! d = m !! d ∨ d = x ∧ m' !! d = Some c) → (live P x → m' !! x = Some c) →
  inv P used m' cs (Some (c, ReadDir x :: T)).
Proof.
  intros Hwk Hm Hx. assert (∀ t, t ∈ Visit x :: T →
    todo_id t ∈ used ∧ (live P (todo_id t) → below P (todo_id t) c)) as Hin by eauto using i_walk.
  apply (inv_walk_step c (Visit x :: T) x); [done|done|apply (Hin (Visit x)); left|..].
  - intros t [->|Ht]%elem_of_cons; [apply (Hin (Visit x)); left|apply Hin; by right].
  - intros d Hl (y & Hy & HyT). destruct (decide (d = x)) as [->|Hne]; [auto|]. right. exists y.
    split; [done|]. rewrite !elem_of_cons in *. naive_solver.
Qed.

Lemma inv_read_dir c x T ys :
  wk = Some (c, ReadDir x :: T) → (∀ y, y ∈ ys ↔ edge P y x) →
  inv P used m cs (Some (c, (Visit <$> ys) ++ T)).
Proof.
  intros Hwk Hys. assert (∀ t, t ∈ ReadDir x :: T →
    todo_id t ∈ used ∧ (live P (todo_id t) → below P (todo_id t) c)) as Hin by eauto using i_walk.
  pose proof (Hin (ReadDir x) ltac:(left)) as [Hxu Hxl]. cbn in Hxu, Hxl.
  assert (∀ y, edge P y x → live P y ∧ live P x) as Hedge.
  { intros y He. split; [by eexists|].
    destruct (tree_parent _ _ (i_tree _ _ _ _ _ I) y x He) as [->|?]; [|done].
    by destruct (tree_zero _ _ (i_tree _ _ _ _ _ I)). }
  apply (inv_walk_step c (ReadDir x :: T) x); [done|auto|done|..].
  - intros t [(y & -> & Hy)%list_elem_of_fmap|Ht]%elem_of_app; [|apply Hin; by right].
    apply Hys in Hy. destruct (Hedge y Hy) as [Hly Hlx]. cbn.
    split; [by apply (tree_used _ _ (i_tree _ _ _ _ _ I))|]. intros _. eapply rtc_l; [done|by apply Hxl].
  - intros d Hl (y & Hy & HyT). right. rewrite !elem_of_cons in HyT.
    destruct HyT as [[?|?]|[[?|?] Hne]]; simplify_eq.
    + exists y. rewrite elem_of_app. auto.
    + destruct (rtc_inv_r _ _ Hy) as [?|(z & Hz & He)]; [done|]. exists z. split; [done|]. left.
      apply elem_of_app. left. apply list_elem_of_fmap_2, Hys, He.
    + exists y. rewrite !elem_of_app. auto.
Qed.

Lemma inv_done c : wk = Some (c, []) → inv P used m ({[c]} ∪ cs) None.
Proof.
  intros Hwk. assert (∀ x, is_registered ({[c]} ∪ cs) None x ↔ is_registered cs wk x) as Hreg.
  { intros x. rewrite Hwk. unfold is_registered. set_solver. }
  split; [apply I|..].
  - intros x. rewrite Hreg. apply (i_used _ _ _ _ _ I).
  - apply (i_keys _ _ _ _ _ I).
  - intros c' d [->%elem_of_singleton|Hc']%elem_of_union Hl Hd; [|by apply (i_done _ _ _ _ _ I)].
    destruct (i_cover _ _ _ _ _ I c [] d Hwk Hl Hd) as [?|(y & _ & [[]%elem_of_nil|[[]%elem_of_nil _]])].
    done.
  - done.
  - done.
  - intros a b. rewrite !Hreg. apply (i_apart _ _ _ _ _ I).
  - intros d t. rewrite Hreg. apply (i_sound _ _ _ _ _ I).
Qed.
End preservation.

(** ** Steps preserve the invariant *)

Lemma agent_update_map (K : Kernel) k v w :
  roomy K w → cgtracker_map (agent_update k v (w_bpf w)) = <[k := v]> (w_map w).
Proof.
  intros Hroom. unfold agent_update. cbn [cgtracker_map set_cgtracker_map].
  change (cgtracker_map (w_bpf w)) with (w_map w).
  by apply (tracker_update_room k v) in Hroom as [-> _].
Qed.

Lemma mkdir_map (K : Kernel) (L : KernelLayout) conf w cgrp :
  roomy K w → get_cgroup_id cgrp ≠ 0 → cgroup_get_parent_id cgrp ≠ 0 →
  cgtracker_map (snd (tg_cgtracker_cgroup_mkdir conf cgrp (w_bpf w))) =
    match w_map w !! cgroup_get_parent_id cgrp with
    | Some t => <[get_cgroup_id cgrp := t]> (w_map w)
    | None => w_map w
    end.
Proof.
  intros Hroom Hid Hp. rewrite mkdir_run by done. cbn. unfold tracker_mkdir.
  change (cgtracker_map (w_bpf w)) with (w_map w). case_match; [|done].
  apply (tracker_update_room (get_cgroup_id cgrp) z) in Hroom as [Hu _].
  unfold tracker_update in Hu. by rewrite Hu.
Qed.

Lemma insert_lookup_or (m : gmap Z Z) x c d :
  <[x := c]> m !! d = m !! d ∨ d = x ∧ <[x := c]> m !! d = Some c.
Proof.
  destruct (decide (d = x)) as [->|?]; [right; by rewrite lookup_insert_eq|left; by rewrite lookup_insert_ne].
Qed.

Lemma step_inv w w' : step w w' → world_inv w → world_inv w'.
Proof.
  unfold world_inv. intros Hstep I. destruct Hstep as
    [K L conf w cgrp id p Hroom Hid Hp H0 Hfresh Hlive Hp0|K L conf w cgrp id Hid H0 Hlive Hleaf
    |K w c Hroom (Hl & Hwk & Hap)|K w c Hroom (Hl & Hwk & Hap) Hleaf|K w c x T Hroom Hwk
    |w c x T Hwk Hdead|w c x T ys Hwk Hys|w c Hwk];
    cbn [w_parent w_used w_containers w_walk]; unfold w_map; cbn [w_bpf].
  - rewrite mkdir_map by congruence. subst. by apply inv_mkdir.
  - rewrite release_run by congruence. subst. by apply inv_release.
  - rewrite agent_update_map by done. by apply (inv_register _ _ _ _ _ I).
  - rewrite agent_update_map by done.
    pose proof (inv_register _ _ _ _ _ I c Hl Hwk Hap) as I1.
    assert (∀ y, y ∈ [] ↔ edge (w_parent w) y c) as Hnone by set_solver.
    by apply (inv_done _ _ _ _ _ (inv_read_dir _ _ _ _ _ I1 c c [] [] eq_refl Hnone)).
  - rewrite agent_update_map by done. apply (inv_visit _ _ _ _ _ I c x T); [done|..].
    + intros d. apply insert_lookup_or.
    + intros _. apply lookup_insert_eq.
  - by apply (inv_visit _ _ _ _ _ I c x T); [|auto|].
  - by apply (inv_read_dir _ _ _ _ _ I c x T).
  - by apply (inv_done _ _ _ _ _ I).
Qed.

Lemma initial_inv w : initial w → world_inv w.
Proof.
  intros (Ht & Hm & Hc & Hw). unfold world_inv. rewrite Hm, Hc, Hw. split; [done|..].
  all: unfold is_registered; try (set_solver || naive_solver).
Qed.

Lemma reachable_inv w : reachable w → world_inv w.
Proof.
  intros (w0 & H0 & Hs). apply initial_inv in H0. induction Hs; eauto using step_inv.
Qed.


(** Tracking is sound.  In every reachable world, a live cgroup with a tracker id is
    below the registered container that the id names: no process is ever attributed to a
    container it does not run in. *)
Theorem tracked_only_below w d :
  reachable w → live (w_parent w) d → cgrp_get_tracker_id (w_bpf w) d ≠ 0 →
  cgrp_get_tracker_id (w_bpf w) d ∈ registered w ∧
  below (w_parent w) d (cgrp_get_tracker_id (w_bpf w) d).
Proof.
  intros Hr Hl. apply reachable_inv in Hr. unfold cgrp_get_tracker_id.
  destruct (cgtracker_map (w_bpf w) !! d) as [t|] eqn:Ht; [|done]. intros _.
  destruct (i_sound _ _ _ _ _ Hr d t Hl Ht) as [Hreg Hb]. split; [|done].
  unfold registered. destruct Hreg as [?|(T & ->)]; set_solver.
Qed.

(** ** Instances *)

(** A pod cgroup, registered before it has children, in which a cgroup is then created. *)
Definition pod_tree : tree := {[ 1 := 0; pod_cgroup := 1 ]}.
Definition pod_world : world := World pod_tree {[ 1; pod_cgroup ]} empty_state ∅ None.

Definition pod_registered : world :=
  World pod_tree {[ 1; pod_cgroup ]}
    (agent_update (K := x86_exec bin_sh) pod_cgroup pod_cgroup empty_state) ({[pod_cgroup]} ∪ ∅) None.

Definition pod_nested : world :=
  World (<[container_cgroup := pod_cgroup]> pod_tree) ({[container_cgroup]} ∪ {[ 1; pod_cgroup ]})
    (snd (tg_cgtracker_cgroup_mkdir (K := x86_exec bin_sh) (L := x86_layout) sample_conf CGROUP
       (w_bpf pod_registered))) ({[pod_cgroup]} ∪ ∅) None.

Lemma pod_tree_edge x y : edge pod_tree x y → (x = 1 ∧ y = 0) ∨ (x = pod_cgroup ∧ y = 1).
Proof.
  unfold edge, pod_tree. intros [[<- <-]|[? [<- <-]%lookup_singleton_Some]]%lookup_insert_Some; auto.
Qed.

Lemma pod_reachable : reachable pod_nested.
Proof.
  exists pod_world. split.
  { split_and!; [|done..]. split.
    - set_solver.
    - intros x [y [[-> ->]|[-> ->]]%pod_tree_edge]; set_solver.
    - intros x y [[-> ->]|[-> ->]]%pod_tree_edge; [by left|right; by eexists]. }
  apply rtc_l with pod_registered; [|apply rtc_once].
  - apply (step_register_unstarted (x86_exec bin_sh) pod_world pod_cgroup).
    + split; [vm_compute; discriminate|done].
    + split_and!; [by eexists|done|set_solver].
    + intros x [[-> ?]|[-> ?]]%pod_tree_edge; done.
  - apply (step_mkdir (x86_exec bin_sh) x86_layout sample_conf pod_registered CGROUP
      container_cgroup pod_cgroup);
      [split; [vm_compute; discriminate|done]|vm_compute; reflexivity|vm_compute; reflexivity
      |discriminate|set_solver|by eexists|discriminate].
Qed.


Lemma tracked_only_below_witness :
  cgrp_get_tracker_id (w_bpf pod_nested) container_cgroup ∈ registered pod_nested.
Proof.
  apply (tracked_only_below pod_nested container_cgroup);
    [exact pod_reachable|by eexists|vm_compute; discriminate].
Defined.
