(* ===== verification/EndToEnd.v ===== *)
(** * The policy that is enforced

    The contract of the whole system: what a policy means ([exec_decision]), and that the
    exec hook, running on the maps the agent fills, implements it. *)
From S2P Require Import Prelude CLayout ProgramTypes KernelLayout Kernel StringMaps ConcreteKernel PolicyValues CgroupTracker DPath Enforce Events.
Local Open Scope Z_scope.

(** ** Specification *)

Record policy := Policy {
  pol_allowed : list bytes;
  pol_mode : Mode;
  pol_allow_foreign : bool;
}.

Inductive decision := Permit | Violation (denied : bool).

Definition mode_denies (m : Mode) : bool := bool_decide (m = Protect).

(** A binary is permitted when its path is on the allow-list; a file on a foreign root
    only when the policy opts out.  Otherwise it is a violation, denied in protect mode. *)
Definition exec_decision (pol : policy) (foreign : bool) (path : bytes) : decision :=
  if foreign then
    if pol_allow_foreign pol then Permit else Violation (mode_denies (pol_mode pol))
  else
    if bool_decide (path ∈ pol_allowed pol) then Permit
    else Violation (mode_denies (pol_mode pol)).

Definition decision_code (d : decision) : Z :=
  match d with Violation true => - EPERM | _ => 0 end.

(** ** The maps that stand for a policy *)

Definition policy_settings_of (pol : policy) : policy_settings :=
  PolicySettings (Mode_uint8 (pol_mode pol)) (if pol_allow_foreign pol then 1 else 0).

Definition installed (s : bpf_state) (pid : Z) (pol : policy) : Prop :=
  policy_settings_map s !! pid = Some (policy_settings_of pol) ∧
  ∀ i, (i < 11)%nat → ∃ m, pol_str_maps s !! i = Some m ∧ m !! pid = policy_inner (pol_allowed pol) i.

(** Allowed values are paths: not empty, at most 4096 bytes, without nul bytes. *)
Definition policy_ok (pol : policy) : Prop :=
  Forall (λ v, 1 <= Z.of_nat (length v) <= 4096 ∧ 0 ∉ v) (pol_allowed pol).

(** ** The event buffer *)

(** The third segment of the path buffer is zero: it pads the lookups. *)
Definition evt_ok (e : process_evt) : Prop :=
  Z.of_nat (length (pe_path e)) = 12288 ∧
  drop (Z.to_nat 8192) (pe_path e) = replicate (Z.to_nat 4096) 0.

(** ** Looking a path up *)

(** The lengths for which both sides choose the same map. *)
Definition same_bucket_len (len : Z) : bool := negb ((121 <=? len) && (len <=? 144)).

Definition index_ok (len : Z) : bool :=
  let i := string_map_index (string_padded_len len) in
  (len =? 0) ||
  (0 <=? i) && (i <? 11) && (len <=? Z.of_nat (key_size (Z.to_nat i))) &&
  Bool.eqb (same_bucket_len len)
    (bool_decide (find_size stringMapsSizes (stringPaddedLen len) 0 = Some (Z.to_nat i))).

Lemma string_padded_len_large len : 144 < len → string_padded_len len = large_size len.
Proof.
  intros. unfold string_padded_len. change STRING_MAPS_SIZE_5 with 144.
  by replace (len <? 144) with false by lia.
Qed.

Lemma index_ok_upto len : 0 <= len <= 4096 → index_ok len = true.
Proof.
  intros Hlen. destruct (decide (len <= 144)); [upto 145%nat|].
  unfold index_ok, same_bucket_len.
  rewrite string_padded_len_large, stringPaddedLen_large by lia. unfold large_size.
  repeat match goal with |- context [if len <=? ?n then _ else _] => destruct (len <=? n) eqn:? end;
    (match goal with |- context [string_map_index ?x] => eval_term (string_map_index x) end);
    (match goal with |- context [key_size ?x] => eval_term (Z.of_nat (key_size x)) end);
    (match goal with |- context [bool_decide ?x] => eval_term (bool_decide x) end);
    lia.
Qed.

(** The map the program chooses has keys that hold the path, and it is the map the agent
    stores the path in except for the lengths 121 to 144. *)
Lemma string_map_index_ok p :
  1 <= Z.of_nat (length p) <= 4096 →
  let i := string_map_index (string_padded_len (Z.of_nat (length p))) in
  0 <= i < 11 ∧ (length p <= key_size (Z.to_nat i))%nat ∧
  (bucket p = Some (Z.to_nat i) ↔ same_bucket_len (Z.of_nat (length p)) = true).
Proof.
  intros Hl i. pose proof (index_ok_upto (Z.of_nat (length p)) ltac:(lia)) as H.
  unfold index_ok in H. fold i in H. fold (bucket p) in H.
  rewrite orb_true_iff in H. destruct H as [?|H]; [lia|].
  rewrite !andb_true_iff in H. destruct H as [[[??]?] Hb]. apply eqb_prop in Hb. rewrite Hb.
  split_and!; [lia..|]. by rewrite bool_decide_eq_true.
Qed.

(** For a path of 1 to 4096 bytes, the string map the program searches is the one the
    agent stored the path in, exactly when its length is not between 121 and 144: the C and
    the Go computation of the padded size disagree on those lengths. *)
Theorem string_map_index_agrees p :
  1 <= Z.of_nat (length p) <= 4096 →
  bucket p = Some (Z.to_nat (string_map_index (string_padded_len (Z.of_nat (length p))))) ↔
  same_bucket_len (Z.of_nat (length p)) = true.
Proof. intros Hl. apply (string_map_index_ok p Hl). Qed.

Lemma get_policy_string_map_lookup maps i pid :
  0 <= i < 11 → get_policy_string_map maps i pid = maps !! Z.to_nat i ≫= lookup pid.
Proof.
  intros Hi. assert (∃ n, i = Z.of_nat n ∧ (n < 11)%nat) as (n & -> & Hn).
  { exists (Z.to_nat i). lia. }
  rewrite Nat2Z.id. do 11 (destruct n as [|n]; [done|]). lia.
Qed.

(** The part of a policy the program can see: allowed values stored where it looks. *)
Definition visible (pol : policy) : policy :=
  Policy (filter (λ v, same_bucket_len (Z.of_nat (length v)) = true) (pol_allowed pol))
    (pol_mode pol) (pol_allow_foreign pol).

(** The lookup of a path that lies in front of the zero segment of the buffer. *)
Lemma lookup_path s pid pol pre p :
  installed s pid pol → policy_ok pol → 0 ∉ p → 1 <= Z.of_nat (length p) <= 4096 →
  Z.of_nat (length pre) = 8192 - Z.of_nat (length p) →
  match get_policy_string_map (pol_str_maps s)
          (string_map_index (string_padded_len (Z.of_nat (length p)))) pid with
  | Some m => inner_map_match m (pre ++ p ++ replicate (Z.to_nat 4096) 0)
                (SAFE_PATH_ACCESS (8192 - Z.of_nat (length p)))
  | None => false
  end = bool_decide (p ∈ pol_allowed (visible pol)).
Proof.
  intros [_ Hmaps] Hok Hp Hl Hpre. destruct (string_map_index_ok p Hl) as (Hi & Hsz & Hb).
  set (i := string_map_index _) in *. rewrite get_policy_string_map_lookup by done.
  destruct (Hmaps (Z.to_nat i)) as (m & -> & Hm); [lia|]. cbn [mbind option_bind]. rewrite Hm.
  pose proof (policy_inner_lookup (pol_allowed pol) (Z.to_nat i) p Hok Hp Hsz) as Hlk.
  assert (p ∈ pol_allowed (visible pol) ↔ p ∈ pol_allowed pol ∧ bucket p = Some (Z.to_nat i)) as Hv.
  { simpl. rewrite list_elem_of_filter, Hb. tauto. }
  destruct (policy_inner _ _) as [im|].
  - destruct Hlk as [Hks Hin]. unfold inner_map_match. apply bool_decide_ext.
    rewrite Hv, <- Hin, Hks, SAFE_PATH_ACCESS_small by lia.
    rewrite (read_app_padded pre p _ _ _ (key_size (Z.to_nat i) - length p)); [|lia..|].
    + by rewrite pad_to_le.
    + rewrite take_replicate. f_equal. pose proof (key_size_le (Z.to_nat i)). lia.
  - symmetry. rewrite bool_decide_eq_false, Hv. done.
Qed.

Section refinement.
  Context `{K : Kernel, L : KernelLayout, !KernelOk K} (conf : load_conf).

(** The executable of [bprm] has the path [p] (see [DPath.walk]). *)
Definition resolves_to (bprm : Z) (p : bytes) : Prop :=
  ∃ file d cs n,
    file = read_ptr (field_addr bprm bprm_file) ∧ file ≠ 0 ∧
    core_read 8 (field_addr (field_addr file file_f_path) path_dentry) = (0, d) ∧
    walk (fst read_task_root) (snd read_task_root) d (path_mount (field_addr file file_f_path)) cs n ∧
    (n < path_iterations)%nat ∧ cs ≠ [] ∧ p = path_of cs ++ deleted_suffix d.

(** The event once the path is in the buffer. *)
Definition evt_with_path (p : bytes) (e : process_evt) : process_evt :=
  set_path_len (Z.of_nat (length p))
    (set_path (take (Z.to_nat (8192 - Z.of_nat (length p))) (pe_path e) ++ p ++
               drop (Z.to_nat 8192) (pe_path e)) e).

Lemma resolves_to_nonempty bprm p : resolves_to bprm p → 1 <= Z.of_nat (length p).
Proof.
  intros (file & d & cs & n & _ & _ & _ & _ & _ & Hcs & ->).
  destruct cs as [|c cs]; [done|]. rewrite path_of_cons. len.
Qed.

Lemma populate_run bprm p s :
  resolves_to bprm p → Z.of_nat (length p) < 8192 →
  Z.of_nat (length (pe_path (process_evt_storage s))) = 12288 →
  populate_evt_with_path conf bprm s =
    (8192 - Z.of_nat (length p),
     set_process_evt_storage (evt_with_path p (process_evt_storage s)) s).
Proof.
  intros Hres Hlen Hbuf. pose proof (resolves_to_nonempty _ _ Hres).
  destruct Hres as (file & d & cs & n & -> & Hfile & Hd & Hw & Hn & Hcs & Hp).
  unfold populate_evt_with_path. rewrite (proj2 (Z.eqb_neq _ 0)) by done. cbv zeta.
  unfold get_evt. rewrite run_bind, run_get. cbn [mret prog_ret fst snd].
  rewrite (bpf_d_path_approx_run _ _ d cs n p) by (done || lia).
  rewrite run_bind. rewrite (proj2 (Z.eqb_neq _ 0)) by lia.
  rewrite (proj2 (Z.eqb_neq _ _)) by (change (MAX_PATH_LEN * 2) with 8192; lia).
  rewrite run_bind. unfold put_evt, modify, evt_with_path. cbn [fst snd mret prog_ret].
  f_equal. change (MAX_PATH_LEN * 2) with 8192.
  replace (8192 - (8192 - Z.of_nat (length p))) with (Z.of_nat (length p)) by lia.
  rewrite u32_small, u16_small by lia. done.
Qed.

(** ** Copying the path to the front of the buffer *)

Lemma copy_path_run (e : process_evt) s pre p :
  storage_read_err = 0 → process_evt_storage s = e →
  pe_path e = pre ++ p ++ replicate (Z.to_nat 4096) 0 →
  Z.of_nat (length pre) = 8192 - Z.of_nat (length p) →
  pe_path_len e = Z.of_nat (length p) → 1 <= Z.of_nat (length p) <= 4094 →
  copy_path_to_front (8192 - Z.of_nat (length p)) s =
    (0, set_process_evt_storage (set_path (write 0 (p ++ [0]) (pe_path e)) e) s).
Proof.
  intros Herr He Hpath Hpre Hpl Hlen. unfold copy_path_to_front, get_evt.
  rewrite run_bind, run_get. cbn [mret prog_ret fst snd]. rewrite He, Hpl, Herr. cbn [Z.eqb].
  rewrite SAFE_PATH_LEN_small, SAFE_PATH_ACCESS_small by lia. rewrite run_bind.
  unfold put_evt, modify. cbn [mret prog_ret fst snd]. rewrite He. do 4 f_equal.
  rewrite Hpath. apply (read_app_padded pre p _ _ _ 1); [lia|lia|].
  by rewrite take_replicate.
Qed.

Lemma write_front p path :
  (S (length p) <= length path)%nat →
  write 0 (p ++ [0]) path = p ++ [0] ++ drop (S (length p)) path.
Proof.
  intros Hlen. unfold write. change (Z.to_nat 0) with 0%nat.
  rewrite take_0, app_nil_l, Nat.sub_0_r, Nat.add_0_l, take_ge by len.
  rewrite length_app, Nat.add_1_r, <- app_assoc. done.
Qed.

(** The record queued for an event whose path is at the front of the buffer: the header,
    the path and seven more bytes. *)
Lemma front_record e q tail :
  pe_path e = q ++ tail → Z.of_nat (length q) < 4096 → pe_path_len e = Z.of_nat (length q) →
  take (Z.to_nat (19 + SAFE_PATH_LEN (pe_path_len e))) (process_evt_bytes e) =
    le_bytes 8 (pe_cg_tracker_id e) ++ le_bytes 2 (pe_path_len e) ++
    [pe_mode e; pe_foreign e] ++ q ++ take 7 tail.
Proof.
  intros Hpath Hlen Hpl. rewrite Hpl, SAFE_PATH_LEN_small by lia. rewrite <- Hpl.
  unfold process_evt_bytes. rewrite Hpath.
  replace (Z.to_nat (19 + pe_path_len e)) with (8 + (2 + (2 + (length q + 7))))%nat by lia.
  by rewrite !take_app_add' by (by rewrite ?length_le_bytes).
Qed.

Lemma front_record_decodes e q tail m :
  pe_path e = q ++ tail → 1 <= Z.of_nat (length q) < 4096 →
  pe_path_len e = Z.of_nat (length q) →
  0 <= pe_cg_tracker_id e < 18446744073709551616 → mode_string (pe_mode e) = Ok m →
  decode_event (take (Z.to_nat (19 + SAFE_PATH_LEN (pe_path_len e))) (process_evt_bytes e)) =
    Ok (MkProcessEvent (pe_cg_tracker_id e) q m (negb (pe_foreign e =? 0))).
Proof.
  intros Hpath Hlen Hpl Ht Hm. rewrite (front_record e q tail) by (done || lia).
  apply decode_event_record; [done|done|lia| |done].
  left. destruct q; [simpl in *; lia|done].
Qed.

Lemma report_violation_run st pid s :
  let e := set_mode (ps_mode st) (process_evt_storage s) in
  let rec := take (Z.to_nat (19 + SAFE_PATH_LEN (pe_path_len e))) (process_evt_bytes e) in
  ∃ s', report_violation conf st pid s =
      ((if ps_mode st =? POLICY_MODE_MONITOR then 0 else - EPERM), s') ∧
    process_evt_storage s' = e ∧
    ringbuf_monitoring s' = ringbuf_monitoring s ++
      (if ringbuf_reserve_ok RB_monitoring (length rec) then [rec] else []).
Proof.
  intros e rec. exists (snd (report_violation conf st pid s)).
  split; [rewrite <- (report_violation_verdict conf st pid s); apply surjective_pairing|].
  unfold report_violation, output_evt, ringbuf_output, emit_log_event_2, emit_log_event_args,
    put_evt, get_evt, modify, get_state, mbind, prog_bind, mret, prog_ret.
  cbn [process_evt_storage set_process_evt_storage]. fold e. fold rec.
  destruct (ringbuf_reserve_ok RB_monitoring (length rec)); cbn -[rec e];
    destruct (ringbuf_reserve_ok RB_logs sizeof_log_evt);
    destruct (ps_mode st =? POLICY_MODE_MONITOR); cbn -[rec e]; rewrite ?app_nil_r; done.
Qed.

(** A violation reported from a state whose event has the path [q] at the front. *)
Lemma report_front s q tail pid m af :
  let e := process_evt_storage s in
  pe_path e = q ++ tail → 1 <= Z.of_nat (length q) < 4096 →
  pe_path_len e = Z.of_nat (length q) → 0 <= pe_cg_tracker_id e < 18446744073709551616 →
  ∃ s' rec,
    report_violation conf (PolicySettings (Mode_uint8 m) af) pid s =
      (decision_code (Violation (mode_denies m)), s') ∧
    process_evt_storage s' = set_mode (Mode_uint8 m) e ∧
    decode_event rec =
      Ok (MkProcessEvent (pe_cg_tracker_id e) q (Mode_String m) (negb (pe_foreign e =? 0))) ∧
    ringbuf_monitoring s' = ringbuf_monitoring s ++
      (if ringbuf_reserve_ok RB_monitoring (length rec) then [rec] else []).
Proof.
  intros e Hpath Hlen Hpl Ht.
  destruct (report_violation_run (PolicySettings (Mode_uint8 m) af) pid s)
    as (s' & Hrun & He & Hring).
  exists s'. eexists. split_and!; [|done| |exact Hring].
  - rewrite Hrun. by destruct m.
  - apply (front_record_decodes (set_mode (Mode_uint8 m) e) q tail); [done..|]. by destruct m.
Qed.

(** ** A tracked exec *)

(** The current task runs in a tracked container and executes the binary [p]; the path
    fits a segment of the buffer, and the kernel supports looking up a path of its length. *)
Record tracked_exec (s : bpf_state) (bprm t : Z) (p : bytes) : Prop := TrackedExec {
  te_tracker : get_tracker_id_from_curr_task conf s = t;
  te_tracked : 0 < t < 18446744073709551616;
  te_not_bootstrap : exec_is_runtime_bootstrap conf s t = false;
  te_storage : storage_available = true;
  te_storage_read : storage_read_err = 0;
  te_path : resolves_to bprm p;
  te_no_nul : 0 ∉ p;
  te_length : Z.of_nat (length p) <= 4096;
  te_kernel : KERNEL_VERSION 5 11 0 <= LINUX_KERNEL_VERSION ∨ Z.of_nat (length p) <= 512;
  te_evt : evt_ok (process_evt_storage s);
}.

(** The event of the exec once its path is resolved. *)
Definition exec_evt (t : Z) (foreign : bool) (p : bytes) (e : process_evt) : process_evt :=
  evt_with_path p (set_foreign (if foreign then 1 else 0) (set_cg_tracker_id t e)).

Lemma exec_evt_path t f p e :
  evt_ok e → 1 <= Z.of_nat (length p) <= 8192 →
  let pre := take (Z.to_nat (8192 - Z.of_nat (length p))) (pe_path e) in
  pe_path (exec_evt t f p e) = pre ++ p ++ replicate (Z.to_nat 4096) 0 ∧
  Z.of_nat (length pre) = 8192 - Z.of_nat (length p).
Proof.
  intros [Hlen Hz] Hp pre. unfold exec_evt, evt_with_path. cbn [set_path_len set_path pe_path
    set_foreign set_cg_tracker_id]. rewrite Hz. split; [done|]. unfold pre. len.
Qed.

Section exec.
  Context (s : bpf_state) (bprm t : Z) (p : bytes) (Hexec : tracked_exec s bprm t p).

Let foreign := exec_is_foreign_root bprm.
Let off := 8192 - Z.of_nat (length p).
Let s1 := set_process_evt_storage (exec_evt t foreign p (process_evt_storage s)) s.

Lemma exec_length : 1 <= Z.of_nat (length p) <= 4096.
Proof. split; [eapply resolves_to_nonempty, te_path | eapply te_length]; done. Qed.

(** With a policy, the hook resolves the path and consults the policy. *)
Lemma enforce_with_policy pid :
  cg_to_policy_map s !! t = Some pid →
  enforce_cgroup_policy conf bprm s =
    (if foreign then foreign_exec conf pid off else check_allow_list conf pid off) s1.
Proof.
  intros Hpid. pose proof exec_length as Hl. destruct Hexec as [Ht Ht0 Hb Hst Hrd Hp _ _ _ [Hbuf _]].
  unfold enforce_cgroup_policy. rewrite run_get. cbv zeta. rewrite Ht, Hb, Hpid.
  rewrite (proj2 (Z.eqb_neq t 0)) by lia. unfold get_process_evt. rewrite Hst.
  rewrite !run_bind. cbn [mret prog_ret fst snd negb]. rewrite !run_bind.
  rewrite (populate_run bprm p) by (done || lia). cbn [fst snd].
  rewrite (proj2 (Z.eqb_neq _ 0)) by lia. done.
Qed.

Lemma copy_path_succeeds o s' : storage_read_err = 0 → fst (copy_path_to_front o s') = 0.
Proof. done. Qed.

Lemma exec_s1_ok : evt_ok (process_evt_storage s1).
Proof.
  pose proof exec_length as Hl.
  destruct (exec_evt_path t foreign p (process_evt_storage s)) as [Hpath Hpre]; [apply Hexec|lia|].
  fold foreign in Hpath.
  split; cbn [s1 process_evt_storage set_process_evt_storage]; rewrite Hpath; [len|].
  rewrite app_assoc, drop_app_ge by len. by replace (_ - _)%nat with 0%nat by len.
Qed.

(** The policy as the hook sees it decides the exec; a violation is reported from the
    state in which the path has been copied to the front. *)
Lemma enforce_decides pid pol :
  cg_to_policy_map s !! t = Some pid → installed s pid pol → policy_ok pol →
  enforce_cgroup_policy conf bprm s =
    match exec_decision (visible pol) foreign p with
    | Permit => (0, s1)
    | Violation _ =>
        report_violation conf (policy_settings_of pol) pid (snd (copy_path_to_front off s1))
    end.
Proof.
  intros Hpid Hinst Hok. pose proof exec_length as Hl. rewrite (enforce_with_policy pid Hpid).
  destruct (exec_evt_path t foreign p (process_evt_storage s)) as [Hpath Hpre]; [apply Hexec|lia|].
  pose proof (proj1 Hinst : policy_settings_map s1 !! pid = _) as Hset.
  pose proof (copy_path_succeeds off s1 (te_storage_read _ _ _ _ Hexec)) as Hcopy.
  unfold exec_decision. case foreign.
  - unfold foreign_exec. rewrite run_get, Hset.
    change (pol_allow_foreign (visible pol)) with (pol_allow_foreign pol).
    cbn [policy_settings_of ps_allow_foreign_root].
    destruct (pol_allow_foreign pol) eqn:Haf; cbn [Z.eqb negb]; [done|].
    rewrite run_bind, Hcopy. unfold policy_settings_of. by rewrite Haf.
  - unfold check_allow_list, get_evt. rewrite run_bind, run_get. cbn [mret prog_ret fst snd].
    change (pe_path_len (process_evt_storage s1)) with (Z.of_nat (length p)).
    destruct (_ && _) eqn:Hver; [pose proof (te_kernel _ _ _ _ Hexec);
      change STRING_MAPS_SIZE_7 with 512 in Hver; lia|].
    rewrite run_get.
    replace (pe_path (process_evt_storage s1)) with
      (pe_path (exec_evt t foreign p (process_evt_storage s))) by done.
    rewrite Hpath, (lookup_path s1 pid pol) by (done || lia || apply Hexec).
    case_bool_decide; [done|]. rewrite run_bind, Hcopy. cbn [negb Z.eqb]. rewrite run_get.
    by rewrite (settings_frame s1), Hset by apply keeps_copy_path.
Qed.

Context (Hshort : Z.of_nat (length p) <= 4094).

(** After the path is copied to the front, the state is this one. *)
Definition copied_evt : process_evt :=
  set_path (write 0 (p ++ [0]) (pe_path (process_evt_storage s1))) (process_evt_storage s1).

Lemma copy_exec_path :
  copy_path_to_front off s1 = (0, set_process_evt_storage copied_evt s1).
Proof.
  pose proof exec_length as Hl. destruct (exec_evt_path t foreign p (process_evt_storage s))
    as [Hpath Hpre]; [apply Hexec|lia|].
  apply (copy_path_run _ s1 _ p (te_storage_read _ _ _ _ Hexec) eq_refl Hpath Hpre); [done|lia].
Qed.

Lemma copied_evt_ok m : evt_ok (set_mode m copied_evt).
Proof.
  pose proof exec_length as Hl. destruct (exec_evt_path t foreign p (process_evt_storage s))
    as [Hpath Hpre]; [apply Hexec|lia|]. fold foreign in Hpath.
  unfold evt_ok, copied_evt. cbn [set_mode set_path pe_path s1 process_evt_storage set_process_evt_storage].
  rewrite Hpath. split; [len|]. unfold write. change (Z.to_nat 0) with 0%nat.
  rewrite take_0, app_nil_l, Nat.sub_0_r, Nat.add_0_l. rewrite drop_app_ge by len.
  rewrite drop_drop. rewrite app_assoc, drop_app_ge by len.
  replace (_ - _)%nat with 0%nat by len. done.
Qed.

(** The events user space gets for a decision: none for a permitted exec, and for a
    violation one record that decodes to [ev], unless the ring buffer is full. *)
Definition reports (d : decision) (ev : ProcessEvent) (s' : bpf_state) : Prop :=
  match d with
  | Permit => ringbuf_monitoring s' = ringbuf_monitoring s
  | Violation _ =>
      ∃ rec, decode_event rec = Ok ev ∧
        ringbuf_monitoring s' = ringbuf_monitoring s ++
          (if ringbuf_reserve_ok RB_monitoring (length rec) then [rec] else [])
  end.

Definition exec_event (m : Mode) : ProcessEvent :=
  MkProcessEvent t p (Mode_String m) foreign.

Lemma report_exec pid m af :
  ∃ s', report_violation conf (PolicySettings (Mode_uint8 m) af) pid
          (set_process_evt_storage copied_evt s1) =
        (decision_code (Violation (mode_denies m)), s') ∧
    evt_ok (process_evt_storage s') ∧
    reports (Violation (mode_denies m)) (exec_event m) s'.
Proof.
  pose proof exec_length as Hl. pose proof (te_tracked _ _ _ _ Hexec) as Ht.
  destruct (exec_evt_path t foreign p (process_evt_storage s)) as [Hpath Hpre]; [apply Hexec|lia|].
  edestruct (report_front (set_process_evt_storage copied_evt s1) p) with (pid := pid) (m := m)
    (af := af) as (s' & rec & Hrun & He & Hdec & Hring);
    [apply write_front; cbn [s1 process_evt_storage set_process_evt_storage];
     fold foreign in Hpath; rewrite Hpath; len|lia|done|cbn; lia|].
  exists s'. split_and!; [done|rewrite He; apply copied_evt_ok|].
  exists rec. split; [|done]. rewrite Hdec. unfold exec_event. cbn. by case foreign.
Qed.

(** The policy as the hook sees it is implemented. *)
Lemma enforce_run pid pol :
  cg_to_policy_map s !! t = Some pid → installed s pid pol → policy_ok pol →
  let d := exec_decision (visible pol) foreign p in
  ∃ s', enforce_cgroup_policy conf bprm s = (decision_code d, s') ∧
    evt_ok (process_evt_storage s') ∧ reports d (exec_event (pol_mode pol)) s'.
Proof.
  intros Hpid Hinst Hok d. rewrite (enforce_decides pid pol) by done. fold d.
  assert (d = Permit ∨ d = Violation (mode_denies (pol_mode pol))) as [->| ->].
  { unfold d, exec_decision. by repeat case_match; auto. }
  - exists s1. split_and!; [done|apply exec_s1_ok|by unfold reports].
  - rewrite copy_exec_path. apply report_exec.
Qed.
End exec.

(** ** Learning *)

(** The end of both learning branches: one record for the execve ring buffer. *)
Lemma output_execve_run n s :
  let rec := take (Z.to_nat n) (process_evt_bytes (process_evt_storage s)) in
  ∃ s', (err ← output_evt RB_execve n;
         (if negb (err =? 0) then emit_log_event conf LOG_DROP_EXEC_EVENT else mret tt) ;;
         mret 0) s = (0, s') ∧
    ringbuf_execve s' = ringbuf_execve s ++
      (if ringbuf_reserve_ok RB_execve (length rec) then [rec] else []) ∧
    ringbuf_monitoring s' = ringbuf_monitoring s ∧
    process_evt_storage s' = process_evt_storage s.
Proof.
  intros rec. unfold output_evt, ringbuf_output, emit_log_event, emit_log_event_args,
    get_evt, get_state, mbind, prog_bind, mret, prog_ret. fold rec.
  destruct (ringbuf_reserve_ok RB_execve (length rec)); cbn -[rec];
    [|destruct (ringbuf_reserve_ok RB_logs sizeof_log_evt)]; cbn -[rec];
    eexists; (split; [reflexivity|]); rewrite ?app_nil_r; done.
Qed.

(** A foreign exec is learned without its path: the record is the header and seven bytes
    of the buffer, which its path length of zero excludes. *)
Lemma learn_foreign_record e :
  0 <= pe_cg_tracker_id e < 18446744073709551616 → pe_path_len e = 0 → pe_mode e = 0 →
  pe_foreign e = 1 →
  decode_event (take (Z.to_nat 19) (process_evt_bytes e)) =
    Ok (MkProcessEvent (pe_cg_tracker_id e) [] "" true).
Proof.
  intros Ht Hpl Hm Hf. unfold process_evt_bytes.
  change (Z.to_nat 19) with (8 + (2 + (2 + 7)))%nat.
  rewrite !take_app_add' by (by rewrite ?length_le_bytes).
  rewrite <- (app_nil_l (take 7 _)).
  rewrite (decode_event_record e [] _ ""); [by rewrite Hf|done|done|simpl; lia|by right|].
  unfold mode_string. by rewrite Hm.
Qed.

Lemma tracked_exec_mode s bprm t p m :
  tracked_exec s bprm t p →
  tracked_exec (set_process_evt_storage (set_mode m (process_evt_storage s)) s) bprm t p.
Proof. intros [????????? []]. by constructor. Qed.

Lemma visible_decision pol foreign p :
  same_bucket_len (Z.of_nat (length p)) = true →
  exec_decision (visible pol) foreign p = exec_decision pol foreign p.
Proof.
  intros Hb. unfold exec_decision. cbn [visible pol_allowed pol_mode pol_allow_foreign].
  destruct foreign; [done|].
  assert (bool_decide (p ∈ filter (λ v, same_bucket_len (Z.of_nat (length v)) = true) (pol_allowed pol)) =
    bool_decide (p ∈ pol_allowed pol)) as ->; [|done].
  apply bool_decide_ext. rewrite list_elem_of_filter. tauto.
Qed.

(** C1: the exec hook implements the policy.  For a task in a tracked container whose
    policy is installed in the maps, and an executable whose path resolves to [p] (at most
    4094 bytes, and not of a length between 121 and 144), the verdict is the one
    [exec_decision] defines; a violation queues one record, which user space decodes to the
    container, the full path, the mode and the foreign flag (unless the ring buffer is
    full), a permitted exec queues none; and the zero segment that pads lookups is intact
    for the next exec. *)
Theorem enforce_refines_policy s bprm t p pid pol :
  tracked_exec s bprm t p → Z.of_nat (length p) <= 4094 →
  same_bucket_len (Z.of_nat (length p)) = true →
  cg_to_policy_map s !! t = Some pid → installed s pid pol → policy_ok pol →
  let foreign := exec_is_foreign_root bprm in
  let d := exec_decision pol foreign p in
  ∃ s', enforce_cgroup_policy conf bprm s = (decision_code d, s') ∧
    evt_ok (process_evt_storage s') ∧
    reports s d (MkProcessEvent t p (Mode_String (pol_mode pol)) foreign) s'.
Proof.
  intros Hexec Hlen Hb Hpid Hinst Hok. cbv zeta. rewrite <- visible_decision by done.
  by apply (enforce_run s bprm t p Hexec Hlen pid pol).
Qed.

(** C37: a binary that is on the allow-list but whose path has between 121 and 144 bytes is
    treated as a violation: the program looks it up in another map than the one the agent
    stored it in, so in protect mode the exec fails with [-EPERM], and in monitor mode it is
    reported. *)
Theorem enforce_rejects_allowed_121_144 s bprm t p pid pol :
  tracked_exec s bprm t p → 121 <= Z.of_nat (length p) <= 144 →
  cg_to_policy_map s !! t = Some pid → installed s pid pol → policy_ok pol →
  exec_is_foreign_root bprm = false → p ∈ pol_allowed pol →
  exec_decision pol false p = Permit ∧
  ∃ s', enforce_cgroup_policy conf bprm s =
      (if decide (pol_mode pol = Protect) then - EPERM else 0, s') ∧
    reports s (Violation (mode_denies (pol_mode pol)))
      (MkProcessEvent t p (Mode_String (pol_mode pol)) false) s'.
Proof.
  intros Hexec Hlen Hpid Hinst Hok Hf Hin. split.
  { unfold exec_decision. by rewrite bool_decide_eq_true_2. }
  destruct (enforce_run s bprm t p Hexec) with (pid := pid) (pol := pol)
    as (s' & Hrun & _ & Hrep); [lia|done..|].
  unfold exec_event in Hrep. rewrite Hf in *. unfold exec_decision in *.
  rewrite bool_decide_eq_false_2 in *.
  2, 3: simpl; rewrite list_elem_of_filter; unfold same_bucket_len; lia.
  exists s'. split; [|done]. rewrite Hrun. cbn. unfold mode_denies. by destruct (pol_mode pol).
Qed.

(** The run of the hook for a container without a policy. *)
Lemma learn_exec_run s bprm t p :
  tracked_exec s bprm t p → Z.of_nat (length p) <= 4094 →
  cg_to_policy_map s !! t = None → learning_enabled conf ≠ 0 →
  let foreign := exec_is_foreign_root bprm in
  ∃ s' rec, enforce_cgroup_policy conf bprm s = (0, s') ∧
    decode_event rec = Ok (MkProcessEvent t (if foreign then [] else p) "" foreign) ∧
    ringbuf_execve s' = ringbuf_execve s ++
      (if ringbuf_reserve_ok RB_execve (length rec) then [rec] else []) ∧
    ringbuf_monitoring s' = ringbuf_monitoring s ∧ evt_ok (process_evt_storage s').
Proof.
  intros Hexec Hlen Hpid Hlearn foreign. pose proof (exec_length _ _ _ _ Hexec) as Hl.
  pose proof Hexec as [Ht Ht0 Hb Hst Hrd Hp _ _ _ [Hbuf Hz]].
  unfold enforce_cgroup_policy. rewrite run_get. cbv zeta. rewrite Ht, Hb, Hpid.
  rewrite (proj2 (Z.eqb_neq t 0)) by lia. unfold learn_exec.
  rewrite (proj2 (Z.eqb_neq _ 0) Hlearn). unfold get_process_evt. rewrite Hst, run_bind.
  cbn [mret prog_ret fst snd negb]. fold foreign. rewrite !run_bind. destruct foreign eqn:Hf.
  - rewrite run_bind, run_bind.
    match goal with |- context [(output_evt RB_execve 19 ≫= _) ?x] =>
      destruct (output_execve_run 19 x) as (s' & Hrun & Hring & Hmon & Hevt) end.
    exists s'. eexists. split_and!; [exact Hrun| |exact Hring|exact Hmon|by rewrite Hevt].
    apply learn_foreign_record; [cbn; lia|done..].
  - set (s0 := set_process_evt_storage (set_mode 0 (process_evt_storage s)) s).
    pose proof (tracked_exec_mode _ _ _ _ 0 Hexec) as Hexec0. fold s0 in Hexec0.
    rewrite run_bind, run_bind, (populate_run bprm p) by (done || lia). cbn [fst snd].
    rewrite (proj2 (Z.eqb_neq _ 0)) by lia. rewrite run_bind.
    pose proof (copy_exec_path s0 bprm t p Hexec0 Hlen) as Hcopy.
    unfold foreign in Hf. rewrite Hf in Hcopy.
    match type of Hcopy with _ = (_, ?x) => set (s2 := x) in * end.
    match goal with |- context [copy_path_to_front ?o ?x] =>
      replace (copy_path_to_front o x) with (0, s2) by (symmetry; exact Hcopy) end.
    cbn [fst snd negb Z.eqb]. rewrite run_bind.
    destruct (output_execve_run (19 + SAFE_PATH_LEN (pe_path_len (process_evt_storage s2))) s2)
      as (s' & Hrun & Hring & Hmon & Hevt).
    exists s'. eexists. split_and!; [exact Hrun| |exact Hring|exact Hmon|].
    + erewrite (front_record_decodes _ p); [cbn; by rewrite Hf| |lia|done|cbn; lia|done].
      apply write_front.
      destruct (exec_evt_path t false p (process_evt_storage s0)) as [Hpath ?]; [done|lia|].
      cbn [process_evt_storage set_process_evt_storage]. rewrite Hf, Hpath. len.
    + rewrite Hevt. exact (copied_evt_ok s0 bprm t p Hexec0 Hlen 0).
Qed.

(** Learning.  In a tracked container without policy, with learning enabled, the exec
    is allowed, nothing is reported as a violation, and the agent receives (unless the ring
    buffer is full) one event with the container and the full path of the binary; for a
    file on a foreign root the event carries the foreign flag and no path. *)
Theorem learning_reports_exec s bprm t p :
  tracked_exec s bprm t p → Z.of_nat (length p) <= 4094 →
  cg_to_policy_map s !! t = None → learning_enabled conf ≠ 0 →
  let foreign := exec_is_foreign_root bprm in
  ∃ s' rec, enforce_cgroup_policy conf bprm s = (0, s') ∧
    decode_event rec = Ok (MkProcessEvent t (if foreign then [] else p) "" foreign) ∧
    ringbuf_execve s' = ringbuf_execve s ++
      (if ringbuf_reserve_ok RB_execve (length rec) then [rec] else []) ∧
    ringbuf_monitoring s' = ringbuf_monitoring s ∧ evt_ok (process_evt_storage s').
Proof. apply learn_exec_run. Qed.

(** [SAFE_PATH_LEN(4095 + 1)] is zero: nothing is copied. *)
Lemma copy_path_4095 o s :
  pe_path_len (process_evt_storage s) = 4095 → snd (copy_path_to_front o s) = s.
Proof.
  destruct s as [? ? ? ? [cg pl md fr path] ? ? ?]. cbn [process_evt_storage pe_path_len].
  intros ->. unfold copy_path_to_front, get_evt, get_state, put_evt, modify, mbind, prog_bind, mret, prog_ret.
  cbn. change (Z.to_nat (SAFE_PATH_LEN 4096)) with 0%nat. cbn [replicate read take].
  unfold set_process_evt_storage, set_path. cbn. do 2 f_equal.
  destruct (storage_read_err =? 0); apply write_nil.
Qed.

(** A violating path of exactly 4095 bytes is reported under another name.  The length
    of the copy to the front of the buffer, [SAFE_PATH_LEN(4095 + 1)], is zero, so the
    event carries whatever the first 4095 bytes of the per-CPU buffer held before: the
    path of an earlier exec, possibly of another container.  The verdict is not affected. *)
Theorem violation_4095_stale_path s bprm t p pid pol b :
  tracked_exec s bprm t p → Z.of_nat (length p) = 4095 →
  cg_to_policy_map s !! t = Some pid → installed s pid pol → policy_ok pol →
  let foreign := exec_is_foreign_root bprm in
  exec_decision pol foreign p = Violation b →
  ∃ s', enforce_cgroup_policy conf bprm s = (decision_code (Violation b), s') ∧
    reports s (Violation b)
      (MkProcessEvent t (take (Z.to_nat 4095) (pe_path (process_evt_storage s)))
         (Mode_String (pol_mode pol)) foreign) s'.
Proof.
  intros Hexec Hlen Hpid Hinst Hok foreign Hd. pose proof (te_tracked _ _ _ _ Hexec) as Ht.
  rewrite (enforce_decides s bprm t p Hexec pid pol) by done.
  rewrite visible_decision by (by rewrite Hlen). fold foreign. rewrite Hd.
  assert (b = mode_denies (pol_mode pol)) as ->.
  { unfold exec_decision in Hd. repeat case_match; congruence. }
  destruct (exec_evt_path t foreign p (process_evt_storage s)) as [Hpath Hpre]; [apply Hexec|lia|].
  rewrite copy_path_4095 by done.
  edestruct (report_front (set_process_evt_storage (exec_evt t foreign p (process_evt_storage s)) s)
    (take (Z.to_nat 4095) (pe_path (process_evt_storage s)))) with (pid := pid) (m := pol_mode pol)
    (af := if pol_allow_foreign pol then 1 else 0) as (s' & rec & Hrun & _ & Hdec & Hring).
  - cbn [process_evt_storage set_process_evt_storage]. rewrite Hpath.
    rewrite Hlen, <- (take_drop (Z.to_nat 4095) (take (Z.to_nat (8192 - 4095)) _)).
    rewrite take_take, Nat.min_l, <- app_assoc by lia. reflexivity.
  - pose proof (te_evt _ _ _ _ Hexec) as [? _]. len.
  - cbn. pose proof (te_evt _ _ _ _ Hexec) as [? _]. len.
  - cbn. lia.
  - exists s'. split; [exact Hrun|]. exists rec. split; [|exact Hring].
    rewrite Hdec. cbn. by case foreign.
Qed.
End refinement.

(** ** Instances *)

Lemma string_map_index_agrees_witness : bucket bin_sh_path = Some 0%nat.
Proof. apply (string_map_index_agrees bin_sh_path); [split; discriminate|reflexivity]. Defined.

(** The state of a node with one container, which runs under [pol] when [pid] is given. *)
Definition node_state (pid : option Z) (pol : policy) : bpf_state := {|
  cgtracker_map := {[ container_cgroup := container_cgroup ]};
  cg_to_policy_map := match pid with Some pid => {[ container_cgroup := pid ]} | None => ∅ end;
  policy_settings_map :=
    match pid with Some pid => {[ pid := policy_settings_of pol ]} | None => ∅ end;
  pol_str_maps :=
    match pid with
    | Some pid => (λ i, partial_alter (λ _, policy_inner (pol_allowed pol) i) pid ∅) <$> seq 0 11
    | None => replicate 11 ∅
    end;
  process_evt_storage := fresh_evt;
  ringbuf_logs := [];
  ringbuf_monitoring := [];
  ringbuf_execve := [];
|}.

Lemma node_state_installed pid pol : installed (node_state (Some pid) pol) pid pol.
Proof.
  split; [apply lookup_singleton_eq|]. intros i Hi. eexists. split.
  - cbn [node_state pol_str_maps]. by rewrite list_lookup_fmap, lookup_seq_lt.
  - apply lookup_partial_alter_eq.
Qed.

Definition sh_policy (m : Mode) : policy := Policy [bin_sh_path; bytes_of_string "/bin/ls"] m false.

(** The hypotheses on an exec of the sample machines, by evaluation. *)
Ltac exec_sample fuel d cs :=
  constructor; [vm_compute; reflexivity|vm_compute; split; reflexivity|vm_compute; reflexivity
    |reflexivity|reflexivity| |apply (bool_decide_unpack _); vm_compute; exact I
    |vm_compute; discriminate|left; vm_compute; discriminate|split; vm_compute; reflexivity];
  exists FILE, d, cs, fuel; split_and!; [vm_compute; reflexivity|discriminate|vm_compute; reflexivity
    |apply (run_walk_sound fuel); vm_compute; reflexivity|vm_compute; lia|discriminate|vm_compute; reflexivity].

(** Under a policy in protect mode, [/bin/sh] from a foreign mount is denied. *)
Lemma enforce_refines_policy_witness :
  let K := x86_foreign_exec bin_sh in let L := x86_layout in
  fst (enforce_cgroup_policy sample_conf BPRM (node_state (Some 5) (sh_policy Protect))) = - EPERM.
Proof.
  intros K L.
  destruct (enforce_refines_policy sample_conf (node_state (Some 5) (sh_policy Protect)) BPRM
    container_cgroup bin_sh_path 5 (sh_policy Protect)) as (s' & -> & _); [|done..| | |].
  - exec_sample 2%nat (DENTRY 2) (rev bin_sh).
  - apply node_state_installed.
  - repeat constructor; try lia; apply (bool_decide_unpack _); vm_compute; exact I.
  - vm_compute. reflexivity.
Defined.

(** An allowed path of 130 bytes. *)
Definition long_name : list bytes := [letters 129].
Definition long_policy : policy := Policy [slash :: letters 129] Protect false.

Lemma enforce_rejects_allowed_121_144_witness :
  let K := x86_exec long_name in let L := x86_layout in
  fst (enforce_cgroup_policy sample_conf BPRM (node_state (Some 5) long_policy)) = - EPERM.
Proof.
  intros K L.
  destruct (enforce_rejects_allowed_121_144 sample_conf (node_state (Some 5) long_policy) BPRM
    container_cgroup (slash :: letters 129) 5 long_policy) as (_ & s' & -> & _);
    [|split; vm_compute; discriminate|done| | | | |].
  - exec_sample 1%nat (DENTRY 1) long_name.
  - apply node_state_installed.
  - repeat constructor; try done; apply (bool_decide_unpack _); vm_compute; exact I.
  - vm_compute. reflexivity.
  - left.
  - reflexivity.
Defined.

Lemma learning_reports_exec_witness :
  let K := x86_exec bin_sh in let L := x86_layout in
  ∃ s' rec, enforce_cgroup_policy sample_conf BPRM (node_state None (sh_policy Monitor)) = (0, s') ∧
    decode_event rec = Ok (MkProcessEvent container_cgroup bin_sh_path "" false) ∧
    ringbuf_execve s' = [rec].
Proof.
  intros K L.
  destruct (learning_reports_exec sample_conf (node_state None (sh_policy Monitor)) BPRM
    container_cgroup bin_sh_path) as (s' & rec & Hrun & Hdec & Hring & _); [|done..|].
  - exec_sample 2%nat (DENTRY 2) (rev bin_sh).
  - exists s', rec. split_and!; [exact Hrun|exact Hdec|exact Hring].
Defined.

(** A path of 4095 bytes that is not allowed. *)
Definition names_4095 : list bytes := letters 254 :: replicate 15 (letters 255).
Definition path_4095 : bytes := path_of (rev names_4095).

Lemma violation_4095_stale_path_witness :
  let K := x86_exec names_4095 in let L := x86_layout in
  let s := node_state (Some 5) (sh_policy Protect) in
  ∃ s', enforce_cgroup_policy sample_conf BPRM s = (- EPERM, s') ∧
    reports s (Violation true)
      (MkProcessEvent container_cgroup (take (Z.to_nat 4095) (pe_path fresh_evt)) "protect"
         (exec_is_foreign_root BPRM)) s'.
Proof.
  intros K L s.
  apply (violation_4095_stale_path sample_conf s BPRM container_cgroup path_4095 5
    (sh_policy Protect) true).
  - exec_sample 16%nat (DENTRY 16) (rev names_4095).
  - vm_compute. reflexivity.
  - done.
  - apply node_state_installed.
  - repeat constructor; try lia; apply (bool_decide_unpack _); vm_compute; exact I.
  - vm_compute. reflexivity.
Defined.

(** ** Paths that do not fit the buffer *)

(** An exec on the sample node. *)
Definition exec_on_node (names : list bytes) (s : bpf_state) : Z * bpf_state :=
  enforce_cgroup_policy (K := x86_exec names) (L := x86_layout) sample_conf BPRM s.

Definition protected_node : bpf_state := node_state (Some 5) (sh_policy Protect).

(** A path of 8393 bytes: its first component is stored across the end of the second
    segment, because the offset is reduced modulo 8192. *)
Definition straddling_names : list bytes := letters 255 :: letters 200 :: replicate 31 (letters 255).

(** One exec of a path longer than 8192 bytes disables the allow-list of the CPU.  The
    store of a component that crosses offset 8192 ends in the third segment of the
    per-CPU buffer, which pads every lookup and is never cleared: after it, an allowed
    binary is denied. *)
Theorem long_path_poisons_lookups :
  fst (exec_on_node bin_sh protected_node) = 0 ∧
  evt_ok (process_evt_storage protected_node) ∧
  let s := snd (exec_on_node straddling_names protected_node) in
  ¬ evt_ok (process_evt_storage s) ∧ fst (exec_on_node bin_sh s) = - EPERM.
Proof.
  split_and!; [vm_compute; reflexivity|split; vm_compute; reflexivity|].
  cbv zeta. split; [|vm_compute; reflexivity].
  intros [_ H]. apply (f_equal (nth 0)) in H. apply (f_equal (λ f, f 0)) in H. vm_compute in H. done.
Qed.

(** A path that starts with [/bin/sh] and goes on for 65536 bytes. *)
Definition wrapping_names : list bytes := bin_sh ++ replicate 256 (letters 255).

(** The 16-bit path length wraps.  A file 65536 bytes below an allowed path is looked
    up with the length and the bytes of the allowed path itself, so the exec is permitted
    and not reported, though its path is not on the allow-list. *)
Theorem path_len_wraps_around :
  let path := path_of (rev wrapping_names) in
  Z.of_nat (length path) = 65536 + Z.of_nat (length bin_sh_path) ∧
  exec_decision (sh_policy Protect) false path = Violation true ∧
  prod_map id ringbuf_monitoring (exec_on_node wrapping_names protected_node) = (0, []).
Proof. split_and!; vm_compute; reflexivity. Qed.
