(* ===== verification/Resolver.v ===== *)
(** * The resolver

    [src/internal/resolver] ([policy.go], [nri_api.go], [podentry.go], [types.go]): the
    agent's cache of pods and policies and its handlers, which run one at a time under the
    resolver's lock and write the eBPF maps through the operations of [PolicyValues] and
    [AgentMaps].  Also the policy fields the handlers read
    ([src/api/v1alpha1/workloadpolicy_types.go], [workloadpolicy_options.go]). *)
From S2P Require Import Prelude GoStd CLayout ProgramTypes KernelLayout Kernel ConcreteKernel StringMaps PolicyValues CgroupTracker Events AgentMaps DPath Enforce EndToEnd.
Local Open Scope Z_scope.

(** ** Data *)

Definition PolicyLabelKey : string := "runtimeenforcer.kubewarden.io/policy".

Record PodMeta := MkPodMeta {
  PodMeta_ID : string;
  PodMeta_Namespace : string;
  PodMeta_Name : string;
  PodMeta_WorkloadName : string;
  PodMeta_WorkloadType : string;
  PodMeta_Labels : gmap string string;
}.

Record ContainerMeta := MkContainerMeta {
  ContainerMeta_ID : string;
  ContainerMeta_Name : string;
  ContainerMeta_CgroupID : Z;
}.

Record ContainerInput := MkContainerInput {
  ContainerInput_meta : ContainerMeta;
  ContainerInput_CgroupPath : cgroup_path;
}.

Record PodInput := MkPodInput {
  PodInput_Meta : PodMeta;
  PodInput_Containers : gmap string ContainerInput;
}.

Record podEntry := MkPodEntry {
  pod_meta : PodMeta;
  pod_containers : gmap string ContainerMeta;
}.

Definition policyName (pod : podEntry) : string :=
  default "" (PodMeta_Labels (pod_meta pod) !! PolicyLabelKey).
Definition podNamespace (pod : podEntry) : string := PodMeta_Namespace (pod_meta pod).

Definition matchPolicy (pod : podEntry) (name namespace : string) : bool :=
  (policyName pod =? name)%string && (podNamespace pod =? namespace)%string.

(** Policies. *)

Definition OptionAllowForeignRootExec : string := "ALLOW_FOREIGN_ROOT_EXEC".

Record WorkloadPolicyRules := MkRules {
  Allowed : list bytes;
  Options : gmap string string;
}.

Record WorkloadPolicy := MkWorkloadPolicy {
  wp_Namespace : string;
  wp_Name : string;
  wp_Mode : string;
  wp_RulesByContainer : gmap string WorkloadPolicyRules;
}.

Definition NamespacedName (wp : WorkloadPolicy) : string :=
  (wp_Namespace wp ++ "/" ++ wp_Name wp)%string.

Definition optionEnabled (value : string) : bool :=
  let v := ToLower (TrimSpace value) in (v =? "1")%string || (v =? "true")%string.

Definition AllowForeignRootExec (r : WorkloadPolicyRules) : bool :=
  optionEnabled (default "" (Options r !! OptionAllowForeignRootExec)).

(** Status. *)

Inductive PolicyState := POLICY_STATE_UNSPECIFIED | POLICY_STATE_READY | POLICY_STATE_ERROR.
Inductive PolicyModeProto := POLICY_MODE_UNSPECIFIED | PROTO_MODE_MONITOR | PROTO_MODE_PROTECT.

Definition ParsePolicyModeToProto (s : string) : PolicyModeProto :=
  if (s =? "monitor")%string then PROTO_MODE_MONITOR
  else if (s =? "protect")%string then PROTO_MODE_PROTECT
  else POLICY_MODE_UNSPECIFIED.

Record PolicyStatus := MkPolicyStatus {
  PolicyStatus_State : PolicyState;
  PolicyStatus_Mode : PolicyModeProto;
  PolicyStatus_Message : string;
}.

Definition zero_status : PolicyStatus := MkPolicyStatus POLICY_STATE_UNSPECIFIED POLICY_MODE_UNSPECIFIED "".

Abbreviation policyByContainer := (gmap string Z).

Record wpInfo := MkWpInfo {
  polByContainer : policyByContainer;
  wp_status : PolicyStatus;
}.

Record Resolver := MkResolver {
  podCache : gmap string podEntry;
  cgroupIDToPodID : gmap Z string;
  nextPolicyID : Z;
  wpState : gmap string wpInfo;
}.

Definition NewResolver : Resolver := MkResolver ∅ ∅ 1 ∅.

Definition set_podCache (x : gmap string podEntry) (r : Resolver) : Resolver :=
  MkResolver x (cgroupIDToPodID r) (nextPolicyID r) (wpState r).
Definition set_cgroupIDToPodID (x : gmap Z string) (r : Resolver) : Resolver :=
  MkResolver (podCache r) x (nextPolicyID r) (wpState r).
Definition set_nextPolicyID (x : Z) (r : Resolver) : Resolver :=
  MkResolver (podCache r) (cgroupIDToPodID r) x (wpState r).
Definition set_wpState (x : gmap string wpInfo) (r : Resolver) : Resolver :=
  MkResolver (podCache r) (cgroupIDToPodID r) (nextPolicyID r) x.

(** ** The handler monad

    A handler changes the resolver and the eBPF maps and returns, returns an error or
    panics; what it changed before an error stays changed. *)

Record node := MkNode { n_resolver : Resolver; n_bpf : bpf_state }.

Definition gom (A : Type) : Type := node → go_result A * node.

#[export] Instance gom_ret : MRet gom := λ A x n, (Ok x, n).
#[export] Instance gom_bind : MBind gom := λ A B f c n,
  match c n with
  | (Ok x, n') => f x n'
  | (Err e, n') => (Err e, n')
  | (Panic e, n') => (Panic e, n')
  end.

Definition resolver : gom Resolver := λ n, (Ok (n_resolver n), n).
Definition update (f : Resolver → Resolver) : gom unit := λ n, (Ok tt, MkNode (f (n_resolver n)) (n_bpf n)).
Definition fail {A} (e : string) : gom A := λ n, (Err e, n).
Definition lift {A} (r : go_result A) : gom A := λ n, (r, n).

(** Run an operation on a part of the eBPF state. *)
Definition bpf_op (f : bpf_state → go_error * bpf_state) : gom unit := λ n,
  let '(err, s) := f (n_bpf n) in
  (match err with None => Ok tt | Some e => Err e end, MkNode (n_resolver n) s).

(** [for k, v := range m]: Go visits the entries of a map in an unspecified order. *)
Class GoRange := { range : ∀ {A : Type}, gmap string A → list (string * A) }.
Class GoRangeOk (R : GoRange) : Prop := { range_perm A (m : gmap string A) : range m ≡ₚ map_to_list m }.

(** The order of the representation is one. *)
Definition list_range : GoRange := {| range := λ A m, map_to_list m |}.
Lemma list_range_ok : GoRangeOk list_range.
Proof. by constructor. Qed.

(** ** Views *)

Record ContainerView := MkContainerView {
  ContainerView_Meta : ContainerMeta;
  ContainerView_PodMeta : PodMeta;
}.

Record PodView := MkPodView {
  PodView_Meta : PodMeta;
  PodView_Containers : gmap string ContainerMeta;
}.

Definition toView (pod : podEntry) : PodView := MkPodView (pod_meta pod) (pod_containers pod).

Definition PodCacheSnapshot (r : Resolver) : gmap string PodView := toView <$> podCache r.

(** The loop over the containers of the pod: the first one in the cgroup. *)
Fixpoint find_container (cgID : Z) (pod : podEntry) (l : list (string * ContainerMeta)) : option ContainerView :=
  match l with
  | [] => None
  | (containerID, meta) :: l' =>
      if cgID =? ContainerMeta_CgroupID meta
      then Some (MkContainerView (MkContainerMeta containerID (ContainerMeta_Name meta) cgID) (pod_meta pod))
      else find_container cgID pod l'
  end.

Definition GetContainerView `{R : GoRange} (r : Resolver) (cgID : Z) : go_result ContainerView :=
  match cgroupIDToPodID r !! cgID with
  | None => Err "no pod UID associated with cgroup ID"
  | Some podID =>
      match podCache r !! podID with
      | None => Err "no pod entry associated with pod ID"
      | Some pod =>
          match find_container cgID pod (range (pod_containers pod)) with
          | Some view => Ok view
          | None => Err "no container associated with cgroup ID"
          end
      end
  end.

Fixpoint for_each {A} (l : list (string * A)) (f : string → A → gom unit) : gom unit :=
  match l with
  | [] => mret tt
  | (k, v) :: l' => f k v ;; for_each l' f
  end.

Section handlers.
  Context `{K : Kernel, B : Ebpf, BM : EbpfMap, R : GoRange} (ver : Z) (isShuttingDown : bool).

(** ** The map operations the manager hands to the resolver *)

Definition policyUpdateBinariesFunc (policyID : Z) (values : list bytes) (op : PolicyValuesOperation)
  : gom unit :=
  bpf_op (λ s, let '(err, maps) := PolicyUpdateBinaries ver isShuttingDown policyID values op (pol_str_maps s) in
               (err, set_pol_str_maps maps s)).

Inductive PolicySettingsOperation := UpdateSettings | DeleteSettings.

Definition policySettingsUpdateFunc (policyID mode : Z) (allowForeignRoot : bool)
  (op : PolicySettingsOperation) : gom unit :=
  bpf_op (λ s, let '(err, m) :=
                 match op with
                 | UpdateSettings => updatePolicySettings policyID mode allowForeignRoot (policy_settings_map s)
                 | DeleteSettings => deletePolicySettings policyID (policy_settings_map s)
                 end in
               (handleErrOnShutdown isShuttingDown err, set_policy_settings_map m s)).

Definition cgTrackerUpdateFunc (cgID : Z) (cgroupPath : cgroup_path) : gom unit :=
  bpf_op (λ s, let '(err, m) := UpdateCgTrackerMap cgID cgroupPath (cgtracker_map s) in
               (handleErrOnShutdown isShuttingDown err, set_cgtracker_map m s)).

Definition cgroupToPolicyMapUpdateFunc (polID : Z) (cgroupIDs : list Z) (op : CgroupPolicyOperation)
  : gom unit :=
  bpf_op (λ s, let '(err, m) := UpdateCgroupPolicy polID cgroupIDs op (cg_to_policy_map s) in
               (handleErrOnShutdown isShuttingDown err, set_cg_to_policy_map m s)).

(** ** Policies *)

Definition PolicyIDNone : Z := 0.

Definition allocPolicyID : gom Z :=
  r ← resolver;
  let id := nextPolicyID r in
  update (set_nextPolicyID (u64 (id + 1))) ;; mret id.

Definition upsertPolicyIDInBPF (policyID : Z) (allowedBinaries : list bytes) (mode : Mode)
  (allowForeignRoot : bool) (valuesOp : PolicyValuesOperation) : gom unit :=
  policyUpdateBinariesFunc policyID allowedBinaries valuesOp ;;
  policySettingsUpdateFunc policyID (Mode_uint8 mode) allowForeignRoot UpdateSettings.

Definition clearPolicyIDFromBPF (policyID : Z) : gom unit :=
  policyUpdateBinariesFunc policyID [] RemoveValuesFromPolicy ;;
  policySettingsUpdateFunc policyID 0 false DeleteSettings.

Definition applyPolicyToPod (state : podEntry) (applied : policyByContainer) : gom unit :=
  for_each (range (pod_containers state)) (λ _ container,
    match applied !! ContainerMeta_Name container with
    | None => mret tt
    | Some polID => cgroupToPolicyMapUpdateFunc polID [ContainerMeta_CgroupID container] AddPolicyToCgroups
    end).

(** [info] is shared with [wpState]: its map is changed in place. *)
Definition update_info (wpKey : string) (f : wpInfo → wpInfo) : gom unit :=
  update (λ r, set_wpState (alter f wpKey (wpState r)) r).
Definition set_pol (f : policyByContainer → policyByContainer) (i : wpInfo) : wpInfo :=
  MkWpInfo (f (polByContainer i)) (wp_status i).
Definition setPolicyStatus (state : PolicyState) (mode : PolicyModeProto) (msg : string) (i : wpInfo)
  : wpInfo :=
  MkWpInfo (polByContainer i) (MkPolicyStatus state mode msg).

Definition removePolicyFromPod (wpKey : string) (pod : podEntry) (removed : policyByContainer)
  : gom unit :=
  for_each (range (pod_containers pod)) (λ _ container,
    match removed !! ContainerMeta_Name container with
    | None => mret tt
    | Some policyID =>
        cgroupToPolicyMapUpdateFunc PolicyIDNone [ContainerMeta_CgroupID container] RemoveCgroups ;;
        clearPolicyIDFromBPF policyID ;;
        update_info wpKey (set_pol (delete (ContainerMeta_Name container)))
    end).

Definition applyPolicyToPodIfPresent (state : podEntry) : gom unit :=
  let name := policyName state in
  if (name =? "")%string then mret tt
  else
    let key := (podNamespace state ++ "/" ++ name)%string in
    r ← resolver;
    match wpState r !! key with
    | None => fail "the policy does not exist"
    | Some info => applyPolicyToPod state (polByContainer info)
    end.

(** The loop of [syncWorkloadPolicy]; [pols] is [info.polByContainer]. *)
Fixpoint sync_containers (pols : policyByContainer) (mode : Mode)
  (l : list (string * WorkloadPolicyRules)) (newContainers : policyByContainer)
  : gom policyByContainer :=
  match l with
  | [] => mret newContainers
  | (containerName, containerRules) :: l' =>
      let upsert polID op :=
        upsertPolicyIDInBPF polID (Allowed containerRules) mode
          (AllowForeignRootExec containerRules) op in
      match pols !! containerName with
      | Some polID =>
          upsert polID ReplaceValuesInPolicy ;;
          sync_containers pols mode l' newContainers
      | None =>
          polID ← allocPolicyID;
          upsert polID AddValuesToPolicy ;;
          sync_containers pols mode l' (<[containerName := polID]> newContainers)
      end
  end.

Definition info_of (r : Resolver) (wpKey : string) : wpInfo :=
  default (MkWpInfo ∅ zero_status) (wpState r !! wpKey).

Definition syncWorkloadPolicy (wp : WorkloadPolicy) : gom policyByContainer :=
  mode ← lift (ParseMode (wp_Mode wp));
  r ← resolver;
  sync_containers (polByContainer (info_of r (NamespacedName wp))) mode
    (range (wp_RulesByContainer wp)) ∅.

(** Add the entry of a policy that is not known yet. *)
Definition ensure_info (wpKey : string) : gom unit :=
  update (λ r, match wpState r !! wpKey with
               | Some _ => r
               | None => set_wpState (<[wpKey := MkWpInfo ∅ zero_status]> (wpState r)) r
               end).

(** The pods of the cache that the policy selects. *)
Definition sync_pods (wp : WorkloadPolicy) (applied removed : policyByContainer)
  (pods : list (string * podEntry)) : gom unit :=
  for_each pods (λ _ pod,
    if negb (matchPolicy pod (wp_Name wp) (wp_Namespace wp)) then mret tt
    else
      removePolicyFromPod (NamespacedName wp) pod removed ;;
      applyPolicyToPod pod applied).

Definition still_present (wp : WorkloadPolicy) (c : string) : bool :=
  match wp_RulesByContainer wp !! c with Some _ => true | None => false end.

Definition reconcile_body (wp : WorkloadPolicy) : gom unit :=
  let wpKey := NamespacedName wp in
  ensure_info wpKey ;;
  newContainers ← syncWorkloadPolicy wp;
  update_info wpKey (set_pol (λ pols, newContainers ∪ pols)) ;;
  r ← resolver;
  let pols := polByContainer (info_of r wpKey) in
  let appliedMap := filter (λ cp, still_present wp cp.1 = true) pols in
  let removedMap := filter (λ cp, still_present wp cp.1 = false) pols in
  sync_pods wp appliedMap removedMap (range (podCache r)) ;;
  update_info wpKey (setPolicyStatus POLICY_STATE_READY (ParsePolicyModeToProto (wp_Mode wp)) "").

(** The deferred function records an error in the status. *)
Definition ReconcileWP (wp : WorkloadPolicy) : gom unit := λ n,
  match reconcile_body wp n with
  | (Err e, n') =>
      let '(_, n'') := update_info (NamespacedName wp)
        (setPolicyStatus POLICY_STATE_ERROR (ParsePolicyModeToProto (wp_Mode wp)) e) n' in
      (Err e, n'')
  | res => res
  end.

Definition HandleWPDelete (wp : WorkloadPolicy) : gom unit :=
  let wpKey := NamespacedName wp in
  r ← resolver;
  match wpState r !! wpKey with
  | None => mret tt
  | Some info =>
      update (λ r, set_wpState (delete wpKey (wpState r)) r) ;;
      for_each (range (polByContainer info)) (λ _ policyID,
        cgroupToPolicyMapUpdateFunc policyID [] RemovePolicy ;;
        clearPolicyIDFromBPF policyID)
  end.

Definition GetPolicyStatuses (r : Resolver) : gmap string PolicyStatus := wp_status <$> wpState r.

(** ** Pods *)

Definition convertPodData (pod : PodInput) : podEntry := MkPodEntry (PodInput_Meta pod) ∅.

(** The loop over the containers of the request.  [cached] says that the entry is already
    in the cache, where its changes are visible at once. *)
Fixpoint add_containers (podID : string) (cached : bool) (l : list (string * ContainerInput))
  (state : podEntry) : gom podEntry :=
  match l with
  | [] => mret state
  | (containerID, container) :: l' =>
      match pod_containers state !! containerID with
      | Some info =>
          if (ContainerMeta_CgroupID info =? ContainerMeta_CgroupID (ContainerInput_meta container))
             && (ContainerMeta_Name info =? ContainerMeta_Name (ContainerInput_meta container))%string
          then add_containers podID cached l' state
          else fail "containerID already exists"
      | None =>
          let state' := MkPodEntry (pod_meta state)
            (<[containerID := ContainerInput_meta container]> (pod_containers state)) in
          let cgID := ContainerMeta_CgroupID (ContainerInput_meta container) in
          (if cached then update (λ r, set_podCache (<[podID := state']> (podCache r)) r) else mret tt) ;;
          update (λ r, set_cgroupIDToPodID (<[cgID := podID]> (cgroupIDToPodID r)) r) ;;
          cgTrackerUpdateFunc cgID (ContainerInput_CgroupPath container) ;;
          add_containers podID cached l' state'
      end
  end.

Definition AddPodContainerFromNri (pod : PodInput) : gom unit :=
  let podID := PodMeta_ID (PodInput_Meta pod) in
  r ← resolver;
  let cached := match podCache r !! podID with Some _ => true | None => false end in
  let state := default (convertPodData pod) (podCache r !! podID) in
  state ← add_containers podID cached (range (PodInput_Containers pod)) state;
  update (λ r, set_podCache (<[podID := state]> (podCache r)) r) ;;
  applyPolicyToPodIfPresent state.

Definition RemovePodContainerFromNri (podID containerID : string) : gom unit :=
  r ← resolver;
  match podCache r !! podID with
  | None => mret tt
  | Some state =>
      match pod_containers state !! containerID with
      | None => mret tt
      | Some container =>
          (if (size (pod_containers state) =? 1)%nat
           then update (λ r, set_podCache (delete podID (podCache r)) r)
           else update (λ r, set_podCache
                  (<[podID := MkPodEntry (pod_meta state) (delete containerID (pod_containers state))]>
                     (podCache r)) r)) ;;
          update (λ r, set_cgroupIDToPodID
                   (delete (ContainerMeta_CgroupID container) (cgroupIDToPodID r)) r) ;;
          cgroupToPolicyMapUpdateFunc PolicyIDNone [ContainerMeta_CgroupID container] RemoveCgroups
      end
  end.
End handlers.
