(* ===== verification/ResolverSpec.v ===== *)
(** * What the resolver's operations change

    Frame and functional lemmas for the operations of [Resolver] on the eBPF maps and for its
    loops over containers and pods; [ResolverTheorems] builds on them. *)
From S2P Require Import Prelude CLayout ProgramTypes KernelLayout Kernel ConcreteKernel StringMaps PolicyValues CgroupTracker Events AgentMaps DPath Enforce EndToEnd Resolver.
Local Open Scope Z_scope.

(** ** The entry of a policy in the maps *)

Definition map_entry : Type := option policy_settings * list (option inner_map).

Definition policy_entry (s : bpf_state) (q : Z) : map_entry :=
  (policy_settings_map s !! q, maps_entry (pol_str_maps s) q).
Definition no_entry : map_entry := (None, replicate 11 None).
Definition entry_of (pol : policy) : map_entry :=
  (Some (policy_settings_of pol), policy_inner (pol_allowed pol) <$> seq 0 11).

(** The maps change at most the entries of the policies in [X] and the associations of the
    cgroups in [C]. *)
Record bpf_frame (X C : Z → Prop) (s s' : bpf_state) : Prop := {
  bf_len : length (pol_str_maps s') = length (pol_str_maps s);
  bf_entry q : ¬ X q → policy_entry s' q = policy_entry s q;
  bf_cg cg : ¬ C cg → cg_to_policy_map s' !! cg = cg_to_policy_map s !! cg;
}.

Definition nothing : Z → Prop := λ _, False.

(** No two containers of the cached pods run in the same cgroup. *)
Definition own_cgroups (r : Resolver) : Prop :=
  ∀ p1 pod1 c1 cm1 p2 pod2 c2 cm2,
    podCache r !! p1 = Some pod1 → pod_containers pod1 !! c1 = Some cm1 →
    podCache r !! p2 = Some pod2 → pod_containers pod2 !! c2 = Some cm2 →
    ContainerMeta_CgroupID cm1 = ContainerMeta_CgroupID cm2 → p1 = p2 ∧ c1 = c2.

(** What the policy [wp] asks for a container with the rules [rules]. *)
Definition asked (mode : Mode) (rules : WorkloadPolicyRules) : policy :=
  Policy (Allowed rules) mode (AllowForeignRootExec rules).

(** ** Lemmas on the definitions *)

#[export] Instance bpf_frame_preorder X C : PreOrder (bpf_frame X C).
Proof.
  split; [done|]. intros x y z [H1 H2 H3] [G1 G2 G3]. split; [congruence|..].
  - intros q Hq. by rewrite G2, H2.
  - intros q Hq. by rewrite G3, H3.
Qed.

Lemma bpf_frame_mono (X C X' C' : Z → Prop) s s' :
  (∀ q, X q → X' q) → (∀ q, C q → C' q) → bpf_frame X C s s' → bpf_frame X' C' s s'.
Proof. intros HX HC [H1 H2 H3]. split; [done|intros; apply H2; auto|intros; apply H3; auto]. Qed.

Lemma entry_installed s pid pol :
  policy_entry s pid = entry_of pol → installed s pid pol.
Proof.
  intros H. pose proof (f_equal fst H) as H1. pose proof (f_equal snd H) as H2.
  split; [exact H1|]. intros i Hi. cbn [policy_entry entry_of snd] in H2.
  apply (f_equal (lookup i)) in H2. unfold maps_entry in H2.
  rewrite !list_lookup_fmap, lookup_seq_lt in H2 by done.
  destruct (pol_str_maps s !! i) as [m|] eqn:Hm; [|done]. simplify_eq/=. eauto.
Qed.

Lemma policy_inner_nil i : policy_inner [] i = None.
Proof. done. Qed.

Lemma maps_entry_none maps pid i m :
  maps_entry maps pid = replicate 11 None → maps !! i = Some m → m !! pid = None.
Proof.
  intros H Hi. apply (f_equal (lookup i)) in H. unfold maps_entry in H.
  rewrite list_lookup_fmap, Hi in H. cbn [fmap option_fmap option_map] in H.
  symmetry in H. by apply lookup_replicate in H as [<- _].
Qed.

(** ** Loops *)

Lemma for_each_rel {A} (Rel : node → node → Prop) `{!PreOrder Rel} l (f : string → A → gom unit) n res n' :
  (∀ k v n res n', (k, v) ∈ l → f k v n = (res, n') → Rel n n') →
  for_each l f n = (res, n') → Rel n n'.
Proof.
  revert n. induction l as [|[k v] l IH]; intros n Hf H; cbn [for_each] in H.
  { injection H as <- <-. reflexivity. }
  unfold mbind, gom_bind in H. destruct (f k v n) as [r n1] eqn:Hk.
  apply Hf in Hk as Hkr; [|left]. destruct r; simplify_eq; [|done..].
  etrans; [done|]. apply IH; [|done]. intros. eapply Hf; [by right|done].
Qed.

(** A successful loop establishes what each iteration does, if later ones keep it. *)
Lemma for_each_ok {A} (I : node → Prop) (Q : string → A → node → Prop) l (f : string → A → gom unit) n n' :
  (∀ k v n n', (k, v) ∈ l → I n → f k v n = (Ok tt, n') →
     I n' ∧ Q k v n' ∧ ∀ k' v', (k', v') ∈ l → Q k' v' n → Q k' v' n') →
  I n → for_each l f n = (Ok tt, n') → I n' ∧ ∀ k v, (k, v) ∈ l → Q k v n'.
Proof.
  intros Hf. assert (∀ l', (∀ x, x ∈ l' → x ∈ l) → ∀ n, I n → for_each l' f n = (Ok tt, n') →
    I n' ∧ (∀ k v, (k, v) ∈ l' → Q k v n') ∧ ∀ k v, (k, v) ∈ l → Q k v n → Q k v n') as Hgen.
  { induction l' as [|[k v] l' IH]; intros Hl m Hm H; cbn [for_each] in H.
    { injection H as <-. split_and!; [done|set_solver|done]. }
    unfold mbind, gom_bind in H. destruct (f k v m) as [[[]|e|e] n1] eqn:Hk; [|done..].
    apply Hf in Hk as (Hi & Hq & Hkeep); [|apply Hl; left|done].
    destruct (IH ltac:(set_solver) n1 Hi H) as (Hi' & Hall & Hstay). split_and!; [done| |].
    - intros k' v' [[= -> ->]|Hin]%elem_of_cons; [|auto]. apply Hstay; [apply Hl; left|done].
    - auto. }
  intros Hi H. destruct (Hgen l ltac:(done) n Hi H) as (? & ? & _). done.
Qed.

Section ops.
  Context `{K : Kernel, B : Ebpf, BM : EbpfMap} (ver : Z) (sd : bool).

(** ** The map operations *)

Lemma policyUpdateBinaries_run pid values op n res n' :
  policyUpdateBinariesFunc ver sd pid values op n = (res, n') →
  n_resolver n' = n_resolver n ∧ bpf_frame (eq pid) nothing (n_bpf n) (n_bpf n') ∧
  policy_settings_map (n_bpf n') = policy_settings_map (n_bpf n) ∧
  cg_to_policy_map (n_bpf n') = cg_to_policy_map (n_bpf n) ∧
  (res = Ok tt → sd = false → length (pol_str_maps (n_bpf n)) = 11%nat →
   (op = AddValuesToPolicy → policy_entry (n_bpf n) pid = no_entry) →
   maps_entry (pol_str_maps (n_bpf n')) pid =
     policy_inner (if op is RemoveValuesFromPolicy then [] else values) <$> seq 0 11).
Proof.
  unfold policyUpdateBinariesFunc, bpf_op. pose proof (PolicyUpdateBinaries_others ver pid sd values op
    (pol_str_maps (n_bpf n))) as Hoth.
  destruct (PolicyUpdateBinaries ver sd pid values op _) as [err maps] eqn:Hu. cbn [snd] in Hoth.
  intros [= <- <-]. pose proof (same_others_length _ _ _ Hoth) as Hlen.
  split_and!; [done| |done|done|].
  { split; [exact Hlen| |done]. intros q Hq. apply pair_eq; split; [done|]. apply Hoth. congruence. }
  intros Hok -> Hl Hadd. destruct err; [done|]. cbn. unfold PolicyUpdateBinaries in Hu.
  eapply holds_entry; [exact Hl|by rewrite Hlen|].
  destruct op.
  - destruct (generateBPFMaps _ _ _ _) as [[e|] m] eqn:Hg; simplify_eq/=.
    apply generateBPFMaps_holds in Hg; [done..|]. intros i mi. apply maps_entry_none.
    exact (f_equal snd (Hadd eq_refl)).
  - destruct (removeBPFMaps _ _) as [[e|] m] eqn:Hg; simplify_eq/=. by apply removeBPFMaps_holds.
  - destruct (replaceBPFMaps _ _ _ _) as [[e|] m] eqn:Hg; simplify_eq/=. by eapply replaceBPFMaps_holds.
Qed.

Lemma policySettings_run pid mode af op n res n' :
  policySettingsUpdateFunc sd pid mode af op n = (res, n') →
  n_resolver n' = n_resolver n ∧ bpf_frame (eq pid) nothing (n_bpf n) (n_bpf n') ∧
  pol_str_maps (n_bpf n') = pol_str_maps (n_bpf n) ∧
  cg_to_policy_map (n_bpf n') = cg_to_policy_map (n_bpf n) ∧
  (res = Ok tt → sd = false → policy_settings_map (n_bpf n') !! pid =
     if op is UpdateSettings then Some (PolicySettings mode (if af then 1 else 0)) else None).
Proof.
  unfold policySettingsUpdateFunc, bpf_op.
  set (run := match op with UpdateSettings => _ | DeleteSettings => _ end).
  assert (∀ err m, run = (err, m) →
    (∀ q, q ≠ pid → m !! q = policy_settings_map (n_bpf n) !! q) ∧
    (err = None → m !! pid = if op is UpdateSettings
       then Some (PolicySettings mode (if af then 1 else 0)) else None)) as Hrun.
  { intros err m. unfold run, updatePolicySettings, deletePolicySettings. destruct op.
    - destruct (hash_update _ _ _ _) as [e m'] eqn:Hu.
      apply hash_update_ok in Hu as [[-> ->]|(He & -> & _)].
      + intros [= <- <-]. split; [intros; by apply lookup_insert_ne|intros _; apply lookup_insert_eq].
      + rewrite (proj2 (Z.eqb_neq e 0)) by done. by intros [= <- <-].
    - destruct (policy_settings_map (n_bpf n) !! pid) eqn:Hp; [|by intros [= <- <-]].
      destruct (delete_err pid); intros [= <- <-]; [done|].
      split; [intros; by apply lookup_delete_ne|intros _; apply lookup_delete_eq]. }
  clearbody run. destruct run as [err m]. destruct (Hrun _ _ eq_refl) as [Hoth Hok].
  intros [= <- <-]. split_and!; [done| |done|done|].
  - split; [done| |done]. intros q Hq. apply pair_eq; split; [apply Hoth; congruence|done].
  - intros H ->. cbn. apply Hok. by destruct err.
Qed.

Lemma upsert_run pid allowed mode af op n res n' :
  upsertPolicyIDInBPF ver sd pid allowed mode af op n = (res, n') → op ≠ RemoveValuesFromPolicy →
  n_resolver n' = n_resolver n ∧ bpf_frame (eq pid) nothing (n_bpf n) (n_bpf n') ∧
  (res = Ok tt → sd = false → length (pol_str_maps (n_bpf n)) = 11%nat →
   (op = AddValuesToPolicy → policy_entry (n_bpf n) pid = no_entry) →
   policy_entry (n_bpf n') pid = entry_of (Policy allowed mode af)).
Proof.
  unfold upsertPolicyIDInBPF, mbind, gom_bind. intros H Hop.
  destruct (policyUpdateBinariesFunc _ _ _ _ _ _) as [r1 n1] eqn:H1.
  apply policyUpdateBinaries_run in H1 as (Hr1 & Hf1 & _ & _ & Hok1).
  destruct r1 as [[]|e|e]; [|simplify_eq; split_and!; done..].
  apply policySettings_run in H as (Hr2 & Hf2 & Hm & _ & Hok2).
  split_and!; [congruence|by etrans|]. intros Hres Hsd Hl Hadd.
  apply pair_eq; split; [by apply Hok2|]. cbn [policy_entry snd]. rewrite Hm.
  etrans; [by apply Hok1|]. by destruct op.
Qed.

Lemma clear_run pid n res n' :
  clearPolicyIDFromBPF ver sd pid n = (res, n') →
  n_resolver n' = n_resolver n ∧ bpf_frame (eq pid) nothing (n_bpf n) (n_bpf n') ∧
  (res = Ok tt → sd = false → length (pol_str_maps (n_bpf n)) = 11%nat →
   policy_entry (n_bpf n') pid = no_entry).
Proof.
  unfold clearPolicyIDFromBPF, mbind, gom_bind. intros H.
  destruct (policyUpdateBinariesFunc _ _ _ _ _ _) as [r1 n1] eqn:H1.
  apply policyUpdateBinaries_run in H1 as (Hr1 & Hf1 & _ & _ & Hok1).
  destruct r1 as [[]|e|e]; [|simplify_eq; split_and!; done..].
  apply policySettings_run in H as (Hr2 & Hf2 & Hm & _ & Hok2).
  split_and!; [congruence|by etrans|]. intros Hres Hsd Hl.
  apply pair_eq; split; [by apply Hok2|]. cbn [policy_entry snd]. rewrite Hm.
  etrans; [by apply Hok1|]. reflexivity.
Qed.

Lemma cg_add_run pid cgs n res n' :
  cgroupToPolicyMapUpdateFunc sd pid cgs AddPolicyToCgroups n = (res, n') →
  n_resolver n' = n_resolver n ∧ bpf_frame nothing (λ cg, cg ∈ cgs) (n_bpf n) (n_bpf n') ∧
  cg_to_policy_map (n_bpf n) ⊆ cg_to_policy_map (n_bpf n') ∧
  (∀ cg q, cg_to_policy_map (n_bpf n') !! cg = Some q →
     cg_to_policy_map (n_bpf n) !! cg = Some q ∨ q = pid) ∧
  (res = Ok tt → sd = false → ∀ cg, cg ∈ cgs → cg_to_policy_map (n_bpf n') !! cg = Some pid).
Proof.
  unfold cgroupToPolicyMapUpdateFunc, bpf_op. cbn [UpdateCgroupPolicy]. unfold addPolicyToCgroups.
  destruct (pid =? 0).
  { intros [= <- <-]. split_and!; [done|by split|done|auto|]. by intros H ->. }
  destruct (add_cgroups pid cgs _) as [err m] eqn:Hu.
  apply add_cgroups_spec in Hu as (Hsub & Hnew & Hok). intros [= <- <-].
  split_and!; [done| |done| |].
  - split; [done..|]. intros cg Hcg. cbn. apply option_eq. intros q. split; [|intros; by eapply lookup_weaken].
    intros Hq. by destruct (Hnew _ _ Hq) as [?|[??]].
  - intros cg q Hq. destruct (Hnew _ _ Hq) as [?|[??]]; auto.
  - intros H -> cg Hcg. apply Hok; [by destruct err|done].
Qed.

Lemma cg_remove_run cgs n res n' :
  cgroupToPolicyMapUpdateFunc sd PolicyIDNone cgs RemoveCgroups n = (res, n') →
  n_resolver n' = n_resolver n ∧ bpf_frame nothing (λ cg, cg ∈ cgs) (n_bpf n) (n_bpf n') ∧
  cg_to_policy_map (n_bpf n') ⊆ cg_to_policy_map (n_bpf n) ∧
  (res = Ok tt → sd = false → ∀ cg, cg ∈ cgs → cg_to_policy_map (n_bpf n') !! cg = None).
Proof.
  unfold cgroupToPolicyMapUpdateFunc, bpf_op. cbn [UpdateCgroupPolicy].
  destruct (removeCgroups _ cgs _) as [err m] eqn:Hu.
  apply removeCgroups_spec in Hu as (Hsub & Hkeep & Hok). intros [= <- <-].
  split_and!; [done|by split|done|]. intros H -> cg Hcg. cbn.
  destruct Hok as [_ ->]; [by destruct err|]. by apply decide_True.
Qed.

Lemma cg_remove_policy_run pid n res n' :
  cgroupToPolicyMapUpdateFunc sd pid [] RemovePolicy n = (res, n') →
  n_resolver n' = n_resolver n ∧
  bpf_frame nothing (λ cg, cg_to_policy_map (n_bpf n) !! cg = Some pid) (n_bpf n) (n_bpf n') ∧
  cg_to_policy_map (n_bpf n') ⊆ cg_to_policy_map (n_bpf n) ∧
  (res = Ok tt → sd = false → ∀ cg, cg_to_policy_map (n_bpf n') !! cg ≠ Some pid).
Proof.
  unfold cgroupToPolicyMapUpdateFunc, bpf_op. cbn [UpdateCgroupPolicy].
  destruct (removePolicyFromCgroups _ _) as [err m] eqn:Hu.
  apply removePolicy_spec in Hu as (Hsub & Hkeep & Hok). intros [= <- <-].
  split_and!; [done|by split|done|]. intros H -> cg. cbn.
  destruct Hok as [_ ->]; [by destruct err|]. by case_decide.
Qed.
End ops.

(** ** Installing the containers of a policy *)

Abbreviation next n := (nextPolicyID (n_resolver n)).

Section sync.
  Context `{K : Kernel, B : Ebpf, BM : EbpfMap} (ver : Z) (sd : bool) (pols : policyByContainer) (mode : Mode).

(** The policies that the loop over [l] may write. *)
Definition touched (l : list (string * WorkloadPolicyRules)) (lo hi q : Z) : Prop :=
  (∃ c, c ∈ l.*1 ∧ pols !! c = Some q) ∨ lo <= q < hi.

(** The new ids [news] of the containers [l]. *)
Definition new_ids (l : list (string * WorkloadPolicyRules)) (lo hi : Z) (news news' : policyByContainer) : Prop :=
  ∀ c pid, news' !! c = Some pid → news !! c = Some pid ∨ c ∈ l.*1 ∧ pols !! c = None ∧ lo <= pid < hi.

Lemma alloc_run n :
  next n + 1 < 2 ^ 64 → 1 <= next n →
  allocPolicyID n = (Ok (next n), MkNode (set_nextPolicyID (next n + 1) (n_resolver n)) (n_bpf n)).
Proof.
  intros H1 H2. unfold allocPolicyID, resolver, update, mbind, gom_bind, mret, gom_ret. cbn.
  by rewrite u64_small by lia.
Qed.

Lemma set_next_id r : set_nextPolicyID (nextPolicyID r) r = r.
Proof. by destruct r. Qed.

Lemma touched_cons c rules l lo lo' hi q :
  lo <= lo' → touched l lo' hi q → touched ((c, rules) :: l) lo hi q.
Proof. intros ? [(c' & ? & ?)|?]; [left; exists c'; split; [by right|done]|right; lia]. Qed.

Lemma new_ids_cons c rules l lo lo' hi news news' :
  lo <= lo' → new_ids l lo' hi news news' → new_ids ((c, rules) :: l) lo hi news news'.
Proof.
  intros ? Hn c' pid Hp. destruct (Hn _ _ Hp) as [?|(?&?&?)]; [by left|].
  right. split_and!; [by right|done|lia|lia].
Qed.

Lemma new_ids_insert c rules l lo hi news news' :
  pols !! c = None → lo < hi → new_ids l (lo + 1) hi (<[c := lo]> news) news' →
  new_ids ((c, rules) :: l) lo hi news news'.
Proof.
  intros Hc Hlt Hn c' pid Hp. destruct (Hn _ _ Hp) as [Hi|(?&?&?)].
  - apply lookup_insert_Some in Hi as [[<- <-]|[_ ?]]; [|by left].
    right. split_and!; [left|done|lia|lia].
  - right. split_and!; [by right|done|lia|lia].
Qed.

(** What the loop changes, whether it succeeds or not. *)
Lemma sync_frame l news n res n' :
  sync_containers ver sd pols mode l news n = (res, n') →
  next n + Z.of_nat (length l) < 2 ^ 64 → 1 <= next n →
  n_resolver n' = set_nextPolicyID (next n') (n_resolver n) ∧
  next n <= next n' <= next n + Z.of_nat (length l) ∧
  bpf_frame (touched l (next n) (next n')) nothing (n_bpf n) (n_bpf n') ∧
  (∀ news', res = Ok news' → new_ids l (next n) (next n') news news').
Proof.
  revert news n. induction l as [|[c rules] l IH]; intros news n H Hmax Hnext; cbn [sync_containers] in H.
  { injection H as <- <-. rewrite set_next_id. split_and!; [done|lia|cbn; lia|reflexivity|].
    intros news' [= <-] c pid Hc. by left. }
  unfold mbind, gom_bind in H. cbn [length] in *. destruct (pols !! c) as [polID|] eqn:Hc.
  - destruct (upsertPolicyIDInBPF _ _ _ _ _ _ _ _) as [r1 n1] eqn:H1.
    apply upsert_run in H1 as (Hr1 & Hf1 & _); [|done].
    apply (bpf_frame_mono _ _ (touched ((c, rules) :: l) (next n) (next n')) nothing) in Hf1;
      [|intros q <-; left; exists c; split; [left|done]|done].
    destruct r1 as [[]|e|e];
      [|simplify_eq; rewrite Hr1 in Hf1 |- *; rewrite set_next_id; split_and!; [done|lia|lia|done|done]..].
    rewrite <- Hr1 in *. destruct (IH _ _ H) as (Hr2 & Hn2 & Hf2 & Hnew); [lia..|].
    split_and!; [done|lia|lia| |intros; apply (new_ids_cons _ _ _ _ (next n1)); [lia|auto]].
    etrans; [done|]. eapply bpf_frame_mono, Hf2; [intros q; by apply touched_cons|done].
  - rewrite alloc_run in H by lia.
    destruct (upsertPolicyIDInBPF _ _ _ _ _ _ _ _) as [r1 n1] eqn:H1.
    apply upsert_run in H1 as (Hr1 & Hf1 & _); [|done]. cbn [n_bpf n_resolver] in Hr1, Hf1.
    assert (next n1 = next n + 1) as Hn1 by by rewrite Hr1.
    destruct r1 as [[]|e|e].
    2-3: simplify_eq; split_and!; [by rewrite Hn1|lia|lia| |done]; eapply bpf_frame_mono, Hf1;
         [intros q <-; right; lia|done].
    destruct (IH _ _ H) as (Hr2 & Hn2 & Hf2 & Hnew); [lia..|]. rewrite Hn1 in *.
    split_and!; [by rewrite Hr2, Hr1|lia|lia| |intros; apply new_ids_insert; [done|lia|auto]].
    etrans; [eapply bpf_frame_mono, Hf1; [intros q <-; right; lia|done]|].
    eapply bpf_frame_mono, Hf2; [intros q; apply touched_cons; lia|done].
Qed.

(** No two containers have the same id. *)
Definition distinct_ids (m : policyByContainer) : Prop :=
  ∀ c c' pid, m !! c = Some pid → m !! c' = Some pid → c = c'.

Definition ids_below (hi : Z) (m : policyByContainer) : Prop := ∀ c pid, m !! c = Some pid → pid < hi.

Lemma insert_ids c pid m :
  distinct_ids m → ids_below pid m → distinct_ids (<[c := pid]> m) ∧ ids_below (pid + 1) (<[c := pid]> m).
Proof.
  intros Hd Hb. split.
  - intros c1 c2 q H1 H2. apply lookup_insert_Some in H1 as [[<- <-]|[? H1]];
      apply lookup_insert_Some in H2 as [[<- ?]|[? H2]]; [done|apply Hb in H2; lia|apply Hb in H1; lia|by eapply Hd].
  - intros c1 q [[<- <-]|[? H1]]%lookup_insert_Some; [lia|]. apply Hb in H1. lia.
Qed.

Lemma sync_distinct l news n news' n' :
  sync_containers ver sd pols mode l news n = (Ok news', n') →
  next n + Z.of_nat (length l) < 2 ^ 64 → 1 <= next n →
  distinct_ids news → ids_below (next n) news → distinct_ids news'.
Proof.
  revert news n. induction l as [|[c rules] l IH]; intros news n H Hmax Hnext Hd Hb; cbn [sync_containers] in H.
  { by injection H as <- <-. }
  unfold mbind, gom_bind in H. cbn [length] in *. destruct (pols !! c) as [polID|].
  - destruct (upsertPolicyIDInBPF _ _ _ _ _ _ _ _) as [[[]|e|e] n1] eqn:H1; [|done..].
    apply upsert_run in H1 as (Hr1 & _); [|done]. rewrite <- Hr1 in *. apply (IH _ _ H); [lia..|done|done].
  - rewrite alloc_run in H by lia. destruct (insert_ids c _ _ Hd Hb) as [Hd' Hb'].
    destruct (upsertPolicyIDInBPF _ _ _ _ _ _ _ _) as [[[]|e|e] n1] eqn:H1; [|done..].
    apply upsert_run in H1 as (Hr1 & _); [|done]. apply (IH _ _ H); rewrite ?Hr1; cbn; [lia..|done|done].
Qed.

(** What a loop that succeeds establishes. *)
Lemma sync_ok l news n news' n' :
  sync_containers ver sd pols mode l news n = (Ok news', n') → sd = false →
  next n + Z.of_nat (length l) < 2 ^ 64 → 1 <= next n →
  length (pol_str_maps (n_bpf n)) = 11%nat → (∀ q, next n <= q → policy_entry (n_bpf n) q = no_entry) →
  distinct_ids pols → ids_below (next n) pols → NoDup l.*1 → (∀ c, c ∈ l.*1 → news !! c = None) →
  (∀ c, c ∉ l.*1 → news' !! c = news !! c) ∧
  ∀ c rules, (c, rules) ∈ l → ∃ pid, (news' ∪ pols) !! c = Some pid ∧
    policy_entry (n_bpf n') pid = entry_of (asked mode rules).
Proof.
  intros H Hsd. revert news n H.
  induction l as [|[c rules] l IH]; intros news n H Hmax Hnext Hlen Hfresh Hdp Hbp Hnd Hnews;
    cbn [sync_containers] in H.
  { injection H as <- <-. split_and!; [done..|set_solver]. }
  unfold mbind, gom_bind in H. cbn [length fmap list_fmap fst] in *. apply NoDup_cons in Hnd as [Hc Hnd].
  destruct (pols !! c) as [polID|] eqn:Hpc.
  - destruct (upsertPolicyIDInBPF _ _ _ _ _ _ _ _) as [[[]|e|e] n1] eqn:H1; [|done..].
    apply upsert_run in H1 as (Hr1 & Hf1 & Hok1); [|done].
    specialize (Hok1 eq_refl Hsd Hlen ltac:(done)). rewrite <- Hr1 in *.
    destruct (IH _ _ H) as (Hout & Hall); [lia|lia|by rewrite (bf_len _ _ _ _ Hf1)| |done|done|done|set_solver|].
    { intros q Hq. rewrite (bf_entry _ _ _ _ Hf1); [auto|]. intros <-. apply Hbp in Hpc. lia. }
    split_and!; [set_solver|]. intros c' rules' [[= -> ->]|Hin]%elem_of_cons; [|auto].
    exists polID. split; [rewrite lookup_union_r; [done|]; rewrite Hout by done; apply Hnews; left|].
    destruct (sync_frame _ _ _ _ _ H) as (_ & _ & Hf2 & _); [lia..|].
    rewrite (bf_entry _ _ _ _ Hf2); [exact Hok1|]. intros [(c' & Hc' & Hp')|?]; [|apply Hbp in Hpc; lia].
    by rewrite (Hdp _ _ _ Hp' Hpc) in Hc'.
  - rewrite alloc_run in H by lia.
    destruct (upsertPolicyIDInBPF _ _ _ _ _ _ _ _) as [[[]|e|e] n1] eqn:H1; [|done..].
    apply upsert_run in H1 as (Hr1 & Hf1 & Hok1); [|done]. cbn [n_bpf n_resolver] in *.
    specialize (Hok1 eq_refl Hsd Hlen (λ _, Hfresh (next n) ltac:(lia))).
    assert (next n1 = next n + 1) as Hn1 by by rewrite Hr1.
    destruct (IH _ _ H) as (Hout & Hall); [lia|lia|by rewrite (bf_len _ _ _ _ Hf1)|..|done| |].
    { intros q Hq. rewrite (bf_entry _ _ _ _ Hf1); [apply Hfresh; lia|lia]. }
    { done. }
    { intros c' q Hq%Hbp. lia. }
    { intros c' Hc'. rewrite lookup_insert_ne by set_solver. apply Hnews. by right. }
    split_and!; [intros c' Hc'; rewrite Hout, lookup_insert_ne by set_solver; done|].
    intros c' rules' [[= -> ->]|Hin]%elem_of_cons; [|auto]. exists (next n). split.
    { apply lookup_union_Some_l. rewrite Hout by done. apply lookup_insert_eq. }
    destruct (sync_frame _ _ _ _ _ H) as (_ & _ & Hf2 & _); [lia..|].
    rewrite (bf_entry _ _ _ _ Hf2); [exact Hok1|]. intros [(c' & Hc' & Hp')|?]; [apply Hbp in Hp'|]; lia.
Qed.
End sync.

(** ** Binding the cgroups of pods *)

Definition cgmap (n : node) : gmap Z Z := cg_to_policy_map (n_bpf n).

(** The cgroups of the containers of [pod] that [m] has an id for. *)
Definition cgs_of (pod : podEntry) (m : policyByContainer) (cg : Z) : Prop :=
  ∃ cid cm, pod_containers pod !! cid = Some cm ∧ is_Some (m !! ContainerMeta_Name cm) ∧
    ContainerMeta_CgroupID cm = cg.

Definition ids_of (m : policyByContainer) (q : Z) : Prop := ∃ c, m !! c = Some q.

(** The resolver changes only in that the policy [key] loses containers of [removed]. *)
Record shrinks (key : string) (removed : policyByContainer) (r r' : Resolver) : Prop := {
  sh_pods : podCache r' = podCache r;
  sh_cgs : cgroupIDToPodID r' = cgroupIDToPodID r;
  sh_next : nextPolicyID r' = nextPolicyID r;
  sh_other k : k ≠ key → wpState r' !! k = wpState r !! k;
  sh_none : wpState r !! key = None → wpState r' !! key = None;
  sh_key i : wpState r !! key = Some i → ∃ i', wpState r' !! key = Some i' ∧ wp_status i' = wp_status i ∧
    polByContainer i' ⊆ polByContainer i ∧
    ∀ c, removed !! c = None → polByContainer i' !! c = polByContainer i !! c;
}.

#[export] Instance shrinks_preorder key removed : PreOrder (shrinks key removed).
Proof.
  split.
  - intros r. split; try done. intros i Hi. by exists i.
  - intros r1 r2 r3 [A1 A2 A3 A4 A5 A6] [B1 B2 B3 B4 B5 B6]. split; try congruence; [|auto|].
    + intros k Hk. by rewrite B4, A4.
    + intros i (i' & Hi' & Hs' & Hsub' & Hk')%A6.
      destruct (B6 _ Hi') as (i'' & Hi'' & Hs'' & Hsub'' & Hk''). exists i''.
      split_and!; [done|congruence|by etrans|]. intros c Hc. by rewrite Hk'', Hk'.
Qed.

(** What [applyPolicyToPod] and [removePolicyFromPod] change, with any result. *)
Record applies (pod : podEntry) (applied : policyByContainer) (n n' : node) : Prop := {
  ap_res : n_resolver n' = n_resolver n;
  ap_bpf : bpf_frame nothing (cgs_of pod applied) (n_bpf n) (n_bpf n');
  ap_keep : cgmap n ⊆ cgmap n';
  ap_new cg q : cgmap n' !! cg = Some q → cgmap n !! cg = Some q ∨ ids_of applied q;
}.

#[export] Instance applies_preorder pod applied : PreOrder (applies pod applied).
Proof.
  split.
  - intros n. split; [done..|auto].
  - intros n1 n2 n3 [A1 A2 A3 A4] [B1 B2 B3 B4]. split; [congruence|by etrans|by etrans|].
    intros cg q [[H|H]%A4|H]%B4; auto.
Qed.

Record removes (key : string) (pod : podEntry) (removed : policyByContainer) (n n' : node) : Prop := {
  rm_res : shrinks key removed (n_resolver n) (n_resolver n');
  rm_bpf : bpf_frame (ids_of removed) (cgs_of pod removed) (n_bpf n) (n_bpf n');
  rm_keep : cgmap n' ⊆ cgmap n;
}.

#[export] Instance removes_preorder key pod removed : PreOrder (removes key pod removed).
Proof.
  split; [done|]. intros n1 n2 n3 [A1 A2 A3] [B1 B2 B3]. split; by etrans.
Qed.

(** The loop over the pods. *)
Record pods_change (key : string) (applied removed : policyByContainer) (n n' : node) : Prop := {
  pc_res : shrinks key removed (n_resolver n) (n_resolver n');
  pc_bpf : bpf_frame (ids_of removed) (λ _, True) (n_bpf n) (n_bpf n');
  pc_new cg q : cgmap n' !! cg = Some q → cgmap n !! cg = Some q ∨ ids_of applied q;
}.

#[export] Instance pods_change_preorder key applied removed : PreOrder (pods_change key applied removed).
Proof.
  split.
  - intros n. split; [done..|auto].
  - intros n1 n2 n3 [A1 A2 A3] [B1 B2 B3]. split; [by etrans|by etrans|].
    intros cg q [[H|H]%A3|H]%B3; auto.
Qed.

(** A pod is bound: its containers with an id in [applied] have it, those with an id in
    [removed] have none. *)
Definition bound (applied removed : policyByContainer) (pod : podEntry) (n : node) : Prop :=
  ∀ cid cm, pod_containers pod !! cid = Some cm →
    (∀ pid, applied !! ContainerMeta_Name cm = Some pid → cgmap n !! ContainerMeta_CgroupID cm = Some pid) ∧
    (is_Some (removed !! ContainerMeta_Name cm) → cgmap n !! ContainerMeta_CgroupID cm = None).

Section pods.
  Context `{K : Kernel, B : Ebpf, BM : EbpfMap, R : GoRange, !GoRangeOk R} (ver : Z) (sd : bool).

Lemma elem_of_range {A} (m : gmap string A) k v : (k, v) ∈ range m ↔ m !! k = Some v.
Proof. by rewrite range_perm, elem_of_map_to_list. Qed.

Lemma apply_run pod applied n res n' :
  applyPolicyToPod sd pod applied n = (res, n') → applies pod applied n n'.
Proof.
  unfold applyPolicyToPod. apply for_each_rel; [apply _|]. clear n res n'.
  intros k cm n res n' Hk%elem_of_range H.
  destruct (applied !! ContainerMeta_Name cm) as [pid|] eqn:Hp; [|by injection H as <- <-].
  apply cg_add_run in H as (Hr & Hf & Hsub & Hnew & _). split; [done| |done|].
  - eapply bpf_frame_mono, Hf; [done|]. intros cg Hcg%list_elem_of_singleton. subst.
    exists k, cm. by rewrite Hp.
  - intros cg q [Hl| ->]%Hnew; [by left|right; by eexists].
Qed.

Lemma apply_ok pod applied n n' :
  applyPolicyToPod sd pod applied n = (Ok tt, n') → sd = false →
  ∀ cid cm pid, pod_containers pod !! cid = Some cm → applied !! ContainerMeta_Name cm = Some pid →
    cgmap n' !! ContainerMeta_CgroupID cm = Some pid.
Proof.
  unfold applyPolicyToPod. intros H Hsd. eapply (for_each_ok (λ _, True)
    (λ _ cm n, ∀ pid, applied !! ContainerMeta_Name cm = Some pid →
      cgmap n !! ContainerMeta_CgroupID cm = Some pid)) in H; [|clear H n n'|done].
  - intros cid cm pid Hc Hp. destruct H as [_ H]. by eapply H; [apply elem_of_range|].
  - intros k cm n n' Hk%elem_of_range _ H.
    destruct (applied !! ContainerMeta_Name cm) as [pid|] eqn:Hp; [|by injection H as <-].
    apply cg_add_run in H as (Hr & Hf & Hsub & Hnew & Hok). split_and!; [done| |].
    + intros ? [= <-]. apply Hok; [done..|]. by left.
    + intros k' cm' _ Hq pid' Hp'. eapply lookup_weaken; [by apply Hq|done].
Qed.

Lemma delete_shrinks key c removed r :
  is_Some (removed !! c) →
  shrinks key removed r (set_wpState (alter (set_pol (delete c)) key (wpState r)) r).
Proof.
  intros Hc. split; try done; cbn.
  - intros k Hk. by apply lookup_alter_ne.
  - intros Hn. by rewrite lookup_alter_eq, Hn.
  - intros i Hi. rewrite lookup_alter_eq, Hi. cbn. eexists. split_and!; [done|done|apply delete_subseteq|].
    intros c' Hc'. cbn. apply lookup_delete_ne. intros ->. rewrite Hc' in Hc. by destruct Hc.
Qed.

Lemma remove_run key pod removed n res n' :
  removePolicyFromPod ver sd key pod removed n = (res, n') → removes key pod removed n n'.
Proof.
  unfold removePolicyFromPod. apply for_each_rel; [apply _|]. clear n res n'.
  intros k cm n res n' Hk%elem_of_range H.
  destruct (removed !! ContainerMeta_Name cm) as [pid|] eqn:Hp; [|by injection H as <- <-].
  unfold mbind, gom_bind in H. destruct (cgroupToPolicyMapUpdateFunc _ _ _ _ _) as [r1 n1] eqn:H1.
  apply cg_remove_run in H1 as (Hr1 & Hf1 & Hsub1 & _).
  assert (removes key pod removed n n1) as Hrm1.
  { split; [by rewrite Hr1| |done]. eapply bpf_frame_mono, Hf1; [done|].
    intros cg Hcg%list_elem_of_singleton. subst. exists k, cm. by rewrite Hp. }
  destruct r1 as [[]|e|e]; [|by simplify_eq..].
  destruct (clearPolicyIDFromBPF _ _ _ _) as [r2 n2] eqn:H2.
  apply clear_run in H2 as (Hr2 & Hf2 & _).
  assert (removes key pod removed n n2) as Hrm2.
  { etrans; [exact Hrm1|]. split; [by rewrite Hr2| |].
    - eapply bpf_frame_mono, Hf2; [intros q <-; by eexists|done].
    - apply map_subseteq_spec. intros cg q. unfold cgmap. by rewrite (bf_cg _ _ _ _ Hf2 cg (λ H, H)). }
  destruct r2 as [[]|e|e]; [|by simplify_eq..]. injection H as <- <-.
  etrans; [exact Hrm2|]. split; [|done|done]. by apply delete_shrinks; rewrite Hp.
Qed.

Lemma remove_ok key pod removed n n' :
  removePolicyFromPod ver sd key pod removed n = (Ok tt, n') → sd = false →
  ∀ cid cm, pod_containers pod !! cid = Some cm → is_Some (removed !! ContainerMeta_Name cm) →
    cgmap n' !! ContainerMeta_CgroupID cm = None.
Proof.
  unfold removePolicyFromPod. intros H Hsd. eapply (for_each_ok (λ _, True)
    (λ _ cm n, is_Some (removed !! ContainerMeta_Name cm) → cgmap n !! ContainerMeta_CgroupID cm = None)) in H;
    [|clear H n n'|done].
  - intros cid cm Hc Hp. destruct H as [_ H]. by eapply H; [apply elem_of_range|].
  - intros k cm n n' Hk%elem_of_range _ H.
    destruct (removed !! ContainerMeta_Name cm) as [pid|] eqn:Hp.
    2: { injection H as <-. split_and!; [done|by intros []|done]. }
    unfold mbind, gom_bind in H. destruct (cgroupToPolicyMapUpdateFunc _ _ _ _ _) as [[[]|e|e] n1] eqn:H1; [|done..].
    apply cg_remove_run in H1 as (_ & _ & Hsub1 & Hok).
    destruct (clearPolicyIDFromBPF _ _ _ _) as [[[]|e|e] n2] eqn:H2; [|done..].
    apply clear_run in H2 as (_ & Hf2 & _). injection H as <-. unfold cgmap; cbn.
    split_and!; [done| |].
    + intros _. rewrite (bf_cg _ _ _ _ Hf2 _ (λ H, H)). apply Hok; [done..|]. by left.
    + intros k' cm' _ Hq Hs. rewrite (bf_cg _ _ _ _ Hf2 _ (λ H, H)).
      eapply lookup_weaken_None; [by apply Hq|done].
Qed.

Lemma sync_pods_run wp applied removed pods n res n' :
  sync_pods ver sd wp applied removed pods n = (res, n') →
  pods_change (NamespacedName wp) applied removed n n'.
Proof.
  unfold sync_pods. apply for_each_rel; [apply _|]. clear n res n'. intros k pod n res n' _ H.
  destruct (matchPolicy pod _ _); cbn [negb] in H; [|by injection H as <- <-].
  unfold mbind, gom_bind in H. destruct (removePolicyFromPod _ _ _ _ _ _) as [r1 n1] eqn:H1.
  apply remove_run in H1 as [A1 A2 A3].
  assert (pods_change (NamespacedName wp) applied removed n n1) as Hn1.
  { split; [done|by eapply bpf_frame_mono, A2|]. intros cg q Hq. left. by eapply lookup_weaken. }
  destruct r1 as [[]|e|e]; [|by simplify_eq..]. apply apply_run in H as [B1 B2 B3 B4].
  etrans; [exact Hn1|]. split; [by rewrite B1|by eapply bpf_frame_mono, B2|done].
Qed.

(** Processing one pod binds it and keeps bound those that are, when no two containers
    share a cgroup. *)
Lemma pod_step applied removed pod pod' key n n1 n' :
  (∀ c, is_Some (applied !! c) → is_Some (removed !! c) → False) →
  (∀ c1 cm1 c2 cm2, pod_containers pod !! c1 = Some cm1 → pod_containers pod' !! c2 = Some cm2 →
     ContainerMeta_CgroupID cm1 = ContainerMeta_CgroupID cm2 → cm1 = cm2) →
  removes key pod removed n n1 → applies pod applied n1 n' →
  bound applied removed pod' n → bound applied removed pod' n'.
Proof.
  intros Hdisj Hown [_ A2 A3] [_ B2 B3 _] Hb cid cm Hc. destruct (Hb _ _ Hc) as [Hb1 Hb2]. split.
  - intros pid Hp. eapply lookup_weaken; [|exact B3]. unfold cgmap.
    rewrite (bf_cg _ _ _ _ A2); [by apply Hb1|]. intros (c1 & cm1 & Hc1 & Hs & Hcg).
    rewrite (Hown _ _ _ _ Hc1 Hc Hcg) in Hs. by eapply Hdisj; [rewrite Hp|].
  - intros Hs. unfold cgmap. rewrite (bf_cg _ _ _ _ B2).
    + eapply lookup_weaken_None; [by apply Hb2|done].
    + intros (c1 & cm1 & Hc1 & Hs1 & Hcg). rewrite (Hown _ _ _ _ Hc1 Hc Hcg) in Hs1. by eapply Hdisj.
Qed.

Lemma sync_pods_ok wp applied removed n n' :
  sync_pods ver sd wp applied removed (range (podCache (n_resolver n))) n = (Ok tt, n') → sd = false →
  (∀ c, is_Some (applied !! c) → is_Some (removed !! c) → False) → own_cgroups (n_resolver n) →
  ∀ podID pod, podCache (n_resolver n) !! podID = Some pod →
    matchPolicy pod (wp_Name wp) (wp_Namespace wp) = true → bound applied removed pod n'.
Proof.
  unfold sync_pods. intros H Hsd Hdisj Hown.
  assert (∀ p1 pod1 c1 cm1 p2 pod2 c2 cm2,
    podCache (n_resolver n) !! p1 = Some pod1 → podCache (n_resolver n) !! p2 = Some pod2 →
    pod_containers pod1 !! c1 = Some cm1 → pod_containers pod2 !! c2 = Some cm2 →
    ContainerMeta_CgroupID cm1 = ContainerMeta_CgroupID cm2 → cm1 = cm2) as Hcm.
  { intros p1 pod1 c1 cm1 p2 pod2 c2 cm2 H1 H2 H3 H4 H5.
    destruct (Hown _ _ _ _ _ _ _ _ H1 H3 H2 H4 H5) as [-> ->]. simplify_eq. done. }
  eapply (for_each_ok (λ _, True) (λ _ pod n, matchPolicy pod (wp_Name wp) (wp_Namespace wp) = true →
    bound applied removed pod n)) in H; [|clear H n'|done].
  { intros podID pod Hp. destruct H as [_ H]. by apply (H podID), elem_of_range. }
  intros k pod n1 n3 Hk%elem_of_range _ H. destruct (matchPolicy pod _ _); cbn [negb] in H.
  2: { injection H as <-. done. }
  unfold mbind, gom_bind in H. destruct (removePolicyFromPod _ _ _ _ _ _) as [[[]|e|e] n2] eqn:H1; [|done..].
  apply remove_run in H1 as Hrm. apply apply_run in H as Hap. split_and!; [done| |].
  - intros _ cid cm Hc. split; [by intros; eapply apply_ok|]. intros Hs.
    unfold cgmap. rewrite (bf_cg _ _ _ _ (ap_bpf _ _ _ _ Hap)); [by eapply remove_ok|].
    intros (c1 & cm1 & Hc1 & Hs1 & Hcg). rewrite (Hcm _ _ _ _ _ _ _ _ Hk Hk Hc1 Hc Hcg) in Hs1. by eapply Hdisj.
  - intros k' pod' Hk'%elem_of_range Hb Hm. eapply pod_step; [done| |done|done|by apply Hb]. eauto.
Qed.
End pods.
