(* ===== verification/ResolverTheorems.v ===== *)
(** * What the resolver's handlers guarantee

    The policy ids the resolver hands out and the eBPF maps it keeps for them: an invariant
    of every handler, what a successful handler establishes in the maps, the chain from a
    policy to the verdict of the exec hook, and two scenarios in which the maps and the
    policies disagree. *)
From S2P Require Import Prelude CLayout ProgramTypes KernelLayout Kernel ConcreteKernel StringMaps PolicyValues CgroupTracker Events AgentMaps DPath Enforce EndToEnd Resolver ResolverSpec.
Local Open Scope Z_scope.

(** ** The invariant of the resolver *)

(** A container of a policy and its id. *)
Definition has_id (r : Resolver) (key c : string) (pid : Z) : Prop :=
  ∃ info, wpState r !! key = Some info ∧ polByContainer info !! c = Some pid.

(** Ids in use are the ones handed out, no two containers share one, ids not handed out yet
    have no entry, and cgroups are only ever given ids that were handed out. *)
Record node_inv (n : node) : Prop := {
  ni_len : length (pol_str_maps (n_bpf n)) = 11%nat;
  ni_next : 1 <= nextPolicyID (n_resolver n);
  ni_ids key c pid : has_id (n_resolver n) key c pid → 1 <= pid < nextPolicyID (n_resolver n);
  ni_inj key c key' c' pid :
    has_id (n_resolver n) key c pid → has_id (n_resolver n) key' c' pid → key = key' ∧ c = c';
  ni_fresh q : nextPolicyID (n_resolver n) <= q → policy_entry (n_bpf n) q = no_entry;
  ni_cg cg pid : cg_to_policy_map (n_bpf n) !! cg = Some pid → 1 <= pid < nextPolicyID (n_resolver n);
}.

(** The resolver and maps of an agent that has just started. *)
Definition fresh_node (n : node) : Prop :=
  n_resolver n = NewResolver ∧ cg_to_policy_map (n_bpf n) = ∅ ∧
  policy_settings_map (n_bpf n) = ∅ ∧ pol_str_maps (n_bpf n) = empty_maps.

(** The ids of [n] leave room for the containers of [wp] below [2^64]. *)
Definition ids_left (wp : WorkloadPolicy) (n : node) : Prop :=
  nextPolicyID (n_resolver n) + Z.of_nat (size (wp_RulesByContainer wp)) < 2 ^ 64.

(** A cached pod that [wp] selects has the container [cm]. *)
Definition selects (wp : WorkloadPolicy) (r : Resolver) (cm : ContainerMeta) : Prop :=
  ∃ podID pod cid, podCache r !! podID = Some pod ∧
    matchPolicy pod (wp_Name wp) (wp_Namespace wp) = true ∧ pod_containers pod !! cid = Some cm.

(** [wp] is in force on [n'], which [n] became: its record is ready; the rules of each
    container are in the maps and its cgroups are bound to them; containers that lost their
    rules are unbound; other policies are as they were. *)
Record in_force (wp : WorkloadPolicy) (mode : Mode) (info : wpInfo) (n n' : node) : Prop := {
  fo_info : wpState (n_resolver n') !! NamespacedName wp = Some info;
  fo_status : wp_status info =
    MkPolicyStatus POLICY_STATE_READY (ParsePolicyModeToProto (wp_Mode wp)) "";
  fo_rules c rules : wp_RulesByContainer wp !! c = Some rules →
    ∃ pid, polByContainer info !! c = Some pid ∧ installed (n_bpf n') pid (asked mode rules) ∧
      ∀ cm, selects wp (n_resolver n) cm → ContainerMeta_Name cm = c →
        cg_to_policy_map (n_bpf n') !! ContainerMeta_CgroupID cm = Some pid;
  fo_removed cm : selects wp (n_resolver n) cm →
    wp_RulesByContainer wp !! ContainerMeta_Name cm = None →
    is_Some (polByContainer (info_of (n_resolver n) (NamespacedName wp)) !! ContainerMeta_Name cm) →
    cg_to_policy_map (n_bpf n') !! ContainerMeta_CgroupID cm = None;
  fo_others k i : k ≠ NamespacedName wp → wpState (n_resolver n) !! k = Some i →
    wpState (n_resolver n') !! k = Some i ∧
    ∀ c pid, polByContainer i !! c = Some pid → policy_entry (n_bpf n') pid = policy_entry (n_bpf n) pid;
}.

(** [wp] is recorded as ready, and the rules of its containers are in the maps. *)
Definition ready_for (wp : WorkloadPolicy) (mode : Mode) (n : node) : Prop :=
  ∃ info, wpState (n_resolver n) !! NamespacedName wp = Some info ∧
    wp_status info = MkPolicyStatus POLICY_STATE_READY (ParsePolicyModeToProto (wp_Mode wp)) "" ∧
    ∀ c rules, wp_RulesByContainer wp !! c = Some rules →
      ∃ pid, polByContainer info !! c = Some pid ∧ installed (n_bpf n) pid (asked mode rules).

(** The records of the policies other than [key] and their entries in the maps stay. *)
Definition others_kept (key : string) (n n' : node) : Prop :=
  ∀ k, k ≠ key → wpState (n_resolver n') !! k = wpState (n_resolver n) !! k ∧
    ∀ c pid, has_id (n_resolver n) k c pid → policy_entry (n_bpf n') pid = policy_entry (n_bpf n) pid.

(** The policy of a cgroup. *)
Definition policy_of (n : node) (cg : Z) : option Z := cg_to_policy_map (n_bpf n) !! cg.

(** One handler of the agent, whether it succeeds, fails or panics. *)
Inductive handles `{K : Kernel, B : Ebpf, BM : EbpfMap, R : GoRange} (ver : Z) (sd : bool)
  : node → node → Prop :=
  | handles_reconcile wp n :
      ids_left wp n → handles ver sd n (snd (ReconcileWP ver sd wp n))
  | handles_delete wp n : handles ver sd n (snd (HandleWPDelete ver sd wp n))
  | handles_add pod n : handles ver sd n (snd (AddPodContainerFromNri sd pod n))
  | handles_remove podID cID n : handles ver sd n (snd (RemovePodContainerFromNri sd podID cID n)).

(** ** The invariant *)

Lemma node_inv_step n n' :
  node_inv n → length (pol_str_maps (n_bpf n')) = length (pol_str_maps (n_bpf n)) →
  next n <= next n' →
  (∀ k c pid, has_id (n_resolver n') k c pid → has_id (n_resolver n) k c pid ∨ next n <= pid < next n') →
  (∀ k c k' c' pid, next n <= pid → has_id (n_resolver n') k c pid → has_id (n_resolver n') k' c' pid →
     k = k' ∧ c = c') →
  (∀ q, next n' <= q → policy_entry (n_bpf n') q = policy_entry (n_bpf n) q) →
  (∀ cg q, cgmap n' !! cg = Some q → cgmap n !! cg = Some q ∨ 1 <= q < next n') →
  node_inv n'.
Proof.
  intros [I1 I2 I3 I4 I5 I6] Hlen Hnext Hids Hnew Hent Hcg. split; [congruence|lia|..].
  - intros k c pid [H%I3|H]%Hids; lia.
  - intros k c k' c' pid H1 H2. destruct (decide (next n <= pid)) as [|Hlt]; [eauto|].
    apply Hids in H1 as [H1|H1]; [|lia]. apply Hids in H2 as [H2|H2]; [|lia]. eauto.
  - intros q Hq. rewrite Hent by done. apply I5. lia.
  - intros cg pid [H%I6|H]%Hcg; lia.
Qed.

(** The same for a step that hands out no ids. *)
Lemma node_inv_shrink n n' :
  node_inv n → next n' = next n →
  (∀ k c pid, has_id (n_resolver n') k c pid → has_id (n_resolver n) k c pid) →
  bpf_frame (λ q, q < next n) (λ _, True) (n_bpf n) (n_bpf n') →
  (∀ cg q, cgmap n' !! cg = Some q → cgmap n !! cg = Some q ∨ 1 <= q < next n) →
  node_inv n'.
Proof.
  intros I Hnext Hids [F1 F2 _] Hcg. apply (node_inv_step n); [done|done|lia|auto|..].
  - intros k c k' c' pid Hp H1%Hids H2%Hids. by eapply ni_inj.
  - intros q Hq. apply F2. lia.
  - rewrite Hnext. done.
Qed.

Lemma fresh_node_inv n : fresh_node n → node_inv n.
Proof.
  intros (Hr & Hc & Hs & Hm). split; rewrite ?Hr, ?Hc, ?Hm; [done|done|..].
  - by intros k c pid (i & Hi & _).
  - by intros k c k' c' pid (i & Hi & _).
  - intros q _. unfold policy_entry, no_entry. rewrite Hs, Hm. done.
  - done.
Qed.

(** [has_id] looks at the policies only. *)
Lemma has_id_wpState r r' k c pid : wpState r' = wpState r → has_id r' k c pid → has_id r k c pid.
Proof. intros H (i & Hi & Hc). exists i. by rewrite <- H. Qed.

Lemma shrinks_has_id key removed r r' k c pid :
  shrinks key removed r r' → has_id r' k c pid → has_id r k c pid.
Proof.
  intros [_ _ _ H4 H5 H6] (i' & Hi' & Hc). destruct (decide (k = key)) as [->|Hne].
  - destruct (wpState r !! key) as [i|] eqn:Hi; [|by rewrite H5 in Hi'].
    destruct (H6 _ eq_refl) as (i2 & ? & _ & Hsub & _). simplify_eq. exists i. split; [done|].
    by eapply lookup_weaken.
  - exists i'. by rewrite <- H4.
Qed.

Lemma info_of_has_id r key c pid : polByContainer (info_of r key) !! c = Some pid ↔ has_id r key c pid.
Proof.
  unfold info_of, has_id. destruct (wpState r !! key) as [i|] eqn:Hi; cbn.
  - split; [by exists i|]. by intros (? & [= <-] & ?).
  - split; [done|]. by intros (? & ? & ?).
Qed.

(** The ids of a policy. *)
Lemma node_inv_pols n key :
  node_inv n → distinct_ids (polByContainer (info_of (n_resolver n) key)) ∧
  ids_below (next n) (polByContainer (info_of (n_resolver n) key)).
Proof.
  intros I. split.
  - intros c c' pid H1%info_of_has_id H2%info_of_has_id. by eapply (ni_inj _ I).
  - intros c pid H%info_of_has_id. apply (ni_ids _ I) in H. lia.
Qed.

(** ** Reconciling: the steps *)

Section reconcile.
  Context `{K : Kernel, B : Ebpf, BM : EbpfMap, R : GoRange, !GoRangeOk R} (ver : Z) (sd : bool).
  Context (wp : WorkloadPolicy).

Definition key_of : string := NamespacedName wp.
Definition applied_of (pols : policyByContainer) := filter (λ cp, still_present wp cp.1 = true) pols.
Definition removed_of (pols : policyByContainer) := filter (λ cp, still_present wp cp.1 = false) pols.

(** The node after [ensure_info]. *)
Definition ensured (n : node) : node := snd (ensure_info key_of n).

(** The node once the new ids are recorded. *)
Definition recorded (news : policyByContainer) (n : node) : node :=
  snd (update_info key_of (set_pol (λ pols, news ∪ pols)) n).

Inductive reconciled (n : node) : go_result unit → node → Prop :=
  | rec_mode res n' : (∀ mode, ParseMode (wp_Mode wp) ≠ Ok mode) → res ≠ Ok tt → n' = ensured n →
      reconciled n res n'
  | rec_sync mode e n1 res :
      ParseMode (wp_Mode wp) = Ok mode → (∀ news, e ≠ Ok news) → res ≠ Ok tt →
      sync_containers ver sd (polByContainer (info_of (n_resolver n) key_of)) mode
        (range (wp_RulesByContainer wp)) ∅ (ensured n) = (e, n1) →
      reconciled n res n1
  | rec_pods mode news n1 res n3 :
      let n2 := recorded news n1 in
      let pols := polByContainer (info_of (n_resolver n2) key_of) in
      ParseMode (wp_Mode wp) = Ok mode →
      sync_containers ver sd (polByContainer (info_of (n_resolver n) key_of)) mode
        (range (wp_RulesByContainer wp)) ∅ (ensured n) = (Ok news, n1) →
      sync_pods ver sd wp (applied_of pols) (removed_of pols) (range (podCache (n_resolver n2))) n2 = (res, n3) →
      reconciled n res n3.

Lemma ensured_info n : info_of (n_resolver (ensured n)) key_of = info_of (n_resolver n) key_of.
Proof.
  unfold ensured, ensure_info, update, info_of. cbn.
  destruct (wpState (n_resolver n) !! key_of) eqn:Hi; cbn; [by rewrite Hi|]. by rewrite lookup_insert_eq.
Qed.

Lemma update_info_id n : snd (update_info key_of (λ i, i) n) = n.
Proof.
  destruct n as [r s]. unfold update_info, update. cbn. f_equal. destruct r as [a b c ws]. unfold set_wpState. cbn.
  f_equal. apply map_eq. intros k. destruct (decide (k = key_of)) as [->|Hne];
    [rewrite lookup_alter_eq; by destruct (ws !! _)|by rewrite lookup_alter_ne].
Qed.

Lemma reconcile_body_run n res n' :
  reconcile_body ver sd wp n = (res, n') →
  ∃ n1, reconciled n res n1 ∧
    n' = if res is Ok _ then snd (update_info key_of
           (setPolicyStatus POLICY_STATE_READY (ParsePolicyModeToProto (wp_Mode wp)) "") n1) else n1.
Proof.
  unfold reconcile_body, syncWorkloadPolicy, mbind, gom_bind. intros H.
  change (ensure_info (NamespacedName wp) n) with (@Ok unit tt, ensured n) in H.
  cbn [lift resolver] in H. destruct (ParseMode (wp_Mode wp)) as [mode|e|e] eqn:Hm.
  2-3: injection H as <- <-; eexists; split; [apply rec_mode; [by rewrite Hm|done|done]|done].
  change (NamespacedName wp) with key_of in H. rewrite ensured_info in H.
  destruct (sync_containers _ _ _ _ _ _ _) as [[news|e|e] n1] eqn:Hs.
  2-3: injection H as <- <-; eexists; split; [eapply rec_sync; [exact Hm| | |exact Hs]; done|done].
  change (update_info key_of (set_pol (λ pols, news ∪ pols)) n1) with (@Ok unit tt, recorded news n1) in H.
  cbn in H. destruct (sync_pods _ _ _ _ _ _ _) as [[[]|e|e] n3] eqn:Hp.
  all: injection H as <- <-; eexists; split; [eapply rec_pods; [exact Hm|exact Hs|exact Hp]|done].
Qed.

(** Every run of [ReconcileWP] is one of the three, up to the status. *)
Lemma reconcile_run n res n' :
  ReconcileWP ver sd wp n = (res, n') →
  ∃ n1 f, reconciled n res n1 ∧ n' = snd (update_info key_of f n1) ∧
    (∀ i, polByContainer (f i) = polByContainer i) ∧
    (res = Ok tt → f = setPolicyStatus POLICY_STATE_READY (ParsePolicyModeToProto (wp_Mode wp)) "").
Proof.
  unfold ReconcileWP. destruct (reconcile_body ver sd wp n) as [r0 n0] eqn:Hb.
  apply reconcile_body_run in Hb as (n1 & Hr & Hn0). destruct r0 as [[]|e|e]; intros [= <- <-]; subst.
  - by eexists _, _.
  - eexists n1, _. split_and!; [done|reflexivity|done|done].
  - exists n1, (λ i, i). by rewrite update_info_id.
Qed.

(** ** Reconciling keeps the invariant *)

Lemma length_range {A} (m : gmap string A) : length (range m) = size m.
Proof. by rewrite range_perm, length_map_to_list. Qed.

Lemma NoDup_range {A} (m : gmap string A) : NoDup (range m).*1.
Proof. rewrite range_perm. apply NoDup_fst_map_to_list. Qed.

Lemma ensured_same n :
  n_bpf (ensured n) = n_bpf n ∧ next (ensured n) = next n ∧ podCache (n_resolver (ensured n)) = podCache (n_resolver n) ∧
  (∀ k, k ≠ key_of → wpState (n_resolver (ensured n)) !! k = wpState (n_resolver n) !! k) ∧
  wpState (n_resolver (ensured n)) !! key_of = Some (info_of (n_resolver n) key_of).
Proof.
  unfold ensured, ensure_info, update, info_of. cbn.
  destruct (wpState (n_resolver n) !! key_of) eqn:Hi; cbn; [done|].
  split_and!; [done|done|done|intros; by apply lookup_insert_ne|apply lookup_insert_eq].
Qed.

Lemma ensured_has_id n k c pid : has_id (n_resolver (ensured n)) k c pid → has_id (n_resolver n) k c pid.
Proof.
  destruct (ensured_same n) as (_ & _ & _ & Hother & Hkey). intros (i & Hi & Hc).
  destruct (decide (k = key_of)) as [->|Hne]; [|exists i; by rewrite <- Hother].
  rewrite Hkey in Hi. injection Hi as <-. by apply info_of_has_id.
Qed.

Lemma ensured_inv n : node_inv n → node_inv (ensured n).
Proof.
  intros I. destruct (ensured_same n) as (Hb & Hn & _). apply (node_inv_shrink n); [done|done| | |].
  - apply ensured_has_id.
  - by rewrite Hb.
  - unfold cgmap. rewrite Hb. auto.
Qed.

Lemma update_info_has_id f n k c pid :
  (∀ i, polByContainer (f i) = polByContainer i) →
  has_id (n_resolver (snd (update_info key_of f n))) k c pid → has_id (n_resolver n) k c pid.
Proof.
  intros Hf (i & Hi & Hc). cbn in Hi. destruct (decide (k = key_of)) as [->|Hne].
  - rewrite lookup_alter_eq in Hi. apply fmap_Some in Hi as (i0 & Hi0 & ->). exists i0. by rewrite <- Hf.
  - rewrite lookup_alter_ne in Hi by done. by exists i.
Qed.

Lemma status_inv f n :
  (∀ i, polByContainer (f i) = polByContainer i) → node_inv n → node_inv (snd (update_info key_of f n)).
Proof.
  intros Hf I. apply (node_inv_shrink n); [done|done| |by cbn|by left].
  intros k c pid. by apply update_info_has_id.
Qed.

Lemma recorded_has_id news n k c pid :
  has_id (n_resolver (recorded news n)) k c pid →
  has_id (n_resolver n) k c pid ∨ k = key_of ∧ news !! c = Some pid.
Proof.
  intros (i & Hi & Hc). cbn in Hi. destruct (decide (k = key_of)) as [->|Hne].
  - rewrite lookup_alter_eq in Hi. apply fmap_Some in Hi as (i0 & Hi0 & ->). cbn in Hc.
    apply lookup_union_Some_raw in Hc as [?|[_ ?]]; [by right|left; by exists i0].
  - rewrite lookup_alter_ne in Hi by done. left. by exists i.
Qed.

Section sync_inv.
  Context (n : node) (mode : Mode) (e : go_result policyByContainer) (n1 : node).
  Context (I : node_inv n) (Hleft : ids_left wp n).
  Context (Hs : sync_containers ver sd (polByContainer (info_of (n_resolver n) key_of)) mode
                  (range (wp_RulesByContainer wp)) ∅ (ensured n) = (e, n1)).

Lemma sync_facts :
  n_resolver n1 = set_nextPolicyID (next n1) (n_resolver (ensured n)) ∧ next n <= next n1 ∧
  bpf_frame (touched (polByContainer (info_of (n_resolver n) key_of)) (range (wp_RulesByContainer wp)) (next n) (next n1))
    nothing (n_bpf n) (n_bpf n1) ∧
  ∀ news, e = Ok news → new_ids (polByContainer (info_of (n_resolver n) key_of))
    (range (wp_RulesByContainer wp)) (next n) (next n1) ∅ news.
Proof.
  destruct (ensured_same n) as (Hb & Hn & _). pose proof (ni_next _ I). unfold ids_left in Hleft.
  apply sync_frame in Hs as (Hr & Hle & Hf & Hnew); rewrite ?Hn, ?length_range; [|lia..].
  rewrite Hn, ?Hb in *. split_and!; [done|lia|done|done].
Qed.

Lemma touched_below q :
  touched (polByContainer (info_of (n_resolver n) key_of)) (range (wp_RulesByContainer wp)) (next n) (next n1) q →
  q < next n1.
Proof.
  destruct sync_facts as (_ & Hle & _). intros [(c & _ & Hc)|?]; [|lia].
  apply (node_inv_pols n key_of I) in Hc. lia.
Qed.

Lemma sync_cgmap : cgmap n1 = cgmap n.
Proof.
  destruct sync_facts as (_ & _ & [_ _ Hcg] & _). apply map_eq. intros cg. exact (Hcg cg (λ H, H)).
Qed.

Lemma sync_has_id k c pid : has_id (n_resolver n1) k c pid → has_id (n_resolver n) k c pid.
Proof.
  destruct sync_facts as (Hr & _). intros H. apply ensured_has_id. eapply has_id_wpState, H. by rewrite Hr.
Qed.

(** Other policies are left alone. *)
Lemma sync_others : others_kept key_of n n1.
Proof.
  destruct sync_facts as (Hr & _ & Hf & _). destruct (ensured_same n) as (_ & _ & _ & Ho & _).
  intros k Hk. split; [rewrite Hr; by apply Ho|].
  intros c pid Hid. apply (bf_entry _ _ _ _ Hf). intros [(c' & _ & Hc')|Hge]; [|apply (ni_ids _ I) in Hid; lia].
  apply info_of_has_id in Hc'. by destruct (ni_inj _ I _ _ _ _ _ Hc' Hid).
Qed.

(** Ids that were allocated before an error stay unused. *)
Lemma sync_inv : node_inv n1.
Proof.
  destruct sync_facts as (Hr & Hle & Hf & _).
  apply (node_inv_step n); [done|apply Hf|done| | | |].
  - intros k c pid H. left. by apply sync_has_id.
  - intros k c k' c' pid _ H1%sync_has_id H2%sync_has_id. by eapply ni_inj.
  - intros q Hq. apply Hf. intros ?%touched_below. lia.
  - rewrite sync_cgmap. auto.
Qed.

Lemma news_distinct news : e = Ok news → distinct_ids news.
Proof.
  intros ->. destruct (ensured_same n) as (_ & Hn & _). pose proof (ni_next _ I). unfold ids_left in Hleft.
  eapply sync_distinct in Hs; rewrite ?Hn, ?length_range; [done|lia|lia|by intros c..].
Qed.

Lemma recorded_inv news : e = Ok news → node_inv (recorded news n1).
Proof.
  intros He. pose proof (news_distinct news He) as Hd. destruct sync_facts as (Hr & Hle & Hf & Hnew). specialize (Hnew _ He).
  assert (∀ c pid, news !! c = Some pid → next n <= pid < next n1) as Hrange.
  { intros c pid Hc. by destruct (Hnew _ _ Hc) as [?|(_ & _ & ?)]. }
  apply (node_inv_step n); [done|apply Hf|done| | | |].
  - intros k c pid [H|[_ H]]%recorded_has_id; [left; by apply sync_has_id|right; eauto].
  - intros k c k' c' pid Hp [H1|[-> H1]]%recorded_has_id [H2|[-> H2]]%recorded_has_id;
      [..|split; [done|by eapply Hd]].
    all: match goal with H : has_id _ _ _ _ |- _ => apply sync_has_id, (ni_ids _ I) in H end; lia.
  - intros q Hq. apply Hf. intros Ht%touched_below. cbn in Hq. lia.
  - change (cgmap (recorded news n1)) with (cgmap n1). rewrite sync_cgmap. auto.
Qed.
End sync_inv.

Lemma pods_change_inv pods applied removed n res n' :
  sync_pods ver sd wp applied removed pods n = (res, n') → node_inv n →
  (∀ q, ids_of removed q → q < next n) → (∀ q, ids_of applied q → 1 <= q < next n) → node_inv n'.
Proof.
  intros H I Hrm Hap. apply sync_pods_run in H as [Hs Hf Hnew]. apply (node_inv_shrink n); [done|apply Hs| | |].
  - intros k c pid. by eapply shrinks_has_id.
  - by eapply bpf_frame_mono, Hf.
  - intros cg q [H|H]%Hnew; auto.
Qed.

Lemma filter_ids n (P : string * Z → Prop) `{∀ x, Decision (P x)} q :
  node_inv n → ids_of (filter P (polByContainer (info_of (n_resolver n) key_of))) q → 1 <= q < next n.
Proof.
  intros I (c & Hc). apply map_lookup_filter_Some in Hc as [Hc _].
  apply info_of_has_id in Hc. by apply (ni_ids _ I) in Hc.
Qed.

Lemma reconcile_inv n : node_inv n → ids_left wp n → node_inv (snd (ReconcileWP ver sd wp n)).
Proof.
  intros I Hleft. destruct (ReconcileWP ver sd wp n) as [res n'] eqn:H.
  apply reconcile_run in H as (n1 & f & Hr & -> & Hf & _). apply status_inv; [done|].
  destruct Hr as [? ? _ _ ->|mode e n1 ? _ _ _ Hs|mode news n1 ? n3 n2 pols _ Hs Hp].
  - by apply ensured_inv.
  - by eapply sync_inv.
  - assert (node_inv n2) as I2 by by eapply recorded_inv.
    eapply pods_change_inv; [exact Hp|exact I2|..]; intros q Hq%filter_ids; [lia|done|lia|done].
Qed.

(** ** What a successful reconciliation establishes *)

Section success.
  Context (n : node) (mode : Mode) (news : policyByContainer) (n1 n3 : node).
  Context (I : node_inv n) (Hleft : ids_left wp n).
  Context (Hs : sync_containers ver sd (polByContainer (info_of (n_resolver n) key_of)) mode
                  (range (wp_RulesByContainer wp)) ∅ (ensured n) = (Ok news, n1)).

Let n2 := recorded news n1.
Let pols := news ∪ polByContainer (info_of (n_resolver n) key_of).

Lemma recorded_wpState :
  wpState (n_resolver n2) =
    alter (set_pol (λ m, news ∪ m)) key_of (wpState (n_resolver (ensured n))).
Proof.
  destruct (sync_facts _ _ _ _ I Hleft Hs) as (Hr & _).
  transitivity (alter (set_pol (λ m, news ∪ m)) key_of (wpState (n_resolver n1))); [done|]. by rewrite Hr.
Qed.

Lemma recorded_key :
  ∃ st, wpState (n_resolver n2) !! key_of = Some (MkWpInfo pols st).
Proof.
  destruct (ensured_same n) as (_ & _ & _ & _ & Hk). rewrite recorded_wpState, lookup_alter_eq, Hk. by eexists.
Qed.

Lemma recorded_pods : podCache (n_resolver n2) = podCache (n_resolver n).
Proof.
  destruct (sync_facts _ _ _ _ I Hleft Hs) as (Hr & _). destruct (ensured_same n) as (_ & _ & Hpc & _).
  rewrite <- Hpc. transitivity (podCache (n_resolver n1)); [done|]. by rewrite Hr.
Qed.

Lemma recorded_other k : k ≠ key_of → wpState (n_resolver n2) !! k = wpState (n_resolver n) !! k.
Proof.
  intros Hk. destruct (ensured_same n) as (_ & _ & _ & Ho & _).
  rewrite recorded_wpState, lookup_alter_ne by done. by apply Ho.
Qed.

Lemma pols_ids c pid :
  pols !! c = Some pid → has_id (n_resolver n) key_of c pid ∨ next n <= pid.
Proof.
  destruct (sync_facts _ _ _ _ I Hleft Hs) as (_ & _ & _ & Hnew).
  intros [H|[_ H]]%lookup_union_Some_raw; [|left; by apply info_of_has_id].
  destruct (Hnew _ eq_refl _ _ H) as [?|(_ & _ & ?)]; [done|right; lia].
Qed.

Lemma pols_distinct : distinct_ids pols.
Proof.
  destruct recorded_key as [st Hk]. assert (node_inv n2) as I2 by by eapply recorded_inv.
  intros c c' pid H1 H2. by apply (ni_inj _ I2 key_of c key_of c' pid); eexists.
Qed.

(** Other policies are left alone. *)
Lemma pods_others res n4 :
  sync_pods ver sd wp (applied_of pols) (removed_of pols) (range (podCache (n_resolver n2))) n2 = (res, n4) →
  others_kept key_of n n4.
Proof.
  intros [Hsh Hf _]%sync_pods_run k Hk. destruct (sync_others _ _ _ _ I Hleft Hs k Hk) as [_ He]. split.
  { rewrite (sh_other _ _ _ _ Hsh) by done. by apply recorded_other. }
  intros c pid Hid. rewrite (bf_entry _ _ _ _ Hf); [by eapply He|].
  intros (c' & [Hc' _]%map_lookup_filter_Some). apply pols_ids in Hc' as [H|H]; [by destruct (ni_inj _ I _ _ _ _ _ H Hid)|].
  apply (ni_ids _ I) in Hid. lia.
Qed.

  Context (Hsd : sd = false) (Hown : own_cgroups (n_resolver n)).
  Context (Hp : sync_pods ver sd wp (applied_of pols) (removed_of pols) (range (podCache (n_resolver n2))) n2 = (Ok tt, n3)).

(** The policies of the spec are in the maps. *)
Lemma success_installed c rules :
  wp_RulesByContainer wp !! c = Some rules →
  ∃ pid, pols !! c = Some pid ∧ policy_entry (n_bpf n3) pid = entry_of (asked mode rules).
Proof.
  intros Hc. destruct (ensured_same n) as (Hb & Hn & _). destruct (node_inv_pols n key_of I).
  pose proof (ni_next _ I). pose proof (ni_len _ I). unfold ids_left in Hleft.
  pose proof Hs as Hok. apply sync_ok in Hok; rewrite ?Hn, ?Hb, ?length_range; [|try done; try lia..].
  2: apply (ni_fresh _ I). 2: apply NoDup_range.
  destruct Hok as [_ Hok]. destruct (Hok c rules) as (pid & Hpid & He); [by apply elem_of_range|].
  exists pid. split; [exact Hpid|]. rewrite <- He. pose proof Hp as Hrun; apply sync_pods_run in Hrun as [_ Hf _].
  apply (bf_entry _ _ _ _ Hf). intros (c' & [Hc' Hst]%map_lookup_filter_Some).
  rewrite (pols_distinct _ _ _ Hc' Hpid) in Hst. unfold still_present in Hst. cbn in Hst. by rewrite Hc in Hst.
Qed.

(** The policy's own record. *)
Lemma success_key :
  ∃ i, wpState (n_resolver n3) !! key_of = Some i ∧
    ∀ c, is_Some (wp_RulesByContainer wp !! c) → polByContainer i !! c = pols !! c.
Proof.
  destruct recorded_key as [st Hk]. pose proof Hp as Hrun; apply sync_pods_run in Hrun as [Hsh _ _].
  destruct (sh_key _ _ _ _ Hsh _ Hk) as (i & Hi & _ & _ & Hkeep). exists i. split; [done|].
  intros c [rules Hc]. apply Hkeep, map_lookup_filter_None_2. right. intros pid _.
  unfold still_present. cbn. by rewrite Hc.
Qed.

(** The pods are bound. *)
Lemma success_bound podID pod :
  podCache (n_resolver n) !! podID = Some pod → matchPolicy pod (wp_Name wp) (wp_Namespace wp) = true →
  bound (applied_of pols) (removed_of pols) pod n3.
Proof.
  intros Hpod Hm. pose proof Hp as Hb. eapply sync_pods_ok in Hb; [exact Hb|done| | |by rewrite recorded_pods|done].
  - intros c [p1 [_ H1]%map_lookup_filter_Some] [p2 [_ H2]%map_lookup_filter_Some]. cbn in *. congruence.
  - unfold own_cgroups. rewrite recorded_pods. exact Hown.
Qed.

Lemma removed_lookup c :
  wp_RulesByContainer wp !! c = None → is_Some (polByContainer (info_of (n_resolver n) key_of) !! c) →
  is_Some (removed_of pols !! c).
Proof.
  intros Hc [pid Hpid]. assert (∃ q, pols !! c = Some q) as [q Hq].
  { unfold pols. destruct (news !! c) as [q|] eqn:Hn.
    - exists q. by apply lookup_union_Some_l.
    - exists pid. by rewrite lookup_union_r. }
  exists q. apply map_lookup_filter_Some. split; [done|]. unfold still_present. cbn. by rewrite Hc.
Qed.

Lemma applied_lookup c pid :
  is_Some (wp_RulesByContainer wp !! c) → pols !! c = Some pid → applied_of pols !! c = Some pid.
Proof.
  intros [rules Hc] Hp'. apply map_lookup_filter_Some. split; [done|]. unfold still_present. cbn. by rewrite Hc.
Qed.

Lemma success_in_force f :
  f = setPolicyStatus POLICY_STATE_READY (ParsePolicyModeToProto (wp_Mode wp)) "" →
  ∃ info, in_force wp mode info n (snd (update_info key_of f n3)).
Proof.
  intros ->. destruct success_key as (i & Hi & Hkeep). eexists. split.
  - cbn. unfold key_of in Hi |- *. rewrite lookup_alter_eq, Hi. reflexivity.
  - done.
  - intros c rules Hc. destruct (success_installed c rules Hc) as (pid & Hpid & He). exists pid. split_and!.
    + cbn. by rewrite Hkeep.
    + by apply entry_installed.
    + intros cm (podID & pod & cid & Hpod & Hm & Hcm) <-.
      destruct (success_bound podID pod Hpod Hm cid cm Hcm) as [Hb _]. apply Hb. by apply applied_lookup.
  - intros cm (podID & pod & cid & Hpod & Hm & Hcm) Hnone Hold.
    destruct (success_bound podID pod Hpod Hm cid cm Hcm) as [_ Hb]. by apply Hb, removed_lookup.
  - intros k i' Hk Hi'. destruct (pods_others _ _ Hp k Hk) as [H1 H2]. split.
    + cbn. rewrite lookup_alter_ne by done. by rewrite H1.
    + intros c pid Hc. apply (H2 c). by exists i'.
Qed.

(** The record of the policy, whoever owns the cgroups. *)
Lemma success_ready f :
  f = setPolicyStatus POLICY_STATE_READY (ParsePolicyModeToProto (wp_Mode wp)) "" →
  ready_for wp mode (snd (update_info key_of f n3)).
Proof.
  intros ->. destruct success_key as (i & Hi & Hkeep). eexists. split_and!.
  - cbn. unfold key_of in Hi |- *. rewrite lookup_alter_eq, Hi. reflexivity.
  - done.
  - intros c rules Hc. destruct (success_installed c rules Hc) as (pid & Hpid & He). exists pid. split.
    + cbn. by rewrite Hkeep.
    + by apply entry_installed.
Qed.
End success.

Lemma pods_pols n mode news n1 :
  node_inv n → ids_left wp n →
  sync_containers ver sd (polByContainer (info_of (n_resolver n) key_of)) mode
    (range (wp_RulesByContainer wp)) ∅ (ensured n) = (Ok news, n1) →
  polByContainer (info_of (n_resolver (recorded news n1)) key_of) =
    news ∪ polByContainer (info_of (n_resolver n) key_of).
Proof.
  intros I Hleft Hs. destruct (recorded_key n mode news n1 I Hleft Hs) as [st Hk].
  unfold info_of at 1. by rewrite Hk.
Qed.

(** A reconciliation, whatever its result, leaves the other policies alone. *)
Lemma reconcile_others n res n' :
  node_inv n → ids_left wp n → ReconcileWP ver sd wp n = (res, n') → others_kept key_of n n'.
Proof.
  intros I Hleft H. apply reconcile_run in H as (n3 & f & Hr & -> & _).
  assert (others_kept key_of n n3) as Hk3.
  { destruct Hr as [? ? _ _ ->|mode e n1 ? _ _ _ Hs|mode news n1 ? n4 n2 pols _ Hs Hp].
    - destruct (ensured_same n) as (Hb & _ & _ & Ho & _). intros k Hk. rewrite Hb. split; [by apply Ho|done].
    - by eapply sync_others.
    - unfold pols, n2 in Hp. rewrite (pods_pols n mode news n1 I Hleft Hs) in Hp. exact (pods_others _ _ _ _ I Hleft Hs _ _ Hp). }
  intros k Hk. destruct (Hk3 k Hk) as [H1 H2]. split; [|exact H2]. cbn. by rewrite lookup_alter_ne.
Qed.

Lemma reconcile_ready n n' :
  node_inv n → ids_left wp n → sd = false → ReconcileWP ver sd wp n = (Ok tt, n') →
  ∃ mode, ParseMode (wp_Mode wp) = Ok mode ∧ ready_for wp mode n'.
Proof.
  intros I Hleft Hsd H. apply reconcile_run in H as (n3 & f & Hr & -> & _ & Hf).
  inversion Hr as [|? ? ? ? ? ? ? Hs|mode news n1 ? ? n2 pols Hmode Hs Hp]; [done|done|]. simplify_eq.
  unfold pols, n2 in Hp. rewrite (pods_pols n mode news n1 I Hleft Hs) in Hp.
  exists mode. split; [done|]. by eapply (success_ready n mode news n1 n3); [..|exact Hp|exact (Hf eq_refl)].
Qed.

Lemma reconcile_in_force n n' :
  node_inv n → ids_left wp n → own_cgroups (n_resolver n) → sd = false →
  ReconcileWP ver sd wp n = (Ok tt, n') →
  ∃ mode info, ParseMode (wp_Mode wp) = Ok mode ∧ in_force wp mode info n n'.
Proof.
  intros I Hleft Hown Hsd H. apply reconcile_run in H as (n3 & f & Hr & -> & _ & Hf).
  inversion Hr as [|? ? ? ? ? ? ? Hs|mode news n1 ? ? n2 pols Hmode Hs Hp]; [done|done|]. simplify_eq.
  unfold pols, n2 in Hp. rewrite (pods_pols n mode news n1 I Hleft Hs) in Hp. exists mode.
  destruct (success_in_force n mode news n1 n3 I Hleft Hs Hsd Hown Hp f (Hf eq_refl)) as [info Hin]. by exists info.
Qed.
End reconcile.

(** ** Deleting a policy *)

(** The loop of [HandleWPDelete] over the ids [pols]. *)
Record clears (pols : policyByContainer) (n n' : node) : Prop := {
  cl_res : n_resolver n' = n_resolver n;
  cl_bpf : bpf_frame (ids_of pols) (λ _, True) (n_bpf n) (n_bpf n');
  cl_keep : cgmap n' ⊆ cgmap n;
  cl_cg cg q : cgmap n !! cg = Some q → ¬ ids_of pols q → cgmap n' !! cg = Some q;
}.

#[export] Instance clears_preorder pols : PreOrder (clears pols).
Proof.
  split; [done|]. intros n1 n2 n3 [A1 A2 A3 A4] [B1 B2 B3 B4].
  split; [congruence|by etrans|by etrans|eauto].
Qed.

(** Nothing is left of the policy [pid]. *)
Definition gone (pid : Z) (n : node) : Prop :=
  policy_entry (n_bpf n) pid = no_entry ∧ ∀ cg, cgmap n !! cg ≠ Some pid.

Section others.
  Context `{K : Kernel, B : Ebpf, BM : EbpfMap, R : GoRange, !GoRangeOk R} (ver : Z) (sd : bool).

Definition clear_policy (policyID : Z) : gom unit :=
  cgroupToPolicyMapUpdateFunc sd policyID [] RemovePolicy ;; clearPolicyIDFromBPF ver sd policyID.

Lemma clear_policy_run pols pid n res n' :
  clear_policy pid n = (res, n') → ids_of pols pid →
  clears pols n n' ∧ bpf_frame (eq pid) (λ _, True) (n_bpf n) (n_bpf n') ∧
  (res = Ok tt → sd = false → length (pol_str_maps (n_bpf n)) = 11%nat → gone pid n').
Proof.
  unfold clear_policy, mbind, gom_bind. intros H Hid.
  destruct (cgroupToPolicyMapUpdateFunc _ _ _ _ _) as [r1 n1] eqn:H1.
  apply cg_remove_policy_run in H1 as (Hr1 & Hf1 & Hsub1 & Hok1).
  assert (clears pols n n1) as Hc1.
  { split; [done|by eapply bpf_frame_mono, Hf1|done|]. intros cg q Hq Hnot. unfold cgmap.
    rewrite (bf_cg _ _ _ _ Hf1); [done|]. intros Hp. unfold cgmap in Hq. simplify_eq. done. }
  assert (bpf_frame (eq pid) (λ _, True) (n_bpf n) (n_bpf n1)) as Hf1' by by eapply bpf_frame_mono, Hf1.
  destruct r1 as [[]|e|e]; [|simplify_eq; done..].
  apply clear_run in H as (Hr2 & Hf2 & Hok2).
  assert (cgmap n' = cgmap n1) as Hcg.
  { apply map_eq. intros cg. exact (bf_cg _ _ _ _ Hf2 cg (λ H, H)). }
  split_and!.
  - etrans; [done|]. split; [done|eapply bpf_frame_mono, Hf2; [by intros q <-|done]|by rewrite Hcg|by rewrite Hcg].
  - etrans; [done|]. by eapply bpf_frame_mono, Hf2.
  - intros Hres Hsd Hl. split; [apply Hok2; [done|done|]; by rewrite (bf_len _ _ _ _ Hf1)|].
    rewrite Hcg. by apply Hok1.
Qed.

Lemma delete_run wp n res n' :
  HandleWPDelete ver sd wp n = (res, n') →
  wpState (n_resolver n) !! NamespacedName wp = None ∧ n' = n ∧ res = Ok tt ∨
  ∃ info n0, wpState (n_resolver n) !! NamespacedName wp = Some info ∧
    n0 = MkNode (set_wpState (delete (NamespacedName wp) (wpState (n_resolver n))) (n_resolver n)) (n_bpf n) ∧
    for_each (range (polByContainer info)) (λ _, clear_policy) n0 = (res, n').
Proof.
  unfold HandleWPDelete, mbind at 1, gom_bind at 1, resolver. cbn.
  destruct (wpState (n_resolver n) !! NamespacedName wp) as [info|] eqn:Hi.
  - intros H. right. eexists info, _. split_and!; [done|done|]. exact H.
  - intros [= <- <-]. by left.
Qed.

Lemma clear_loop pols n res n' :
  for_each (range pols) (λ _, clear_policy) n = (res, n') → clears pols n n'.
Proof.
  apply for_each_rel; [apply _|]. clear n res n'. intros k pid n res n' Hk%elem_of_range H.
  apply (clear_policy_run pols) in H as [H _]; [done|by exists k].
Qed.

Lemma clear_loop_ok pols n n' :
  for_each (range pols) (λ _, clear_policy) n = (Ok tt, n') → sd = false →
  length (pol_str_maps (n_bpf n)) = 11%nat → ∀ pid, ids_of pols pid → gone pid n'.
Proof.
  intros H Hsd Hl pid [c Hc]. eapply (for_each_ok (λ n, length (pol_str_maps (n_bpf n)) = 11%nat)
    (λ _ pid n, gone pid n)) in H; [|clear H n n' Hl pid c Hc|done].
  { destruct H as [_ H]. by apply (H c), elem_of_range. }
  intros k pid n n' Hk%elem_of_range Hl H.
  apply (clear_policy_run pols) in H as ([_ Hf Hsub _] & Hf1 & Hok); [|by exists k].
  specialize (Hok eq_refl Hsd Hl). split_and!; [by rewrite (bf_len _ _ _ _ Hf)|done|].
  intros k' pid' _ [He Hg]. destruct (decide (pid' = pid)) as [->|Hne]; [done|]. split.
  - rewrite (bf_entry _ _ _ _ Hf1); [done|congruence].
  - intros cg Hcg. by eapply Hg, lookup_weaken.
Qed.

Lemma delete_has_id wp r k c pid :
  has_id (set_wpState (delete (NamespacedName wp) (wpState r)) r) k c pid →
  k ≠ NamespacedName wp ∧ has_id r k c pid.
Proof.
  intros (i & Hi & Hc). cbn [wpState set_wpState] in Hi. apply lookup_delete_Some in Hi as [Hk Hi].
  split; [done|]. by exists i.
Qed.

Lemma delete_inv wp n : node_inv n → node_inv (snd (HandleWPDelete ver sd wp n)).
Proof.
  intros I. destruct (HandleWPDelete ver sd wp n) as [res n'] eqn:H.
  apply delete_run in H as [(_ & -> & _)|(info & n0 & Hi & -> & H)]; [done|].
  apply clear_loop in H as [Hr Hf Hsub _]. cbn [n_resolver n_bpf] in *. cbn [snd].
  apply (node_inv_shrink n); [done|by rewrite Hr| | |].
  - intros k c pid H. rewrite Hr in H. by apply delete_has_id in H as [_ H].
  - eapply bpf_frame_mono, Hf; [|done]. intros q [c Hc]. apply (ni_ids _ I (NamespacedName wp) c). by exists info.
  - intros cg q Hq. left. by eapply lookup_weaken.
Qed.

(** ** Pods *)

(** The loop over the containers of a request leaves policies alone. *)
Record adds (n n' : node) : Prop := {
  ad_wp : wpState (n_resolver n') = wpState (n_resolver n);
  ad_next : next n' = next n;
  ad_bpf : bpf_frame nothing nothing (n_bpf n) (n_bpf n');
}.

#[local] Instance adds_preorder : PreOrder adds.
Proof.
  split; [done|]. intros n1 n2 n3 [A1 A2 A3] [B1 B2 B3]. split; [congruence|congruence|by etrans].
Qed.

Lemma cgTracker_run cg path n res n' :
  cgTrackerUpdateFunc sd cg path n = (res, n') →
  n_resolver n' = n_resolver n ∧ bpf_frame nothing nothing (n_bpf n) (n_bpf n').
Proof.
  unfold cgTrackerUpdateFunc, bpf_op. destruct (UpdateCgTrackerMap _ _ _) as [err m]. intros [= <- <-].
  split; [done|by split].
Qed.

Lemma add_containers_run podID cached l st n res n' :
  add_containers sd podID cached l st n = (res, n') →
  adds n n' ∧ ∀ st', res = Ok st' → pod_meta st' = pod_meta st ∧ pod_containers st ⊆ pod_containers st' ∧
    ∀ cid ci, (cid, ci) ∈ l → ∃ cm, pod_containers st' !! cid = Some cm ∧
      ContainerMeta_CgroupID cm = ContainerMeta_CgroupID (ContainerInput_meta ci) ∧
      ContainerMeta_Name cm = ContainerMeta_Name (ContainerInput_meta ci).
Proof.
  revert st n. induction l as [|[cid ci] l IH]; intros st n H; cbn [add_containers] in H.
  { injection H as <- <-. split; [done|]. intros st' [= <-]. split_and!; [done|done|set_solver]. }
  destruct (pod_containers st !! cid) as [cm|] eqn:Hc.
  - destruct (_ && _) eqn:Heq; [|by injection H as <- <-].
    destruct (IH _ _ H) as [Ha Hok]. split; [done|]. intros st' Hst.
    destruct (Hok _ Hst) as (Hm & Hsub & Hall). split_and!; [done|done|].
    intros cid' ci' [[= -> ->]|Hin]%elem_of_cons; [|eauto]. exists cm.
    apply andb_true_iff in Heq as [H1%Z.eqb_eq H2%String.eqb_eq]. split_and!; [|done|done].
    by eapply lookup_weaken.
  - unfold mbind, gom_bind in H. set (st1 := MkPodEntry _ _) in H.
    match type of H with context [(if cached then ?a else ?b) n] =>
      destruct ((if cached then a else b) n) as [r0 n0] eqn:H0
    end.
    assert (r0 = Ok tt ∧ adds n n0) as [-> Ha0] by (by destruct cached; injection H0 as <- <-).
    cbn [update] in H. destruct (cgTrackerUpdateFunc _ _ _ _) as [r1 n1] eqn:H1.
    apply cgTracker_run in H1 as [Hr1 Hf1].
    assert (adds n n1) as Ha1 by (etrans; [exact Ha0|]; split; [by rewrite Hr1..|done]).
    destruct r1 as [[]|e|e]; [|by injection H as <- <-..].
    destruct (IH _ _ H) as [Ha2 Hok]. split; [by etrans|]. intros st' Hst.
    destruct (Hok _ Hst) as (Hm & Hsub & Hall). cbn [st1 pod_containers pod_meta] in *. split_and!; [done| |].
    + etrans; [by apply insert_subseteq, Hc|done].
    + intros cid' ci' [[= -> ->]|Hin]%elem_of_cons; [|eauto]. exists (ContainerInput_meta ci).
      split_and!; [|done|done]. eapply lookup_weaken; [apply lookup_insert_eq|done].
Qed.

Lemma add_run pod n res n' :
  AddPodContainerFromNri sd pod n = (res, n') →
  adds n n' ∧ res ≠ Ok tt ∨ ∃ st n1, adds n n1 ∧ podCache (n_resolver n1) !! PodMeta_ID (PodInput_Meta pod) = Some st ∧
    pod_meta st = pod_meta (default (convertPodData pod) (podCache (n_resolver n) !! PodMeta_ID (PodInput_Meta pod))) ∧
    (∀ cid ci, PodInput_Containers pod !! cid = Some ci → ∃ cm, pod_containers st !! cid = Some cm ∧
      ContainerMeta_CgroupID cm = ContainerMeta_CgroupID (ContainerInput_meta ci) ∧
      ContainerMeta_Name cm = ContainerMeta_Name (ContainerInput_meta ci)) ∧
    applyPolicyToPodIfPresent sd st n1 = (res, n').
Proof.
  unfold AddPodContainerFromNri, mbind, gom_bind. cbn [resolver]. intros H.
  destruct (add_containers _ _ _ _ _ _) as [[st|e|e] n1] eqn:Ha; [|injection H as <- <-; left; split; [by eapply add_containers_run|done]..].
  apply add_containers_run in Ha as [Ha Hok]. destruct (Hok _ eq_refl) as (Hm & _ & Hall).
  cbn [update] in H. right. eexists st, _. split_and!; [|..|exact H].
  - etrans; [exact Ha|]. by split.
  - apply lookup_insert_eq.
  - exact Hm.
  - intros cid ci Hc. apply Hall. by apply elem_of_range.
Qed.

Lemma applyIfPresent_run st n res n' :
  applyPolicyToPodIfPresent sd st n = (res, n') →
  n' = n ∧ (policyName st = "" ∨ res ≠ Ok tt) ∨
  ∃ info, wpState (n_resolver n) !! (podNamespace st ++ "/" ++ policyName st)%string = Some info ∧
    applyPolicyToPod sd st (polByContainer info) n = (res, n').
Proof.
  unfold applyPolicyToPodIfPresent, mbind, gom_bind. cbn [resolver].
  destruct (policyName st =? "")%string eqn:He.
  { intros [= <- <-]. left. split; [done|left]. by apply String.eqb_eq. }
  destruct (wpState (n_resolver n) !! _) as [info|] eqn:Hi; [intros H; right; eauto|].
  intros [= <- <-]. left. split; [done|by right].
Qed.

Lemma adds_inv n n' : node_inv n → adds n n' → node_inv n'.
Proof.
  intros I [A1 A2 A3]. apply (node_inv_shrink n); [done|done| | |].
  - intros k c pid. by apply has_id_wpState.
  - by eapply bpf_frame_mono, A3.
  - intros cg q Hq. left. unfold cgmap in *. by rewrite (bf_cg _ _ _ _ A3 cg (λ H, H)) in Hq.
Qed.

Lemma add_inv pod n : node_inv n → node_inv (snd (AddPodContainerFromNri sd pod n)).
Proof.
  intros I. destruct (AddPodContainerFromNri sd pod n) as [res n'] eqn:H.
  apply add_run in H as [[H _]|(st & n1 & Ha & _ & _ & _ & H)]; [by eapply adds_inv|].
  apply (adds_inv n n1 I) in Ha as I1.
  apply applyIfPresent_run in H as [[-> _]|(info & Hi & H)]; [done|]. apply apply_run in H as [A1 A2 A3 A4].
  cbn [snd]. apply (node_inv_shrink n1); [done|by rewrite A1|intros ???; by rewrite A1|by eapply bpf_frame_mono, A2|].
  intros cg q [H|[c Hc]]%A4; [by left|right]. eapply (ni_ids _ I1). by exists info.
Qed.

Lemma remove_pod_run podID cID n res n' :
  RemovePodContainerFromNri sd podID cID n = (res, n') →
  wpState (n_resolver n') = wpState (n_resolver n) ∧ next n' = next n ∧
  bpf_frame nothing (λ _, True) (n_bpf n) (n_bpf n') ∧ cgmap n' ⊆ cgmap n.
Proof.
  unfold RemovePodContainerFromNri, mbind, gom_bind. cbn [resolver].
  destruct (podCache (n_resolver n) !! podID) as [st|]; [|by intros [= <- <-]].
  destruct (pod_containers st !! cID) as [cm|]; [|by intros [= <- <-]].
  destruct (size (pod_containers st) =? 1)%nat; cbn [update];
    intros (Hr & Hf & Hsub & _)%cg_remove_run; rewrite Hr;
    (split_and!; [done|done|by eapply bpf_frame_mono, Hf|done]).
Qed.

Lemma remove_pod_inv podID cID n : node_inv n → node_inv (snd (RemovePodContainerFromNri sd podID cID n)).
Proof.
  intros I. destruct (RemovePodContainerFromNri sd podID cID n) as [res n'] eqn:H.
  apply remove_pod_run in H as (Hw & Hn & Hf & Hsub). apply (node_inv_shrink n); [done|done| | |].
  - intros k c pid. by apply has_id_wpState.
  - by eapply bpf_frame_mono, Hf.
  - intros cg q Hq. left. by eapply lookup_weaken.
Qed.
End others.

(** ** The handlers *)

Section theorems.
  Context `{K : Kernel, B : Ebpf, BM : EbpfMap, R : GoRange, !GoRangeOk R} (ver : Z).

(** C21: policy ids.  In every state the handlers reach from a fresh start, in any order,
    with any result and also while the agent stops, the invariant holds: the ids in use
    were handed out, no two containers of any policies share one, ids not handed out yet
    have no entry in the maps (which is what adding the values of a new policy relies on),
    and every cgroup with a policy has an id that was handed out.  (As long as fewer than
    [2^64] ids are needed.) *)
Theorem resolver_invariant sd n0 n :
  fresh_node n0 → rtc (handles ver sd) n0 n → node_inv n.
Proof.
  intros Hfresh. apply fresh_node_inv in Hfresh. revert Hfresh.
  intros I H. induction H as [|n1 n2 n3 Hstep _ IH]; [done|]. apply IH. destruct Hstep.
  - by apply reconcile_inv.
  - by apply delete_inv.
  - by apply add_inv.
  - by apply remove_pod_inv.
Qed.

(** What a reconciliation that returns without error has done.  Every container of the
    spec has a policy id, under which the maps hold exactly the rules of the spec and the
    mode; the status says so; the cgroups of all cached pods the policy selects are bound
    to it; containers whose rules were removed are unbound; and the other policies and
    their entries are untouched. *)
Theorem ReconcileWP_installs wp n n' :
  node_inv n → ids_left wp n → own_cgroups (n_resolver n) →
  ReconcileWP ver false wp n = (Ok tt, n') →
  ∃ mode info, ParseMode (wp_Mode wp) = Ok mode ∧ in_force wp mode info n n'.
Proof. intros. by eapply reconcile_in_force. Qed.


(** A policy that could not be deleted.  Whatever made [HandleWPDelete] fail, the record
    of the policy is already gone, so the retry returns without error and without effect:
    what the first call left in the maps stays there. *)
Theorem HandleWPDelete_retry_is_noop wp n e n1 :
  HandleWPDelete ver false wp n = (Err e, n1) →
  wpState (n_resolver n1) !! NamespacedName wp = None ∧
  ∀ (B' : Ebpf) (BM' : EbpfMap) sd',
    HandleWPDelete (B := B') (BM := BM') ver sd' wp n1 = (Ok tt, n1) ∧
    ∀ pid, ¬ gone pid n1 → ¬ gone pid (snd (HandleWPDelete (B := B') (BM := BM') ver sd' wp n1)).
Proof.
  intros H. apply delete_run in H as [(_ & _ & H)|(info & n0 & Hi & -> & H)]; [done|].
  apply clear_loop in H as [Hr _ _ _].
  assert (wpState (n_resolver n1) !! NamespacedName wp = None) as Hnone.
  { rewrite Hr. cbn [n_resolver set_wpState wpState]. by rewrite lookup_delete_eq. }
  split; [done|]. intros B' BM' sd'.
  assert (HandleWPDelete (B := B') (BM := BM') ver sd' wp n1 = (Ok tt, n1)) as ->; [|done].
  unfold HandleWPDelete, mbind, gom_bind. cbn [resolver]. by rewrite Hnone.
Qed.

(** Starting a container.  When [AddPodContainerFromNri] returns without error the pod
    is cached with the containers of the request, and if it is labelled with a policy, that
    policy exists and each container it has an id for is bound to it.  (A missing policy or a
    cgroup that is bound to another one is an error, which fails the start.) *)
Theorem AddPodContainer_binds pod n n' :
  AddPodContainerFromNri false pod n = (Ok tt, n') →
  ∃ st, podCache (n_resolver n') !! PodMeta_ID (PodInput_Meta pod) = Some st ∧
    (∀ cid ci, PodInput_Containers pod !! cid = Some ci → ∃ cm, pod_containers st !! cid = Some cm ∧
      ContainerMeta_CgroupID cm = ContainerMeta_CgroupID (ContainerInput_meta ci) ∧
      ContainerMeta_Name cm = ContainerMeta_Name (ContainerInput_meta ci)) ∧
    (policyName st = "" ∨
     ∃ info, wpState (n_resolver n') !! (podNamespace st ++ "/" ++ policyName st)%string = Some info ∧
       ∀ cid cm pid, pod_containers st !! cid = Some cm →
         polByContainer info !! ContainerMeta_Name cm = Some pid →
         policy_of n' (ContainerMeta_CgroupID cm) = Some pid).
Proof.
  intros H. apply add_run in H as [[_ H]|(st & n1 & Ha & Hst & _ & Hall & H)]; [done|].
  apply applyIfPresent_run in H as [[-> [H|H]]|(info & Hi & H)]; [|done|].
  { exists st. split_and!; [done..|by left]. }
  apply apply_run in H as Hap. pose proof (ap_res _ _ _ _ Hap) as Hr. exists st. rewrite Hr.
  split_and!; [done..|]. right. exists info. split; [done|]. intros cid cm pid Hcm Hp.
  by eapply apply_ok.
Qed.

End theorems.

(** ** From the policy to the exec hook *)

Section end_to_end.
  Context `{K : Kernel, L : KernelLayout, !KernelOk K, B : Ebpf, BM : EbpfMap, R : GoRange, !GoRangeOk R}.
  Context (conf : load_conf) (ver : Z).

(** C5: the whole chain.  After a policy is reconciled without error, an exec in a container
    of a selected pod that the policy has rules for is decided by those rules and the mode of
    the policy, and reported accordingly (for paths of at most 4094 bytes whose length is not
    between 121 and 144). *)
Theorem reconciled_policy_enforced wp n n' cm rules bprm p :
  node_inv n → ids_left wp n → own_cgroups (n_resolver n) →
  ReconcileWP ver false wp n = (Ok tt, n') →
  selects wp (n_resolver n) cm → wp_RulesByContainer wp !! ContainerMeta_Name cm = Some rules →
  policy_ok (asked Monitor rules) →
  tracked_exec conf (n_bpf n') bprm (ContainerMeta_CgroupID cm) p →
  Z.of_nat (length p) <= 4094 → same_bucket_len (Z.of_nat (length p)) = true →
  ∃ mode, ParseMode (wp_Mode wp) = Ok mode ∧
    let foreign := exec_is_foreign_root bprm in
    let d := exec_decision (asked mode rules) foreign p in
    ∃ s', enforce_cgroup_policy conf bprm (n_bpf n') = (decision_code d, s') ∧
      reports (n_bpf n') d
        (MkProcessEvent (ContainerMeta_CgroupID cm) p (Mode_String mode) foreign) s'.
Proof.
  intros I Hleft Hown H Hsel Hrules Hok Hexec Hlen Hb.
  destruct (reconcile_in_force _ _ _ _ _ I Hleft Hown eq_refl H) as (mode & info & Hmode & Hin).
  exists mode. split; [done|]. cbv zeta. destruct (fo_rules _ _ _ _ _ Hin _ _ Hrules) as (pid & _ & Hinst & Hbound).
  rewrite <- visible_decision by done.
  destruct (enforce_run conf (n_bpf n') bprm _ p Hexec Hlen pid (asked mode rules))
    as (s' & Hrun & _ & Hrep); [by apply Hbound|done|done|]. by exists s'.
Qed.
End end_to_end.

(** ** Instances *)

#[local] Existing Instances list_range list_range_ok.

(** System calls that succeed, and an iteration that is interrupted. *)
#[export] Instance working_maps : EbpfMap :=
  {| delete_err := λ _, None; iterate_err := None; batch_delete := λ ks, (length ks, None) |}.
Definition interrupted_maps : EbpfMap :=
  {| delete_err := λ _, None; iterate_err := Some "iteration aborted"; batch_delete := λ ks, (length ks, None) |}.

Definition sh_rules : WorkloadPolicyRules := MkRules [bin_sh_path] ∅.
Definition web_rules : WorkloadPolicyRules := MkRules [] ∅.

(** A policy with rules for two containers, and the same policy with one of them removed. *)
Definition two_containers : WorkloadPolicy :=
  MkWorkloadPolicy "ns" "pol" "protect" {[ "web" := web_rules; "side" := sh_rules ]}.
Definition side_removed : WorkloadPolicy :=
  MkWorkloadPolicy "ns" "pol" "protect" {[ "web" := web_rules ]}.

Definition side_container : ContainerMeta := MkContainerMeta "c1" "side" container_cgroup.
Definition side_pod : PodInput :=
  MkPodInput (MkPodMeta "p1" "ns" "pod" "" "" {[ PolicyLabelKey := "pol" ]})
    {[ "c1" := MkContainerInput side_container EmptyPath ]}.

Definition new_node : node := MkNode NewResolver empty_state.

Definition sample_kernel : Kernel := x86_exec bin_sh.
Abbreviation reconcile := (ReconcileWP (K := sample_kernel) linux_6_8 false).
Abbreviation start_pod := (AddPodContainerFromNri (K := sample_kernel) false).
Abbreviation delete_wp BM := (HandleWPDelete (K := sample_kernel) (BM := BM) linux_6_8 false).

(** A node on which the policy was reconciled before a pod it selects started, and the same
    once the pod runs. *)
Definition policy_node : node := snd (reconcile two_containers new_node).
Definition pod_node : node := snd (start_pod side_pod policy_node).


Lemma run_is (c : gom unit) n r : fst (c n) = r → c n = (r, snd (c n)).
Proof. intros <-. apply surjective_pairing. Qed.

Lemma new_node_fresh : fresh_node new_node.
Proof. by split_and!. Qed.

Lemma ids_left_small wp n :
  nextPolicyID (n_resolver n) <= 1000 → (size (wp_RulesByContainer wp) <= 1000)%nat → ids_left wp n.
Proof. unfold ids_left. lia. Qed.

Lemma policy_node_inv : node_inv policy_node.
Proof.
  apply reconcile_inv; [apply fresh_node_inv, new_node_fresh|].
  apply ids_left_small; [vm_compute; discriminate|vm_compute; lia].
Qed.

Lemma pod_node_inv : node_inv pod_node.
Proof. apply add_inv, policy_node_inv. Qed.

Definition side_entry : podEntry := MkPodEntry (PodInput_Meta side_pod) {[ "c1" := side_container ]}.

Lemma pod_node_pods :
  podCache (n_resolver pod_node) = {[ "p1" := side_entry ]}.
Proof. vm_compute. reflexivity. Qed.

Lemma side_entry_containers cid cm : pod_containers side_entry !! cid = Some cm → cid = "c1" ∧ cm = side_container.
Proof. unfold side_entry. cbn [pod_containers]. by intros [<- <-]%lookup_singleton_Some. Qed.

Lemma pod_node_own : own_cgroups (n_resolver pod_node).
Proof.
  unfold own_cgroups. rewrite pod_node_pods. intros p1 pod1 c1 cm1 p2 pod2 c2 cm2.
  intros [<- <-]%lookup_singleton_Some [-> _]%side_entry_containers
    [<- <-]%lookup_singleton_Some [-> _]%side_entry_containers _. done.
Qed.

Lemma pod_node_selects : selects two_containers (n_resolver pod_node) side_container.
Proof.
  eexists "p1", _, "c1". rewrite pod_node_pods. split_and!; [apply lookup_singleton_eq|reflexivity|].
  cbn. apply lookup_singleton_eq.
Qed.

Lemma pod_node_ids : ids_left two_containers pod_node.
Proof. apply ids_left_small; [vm_compute; discriminate|vm_compute; lia]. Qed.

(** The node after the policy is reconciled again, with the pod in the cache. *)
Definition bound_node : node := snd (reconcile two_containers pod_node).

Lemma bound_node_run : reconcile two_containers pod_node = (Ok tt, bound_node).
Proof. apply run_is. vm_compute. reflexivity. Qed.

Lemma resolver_invariant_witness : node_inv pod_node.
Proof.
  apply (resolver_invariant (K := sample_kernel) linux_6_8 false new_node); [exact new_node_fresh|].
  apply (rtc_l _ _ policy_node); [|apply rtc_once; exact (handles_add (K := sample_kernel) linux_6_8 false side_pod policy_node)].
  refine (handles_reconcile (K := sample_kernel) linux_6_8 false two_containers new_node _).
  apply ids_left_small; [vm_compute; discriminate|vm_compute; lia].
Defined.

Lemma ReconcileWP_installs_witness :
  ∃ info, in_force two_containers Protect info pod_node bound_node.
Proof.
  destruct (ReconcileWP_installs (K := sample_kernel) linux_6_8 two_containers pod_node bound_node)
    as (mode & info & Hmode & Hin); [exact pod_node_inv|exact pod_node_ids|exact pod_node_own|exact bound_node_run|].
  exists info. injection Hmode as <-. exact Hin.
Defined.


(** The iteration over the cgroups is interrupted; after the retry the container is still
    bound to the deleted policy. *)
Lemma HandleWPDelete_retry_is_noop_witness :
  let n1 := snd (delete_wp interrupted_maps two_containers pod_node) in
  delete_wp working_maps two_containers n1 = (Ok tt, n1) ∧ policy_of n1 container_cgroup = Some 2 ∧
  wpState (n_resolver n1) = ∅.
Proof.
  intros n1. split_and!; [|vm_compute; reflexivity..].
  eapply (HandleWPDelete_retry_is_noop (K := sample_kernel) (BM := interrupted_maps) linux_6_8 two_containers pod_node
    "failed to iterate cgroup to policy map").
  refine (run_is (delete_wp interrupted_maps two_containers) pod_node (Err "failed to iterate cgroup to policy map") _).
  vm_compute. reflexivity.
Defined.

Lemma AddPodContainer_binds_witness :
  ∃ st, podCache (n_resolver pod_node) !! "p1" = Some st.
Proof.
  destruct (AddPodContainer_binds (K := sample_kernel) side_pod policy_node pod_node) as (st & Hst & _).
  - apply (run_is (start_pod side_pod)). vm_compute. reflexivity.
  - exists st. exact Hst.
Defined.


(** [/bin/sh] is on the allow-list of the container, so its exec is permitted. *)
Lemma reconciled_policy_enforced_witness :
  let K := sample_kernel in let L := x86_layout in
  fst (enforce_cgroup_policy sample_conf BPRM (n_bpf bound_node)) = 0.
Proof.
  intros K L.
  destruct (reconciled_policy_enforced (K := K) (L := L) sample_conf linux_6_8 two_containers pod_node bound_node
    side_container sh_rules BPRM bin_sh_path) as (mode & Hmode & s' & -> & _);
    [exact pod_node_inv|exact pod_node_ids|exact pod_node_own|exact bound_node_run|exact pod_node_selects
    |vm_compute; reflexivity| | |vm_compute; discriminate|reflexivity|].
  - repeat constructor; try lia; apply (bool_decide_unpack _); vm_compute; exact I.
  - exec_sample 2%nat (DENTRY 2) (rev bin_sh).
  - injection Hmode as <-. vm_compute. reflexivity.
Defined.
