(* ===== verification/Nri.v ===== *)
(** * The plugin of the container runtime

    [src/internal/nri/plugin.go] and [extract.go], and the synchronization flag of
    [src/internal/resolver/nri_api.go]: the events of the container runtime (Node Resource
    Interface, NRI), which the plugin turns into calls of the resolver.  The runtime does not
    start a container when [StartContainer] returns an error. *)
From S2P Require Import Prelude GoStd CLayout ProgramTypes KernelLayout Kernel ConcreteKernel StringMaps PolicyValues Names CgroupTracker CgroupInfo Events AgentMaps DPath Enforce EndToEnd Resolver ResolverSpec ResolverTheorems.
Local Open Scope Z_scope.

(** ** Objects of the runtime *)

Record PodSandbox := MkPodSandbox {
  ps_Id : string;
  ps_Uid : string;
  ps_Name : string;
  ps_Namespace : string;
  ps_Labels : gmap string string;
}.

(** [ct_CgroupsPath] is [None] without the Linux part of the container. *)
Record Container := MkContainer {
  ct_Id : string;
  ct_PodSandboxId : string;
  ct_Name : string;
  ct_CgroupsPath : option string;
}.

#[export] Instance Container_eq_dec : EqDecision Container.
Proof. solve_decision. Defined.

(** The getters of the messages return zero values on a nil pointer. *)
Definition nil_sandbox : PodSandbox := MkPodSandbox "" "" "" "" ∅.
Definition nil_container : Container := MkContainer "" "" "" None.

Definition podSandboxToPodMeta (pod : PodSandbox) (workloadName workloadKind : string) : PodMeta :=
  MkPodMeta (ps_Uid pod) (ps_Namespace pod) (ps_Name pod) workloadName workloadKind (ps_Labels pod).

(** The plugin, the resolver with its flag, and the error kept for the handler. *)
Record plugin := MkPlugin {
  p_node : node;
  nriSynchronized : bool;
  lastErr : go_error;
}.

Definition IsNRISynchronized (p : plugin) : bool := nriSynchronized p.

(** The readiness probe of the agent. *)
Definition Ping (p : plugin) : go_error :=
  if nriSynchronized p then None else Some "waiting for NRI synchronization to complete".

Section plugin.
  Context `{K : Kernel, B : Ebpf, BM : EbpfMap, R : GoRange, H : HostFs}.
  (** The directories below a cgroup. *)
  Context (cgroup_tree : string → cgroup_path) (isShuttingDown failOpen : bool).

Definition cgroupFromContainer (container : option Container) : go_result (Z * string) :=
  match container with
  | None => Err "received empty container"
  | Some container =>
      match ct_CgroupsPath container with
      | None => Err "received container without Linux info"
      | Some cgroupsPath =>
          match ParseCgroupsPath cgroupsPath with
          | Ok parsedPath =>
              match GetCgroupResolutionPrefix with
              | Ok cgRoot =>
                  let path := path_Join cgRoot parsedPath in
                  match GetCgroupIDFromPath path with
                  | Ok cgroupID => Ok (cgroupID, path)
                  | _ => Err "failed to get cgroup ID"
                  end
              | Err e => Err e
              | Panic e => Panic e
              end
          | _ => Err "failed to parse cgroup path"
          end
      end
  end.

Definition getWorkloadInfoAndLog (pod : PodSandbox) : go_result (string * string) :=
  match GetTruncatedWorkloadInfo (ps_Name pod) (ps_Labels pod) with
  | Ok (workloadName, workloadKind, _) => Ok (workloadName, workloadKind)
  | Err e => Err e
  | Panic e => Panic e
  end.

(** ** Synchronization *)

Abbreviation sandboxes := (gmap string (gmap string ContainerInput)).

(** The first loop: the containers by sandbox. *)
Fixpoint collect (containers : list (option Container)) (tmp : sandboxes) : go_result sandboxes :=
  match containers with
  | [] => Ok tmp
  | container :: containers' =>
      match cgroupFromContainer container with
      | Ok (cgroupID, cgroupPath) =>
          let c := default nil_container container in
          let input := MkContainerInput (MkContainerMeta (ct_Id c) (ct_Name c) cgroupID)
                         (cgroup_tree cgroupPath) in
          collect containers'
            (<[ct_PodSandboxId c := <[ct_Id c := input]> (default ∅ (tmp !! ct_PodSandboxId c))]> tmp)
      | Err e => Err e
      | Panic e => Panic e
      end
  end.

(** The second loop: the pods that have containers. *)
Fixpoint add_pods (pods : list (option PodSandbox)) (tmp : sandboxes) : gom unit :=
  match pods with
  | [] => mret tt
  | None :: pods' => add_pods pods' tmp
  | Some pod :: pods' =>
      match tmp !! ps_Id pod with
      | None => add_pods pods' tmp
      | Some containers =>
          '(workloadName, workloadKind) ← lift (getWorkloadInfoAndLog pod);
          AddPodContainerFromNri isShuttingDown
            (MkPodInput (podSandboxToPodMeta pod workloadName workloadKind) containers) ;;
          add_pods pods' tmp
      end
  end.

Definition Synchronize (pods : list (option PodSandbox)) (containers : list (option Container))
  (p : plugin) : go_result unit * plugin :=
  match collect containers ∅ with
  | Ok tmp =>
      match add_pods pods tmp (p_node p) with
      | (Ok _, n) => (Ok tt, MkPlugin n true (lastErr p))
      | (Err e, n) => (Err e, MkPlugin n (nriSynchronized p) (lastErr p))
      | (Panic e, n) => (Panic e, MkPlugin n (nriSynchronized p) (lastErr p))
      end
  | Err e => (Err e, MkPlugin (p_node p) (nriSynchronized p) (Some e))
  | Panic e => (Panic e, p)
  end.

(** ** Containers *)

(** [handleError] of [StartContainer]. *)
Definition handleError (n : node) : go_result unit * node :=
  if failOpen then (Ok tt, n)
  else (Err "runtime-enforcer has prevented the container from starting", n).

Definition start_input (pod : PodSandbox) (workloadName workloadKind : string) (c : Container) (cgroupID : Z)
  : PodInput :=
  MkPodInput (podSandboxToPodMeta pod workloadName workloadKind)
    {[ ct_Id c := MkContainerInput (MkContainerMeta (ct_Id c) (ct_Name c) cgroupID) EmptyPath ]}.

Definition StartContainer (pod : option PodSandbox) (container : option Container) (n : node)
  : go_result unit * node :=
  let pod := default nil_sandbox pod in
  let c := default nil_container container in
  match cgroupFromContainer container with
  | Ok (cgroupID, _) =>
      match getWorkloadInfoAndLog pod with
      | Ok (workloadName, workloadKind) =>
          match AddPodContainerFromNri isShuttingDown (start_input pod workloadName workloadKind c cgroupID) n with
          | (Ok _, n') => (Ok tt, n')
          | (Err _, n') => handleError n'
          | (Panic e, n') => (Panic e, n')
          end
      | Err e => (Err e, n)
      | Panic e => (Panic e, n)
      end
  | Err _ => handleError n
  | Panic e => (Panic e, n)
  end.

(** An error of the resolver is logged. *)
Definition RemoveContainer (pod : option PodSandbox) (container : option Container) (n : node)
  : go_result unit * node :=
  match RemovePodContainerFromNri isShuttingDown (ps_Uid (default nil_sandbox pod))
          (ct_Id (default nil_container container)) n with
  | (Panic e, n') => (Panic e, n')
  | (_, n') => (Ok tt, n')
  end.
End plugin.

(** ** What the events keep *)

(** Policies, their entries in the maps and the bindings of cgroups stay, and the entries of
    the cached pods only gain containers. *)
Record grows (n n' : node) : Prop := {
  gr_wp : wpState (n_resolver n') = wpState (n_resolver n);
  gr_bpf : bpf_frame nothing (λ _, True) (n_bpf n) (n_bpf n');
  gr_keep : cgmap n ⊆ cgmap n';
  gr_pods id st : podCache (n_resolver n) !! id = Some st → ∃ st',
    podCache (n_resolver n') !! id = Some st' ∧ pod_meta st' = pod_meta st ∧
    pod_containers st ⊆ pod_containers st';
}.

#[export] Instance grows_preorder : PreOrder grows.
Proof.
  split.
  - intros n. split; [done..|]. intros id st Hst. by exists st.
  - intros n1 n2 n3 [A1 A2 A3 A4] [B1 B2 B3 B4]. split; [congruence|by etrans|by etrans|].
    intros id st (st1 & H1 & M1 & S1)%A4. apply B4 in H1 as (st2 & H2 & M2 & S2).
    exists st2. split_and!; [done|congruence|by etrans].
Qed.

(** Policies and their entries in the maps stay. *)
Definition keeps_policies (n n' : node) : Prop :=
  wpState (n_resolver n') = wpState (n_resolver n) ∧ bpf_frame nothing (λ _, True) (n_bpf n) (n_bpf n').

#[export] Instance keeps_policies_preorder : PreOrder keeps_policies.
Proof.
  split; [done|]. intros n1 n2 n3 [A1 A2] [B1 B2]. split; [congruence|by etrans].
Qed.

Section frames.
  Context `{K : Kernel, B : Ebpf, BM : EbpfMap, R : GoRange, !GoRangeOk R} (sd : bool).

Lemma grows_pods n n' id st st' :
  wpState (n_resolver n') = wpState (n_resolver n) → n_bpf n' = n_bpf n →
  podCache (n_resolver n') = <[id := st']> (podCache (n_resolver n)) →
  podCache (n_resolver n) !! id = None ∨
    podCache (n_resolver n) !! id = Some st ∧ pod_meta st' = pod_meta st ∧ pod_containers st ⊆ pod_containers st' →
  grows n n'.
Proof.
  intros Hw Hb Hp Hst. split; [done|by rewrite Hb|unfold cgmap; by rewrite Hb|].
  intros id' e He. rewrite Hp. destruct (decide (id' = id)) as [->|].
  - rewrite lookup_insert_eq. destruct Hst as [Hn|(Hs & Hm & Hc)]; [congruence|].
    assert (e = st) as -> by congruence. by exists st'.
  - rewrite lookup_insert_ne by done. by exists e.
Qed.

Lemma cgTracker_grows cg path n res n' :
  cgTrackerUpdateFunc sd cg path n = (res, n') → grows n n' ∧ podCache (n_resolver n') = podCache (n_resolver n).
Proof.
  intros [Hr Hf]%cgTracker_run. split; [|by rewrite Hr]. split; [by rewrite Hr|by eapply bpf_frame_mono, Hf| |].
  - apply map_subseteq_spec. intros cg' q Hq. unfold cgmap. by rewrite (bf_cg _ _ _ _ Hf) by (intros []).
  - intros id st Hst. rewrite Hr. by exists st.
Qed.

Lemma add_containers_grows podID cached l st n res n' :
  add_containers sd podID cached l st n = (res, n') →
  podCache (n_resolver n) !! podID = (if cached then Some st else None) →
  grows n n' ∧ ∀ st', res = Ok st' → podCache (n_resolver n') !! podID = (if cached then Some st' else None).
Proof.
  revert st n. induction l as [|[cid ci] l IH]; intros st n H Hst; cbn [add_containers] in H.
  { injection H as <- <-. split; [done|]. by intros st' [= <-]. }
  destruct (pod_containers st !! cid) as [cm|] eqn:Hc.
  { destruct (_ && _); [eauto|by injection H as <- <-]. }
  set (st1 := MkPodEntry _ _) in H. unfold mbind, gom_bind in H.
  match type of H with context [(if cached then ?a else ?b) n] =>
    destruct ((if cached then a else b) n) as [r0 n0] eqn:H0
  end.
  assert (r0 = Ok tt ∧ grows n n0 ∧ podCache (n_resolver n0) !! podID = (if cached then Some st1 else None))
    as (-> & G0 & P0).
  { destruct cached; injection H0 as <- <-; [|by split_and!]. split_and!; [done| |apply lookup_insert_eq].
    eapply (grows_pods n _ podID st st1); [done..|]. right. split_and!; [done..|]. by apply insert_subseteq. }
  cbn [update] in H. set (n0' := MkNode _ (n_bpf n0)) in H.
  assert (grows n0 n0') as G0'. { split; [done..|]. intros id e He. by exists e. }
  destruct (cgTrackerUpdateFunc _ _ _ _) as [r1 n1] eqn:H1.
  apply cgTracker_grows in H1 as [G1 P1].
  assert (grows n n1) as G by (etrans; [exact G0|etrans; [exact G0'|exact G1]]).
  destruct r1 as [[]|e|e]; [|by injection H as <- <-..].
  destruct (IH _ _ H) as [G2 Hok]; [by rewrite P1|]. split; [by etrans|done].
Qed.

Lemma AddPodContainer_grows pod n res n' :
  AddPodContainerFromNri sd pod n = (res, n') → grows n n'.
Proof.
  unfold AddPodContainerFromNri, mbind, gom_bind. cbn [resolver].
  set (cached := match podCache _ !! _ with Some _ => true | None => false end).
  set (st := default _ _). destruct (add_containers _ _ _ _ _ _) as [[st'|e|e] n1] eqn:Ha; intros H;
    pose proof Ha as Hrun; apply add_containers_grows in Ha as [G1 P1];
    try (subst cached st; by destruct (podCache (n_resolver n) !! _));
    [|by injection H as <- <-..].
  apply add_containers_run in Hrun as [_ Hrun]. destruct (Hrun _ eq_refl) as (Hm & Hsub & _).
  cbn [update] in H. set (n2 := MkNode _ (n_bpf n1)) in H.
  assert (grows n1 n2) as G2.
  { apply (grows_pods n1 n2 (PodMeta_ID (PodInput_Meta pod)) st' st'); [done..|].
    rewrite (P1 _ eq_refl). subst cached. by destruct (podCache (n_resolver n) !! _); [right|left]. }
  trans n1; [done|]. trans n2; [done|].
  apply applyIfPresent_run in H as [[-> _]|(info & _ & H)]; [done|]. apply apply_run in H as [A1 A2 A3 _].
  split; [by rewrite A1|by eapply bpf_frame_mono, A2|done|]. intros id e He. rewrite A1. by exists e.
Qed.

Lemma RemovePodContainer_keeps podID cID n res n' :
  RemovePodContainerFromNri sd podID cID n = (res, n') → keeps_policies n n'.
Proof. by intros (Hw & _ & Hf & _)%remove_pod_run. Qed.

Lemma grows_keeps n n' : grows n n' → keeps_policies n n'.
Proof. by intros [? ? _ _]. Qed.
End frames.

(** A policy that is installed stays installed while its entry in the maps does. *)
Lemma installed_frame s s' pid pol :
  installed s pid pol → policy_entry s' pid = policy_entry s pid → installed s' pid pol.
Proof.
  intros [H1 H2] He. pose proof (f_equal fst He) as E1. pose proof (f_equal snd He) as E2. cbn in E1, E2.
  split; [congruence|]. intros i Hi. destruct (H2 i Hi) as (m & Hm & Hv).
  apply (f_equal (lookup i)) in E2. unfold maps_entry in E2. rewrite !list_lookup_fmap, Hm in E2.
  destruct (pol_str_maps s' !! i) as [m'|]; [|done]. cbn in E2. injection E2 as E2.
  exists m'. split; [done|]. by rewrite E2.
Qed.

(** ** The events of the runtime as steps *)

Section events.
  Context `{K : Kernel, B : Ebpf, BM : EbpfMap, R : GoRange, !GoRangeOk R, H : HostFs}.
  Context (cgroup_tree : string → cgroup_path).

(** The events the runtime sends; the node is changed also when the plugin returns an error. *)
Inductive nri_event : plugin → plugin → Prop :=
  | event_synchronize sd pods containers p :
      nri_event p (snd (Synchronize cgroup_tree sd pods containers p))
  | event_start sd failOpen pod container p :
      nri_event p (MkPlugin (snd (StartContainer sd failOpen pod container (p_node p))) (nriSynchronized p) (lastErr p))
  | event_remove sd pod container p :
      nri_event p (MkPlugin (snd (RemoveContainer sd pod container (p_node p))) (nriSynchronized p) (lastErr p)).

Lemma add_pods_grows sd pods tmp n res n' : add_pods sd pods tmp n = (res, n') → grows n n'.
Proof.
  revert n. induction pods as [|[pod|] pods IH]; intros n Hr; cbn [add_pods] in Hr; [by injection Hr as <- <-| |eauto].
  destruct (tmp !! ps_Id pod) as [cs|]; [|eauto]. unfold mbind, gom_bind, lift in Hr.
  destruct (getWorkloadInfoAndLog pod) as [[name kind]|e|e]; [|by injection Hr as <- <-..].
  destruct (AddPodContainerFromNri _ _ _) as [r1 n1] eqn:Ha. apply AddPodContainer_grows in Ha.
  destruct r1; [|by injection Hr as <- <-..]. etrans; eauto.
Qed.

Lemma StartContainer_grows sd failOpen pod container n res n' :
  StartContainer sd failOpen pod container n = (res, n') → grows n n'.
Proof.
  unfold StartContainer, handleError. destruct (cgroupFromContainer container) as [[cg path]|e|e];
    [|destruct failOpen; by intros [= <- <-]|by intros [= <- <-]].
  destruct (getWorkloadInfoAndLog _) as [[name kind]|e|e]; [|by intros [= <- <-]..].
  destruct (AddPodContainerFromNri _ _ _) as [r1 n1] eqn:Ha. apply AddPodContainer_grows in Ha.
  destruct r1; [|destruct failOpen|]; by intros [= <- <-].
Qed.

Lemma nri_event_keeps p p' : nri_event p p' → keeps_policies (p_node p) (p_node p').
Proof.
  intros [sd pods cs q|sd fo pod c q|sd pod c q].
  - unfold Synchronize. destruct (collect _ _ _) as [tmp|e|e]; [|done..].
    destruct (add_pods _ _ _ _) as [[]n'] eqn:Ha; apply grows_keeps; by eapply add_pods_grows.
  - destruct (StartContainer _ _ _ _ _) as [r n'] eqn:Hs. by eapply grows_keeps, StartContainer_grows.
  - unfold RemoveContainer. cbn [p_node].
    destruct (RemovePodContainerFromNri _ _ _ _) as [r n'] eqn:Hr. apply RemovePodContainer_keeps in Hr. by destruct r.
Qed.

Lemma nri_events_keep p p' : rtc nri_event p p' → keeps_policies (p_node p) (p_node p').
Proof. induction 1 as [|p1 p2 p3 He _ IH]; [done|]. etrans; [by apply nri_event_keeps|done]. Qed.

(** ** Starting a container *)

(** The container [c] of [pod] is cached with its cgroup, and bound to the policy its pod is
    labelled with, if any. *)
Definition covered (pod : PodSandbox) (c : Container) (n : node) : Prop :=
  ∃ cg path st cm, cgroupFromContainer (Some c) = Ok (cg, path) ∧
    podCache (n_resolver n) !! ps_Uid pod = Some st ∧ pod_containers st !! ct_Id c = Some cm ∧
    ContainerMeta_CgroupID cm = cg ∧ ContainerMeta_Name cm = ct_Name c ∧
    (policyName st = "" ∨
     ∃ info, wpState (n_resolver n) !! (podNamespace st ++ "/" ++ policyName st)%string = Some info ∧
       ∀ pid, polByContainer info !! ct_Name c = Some pid → policy_of n cg = Some pid).

Lemma covered_grows pod c n n' : covered pod c n → grows n n' → covered pod c n'.
Proof.
  intros (cg & path & st & cm & Hcg & Hst & Hcm & Hid & Hname & Hpol) [G1 G2 G3 G4].
  apply G4 in Hst as (st' & Hst' & Hm & Hsub). exists cg, path, st', cm.
  split_and!; [done|done|by eapply lookup_weaken|done|done|].
  unfold policyName, podNamespace in *. rewrite Hm, G1. destruct Hpol as [?|(info & Hi & Hb)]; [by left|right].
  exists info. split; [done|]. intros pid Hp. by eapply lookup_weaken; [apply Hb|].
Qed.

(** What a successful [AddPodContainerFromNri] establishes for one of its containers. *)
Lemma AddPodContainer_covers pod c name kind containers cg path tree n n' :
  AddPodContainerFromNri false (MkPodInput (podSandboxToPodMeta pod name kind) containers) n = (Ok tt, n') →
  cgroupFromContainer (Some c) = Ok (cg, path) →
  containers !! ct_Id c = Some (MkContainerInput (MkContainerMeta (ct_Id c) (ct_Name c) cg) tree) →
  covered pod c n'.
Proof.
  intros Ha Hcg Hc. apply add_run in Ha as [[_ Ha]|(st & n1 & _ & Hst & _ & Hall & Ha)]; [done|].
  destruct (Hall _ _ Hc) as (cm & Hcm & Hid & Hname). cbn in Hst, Hid, Hname.
  exists cg, path, st, cm. apply applyIfPresent_run in Ha as [[-> [He|He]]|(info & Hi & Ha)]; [|done|].
  { split_and!; [done..|by left]. }
  pose proof (ap_res _ _ _ _ (apply_run _ _ _ _ _ _ Ha)) as Hr. rewrite Hr.
  split_and!; [done..|]. right. exists info. split; [done|]. intros pid Hp. rewrite <- Hid.
  eapply apply_ok; [done|done|done|]. by rewrite Hname.
Qed.

Lemma StartContainer_covers pod c n n' :
  StartContainer false false (Some pod) (Some c) n = (Ok tt, n') → covered pod c n'.
Proof.
  unfold StartContainer, handleError. destruct (cgroupFromContainer (Some c)) as [[cg path]|e|e] eqn:Hcg; [|done..].
  change (default nil_sandbox (Some pod)) with pod. change (default nil_container (Some c)) with c.
  destruct (getWorkloadInfoAndLog pod) as [[name kind]|e|e]; [|done..].
  destruct (AddPodContainerFromNri _ _ _) as [r1 n1] eqn:Ha. destruct r1 as [[]|e|e]; [|done..].
  intros [= <-]. eapply AddPodContainer_covers; [done..|]. apply lookup_singleton_eq.
Qed.

(** The entry of the pod keeps the metadata with which the pod was first cached. *)
Lemma StartContainer_meta sd failOpen pod c n n' st :
  StartContainer sd failOpen (Some pod) (Some c) n = (Ok tt, n') →
  podCache (n_resolver n') !! ps_Uid pod = Some st →
  (∀ e, podCache (n_resolver n) !! ps_Uid pod = Some e → pod_meta st = pod_meta e) ∧
  (podCache (n_resolver n) !! ps_Uid pod = None → failOpen = false →
     ∃ name kind, pod_meta st = podSandboxToPodMeta pod name kind).
Proof.
  intros Hs Hst. split.
  { intros e He. apply StartContainer_grows in Hs. apply (gr_pods _ _ Hs) in He as (st' & Hst' & Hm & _). congruence. }
  intros Hnone ->. revert Hs. unfold StartContainer, handleError.
  destruct (cgroupFromContainer (Some c)) as [[cg path]|e|e]; [|done..].
  change (default nil_sandbox (Some pod)) with pod. change (default nil_container (Some c)) with c.
  destruct (getWorkloadInfoAndLog pod) as [[name kind]|e|e]; [|done..].
  destruct (AddPodContainerFromNri _ _ _) as [r1 n1] eqn:Ha. destruct r1 as [[]|e|e]; [|done..].
  intros [= <-]. apply add_run in Ha as [[_ Ha]|(st' & n2 & _ & Hst' & Hm & _ & Ha)]; [done|].
  cbn in Hst', Hm. rewrite Hnone in Hm.
  change (pod_meta st' = podSandboxToPodMeta pod name kind) in Hm. exists name, kind.
  apply applyIfPresent_run in Ha as [[-> _]|(info & _ & Ha)]; [congruence|].
  apply apply_run, ap_res in Ha. rewrite Ha in Hst. congruence.
Qed.

Lemma start_matches n n' pod c st name namespace :
  StartContainer false false (Some pod) (Some c) n = (Ok tt, n') →
  podCache (n_resolver n') !! ps_Uid pod = Some st →
  ps_Namespace pod = namespace → ps_Labels pod !! PolicyLabelKey = Some name →
  (∀ e, podCache (n_resolver n) !! ps_Uid pod = Some e → matchPolicy e name namespace = true) →
  policyName st = name ∧ podNamespace st = namespace.
Proof.
  intros Hs Hst <- Hl Hc. destruct (StartContainer_meta _ _ _ _ _ _ _ Hs Hst) as [Hold Hnew].
  unfold policyName, podNamespace. destruct (podCache (n_resolver n) !! ps_Uid pod) as [e|] eqn:He.
  - rewrite (Hold e eq_refl). specialize (Hc e eq_refl). unfold matchPolicy in Hc.
    by apply andb_true_iff in Hc as [?%String.eqb_eq ?%String.eqb_eq].
  - destruct (Hnew eq_refl eq_refl) as (wn & wk & ->). cbn. by rewrite Hl.
Qed.
End events.

(** ** From the start of a container to the exec hook *)

Section end_to_end.
  Context `{K : Kernel, L : KernelLayout, !KernelOk K, B : Ebpf, BM : EbpfMap, R : GoRange, !GoRangeOk R, H : HostFs}.
  Context (cgroup_tree : string → cgroup_path) (conf : load_conf) (ver : Z).

(** A policy that is in force after a reconciliation is still recorded and installed after
    events of the runtime. *)
Lemma in_force_kept wp mode info n n1 n2 c rules :
  in_force wp mode info n n1 → keeps_policies n1 n2 → wp_RulesByContainer wp !! c = Some rules →
  wpState (n_resolver n2) !! NamespacedName wp = Some info ∧
  ∃ pid, polByContainer info !! c = Some pid ∧ installed (n_bpf n2) pid (asked mode rules).
Proof.
  intros Hin [Hw Hf] Hr. rewrite Hw. split; [apply (fo_info _ _ _ _ _ Hin)|].
  destruct (fo_rules _ _ _ _ _ Hin _ _ Hr) as (pid & Hp & Hinst & _). exists pid. split; [done|].
  eapply installed_frame; [done|]. apply (bf_entry _ _ _ _ Hf). by intros [].
Qed.

(** C6: containers run under their policy from the start.  A policy is reconciled without
    error; then the runtime sends any events; then it starts a container of a pod with the
    label of the policy, and the plugin, which is not configured to fail open, lets it start.
    Every exec in the container is then decided by the rules of the policy for the container
    and its mode, and reported accordingly (for paths of at most 4094 bytes whose length is
    not between 121 and 144).  A pod that is cached already has to be cached with that label:
    later changes of the labels of a pod are not seen. *)
Theorem started_container_enforced wp n n1 flag err p2 pod c n3 cg path rules bprm p :
  node_inv n → ids_left wp n → own_cgroups (n_resolver n) →
  ReconcileWP ver false wp n = (Ok tt, n1) →
  rtc (nri_event cgroup_tree) (MkPlugin n1 flag err) p2 →
  StartContainer false false (Some pod) (Some c) (p_node p2) = (Ok tt, n3) →
  ps_Namespace pod = wp_Namespace wp → ps_Labels pod !! PolicyLabelKey = Some (wp_Name wp) → wp_Name wp ≠ "" →
  (∀ e, podCache (n_resolver (p_node p2)) !! ps_Uid pod = Some e →
     matchPolicy e (wp_Name wp) (wp_Namespace wp) = true) →
  wp_RulesByContainer wp !! ct_Name c = Some rules → policy_ok (asked Monitor rules) →
  cgroupFromContainer (Some c) = Ok (cg, path) →
  tracked_exec conf (n_bpf n3) bprm cg p →
  Z.of_nat (length p) <= 4094 → same_bucket_len (Z.of_nat (length p)) = true →
  ∃ mode, ParseMode (wp_Mode wp) = Ok mode ∧
    let foreign := exec_is_foreign_root bprm in
    let d := exec_decision (asked mode rules) foreign p in
    ∃ s', enforce_cgroup_policy conf bprm (n_bpf n3) = (decision_code d, s') ∧
      reports (n_bpf n3) d (MkProcessEvent cg p (Mode_String mode) foreign) s'.
Proof.
  intros I Hleft Hown Hrec Hev Hstart Hns Hlab Hne Hcached Hrules Hok Hcg Hexec Hlen Hb.
  destruct (reconcile_in_force _ _ _ _ _ I Hleft Hown eq_refl Hrec) as (mode & info & Hmode & Hin).
  exists mode. split; [done|]. cbv zeta. apply nri_events_keep in Hev. cbn [p_node] in Hev.
  pose proof (grows_keeps _ _ (StartContainer_grows _ _ _ _ _ _ _ Hstart)) as Hk3.
  destruct (in_force_kept wp mode info n n1 n3 (ct_Name c) rules) as (Hwp & pid & Hpid & Hinst); [done|by etrans|done|].
  destruct (StartContainer_covers pod c _ _ Hstart) as (cg' & path' & st & cm & Hcg' & Hst & _ & _ & _ & Hpol).
  assert (cg' = cg) as -> by congruence.
  assert (policyName st = wp_Name wp ∧ podNamespace st = wp_Namespace wp) as [Hpn Hpns].
  { eapply (start_matches (p_node p2)); done. }
  destruct Hpol as [He|(info' & Hi & Hbound)]; [congruence|].
  rewrite Hpn, Hpns in Hi. unfold NamespacedName in Hwp. rewrite Hwp in Hi. injection Hi as <-.
  rewrite <- visible_decision by done.
  destruct (enforce_run conf (n_bpf n3) bprm _ p Hexec Hlen pid (asked mode rules))
    as (s' & Hrun & _ & Hrep); [by apply Hbound|done|done|]. by exists s'.
Qed.
End end_to_end.

(** ** Synchronization *)

Section synchronize.
  Context `{K : Kernel, B : Ebpf, BM : EbpfMap, R : GoRange, !GoRangeOk R, H : HostFs}.
  Context (cgroup_tree : string → cgroup_path).

(** The container is in the table of the sandboxes. *)
Definition collected (c : Container) (tmp : gmap string (gmap string ContainerInput)) : Prop :=
  ∃ cg path cs, cgroupFromContainer (Some c) = Ok (cg, path) ∧ tmp !! ct_PodSandboxId c = Some cs ∧
    cs !! ct_Id c = Some (MkContainerInput (MkContainerMeta (ct_Id c) (ct_Name c) cg) (cgroup_tree path)).

(** The ids of containers are unique in a sandbox. *)
Definition unique_ids (containers : list (option Container)) : Prop :=
  ∀ c c', Some c ∈ containers → Some c' ∈ containers →
    ct_PodSandboxId c = ct_PodSandboxId c' → ct_Id c = ct_Id c' → c = c'.

Lemma collected_insert c c' cg path tmp :
  cgroupFromContainer (Some c') = Ok (cg, path) →
  (ct_PodSandboxId c = ct_PodSandboxId c' → ct_Id c = ct_Id c' → c = c') →
  collected c tmp ∨ c = c' →
  collected c (<[ct_PodSandboxId c' :=
    <[ct_Id c' := MkContainerInput (MkContainerMeta (ct_Id c') (ct_Name c') cg) (cgroup_tree path)]>
      (default ∅ (tmp !! ct_PodSandboxId c'))]> tmp).
Proof.
  intros Hcg Huniq Hc. destruct (decide (c = c')) as [->|Hne].
  { eexists cg, path, _. split; [done|]. split; [apply lookup_insert_eq|apply lookup_insert_eq]. }
  destruct Hc as [(cg0 & path0 & cs & Hcg0 & Hcs & Hin)|?]; [|done].
  destruct (decide (ct_PodSandboxId c' = ct_PodSandboxId c)) as [Hs|Hs].
  - eexists cg0, path0, _. split; [done|]. rewrite Hs, lookup_insert_eq, Hcs. split; [done|].
    cbn. rewrite lookup_insert_ne; [done|]. intros Hid. apply Hne. by apply Huniq.
  - exists cg0, path0, cs. by rewrite lookup_insert_ne.
Qed.

Lemma collect_spec containers tmp tmp' c :
  collect cgroup_tree containers tmp = Ok tmp' →
  (∀ c', Some c' ∈ containers → ct_PodSandboxId c = ct_PodSandboxId c' → ct_Id c = ct_Id c' → c = c') →
  Some c ∈ containers ∨ collected c tmp → collected c tmp'.
Proof.
  revert tmp. induction containers as [|co containers IH]; intros tmp Hc Huniq Hin; cbn [collect] in Hc.
  { injection Hc as <-. by destruct Hin as [?%elem_of_nil|?]. }
  destruct (cgroupFromContainer co) as [[cg path]|e|e] eqn:Hcg; [|done..].
  destruct co as [c'|]; [|done]. cbn in Hc. apply IH in Hc; [done| |].
  - intros c0 Hc0. apply Huniq. by right.
  - destruct Hin as [[Heq|Hin]%elem_of_cons|Hin]; [|by left|];
      right; apply collected_insert; [done|apply Huniq; by left|right; congruence|done|apply Huniq; by left|by left].
Qed.

Lemma add_pods_ok pods tmp n n' pod c :
  add_pods false pods tmp n = (Ok tt, n') → Some pod ∈ pods → collected c tmp →
  ct_PodSandboxId c = ps_Id pod → covered pod c n'.
Proof.
  revert n. induction pods as [|[pod'|] pods IH]; intros n Hr Hin Hc Hs; [by apply elem_of_nil in Hin| |].
  2: { apply elem_of_cons in Hin as [?|Hin]; [done|]. by eapply IH. }
  cbn [add_pods] in Hr. apply elem_of_cons in Hin as [[= <-]|Hin].
  - destruct Hc as (cg & path & cs & Hcg & Hcs & Hin). rewrite <- Hs, Hcs in Hr.
    unfold mbind, gom_bind, lift in Hr.
    destruct (getWorkloadInfoAndLog pod) as [[name kind]|e|e]; [|done..].
    destruct (AddPodContainerFromNri _ _ _) as [[[]|e|e] n1] eqn:Ha; [|done..].
    eapply covered_grows; [|by eapply add_pods_grows]. by eapply AddPodContainer_covers.
  - destruct (tmp !! ps_Id pod') as [cs|]; [|by eapply IH]. unfold mbind, gom_bind, lift in Hr.
    destruct (getWorkloadInfoAndLog pod') as [[name kind]|e|e]; [|done..].
    destruct (AddPodContainerFromNri _ _ _) as [[[]|e|e] n1]; [|done..]. by eapply IH.
Qed.

(** C10: the agent reports ready to the runtime's side only when it covers what runs.  When
    [Synchronize] succeeds, every container of the runtime's list whose pod is in the list is
    cached with its cgroup and bound to the policy of its pod, and the readiness check passes;
    when it does not succeed, the check is as it was. *)
Theorem Synchronize_complete pods containers p res p' :
  unique_ids containers →
  Synchronize cgroup_tree false pods containers p = (res, p') →
  (res = Ok tt → Ping p' = None ∧ ∀ pod c, Some pod ∈ pods → Some c ∈ containers →
     ct_PodSandboxId c = ps_Id pod → covered pod c (p_node p')) ∧
  (res ≠ Ok tt → Ping p' = Ping p).
Proof.
  unfold Synchronize. intros Huniq. destruct (collect _ _ _) as [tmp|e|e] eqn:Hc; [|by intros [= <- <-]..].
  destruct (add_pods _ _ _ _) as [[[]|e|e] n'] eqn:Ha; intros [= <- <-]; [|done..].
  split; [|done]. intros _. split; [done|]. intros pod c Hpod Hcon Hs. cbn [p_node].
  eapply add_pods_ok; [done|done| |done]. eapply collect_spec; [done| |by left].
  intros c' Hc' H1 H2. by apply Huniq.
Qed.

(** No error of the loop over the containers is a panic. *)
Lemma cgTracker_no_panic sd cg path n e n' : cgTrackerUpdateFunc sd cg path n ≠ (Panic e, n').
Proof.
  unfold cgTrackerUpdateFunc, bpf_op. destruct (UpdateCgTrackerMap _ _ _) as [err m].
  by destruct (handleErrOnShutdown sd err).
Qed.

Lemma add_containers_no_panic sd podID cached l st n e n' : add_containers sd podID cached l st n ≠ (Panic e, n').
Proof.
  revert st n. induction l as [|[cid ci] l IH]; intros st n Hr; cbn [add_containers] in Hr; [done|].
  destruct (pod_containers st !! cid); [destruct (_ && _); [exact (IH _ _ Hr)|done]|].
  unfold mbind, gom_bind in Hr. destruct cached; cbn [mret gom_ret update] in Hr;
    destruct (cgTrackerUpdateFunc _ _ _ _) as [[[]|e1|e1] n1] eqn:Ht;
    first [exact (IH _ _ Hr)|by apply cgTracker_no_panic in Ht|done].
Qed.

Lemma add_unknown sd pod n res n' :
  AddPodContainerFromNri sd pod n = (res, n') →
  podCache (n_resolver n) !! PodMeta_ID (PodInput_Meta pod) = None →
  policyName (convertPodData pod) ≠ "" →
  wpState (n_resolver n) !! (podNamespace (convertPodData pod) ++ "/" ++ policyName (convertPodData pod))%string = None →
  cgmap n' = cgmap n ∧ ∃ e, res = Err e.
Proof.
  intros Ha Hnone Hne Hunk. pose proof Ha as Hrun. revert Ha. unfold AddPodContainerFromNri, mbind, gom_bind. cbn [resolver].
  rewrite Hnone. cbn [default from_option].
  destruct (add_containers _ _ _ _ _ _) as [[st|e|e] n1] eqn:Hc.
  - apply add_containers_run in Hc as [[Hw _ Hf] Hok]. destruct (Hok _ eq_refl) as (Hm & _).
    unfold applyPolicyToPodIfPresent, update, resolver, mbind, gom_bind, policyName, podNamespace, fail in *. rewrite Hm.
    destruct (String.eqb_spec (default "" (PodMeta_Labels (pod_meta (convertPodData pod)) !! PolicyLabelKey)) "") as [He|_]; [done|].
    cbn [n_resolver set_podCache wpState]. rewrite Hw, Hunk. intros [= <- <-]. split; [|by eexists].
    apply map_eq. intros cg. exact (bf_cg _ _ _ _ Hf cg (λ H, H)).
  - intros [= <- <-]. apply add_containers_run in Hc as [[_ _ Hf] _]. split; [|by eexists].
    apply map_eq. intros cg. exact (bf_cg _ _ _ _ Hf cg (λ H, H)).
  - by apply add_containers_no_panic in Hc.
Qed.

(** A pod that is labelled with a policy the agent does not have.  The start of its
    containers fails, or, when the plugin is configured to fail open, they start unbound: no
    binding of a cgroup is added. *)
Theorem StartContainer_unknown_policy sd failOpen pod c n :
  (∃ cg path, cgroupFromContainer (Some c) = Ok (cg, path)) →
  (∃ name kind, getWorkloadInfo (ps_Name pod) (ps_Labels pod) = Ok (name, kind)) →
  default "" (ps_Labels pod !! PolicyLabelKey) ≠ "" → podCache (n_resolver n) !! ps_Uid pod = None →
  wpState (n_resolver n) !! (ps_Namespace pod ++ "/" ++ default "" (ps_Labels pod !! PolicyLabelKey))%string = None →
  ∃ n', StartContainer sd failOpen (Some pod) (Some c) n =
      (if failOpen then Ok tt else Err "runtime-enforcer has prevented the container from starting", n') ∧
    cgmap n' = cgmap n.
Proof.
  intros (cg & path & Hcg) (name & kind & Hw) Hne Hnone Hunk.
  unfold StartContainer, handleError. rewrite Hcg. change (default nil_sandbox (Some pod)) with pod.
  change (default nil_container (Some c)) with c.
  unfold getWorkloadInfoAndLog, GetTruncatedWorkloadInfo. rewrite Hw.
  destruct (AddPodContainerFromNri _ _ _) as [res n'] eqn:Ha. exists n'.
  assert (cgmap n' = cgmap n ∧ ∃ e, res = Err e) as [Hg [e ->]].
  { apply (add_unknown _ _ _ _ _ Ha); done. }
  split; [|done]. by destruct failOpen.
Qed.
(** ** Tracking of started containers *)

Definition same_tracker (n n' : node) : Prop := cgtracker_map (n_bpf n') = cgtracker_map (n_bpf n).
#[local] Instance same_tracker_preorder : PreOrder same_tracker.
Proof. split; [done|]. intros n1 n2 n3 H1 H2. unfold same_tracker in *. congruence. Qed.

Lemma applyIfPresent_tracker sd st n res n' : applyPolicyToPodIfPresent sd st n = (res, n') → same_tracker n n'.
Proof.
  intros [[-> _]|(info & _ & Hrun)]%applyIfPresent_run; [done|]. revert Hrun. unfold applyPolicyToPod.
  apply for_each_rel; [apply _|]. clear n res n'. intros k cm n res n' _ Hrun.
  destruct (_ !! _); [|by injection Hrun as <- <-]. revert Hrun. unfold cgroupToPolicyMapUpdateFunc, bpf_op.
  destruct (UpdateCgroupPolicy _ _ _ _) as [err m]. by intros [= <- <-].
Qed.

Lemma range_one {A} k (x : A) : range {[k := x]} = [(k, x)].
Proof. apply Permutation_singleton_r. rewrite range_perm, map_to_list_singleton. done. Qed.

(** A call for one container: it is cached already, or its cgroup is registered first. *)
Lemma add_one_run sd meta cid ci n res n' :
  AddPodContainerFromNri sd (MkPodInput meta {[cid := ci]}) n = (res, n') →
  let cached := podCache (n_resolver n) !! PodMeta_ID meta in
  let st := default (convertPodData (MkPodInput meta {[cid := ci]})) cached in
  let cg := ContainerMeta_CgroupID (ContainerInput_meta ci) in
  match pod_containers st !! cid with
  | Some _ => same_tracker n n'
  | None =>
      ∃ err m, UpdateCgTrackerMap cg (ContainerInput_CgroupPath ci) (cgtracker_map (n_bpf n)) = (err, m) ∧
        cgtracker_map (n_bpf n') = m ∧
        (handleErrOnShutdown sd err ≠ None → (∃ e, res = Err e) ∧ (is_Some cached →
           podCache (n_resolver n') !! PodMeta_ID meta =
             Some (MkPodEntry (pod_meta st) (<[cid := ContainerInput_meta ci]> (pod_containers st)))))
  end.
Proof.
  unfold AddPodContainerFromNri. cbn [PodInput_Meta PodInput_Containers]. rewrite range_one. unfold mbind, gom_bind. cbn [resolver add_containers].
  set (st := default _ _). intros Hrun. cbn zeta. destruct (pod_containers st !! cid) as [info|].
  - destruct (_ && _); [|by injection Hrun as <- <-]. cbn in Hrun. apply applyIfPresent_tracker in Hrun. exact Hrun.
  - unfold cgTrackerUpdateFunc, bpf_op, mbind, gom_bind in Hrun.
    destruct (podCache (n_resolver n) !! PodMeta_ID meta) as [e0|] eqn:He; cbn in Hrun;
      destruct (UpdateCgTrackerMap _ _ _) as [err m] eqn:Hu; exists err, m; (split; [done|]);
      destruct (handleErrOnShutdown sd err) as [e|]; cbn in Hrun; try (injection Hrun as <- <-); cbn.
    1, 3: split; [done|]; intros _; split; [by eexists|]; intros [? ?]; first [done|by rewrite lookup_insert_eq].
    1, 2: apply applyIfPresent_tracker in Hrun; by split.
Qed.

(** A container that is new to the agent and is allowed to start is tracked. *)
Theorem started_container_tracked pod c n n' cg path :
  StartContainer false false (Some pod) (Some c) n = (Ok tt, n') →
  cgroupFromContainer (Some c) = Ok (cg, path) →
  (∀ e, podCache (n_resolver n) !! ps_Uid pod = Some e → pod_containers e !! ct_Id c = None) →
  cgtracker_map (n_bpf n') !! cg = Some cg.
Proof.
  intros Hs Hcg Hnew. unfold StartContainer, handleError in Hs. rewrite Hcg in Hs. cbn [default from_option id] in Hs.
  destruct (getWorkloadInfoAndLog pod) as [[name kind]|?|?]; [|done..].
  destruct (AddPodContainerFromNri _ _ _) as [[[]|?|?] n1] eqn:Ha; [|done..]. injection Hs as <-.
  apply add_one_run in Ha. cbn in Ha.
  assert (pod_containers (default (convertPodData (start_input pod name kind c cg)) (podCache (n_resolver n) !! ps_Uid pod)) !! ct_Id c = None) as Hnone.
  { destruct (podCache (n_resolver n) !! ps_Uid pod) as [e|] eqn:He; [by apply Hnew|done]. }
  unfold start_input in Hnone. rewrite Hnone in Ha. destruct Ha as (err & m & Hu & -> & Herr).
  unfold UpdateCgTrackerMap, tracker_update in Hu. destruct (hash_update _ _ _ _) as [e m1] eqn:Hh.
  apply hash_update_ok in Hh as [[-> ->]|(Hne & -> & _)]; cbn in Hu.
  - injection Hu as <- <-. by rewrite lookup_insert_eq.
  - apply Z.eqb_neq in Hne. rewrite Hne in Hu. cbn in Hu. injection Hu as <- <-. by destruct (Herr ltac:(done)) as [[? [=]] _].
Qed.

(** A failed registration is not tried again.  When the tracker map refuses the cgroup of a new
    container of a pod that is cached, the call fails, but the container is cached: every later
    call for the same container leaves the tracker map as it is, and succeeds when the pod has no
    policy, although the cgroup is not tracked. *)
Theorem failed_tracking_not_retried meta cid cm path path' st n n1 res2 n2 :
  podCache (n_resolver n) !! PodMeta_ID meta = Some st → pod_containers st !! cid = None →
  (UpdateCgTrackerMap (ContainerMeta_CgroupID cm) path (cgtracker_map (n_bpf n))).1 ≠ None →
  AddPodContainerFromNri false (MkPodInput meta {[cid := MkContainerInput cm path]}) n = n1 →
  AddPodContainerFromNri false (MkPodInput meta {[cid := MkContainerInput cm path']}) n1.2 = (res2, n2) →
  n1.1 ≠ Ok tt ∧ cgtracker_map (n_bpf n2) !! ContainerMeta_CgroupID cm = None ∧ (policyName st = "" → res2 = Ok tt).
Proof.
  intros Hst Hnew Hfail H1 H2. destruct n1 as [res1 n1]. cbn in *.
  pose proof H1 as H1'. apply add_one_run in H1. cbn in H1. rewrite Hst in H1. cbn in H1. rewrite Hnew in H1.
  destruct H1 as (err & m & Hu & Hm & Herr). rewrite Hu in Hfail. destruct (Herr Hfail) as [[e ->] Hc].
  specialize (Hc ltac:(by eexists)). split; [done|].
  pose proof H2 as H2'. apply add_one_run in H2. cbn in H2. rewrite Hc in H2. cbn in H2. rewrite lookup_insert_eq in H2.
  unfold same_tracker in H2. split.
  - rewrite H2, Hm. unfold UpdateCgTrackerMap, tracker_update in Hu. destruct (hash_update _ _ _ _) as [e' m1] eqn:Hh.
    apply hash_update_ok in Hh as [[-> ->]|(Hne & -> & Hn)]; cbn in Hu.
    + exfalso. apply Hfail. by destruct path; injection Hu as <- _.
    + apply Z.eqb_neq in Hne. rewrite Hne in Hu. cbn in Hu. by injection Hu as _ <-.
  - intros Hp. revert H2'. unfold AddPodContainerFromNri. cbn [PodInput_Meta PodInput_Containers]. rewrite range_one. unfold mbind, gom_bind.
    cbn [resolver add_containers]. rewrite Hc. cbn. rewrite lookup_insert_eq, Z.eqb_refl, String.eqb_refl. cbn.
    unfold applyPolicyToPodIfPresent. change (policyName (MkPodEntry (pod_meta st) _)) with (policyName st).
    rewrite Hp. cbn. by intros [= <- _].
Qed.
End synchronize.

(** ** Instances *)

#[local] Existing Instances list_range list_range_ok.

(** A host with a unified hierarchy, where every cgroup has the id of the sample container. *)
#[export] Instance v2_host : HostFs := {|
  Lstat_Dev := λ path, Ok (if (path =? defaultCgroupMountPoint)%string then 2 else 1);
  Statfs_Type := λ _, Ok CGROUP2_SUPER_MAGIC;
  Stat_Ino := λ _, Ok 4026531841;
  file_lines := λ _, Ok [];
  NameToHandleAt := λ _, Ok (le_bytes 8 container_cgroup);
|}.

Definition side_sandbox : PodSandbox :=
  MkPodSandbox "sb1" "p1" "web-pod" "ns" {[ PolicyLabelKey := "pol" ]}.
Definition side_ct : Container :=
  MkContainer "c1" "sb1" "side" (Some "kubepods-pod1.slice:cri-containerd:c1").
Definition no_dirs : string → cgroup_path := λ _, EmptyPath.

Abbreviation start_side := (StartContainer (K := sample_kernel) false false (Some side_sandbox) (Some side_ct)).

(** The container starts on a node that has the policy. *)
Definition started_node : node := snd (start_side policy_node).

Lemma started_node_run : start_side policy_node = (Ok tt, started_node).
Proof. apply run_is. vm_compute. reflexivity. Qed.

(** [/bin/sh] is on the allow-list of the container, so its exec is permitted. *)
Lemma started_container_enforced_witness :
  let K := sample_kernel in let L := x86_layout in
  fst (enforce_cgroup_policy sample_conf BPRM (n_bpf started_node)) = 0.
Proof.
  intros K L.
  destruct (started_container_enforced (K := K) (L := L) no_dirs sample_conf linux_6_8 two_containers new_node policy_node
    false None (MkPlugin policy_node false None) side_sandbox side_ct started_node container_cgroup
    "/proc/1/root/sys/fs/cgroup/kubepods.slice/kubepods-pod1.slice/cri-containerd-c1.scope" sh_rules BPRM bin_sh_path)
    as (mode & Hmode & s' & -> & _);
    [apply fresh_node_inv, new_node_fresh|apply ids_left_small; [vm_compute; discriminate|vm_compute; lia]
    |by intros ???????? []|apply run_is; vm_compute; reflexivity|apply rtc_refl|exact started_node_run
    |reflexivity|vm_compute; reflexivity|discriminate| |vm_compute; reflexivity| |vm_compute; reflexivity| |vm_compute; discriminate|reflexivity|].
  - intros e He. vm_compute in He. discriminate.
  - repeat constructor; try lia; apply (bool_decide_unpack _); vm_compute; exact I.
  - exec_sample 2%nat (DENTRY 2) (rev bin_sh).
  - injection Hmode as <-. vm_compute. reflexivity.
Defined.

Lemma Synchronize_complete_witness :
  let p' := snd (Synchronize (K := sample_kernel) no_dirs false [Some side_sandbox] [Some side_ct]
                   (MkPlugin policy_node false None)) in
  Ping p' = None ∧ covered side_sandbox side_ct (p_node p').
Proof.
  intros p'.
  destruct (Synchronize_complete (K := sample_kernel) no_dirs [Some side_sandbox] [Some side_ct]
    (MkPlugin policy_node false None) (Ok tt) p') as [Hok _].
  - intros c c' [= ->]%list_elem_of_singleton [= ->]%list_elem_of_singleton _ _. reflexivity.
  - rewrite (surjective_pairing (Synchronize _ _ _ _ _)). by apply pair_equal_spec.
  - destruct (Hok eq_refl) as [Hp Hc]. split; [exact Hp|].
    apply Hc; [by apply list_elem_of_singleton|by apply list_elem_of_singleton|reflexivity].
Defined.

(** The same pod on a node without policies. *)
Lemma StartContainer_unknown_policy_witness :
  ∃ n', start_side new_node = (Err "runtime-enforcer has prevented the container from starting", n') ∧ cgmap n' = ∅.
Proof.
  destruct (StartContainer_unknown_policy (K := sample_kernel) false false side_sandbox side_ct new_node)
    as (n' & Hn & Hg).
  - eexists _, _. vm_compute. reflexivity.
  - eexists _, _. vm_compute. reflexivity.
  - vm_compute. discriminate.
  - reflexivity.
  - reflexivity.
  - exists n'. split; [exact Hn|exact Hg].
Defined.

(** A kernel that has no memory for new map entries, and a pod without a policy. *)
Definition no_room : Kernel := {|
  probe_read := @probe_read sample_kernel;
  bpf_get_current_task := @bpf_get_current_task sample_kernel;
  bpf_get_current_cgroup_id := @bpf_get_current_cgroup_id sample_kernel;
  bpf_get_current_pid_tgid := @bpf_get_current_pid_tgid sample_kernel;
  bpf_get_current_comm := @bpf_get_current_comm sample_kernel;
  bpf_get_smp_processor_id := @bpf_get_smp_processor_id sample_kernel;
  LINUX_KERNEL_VERSION := @LINUX_KERNEL_VERSION sample_kernel;
  has_get_current_cgroup_id := @has_get_current_cgroup_id sample_kernel;
  has_kernfs_node_old_id := @has_kernfs_node_old_id sample_kernel;
  has_cgroup_ancestors := @has_cgroup_ancestors sample_kernel;
  has_bpf_iter_num_new := @has_bpf_iter_num_new sample_kernel;
  ringbuf_reserve_ok := @ringbuf_reserve_ok sample_kernel;
  map_alloc := λ _, false;
  storage_available := @storage_available sample_kernel;
  storage_read_err := @storage_read_err sample_kernel;
|}.
Definition plain_meta : PodMeta := MkPodMeta "p9" "ns" "plain-pod" "plain-pod" KindPod ∅.
Definition plain_node : node :=
  MkNode (set_podCache {["p9" := MkPodEntry plain_meta ∅]} NewResolver) empty_state.
Definition late_container : ContainerMeta := MkContainerMeta "c9" "late" 777.
Abbreviation add_late := (AddPodContainerFromNri (K := no_room) (R := list_range) false
  (MkPodInput plain_meta {["c9" := MkContainerInput late_container EmptyPath]})).

Lemma failed_tracking_not_retried_witness :
  (add_late plain_node).1 ≠ Ok tt ∧ (add_late (add_late plain_node).2).1 = Ok tt ∧
  cgtracker_map (n_bpf (add_late (add_late plain_node).2).2) !! 777 = None.
Proof.
  destruct (failed_tracking_not_retried (K := no_room) (R := list_range) plain_meta "c9" late_container EmptyPath EmptyPath
    (MkPodEntry plain_meta ∅) plain_node (add_late plain_node) (add_late (add_late plain_node).2).1
    (add_late (add_late plain_node).2).2) as (H1 & H2 & H3);
    [reflexivity|reflexivity|vm_compute; discriminate|reflexivity|by destruct (add_late (add_late plain_node).2)|].
  split; [exact H1|]. split; [by apply H3|exact H2].
Defined.
