(* ===== verification/PolicyHandler.v ===== *)
(** * The policy handler of the agent

    [src/internal/workloadpolicyhandler/workloadpolicy_handler.go]: the agent's reconciler of
    policies, which calls the resolver, and its readiness check; the readiness checks of
    [src/cmd/agent/main.go]; and the agent as a system whose steps are the reconciliations and
    the events of the container runtime. *)
From S2P Require Import Prelude GoStd CLayout ProgramTypes KernelLayout Kernel ConcreteKernel StringMaps PolicyValues Names CgroupTracker CgroupInfo Events AgentMaps DPath Enforce EndToEnd Resolver ResolverSpec ResolverTheorems Nri.
Local Open Scope Z_scope.

(** What [Get] returns for the name of a request. *)
Inductive get_result :=
  | GetOk (wp : WorkloadPolicy)
  | GetNotFound
  | GetError (e : string).

Section handler.
  Context `{K : Kernel, B : Ebpf, BM : EbpfMap, R : GoRange} (ver : Z) (isShuttingDown : bool).

Definition Reconcile (namespace name : string) (get : get_result) : gom unit :=
  match get with
  | GetError _ => fail "failed to get WorkloadPolicy"
  | GetNotFound => HandleWPDelete ver isShuttingDown (MkWorkloadPolicy namespace name "" ∅)
  | GetOk wp => ReconcileWP ver isShuttingDown wp
  end.
End handler.

#[local] Instance PolicyModeProto_eq_dec : EqDecision PolicyModeProto.
Proof. solve_decision. Defined.

(** The test of one policy of the list. *)
Definition policy_synced (statuses : gmap string PolicyStatus) (wp : WorkloadPolicy) : go_error :=
  match statuses !! NamespacedName wp with
  | None => Some "policy status not found"
  | Some status =>
      match PolicyStatus_State status with
      | POLICY_STATE_READY =>
          if decide (PolicyStatus_Mode status = ParsePolicyModeToProto (wp_Mode wp)) then None
          else Some "policy status is not ready"
      | _ => Some "policy status is not ready"
      end
  end.

Fixpoint policies_synced (statuses : gmap string PolicyStatus) (wps : list WorkloadPolicy) : go_error :=
  match wps with
  | [] => None
  | wp :: wps' =>
      match policy_synced statuses wp with
      | None => policies_synced statuses wps'
      | e => e
      end
  end.

(** [HasSynced]; [list_wps] is what [List] returns and [hasSynced] the flag. *)
Definition HasSynced (list_wps : go_result (list WorkloadPolicy)) (r : Resolver) (hasSynced : bool)
  : go_error * bool :=
  if hasSynced then (None, true)
  else match list_wps with
       | Ok wps =>
           match policies_synced (GetPolicyStatuses r) wps with
           | None => (None, true)
           | e => (e, false)
           end
       | _ => (Some "failed to list WorkloadPolicies during HasSynced check", false)
       end.

Definition IsSynchronized (hasSynced : bool) : bool := hasSynced.

(** The agent: the plugin with the resolver, and the flag of the handler.  [a_last] is not
    state of the agent: it records, for the statements below, the version of each policy that was
    last reconciled without error. *)
Record agent_state := MkAgent {
  a_plugin : plugin;
  a_hasSynced : bool;
  a_last : gmap string WorkloadPolicy;
}.

Definition a_node (a : agent_state) : node := p_node (a_plugin a).

(** The readiness endpoint passes when both checks do. *)
Definition readyz (list_wps : go_result (list WorkloadPolicy)) (a : agent_state) : bool * agent_state :=
  let '(err, synced) := HasSynced list_wps (n_resolver (a_node a)) (a_hasSynced a) in
  (match err, Ping (a_plugin a) with None, None => true | _, _ => false end, MkAgent (a_plugin a) synced (a_last a)).

(** ** The agent as a system *)

Section system.
  Context `{K : Kernel, B : Ebpf, BM : EbpfMap, R : GoRange, !GoRangeOk R, H : HostFs}.
  Context (cgroup_tree : string → cgroup_path) (ver : Z).

Definition record_last (namespace name : string) (get : get_result) (res : go_result unit)
  (last : gmap string WorkloadPolicy) : gmap string WorkloadPolicy :=
  match get, res with
  | GetOk wp, Ok _ => <[NamespacedName wp := wp]> last
  | GetNotFound, _ => delete (namespace ++ "/" ++ name)%string last
  | _, _ => last
  end.

(** A reconciliation of a request that does not crash the agent, an event of the container
    runtime, or a readiness request.  The ids of policies do not run out. *)
Inductive agent_step : agent_state → agent_state → Prop :=
  | step_reconcile namespace name get a res n' :
      (∀ wp, get = GetOk wp → wp_Namespace wp = namespace ∧ wp_Name wp = name ∧ ids_left wp (a_node a)) →
      Reconcile ver false namespace name get (a_node a) = (res, n') → (∀ e, res ≠ Panic e) →
      agent_step a (MkAgent (MkPlugin n' (nriSynchronized (a_plugin a)) (lastErr (a_plugin a))) (a_hasSynced a)
        (record_last namespace name get res (a_last a)))
  | step_event a p' :
      nri_event cgroup_tree (a_plugin a) p' → agent_step a (MkAgent p' (a_hasSynced a) (a_last a))
  | step_readyz list_wps a : agent_step a (snd (readyz list_wps a)).

(** A policy that is recorded as ready has been reconciled, and the rules of the version that
    was reconciled last are in the maps. *)
Definition ready_installed (last : gmap string WorkloadPolicy) (n : node) : Prop :=
  ∀ key info, wpState (n_resolver n) !! key = Some info →
    PolicyStatus_State (wp_status info) = POLICY_STATE_READY →
    ∃ wp mode, last !! key = Some wp ∧ NamespacedName wp = key ∧ ParseMode (wp_Mode wp) = Ok mode ∧
      ready_for wp mode n.

Definition agent_inv (a : agent_state) : Prop := node_inv (a_node a) ∧ ready_installed (a_last a) (a_node a).

(** The agent when it starts. *)
Definition agent_init (a : agent_state) : Prop :=
  fresh_node (a_node a) ∧ nriSynchronized (a_plugin a) = false ∧ a_hasSynced a = false.

Lemma ready_for_kept wp mode n n' :
  ready_for wp mode n → wpState (n_resolver n') !! NamespacedName wp = wpState (n_resolver n) !! NamespacedName wp →
  (∀ c pid, has_id (n_resolver n) (NamespacedName wp) c pid → policy_entry (n_bpf n') pid = policy_entry (n_bpf n) pid) →
  ready_for wp mode n'.
Proof.
  intros (info & Hi & Hst & Hrules) Hw He. exists info. split_and!; [congruence|done|].
  intros c rules (pid & Hp & Hinst)%Hrules. exists pid. split; [done|].
  eapply installed_frame; [done|]. apply (He c). by exists info.
Qed.

(** Steps that keep the records of the policies other than [key] keep the property for them. *)
Lemma others_kept_ready key last last' n n' :
  ready_installed last n → others_kept key n n' → (∀ k, k ≠ key → last' !! k = last !! k) →
  (∀ info, wpState (n_resolver n') !! key = Some info →
     PolicyStatus_State (wp_status info) = POLICY_STATE_READY →
     ∃ wp mode, last' !! key = Some wp ∧ NamespacedName wp = key ∧ ParseMode (wp_Mode wp) = Ok mode ∧
       ready_for wp mode n') →
  ready_installed last' n'.
Proof.
  intros Hr Ho Hl Hkey k info Hi Hready. destruct (decide (k = key)) as [->|Hk]; [by eapply Hkey|].
  destruct (Ho k Hk) as [Hw He]. rewrite Hw in Hi. destruct (Hr _ _ Hi Hready) as (wp & mode & Hlast & <- & Hm & Hf).
  exists wp, mode. rewrite Hl by done. split_and!; [done..|]. by eapply ready_for_kept.
Qed.

Lemma keeps_policies_ready last n n' : ready_installed last n → keeps_policies n n' → ready_installed last n'.
Proof.
  intros Hr [Hw Hf] k info Hi Hready. rewrite Hw in Hi.
  destruct (Hr _ _ Hi Hready) as (wp & mode & Hlast & <- & Hm & Hrf). exists wp, mode. split_and!; [done..|].
  eapply ready_for_kept; [done|by rewrite Hw|]. intros c pid _. apply (bf_entry _ _ _ _ Hf). by intros [].
Qed.

(** An error is recorded in the status. *)
Lemma reconcile_error sd wp n e n' info :
  ReconcileWP ver sd wp n = (Err e, n') → wpState (n_resolver n') !! NamespacedName wp = Some info →
  PolicyStatus_State (wp_status info) = POLICY_STATE_ERROR.
Proof.
  unfold ReconcileWP. destruct (reconcile_body ver sd wp n) as [[[]|e0|e0] n0]; [done| |done].
  cbn. intros [= <- <-]. cbn. rewrite lookup_alter_eq. intros (i & _ & ->)%fmap_Some. done.
Qed.

Lemma reconcile_ready_installed namespace name wp last n res n' :
  node_inv n → ready_installed last n → ids_left wp n → ReconcileWP ver false wp n = (res, n') →
  (∀ e, res ≠ Panic e) → ready_installed (record_last namespace name (GetOk wp) res last) n'.
Proof.
  intros I Hr Hleft Hrun Hp. apply (others_kept_ready (NamespacedName wp) last _ n); [done|by eapply reconcile_others| |].
  { intros k Hk. destruct res; [|done..]. cbn. by rewrite lookup_insert_ne. }
  intros info Hi Hready. destruct res as [[]|e|e]; [| |by destruct (Hp e)].
  - destruct (reconcile_ready _ _ _ _ _ I Hleft eq_refl Hrun) as (mode & Hm & Hf). exists wp, mode.
    split_and!; [apply lookup_insert_eq|done..].
  - rewrite (reconcile_error _ _ _ _ _ _ Hrun Hi) in Hready. done.
Qed.

Lemma delete_ready_installed namespace name last n res n' :
  node_inv n → ready_installed last n →
  HandleWPDelete ver false (MkWorkloadPolicy namespace name "" ∅) n = (res, n') →
  ready_installed (record_last namespace name GetNotFound res last) n'.
Proof.
  set (wp := MkWorkloadPolicy namespace name "" ∅). intros I Hr Hrun.
  assert (∀ k, k ≠ NamespacedName wp → delete (NamespacedName wp) last !! k = last !! k) as Hl
    by (intros k Hk; by apply lookup_delete_ne).
  change (ready_installed (delete (NamespacedName wp) last) n').
  apply delete_run in Hrun as [(Hnone & -> & _)|(info & n0 & Hi & -> & Hrun)].
  { apply (others_kept_ready (NamespacedName wp) last _ n); [done|done|done|by rewrite Hnone]. }
  apply clear_loop in Hrun as [Hres Hf _ _]. cbn [n_resolver n_bpf] in *.
  apply (others_kept_ready (NamespacedName wp) last _ n); [done| |done|].
  - intros k Hk. rewrite Hres. cbn [wpState set_wpState]. rewrite lookup_delete_ne by done. split; [done|].
    intros c pid Hid. apply (bf_entry _ _ _ _ Hf). intros [c' Hc'].
    assert (has_id (n_resolver n) (NamespacedName wp) c' pid) as Hid' by by exists info.
    by destruct (ni_inj _ I _ _ _ _ _ Hid Hid').
  - intros i Hi'. rewrite Hres in Hi'. cbn [wpState set_wpState] in Hi'. by rewrite lookup_delete_eq in Hi'.
Qed.

Lemma add_pods_inv sd pods tmp n : node_inv n → node_inv (snd (add_pods sd pods tmp n)).
Proof.
  revert n. induction pods as [|[pod|] pods IH]; intros n I; cbn [add_pods]; [done| |auto].
  destruct (tmp !! ps_Id pod) as [cs|]; [|auto]. unfold mbind, gom_bind, lift.
  destruct (getWorkloadInfoAndLog pod) as [[name kind]|e|e]; [|done..].
  match goal with |- context [AddPodContainerFromNri sd ?p n] =>
    pose proof (add_inv sd p n I) as Ha; destruct (AddPodContainerFromNri sd p n) as [[[]|e|e] n1] end; auto.
Qed.

Lemma event_inv p p' : nri_event cgroup_tree p p' → node_inv (p_node p) → node_inv (p_node p').
Proof.
  intros [sd pods cs q|sd fo pod c q|sd pod c q] I.
  - unfold Synchronize. destruct (collect _ _ _) as [tmp|e|e]; [|done..].
    pose proof (add_pods_inv sd pods tmp (p_node q) I) as Ha. by destruct (add_pods _ _ _ _) as [[] ?].
  - cbn [p_node]. unfold StartContainer, handleError.
    destruct (cgroupFromContainer c) as [[cg path]|e|e]; [|by destruct fo|done].
    destruct (getWorkloadInfoAndLog _) as [[name kind]|e|e]; [|done..].
    match goal with |- context [AddPodContainerFromNri sd ?p ?n] =>
      pose proof (add_inv sd p n I) as Ha; destruct (AddPodContainerFromNri sd p n) as [[[]|e|e] n1] end; by destruct fo.
  - cbn [p_node]. unfold RemoveContainer.
    match goal with |- context [RemovePodContainerFromNri sd ?p ?c ?n] =>
      pose proof (remove_pod_inv sd p c n I) as Ha; by destruct (RemovePodContainerFromNri sd p c n) as [[] ?] end.
Qed.

Lemma agent_step_inv a a' : agent_step a a' → agent_inv a → agent_inv a'.
Proof.
  intros [namespace name get b res n' Hget Hrun Hp|b p' He|l b] [I Hr]; unfold agent_inv, a_node in *; cbn [a_plugin p_node a_last].
  - destruct get as [wp| |e]; cbn [Reconcile] in Hrun.
    + destruct (Hget _ eq_refl) as (_ & _ & Hleft). split; [|by eapply reconcile_ready_installed].
      pose proof (reconcile_inv ver false wp _ I Hleft) as Hi. by rewrite Hrun in Hi.
    + split; [|by eapply delete_ready_installed].
      pose proof (delete_inv ver false (MkWorkloadPolicy namespace name "" ∅) _ I) as Hi. by rewrite Hrun in Hi.
    + by injection Hrun as <- <-.
  - split; [by eapply event_inv|]. eapply keeps_policies_ready; [done|by apply nri_event_keeps in He].
  - unfold readyz. by destruct (HasSynced _ _ _).
Qed.

Lemma agent_reachable a a' : agent_init a → rtc agent_step a a' → agent_inv a'.
Proof.
  intros (Hf & _) Hrtc. assert (agent_inv a) as Hi.
  { split; [by apply fresh_node_inv|]. intros key info Hk. destruct Hf as [Hr _]. by rewrite Hr in Hk. }
  clear Hf. induction Hrtc as [|a b c Hs _ IH]; [done|]. by eapply IH, agent_step_inv.
Qed.
End system.

(** ** What the agent guarantees *)

Lemma policies_synced_spec statuses wps :
  policies_synced statuses wps = None → ∀ wp, wp ∈ wps → ∃ st, statuses !! NamespacedName wp = Some st ∧
    PolicyStatus_State st = POLICY_STATE_READY ∧ PolicyStatus_Mode st = ParsePolicyModeToProto (wp_Mode wp).
Proof.
  induction wps as [|wp' wps IH]; intros Hs wp Hin; [by apply elem_of_nil in Hin|]. cbn [policies_synced] in Hs.
  destruct (policy_synced statuses wp') eqn:Hp; [done|].
  apply elem_of_cons in Hin as [->|Hin]; [|auto]. unfold policy_synced in Hp.
  destruct (statuses !! NamespacedName wp') as [st|]; [|done]. exists st. split; [done|].
  destruct (PolicyStatus_State st); [done| |done]. by case_decide.
Qed.

Lemma mode_of_proto s s' mode :
  ParseMode s = Ok mode → ParsePolicyModeToProto s = ParsePolicyModeToProto s' → ParseMode s' = Ok mode.
Proof.
  unfold ParseMode, ParsePolicyModeToProto.
  destruct (String.eqb_spec s "monitor"), (String.eqb_spec s "protect"), (String.eqb_spec s' "monitor"), (String.eqb_spec s' "protect");
    by simplify_eq.
Qed.

Section guarantees.
  Context `{K : Kernel, L : KernelLayout, !KernelOk K, B : Ebpf, BM : EbpfMap, R : GoRange, !GoRangeOk R, H : HostFs}.
  Context (cgroup_tree : string → cgroup_path) (ver : Z) (conf : load_conf).


(** C3: enforcement at every moment.  In every state the agent can reach from its start, by any
    interleaving of reconciliations (successful or not), deletions, events of the runtime and
    readiness requests, a policy that is recorded as ready has a version that was reconciled last
    without error, and an exec in a cgroup that is bound to its id for a container is decided by
    the rules of that version for the container and its mode (for paths of at most 4094 bytes whose length is not
    between 121 and 144). *)
Theorem agent_enforces a a' key info :
  agent_init a → rtc (agent_step cgroup_tree ver) a a' →
  wpState (n_resolver (a_node a')) !! key = Some info →
  PolicyStatus_State (wp_status info) = POLICY_STATE_READY →
  ∃ wp mode, a_last a' !! key = Some wp ∧ NamespacedName wp = key ∧ ParseMode (wp_Mode wp) = Ok mode ∧
    ∀ c rules pid cg bprm p,
      wp_RulesByContainer wp !! c = Some rules → policy_ok (asked Monitor rules) →
      polByContainer info !! c = Some pid → policy_of (a_node a') cg = Some pid →
      tracked_exec conf (n_bpf (a_node a')) bprm cg p →
      Z.of_nat (length p) <= 4094 → same_bucket_len (Z.of_nat (length p)) = true →
      let foreign := exec_is_foreign_root bprm in
      let d := exec_decision (asked mode rules) foreign p in
      ∃ s', enforce_cgroup_policy conf bprm (n_bpf (a_node a')) = (decision_code d, s') ∧
        reports (n_bpf (a_node a')) d (MkProcessEvent cg p (Mode_String mode) foreign) s'.
Proof.
  intros Hinit Hreach Hi Hready. destruct (agent_reachable _ _ _ _ Hinit Hreach) as [_ Hinst].
  destruct (Hinst _ _ Hi Hready) as (wp & mode & Hlast & Hk & Hmode & info' & Hi' & _ & Hrules).
  exists wp, mode. split_and!; [done..|]. intros c rules pid cg bprm p Hr Hok Hp Hcg Hexec Hlen Hb. cbv zeta.
  rewrite Hk, Hi in Hi'. injection Hi' as <-. destruct (Hrules _ _ Hr) as (pid' & Hp' & Hin).
  assert (pid' = pid) as -> by congruence. rewrite <- visible_decision by done.
  destruct (enforce_run conf (n_bpf (a_node a')) bprm _ p Hexec Hlen pid (asked mode rules))
    as (s' & Hrun & _ & Hrep); [done..|]. by exists s'.
Qed.
End guarantees.

(** ** Instances *)

#[local] Existing Instances list_range list_range_ok.

Abbreviation sync_side := (Synchronize (K := sample_kernel) no_dirs false [Some side_sandbox] [Some side_ct]).

(** An agent that starts, reconciles a policy and synchronizes with a runtime that runs a pod
    of the policy. *)
Definition agent0 : agent_state := MkAgent (MkPlugin new_node false None) false ∅.
Definition agent1 : agent_state :=
  MkAgent (MkPlugin policy_node false None) false {[ NamespacedName two_containers := two_containers ]}.
Definition agent2 : agent_state :=
  MkAgent (snd (sync_side (MkPlugin policy_node false None))) false (a_last agent1).

Lemma agent2_reachable : rtc (agent_step (K := sample_kernel) no_dirs linux_6_8) agent0 agent2.
Proof.
  apply (rtc_l _ _ agent1); [|apply rtc_once; exact (step_event (K := sample_kernel) no_dirs linux_6_8 agent1 _
    (event_synchronize (K := sample_kernel) no_dirs false [Some side_sandbox] [Some side_ct] (MkPlugin policy_node false None)))].
  refine (step_reconcile (K := sample_kernel) no_dirs linux_6_8 "ns" "pol" (GetOk two_containers) agent0 (Ok tt) policy_node _ _ _).
  - intros wp [= <-]. split_and!; [reflexivity..|]. apply ids_left_small; [vm_compute; discriminate|vm_compute; lia].
  - apply (run_is (reconcile two_containers)). vm_compute. reflexivity.
  - discriminate.
Qed.


(** [/bin/sh] is on the allow-list of the container of the pod. *)
Lemma agent_enforces_witness :
  let K := sample_kernel in let L := x86_layout in
  fst (enforce_cgroup_policy sample_conf BPRM (n_bpf (a_node agent2))) = 0.
Proof.
  intros K L.
  assert (∃ info, wpState (n_resolver (a_node agent2)) !! "ns/pol"%string = Some info ∧
    PolicyStatus_State (wp_status info) = POLICY_STATE_READY ∧ polByContainer info !! "side"%string = Some 2)
    as (info & Hi & Hst & Hpid) by (eexists; split_and!; vm_compute; reflexivity).
  destruct (agent_enforces (K := K) (L := L) no_dirs linux_6_8 sample_conf agent0 agent2 "ns/pol" info)
    as (wp & mode & Hl & _ & Hm & Henf); [split_and!; [exact new_node_fresh|reflexivity..]|exact agent2_reachable|exact Hi|exact Hst|].
  assert (wp = two_containers) as -> by (cbn in Hl; rewrite lookup_singleton_eq in Hl; by injection Hl).
  destruct (Henf "side"%string sh_rules 2 container_cgroup BPRM bin_sh_path) as (s' & -> & _);
    [vm_compute; reflexivity| |exact Hpid|vm_compute; reflexivity| |vm_compute; discriminate|reflexivity|].
  - repeat constructor; try lia; apply (bool_decide_unpack _); vm_compute; exact I.
  - exec_sample 2%nat (DENTRY 2) (rev bin_sh).
  - injection Hm as <-. vm_compute. reflexivity.
Defined.
