(* ===== verification/ViolationBuffer.v ===== *)
(** * Violations on the agent

    [src/internal/violationbuf/buffer.go]: the ring buffer of violation records;
    [src/internal/eventscraper/eventscraper.go]: what an event of the exec hook says about the
    container (its loop is in [Pipeline]); and the scraping side of
    [src/internal/grpcexporter/agent_observer.go]. *)
From S2P Require Import Prelude CLayout ProgramTypes KernelLayout Kernel ConcreteKernel StringMaps PolicyValues CgroupTracker Events AgentMaps Resolver ResolverSpec.
Local Open Scope Z_scope.

(** ** The ring buffer *)

Module violationbuf.

(** A [time.Time] is the number of nanoseconds since the zero time. *)
Record ViolationRecord := MkViolationRecord {
  Timestamp : Z;
  PolicyName : string;
  Namespace : string;
  PodName : string;
  ContainerName : string;
  ExePath : bytes;
  ForeignRoot : bool;
  NodeName : string;
  Action : string;
  WorkloadName : string;
  WorkloadKind : string;
}.

Definition zero_record : ViolationRecord := MkViolationRecord 0 "" "" "" "" [] false "" "" "" "".

Definition MaxBufferEntries : Z := 10000.

Record Buffer := MkBuffer {
  buf : list ViolationRecord;
  pos : Z;
}.

Definition NewBuffer : Buffer := MkBuffer (replicate (Z.to_nat MaxBufferEntries) zero_record) 0.

(** [b.buf[i]]: a Go slice access. *)
Definition in_range (i : Z) (b : Buffer) : bool := (0 <=? i) && (i <? Z.of_nat (length (buf b))).

Definition BufferRecord (rec : ViolationRecord) (b : Buffer) : go_result (bool * Buffer) :=
  let dropped := MaxBufferEntries <=? pos b in
  let i := Z.rem (pos b) MaxBufferEntries in
  if in_range i b then Ok (dropped, MkBuffer (<[Z.to_nat i := rec]> (buf b)) (s64 (pos b + 1)))
  else Panic "index out of range".

(** The loop of [Drain] over [i] up to [n]. *)
Fixpoint drain_from (b : Buffer) (i : Z) (n : nat) : go_result (list ViolationRecord) :=
  match n with
  | O => Ok []
  | S n' =>
      let idx := Z.rem (pos b - 1 - i) MaxBufferEntries in
      match buf b !! Z.to_nat idx with
      | Some rec =>
          if in_range idx b then
            match drain_from b (i + 1) n' with
            | Ok records => Ok (rec :: records)
            | err => err
            end
          else Panic "index out of range"
      | None => Panic "index out of range"
      end
  end.

Definition Drain (b : Buffer) : go_result (list ViolationRecord * Buffer) :=
  let n := Z.min (pos b) MaxBufferEntries in
  if n =? 0 then Ok ([], b)
  else
    match drain_from b 0 (Z.to_nat n) with
    | Ok records => Ok (records, MkBuffer (buf b) 0)
    | Err e => Err e
    | Panic e => Panic e
    end.
End violationbuf.
Import violationbuf.

(** ** The scraper *)

Record KubeProcessInfo := MkKubeProcessInfo {
  kp_Namespace : string;
  kp_Workload : string;
  kp_WorkloadKind : string;
  kp_ContainerName : string;
  kp_ExecutablePath : bytes;
  kp_PodName : string;
  kp_ContainerID : string;
  kp_PolicyName : string;
  kp_ForeignRoot : bool;
}.

Section scraper.
  Context `{R : GoRange} (nodeName : string).

Definition getKubeProcessInfo (r : Resolver) (event : ProcessEvent) : option KubeProcessInfo :=
  match GetContainerView r (CgTrackerID event) with
  | Ok view =>
      let podMeta := ContainerView_PodMeta view in
      let containerMeta := ContainerView_Meta view in
      Some (MkKubeProcessInfo (PodMeta_Namespace podMeta) (PodMeta_WorkloadName podMeta)
        (PodMeta_WorkloadType podMeta) (ContainerMeta_Name containerMeta) (Events.ExePath event)
        (PodMeta_Name podMeta) (ContainerMeta_ID containerMeta)
        (default "" (PodMeta_Labels podMeta !! PolicyLabelKey)) (Events.ForeignRoot event))
  | _ => None
  end.

(** [now] is the result of [time.Now()]. *)
Definition violation_of (now : Z) (info : KubeProcessInfo) (action : string) : ViolationRecord :=
  MkViolationRecord now (kp_PolicyName info) (kp_Namespace info) (kp_PodName info) (kp_ContainerName info)
    (kp_ExecutablePath info) (kp_ForeignRoot info) nodeName action (kp_Workload info) (kp_WorkloadKind info).
End scraper.

(** ** The gRPC messages *)

(** [timestamppb]: the encoding of a time in a message. *)
Class Timestamppb := {
  timestamp : Type;
  timestamppb_New : Z → timestamp;
  AsTime : timestamp → Z;
}.
Class TimestamppbOk (P : Timestamppb) : Prop := { AsTime_New t : AsTime (timestamppb_New t) = t }.

Record pbViolationRecord `{P : Timestamppb} := MkPbViolation {
  pb_Timestamp : timestamp;
  pb_PodName : string;
  pb_ContainerName : string;
  pb_ExecutablePath : bytes;
  pb_ForeignRoot : bool;
  pb_NodeName : string;
  pb_Action : string;
  pb_PolicyName : string;
  pb_WorkloadName : string;
  pb_WorkloadKind : string;
}.
Arguments pbViolationRecord : clear implicits.
Arguments pbViolationRecord {P}.

Section server.
  Context `{P : Timestamppb}.

Definition violation_to_pb (rec : ViolationRecord) : pbViolationRecord :=
  MkPbViolation _ (timestamppb_New (Timestamp rec)) (PodName rec) (ContainerName rec) (ExePath rec) (ForeignRoot rec)
    (NodeName rec) (Action rec) (Namespace rec ++ "/" ++ PolicyName rec)%string
    (WorkloadName rec) (WorkloadKind rec).

Definition ScrapeViolations (b : Buffer) : go_result (list pbViolationRecord * Buffer) :=
  match Drain b with
  | Ok (records, b') => Ok (violation_to_pb <$> records, b')
  | Err e => Err e
  | Panic e => Panic e
  end.
End server.

(** ** The abstract buffer

    The records since the last drain, newest first.  A drain gives the most recent
    [MaxBufferEntries] of them. *)

Inductive buffer_op := OpRecord (rec : ViolationRecord) | OpDrain.
Inductive buffer_output := Recorded (dropped : bool) | Drained (records : list ViolationRecord).

Definition queue_step (op : buffer_op) (q : list ViolationRecord) : buffer_output * list ViolationRecord :=
  match op with
  | OpRecord rec => (Recorded (MaxBufferEntries <=? Z.of_nat (length q)), rec :: q)
  | OpDrain => (Drained (take (Z.to_nat MaxBufferEntries) q), [])
  end.

Fixpoint queue_run (ops : list buffer_op) (q : list ViolationRecord) : list buffer_output :=
  match ops with
  | [] => []
  | op :: ops' => let '(out, q') := queue_step op q in out :: queue_run ops' q'
  end.

Definition buffer_step (op : buffer_op) (b : Buffer) : go_result (buffer_output * Buffer) :=
  match op with
  | OpRecord rec =>
      match BufferRecord rec b with
      | Ok (dropped, b') => Ok (Recorded dropped, b') | Err e => Err e | Panic e => Panic e
      end
  | OpDrain =>
      match Drain b with
      | Ok (records, b') => Ok (Drained records, b') | Err e => Err e | Panic e => Panic e
      end
  end.

Fixpoint buffer_run (ops : list buffer_op) (b : Buffer) : go_result (list buffer_output) :=
  match ops with
  | [] => Ok []
  | op :: ops' =>
      match buffer_step op b with
      | Ok (out, b') =>
          match buffer_run ops' b' with Ok outs => Ok (out :: outs) | err => err end
      | Err e => Err e
      | Panic e => Panic e
      end
  end.

(** The slot of the [k]-th newest record. *)
Definition slot (p k : Z) : nat := Z.to_nat ((p - 1 - k) mod MaxBufferEntries).

Record represents (b : Buffer) (q : list ViolationRecord) : Prop := {
  rp_pos : pos b = Z.of_nat (length q);
  rp_len : Z.of_nat (length (buf b)) = MaxBufferEntries;
  rp_slot k : (k < length q)%nat → Z.of_nat k < MaxBufferEntries →
    buf b !! slot (pos b) (Z.of_nat k) = q !! k;
}.

Lemma represents_nil b : Z.of_nat (length (buf b)) = MaxBufferEntries → pos b = 0 → represents b [].
Proof. intros Hl Hp. split; [done|done|]. cbn. lia. Qed.

Lemma rem_slot p k : 0 <= p - 1 - k → Z.to_nat (Z.rem (p - 1 - k) MaxBufferEntries) = slot p k.
Proof. intros H. unfold slot. by rewrite Z.rem_mod_nonneg. Qed.

Lemma rem_in_range x b :
  0 <= x → Z.of_nat (length (buf b)) = MaxBufferEntries → in_range (Z.rem x MaxBufferEntries) b = true.
Proof.
  intros Hx Hl. unfold in_range. rewrite Hl, Z.rem_mod_nonneg by done.
  pose proof (Z.mod_pos_bound x MaxBufferEntries eq_refl). lia.
Qed.

(** Distinct ages below the capacity have distinct slots. *)
Lemma slot_ne p k : 0 < k < MaxBufferEntries → slot (p + 1) k ≠ slot (p + 1) 0.
Proof.
  intros Hk Heq. unfold slot in Heq. replace (p + 1 - 1 - k) with (p - k) in Heq by lia.
  replace (p + 1 - 1 - 0) with p in Heq by lia.
  pose proof (Z.mod_pos_bound (p - k) MaxBufferEntries eq_refl) as H1.
  pose proof (Z.mod_pos_bound p MaxBufferEntries eq_refl) as H2.
  assert ((p - k) mod MaxBufferEntries = p mod MaxBufferEntries) as Hm by lia.
  assert (k mod MaxBufferEntries = 0) as H0.
  { replace k with (p - (p - k)) by lia. rewrite Zminus_mod, Hm, Z.sub_diag. done. }
  rewrite Z.mod_small in H0; lia.
Qed.

Lemma record_represents rec b q :
  represents b q → Z.of_nat (length q) < 2 ^ 63 - 1 →
  ∃ b', BufferRecord rec b = Ok (MaxBufferEntries <=? Z.of_nat (length q), b') ∧ represents b' (rec :: q).
Proof.
  intros [Hp Hl Hs] Hq. unfold BufferRecord. rewrite rem_in_range by (done || lia). rewrite <- Hp.
  eexists. split; [reflexivity|]. rewrite s64_small by lia.
  replace (Z.to_nat (Z.rem (pos b) MaxBufferEntries)) with (slot (pos b + 1) 0).
  2: { rewrite <- rem_slot by lia. do 2 f_equal. lia. }
  split; cbn [buf pos length].
  - lia.
  - by rewrite length_insert.
  - intros [|k] Hk Hmax.
    + rewrite list_lookup_insert_eq; [done|]. unfold slot.
      pose proof (Z.mod_pos_bound (pos b + 1 - 1 - 0) MaxBufferEntries eq_refl). lia.
    + rewrite list_lookup_insert_ne by (apply not_eq_sym, slot_ne; lia). cbn. rewrite <- Hs by lia.
      f_equal. unfold slot. do 2 f_equal. lia.
Qed.

Lemma drain_from_spec b q i n :
  represents b q → (i + n <= length q)%nat → Z.of_nat (i + n) <= MaxBufferEntries →
  drain_from b (Z.of_nat i) n = Ok (take n (drop i q)).
Proof.
  intros Hr. pose proof Hr as [Hp Hl Hs]. revert i. induction n as [|n IH]; intros i Hi Hmax.
  { by rewrite take_0. }
  cbn [drain_from]. rewrite rem_slot by lia. rewrite Hs by lia.
  destruct (lookup_lt_is_Some_2 q i) as [rec Hrec]; [lia|]. rewrite Hrec, rem_in_range by (done || lia).
  replace (Z.of_nat i + 1) with (Z.of_nat (S i)) by lia. rewrite IH by lia.
  by rewrite (drop_S q rec i).
Qed.

Lemma drain_represents b q :
  represents b q →
  ∃ b', Drain b = Ok (take (Z.to_nat MaxBufferEntries) q, b') ∧ represents b' [].
Proof.
  intros Hr. pose proof Hr as [Hp Hl _]. unfold Drain. destruct (_ =? 0) eqn:H0.
  - destruct q; [|unfold MaxBufferEntries in *; cbn in *; lia]. exists b. rewrite take_nil. split; [done|].
    by apply represents_nil.
  - change 0 with (Z.of_nat 0) at 1. rewrite (drain_from_spec b q) by (done || lia). rewrite drop_0.
    exists (MkBuffer (buf b) 0). split; [|by apply represents_nil].
    destruct (decide (pos b <= MaxBufferEntries)); [by rewrite !take_ge by lia|].
    by rewrite Z.min_r by lia.
Qed.

Lemma buffer_run_queue ops b q :
  represents b q → Z.of_nat (length q + length ops) < 2 ^ 63 → buffer_run ops b = Ok (queue_run ops q).
Proof.
  revert b q. induction ops as [|[rec|] ops IH]; intros b q Hr Hlen; [done|..]; cbn [length] in Hlen.
  - destruct (record_represents rec b q Hr) as (b' & H & Hr'); [lia|].
    cbn [buffer_run buffer_step]. rewrite H, (IH b' (rec :: q)); [done|done|]. cbn [length]. lia.
  - destruct (drain_represents b q Hr) as (b' & H & Hr').
    cbn [buffer_run buffer_step]. rewrite H, (IH b' []); [done|done|]. cbn [length]. lia.
Qed.

(** C18: the ring buffer of violations implements a bounded queue.  Any sequence of records and
    drains returns what the queue returns: a drain gives the records since the last one,
    newest first, at most the 10000 most recent; recording reports that an entry was
    overwritten exactly when that many are waiting; no access is out of range. *)
Theorem buffer_refines_queue ops :
  Z.of_nat (length ops) < 2 ^ 63 → buffer_run ops NewBuffer = Ok (queue_run ops []).
Proof.
  intros Hlen. apply buffer_run_queue; [|done]. apply represents_nil; [|done].
  cbn [NewBuffer buf]. rewrite length_replicate. done.
Qed.

(** ** Instances *)

Definition ls_violation (t : Z) : ViolationRecord :=
  MkViolationRecord t "pol" "ns" "pod" "web" (bytes_of_string "/bin/ls") false "node1" "protect" "app" "Deployment".

Lemma buffer_refines_queue_witness :
  buffer_run [OpRecord (ls_violation 1); OpRecord (ls_violation 2); OpDrain; OpDrain] NewBuffer =
    Ok [Recorded false; Recorded false; Drained [ls_violation 2; ls_violation 1]; Drained []].
Proof. apply buffer_refines_queue. reflexivity. Defined.
