(* ===== verification/Violations.v ===== *)
(** * Violations of a policy

    [src/api/v1alpha1/violation_record.go]: the violation records in the status of a policy,
    how the controller merges scraped events into them, clears the ones the rules now allow
    and moves acknowledged ones; [src/internal/kubectlplugin/policy_ack.go]: how a user
    acknowledges one. *)
From Stdlib Require Import Sorting.Sorted.
From S2P Require Import Prelude GoStd CLayout ProgramTypes KernelLayout Kernel ConcreteKernel StringMaps PolicyValues CgroupTracker Events AgentMaps Resolver ResolverSpec.
Local Open Scope Z_scope.

Definition maxViolationRecords : nat := 100.

Record ViolationRecord := MkViolation {
  vr_ID : Z;
  vr_LastObserved : Z;
  vr_Occurrences : Z;
  vr_FirstObserved : Z;
  vr_PodName : string;
  vr_ContainerName : string;
  vr_ExecutablePath : bytes;
  vr_ForeignRoot : bool;
  vr_NodeName : string;
  vr_Action : string;
  vr_WorkloadName : string;
  vr_WorkloadKind : string;
}.

Record AcknowledgedViolationRecord := MkAck {
  ak_Violation : ViolationRecord;
  ak_Reason : string;
  ak_AcknowledgedAt : Z;
}.

Abbreviation violationRecordKey := (string * string * bytes * bool * string)%type.

Definition record_key (r : ViolationRecord) : violationRecordKey :=
  (vr_PodName r, vr_ContainerName r, vr_ExecutablePath r, vr_ForeignRoot r, vr_Action r).

(** The part of the status of a policy that holds violations. *)
Record violation_status := MkViolationStatus {
  ViolationCount : Z;
  ActiveViolationCount : Z;
  st_Violations : list ViolationRecord;
  st_Acknowledged : list AcknowledgedViolationRecord;
}.

Definition set_violations (vs : list ViolationRecord) (s : violation_status) : violation_status :=
  MkViolationStatus (ViolationCount s) (ActiveViolationCount s) vs (st_Acknowledged s).

(** ** Clearing *)

Definition allowed_now (rules : gmap string WorkloadPolicyRules) (v : ViolationRecord) : bool :=
  match rules !! vr_ContainerName v with
  | None => false
  | Some r =>
      if vr_ForeignRoot v then AllowForeignRootExec r
      else bool_decide (vr_ExecutablePath v ∈ Allowed r)
  end.

Definition clearAllowedViolations (rules : gmap string WorkloadPolicyRules) (s : violation_status)
  : violation_status :=
  set_violations (filter (λ v, allowed_now rules v = false) (st_Violations s)) s.

(** ** Merging *)

(** A scraped event that matches the record. *)
Definition refresh (v r : ViolationRecord) : ViolationRecord :=
  MkViolation (vr_ID r)
    (if vr_LastObserved r <? vr_LastObserved v then vr_LastObserved v else vr_LastObserved r)
    (s64 (vr_Occurrences r + 1)) (vr_FirstObserved r) (vr_PodName r) (vr_ContainerName r)
    (vr_ExecutablePath r) (vr_ForeignRoot r) (vr_NodeName r) (vr_Action r)
    (vr_WorkloadName r) (vr_WorkloadKind r).

(** The record of an event that matches none. *)
Definition new_record (id : Z) (v : ViolationRecord) : ViolationRecord :=
  MkViolation id (vr_LastObserved v) 1 (vr_LastObserved v) (vr_PodName v) (vr_ContainerName v)
    (vr_ExecutablePath v) (vr_ForeignRoot v) (vr_NodeName v) (vr_Action v)
    (vr_WorkloadName v) (vr_WorkloadKind v).

Definition index_records (vs : list ViolationRecord) : gmap violationRecordKey nat :=
  foldl (λ m ir, <[record_key ir.2 := ir.1]> m) ∅ (imap pair vs).

Record merge_state := MkMerge {
  ms_violations : list ViolationRecord;
  ms_index : gmap violationRecordKey nat;
  ms_count : Z;
}.

(** The body of the loop over the scraped events. *)
Definition merge_one (st : merge_state) (v : ViolationRecord) : merge_state :=
  match ms_index st !! record_key v with
  | Some idx =>
      MkMerge (alter (refresh v) idx (ms_violations st)) (ms_index st) (s64 (ms_count st + 1))
  | None =>
      MkMerge (ms_violations st ++ [new_record (ms_count st) v])
        (<[record_key v := length (ms_violations st)]> (ms_index st)) (s64 (ms_count st + 1))
  end.

(** [cmp(a, b) <= 0] for the newest first. *)
Definition newest_first (a b : ViolationRecord) : bool := vr_LastObserved b <=? vr_LastObserved a.

Definition mergeScrapedViolations (scraped : list ViolationRecord) (s : violation_status)
  : violation_status :=
  let st := foldl merge_one (MkMerge (st_Violations s) (index_records (st_Violations s)) (ViolationCount s)) scraped in
  MkViolationStatus (ms_count st) (ActiveViolationCount s)
    (take maxViolationRecords (SortStableFunc newest_first (ms_violations st))) (st_Acknowledged s).

(** ** Acknowledging *)

Definition ViolationAcknowledgePrefix : string := "runtimeenforcer.kubewarden.io/acknowledge-".

Record annotationInfo := MkAnnotationInfo { annotationKey : string; ai_reason : string }.

Definition collect_ack (m : gmap Z annotationInfo) (kv : string * string) : gmap Z annotationInfo :=
  match CutPrefix kv.1 ViolationAcknowledgePrefix with
  | None => m
  | Some idStr =>
      match ParseInt idStr with
      | None => m
      | Some id => <[id := MkAnnotationInfo kv.1 kv.2]> m
      end
  end.

(** The deletion function: what it removes, the annotations it deletes and the
    acknowledgements it appends, in the order of the list. *)
Fixpoint ack_violations (now : Z) (acks : gmap Z annotationInfo) (vs : list ViolationRecord)
  (annotations : gmap string string)
  : list ViolationRecord * gmap string string * list AcknowledgedViolationRecord :=
  match vs with
  | [] => ([], annotations, [])
  | v :: vs' =>
      match acks !! vr_ID v with
      | None =>
          let '(kept, annotations', acked) := ack_violations now acks vs' annotations in
          (v :: kept, annotations', acked)
      | Some info =>
          let '(kept, annotations', acked) :=
            ack_violations now acks vs' (delete (annotationKey info) annotations) in
          (kept, annotations', MkAck v (ai_reason info) now :: acked)
      end
  end.

Definition newest_ack_first (a b : AcknowledgedViolationRecord) : bool :=
  ak_AcknowledgedAt b <=? ak_AcknowledgedAt a.

Definition acknowledgeViolationsFromAnnotations `{R : GoRange} (now : Z) (annotations : gmap string string)
  (s : violation_status) : list AcknowledgedViolationRecord * gmap string string * violation_status :=
  if (size annotations =? 0)%nat then ([], annotations, s)
  else
    let acknowledges := foldl collect_ack ∅ (range annotations) in
    if (size acknowledges =? 0)%nat then ([], annotations, s)
    else
      let '(kept, annotations', acked) := ack_violations now acknowledges (st_Violations s) annotations in
      (acked, annotations',
       MkViolationStatus (ViolationCount s) (ActiveViolationCount s) kept
         (take maxViolationRecords (SortStableFunc newest_ack_first (st_Acknowledged s ++ acked)))).

(** [kubectl]'s side. *)

Definition violationAcknowledgeAnnotationKey (id : Z) : string :=
  (ViolationAcknowledgePrefix ++ FormatInt id)%string.

Definition findViolationByID (violations : list ViolationRecord) (id : Z) : go_result ViolationRecord :=
  match list_find (λ v, vr_ID v = id) violations with
  | Some (_, v) => Ok v
  | None => Err "violation id not found in status.violations"
  end.

Definition applyAckAnnotation (violationID : Z) (reason : string) (annotations : gmap string string)
  : string * bool * gmap string string :=
  let key := violationAcknowledgeAnnotationKey violationID in
  match annotations !! key with
  | Some existingReason =>
      if (existingReason =? reason)%string then (key, true, annotations)
      else (key, false, <[key := reason]> annotations)
  | None => (key, false, <[key := reason]> annotations)
  end.

(** ** The records as a map *)

#[export] Instance record_eq_dec : EqDecision ViolationRecord.
Proof. solve_decision. Defined.

Definition by_key (vs : list ViolationRecord) : gmap violationRecordKey ViolationRecord :=
  list_to_map ((λ r, (record_key r, r)) <$> vs).

(** An event numbered [id] absorbed by the record of its key, if there is one. *)
Definition absorb (id : Z) (v : ViolationRecord) (o : option ViolationRecord) : option ViolationRecord :=
  match o with
  | Some r => Some (refresh v r)
  | None => Some (new_record id v)
  end.

Definition absorb_event (mc : gmap violationRecordKey ViolationRecord * Z) (v : ViolationRecord)
  : gmap violationRecordKey ViolationRecord * Z :=
  (partial_alter (absorb mc.2 v) (record_key v) mc.1, s64 (mc.2 + 1)).

Lemma partial_alter_Some `{Countable K} {A} (f : option A → option A) k (m : gmap K A) x :
  f (m !! k) = Some x → partial_alter f k m = <[k := x]> m.
Proof.
  intros Hf. apply map_eq. intros j. destruct (decide (k = j)) as [<-|Hne].
  - by rewrite lookup_partial_alter_eq, lookup_insert_eq.
  - by rewrite lookup_partial_alter_ne, lookup_insert_ne.
Qed.

Definition keys_distinct (vs : list ViolationRecord) : Prop := NoDup (record_key <$> vs).

(** The index says where the record of a key is. *)
Definition index_ok (vs : list ViolationRecord) (index : gmap violationRecordKey nat) : Prop :=
  ∀ k i, index !! k = Some i ↔ ∃ r, vs !! i = Some r ∧ record_key r = k.

Lemma lookup_by_key vs k r :
  keys_distinct vs → by_key vs !! k = Some r ↔ ∃ i, vs !! i = Some r ∧ record_key r = k.
Proof.
  intros Hnd. unfold by_key. rewrite <- elem_of_list_to_map.
  - rewrite list_elem_of_fmap. split.
    + intros (r' & [= -> ->] & [i Hi]%list_elem_of_lookup). eauto.
    + intros (i & Hi & <-). exists r. split; [done|]. by eapply list_elem_of_lookup_2.
  - rewrite <- list_fmap_compose. exact Hnd.
Qed.

Lemma index_records_snoc vs r :
  index_records (vs ++ [r]) = <[record_key r := length vs]> (index_records vs).
Proof.
  unfold index_records. rewrite imap_app, foldl_app. cbn. by rewrite Nat.add_0_r.
Qed.

Lemma index_snoc vs index r :
  index_ok vs index → record_key r ∉ record_key <$> vs →
  index_ok (vs ++ [r]) (<[record_key r := length vs]> index).
Proof.
  intros Hok Hnew k i. rewrite lookup_insert_Some, (Hok k i). split.
  - intros [[<- <-]|[Hne (r' & Hr' & Hk)]].
    + exists r. split; [|done]. by rewrite lookup_app_r, Nat.sub_diag by done.
    + exists r'. split; [|done]. by apply lookup_app_l_Some.
  - intros (r' & Hr' & Hk). apply lookup_app_Some in Hr' as [Hr'|[Hge Hr']].
    + right. split; [|eauto]. intros Heq. apply Hnew. rewrite Heq, <- Hk.
      apply list_elem_of_fmap. exists r'. split; [done|]. by eapply list_elem_of_lookup_2.
    + left. apply list_lookup_singleton_Some in Hr' as [? <-]. split; [done|lia].
Qed.

Lemma index_records_ok vs : keys_distinct vs → index_ok vs (index_records vs).
Proof.
  unfold keys_distinct. induction vs as [|r vs IH] using rev_ind; intros Hnd.
  { intros k i. change (index_records []) with (∅ : gmap violationRecordKey nat). rewrite lookup_empty.
    split; [done|]. by intros (r & Hr & _). }
  rewrite fmap_app in Hnd. apply NoDup_app in Hnd as (Hnd & Hnew & _).
  rewrite index_records_snoc. apply index_snoc; [auto|]. intros Hin. apply (Hnew _ Hin). cbn. left.
Qed.

Lemma record_key_refresh v r : record_key (refresh v r) = record_key r.
Proof. done. Qed.

Lemma keys_alter v i (vs : list ViolationRecord) : record_key <$> alter (refresh v) i vs = record_key <$> vs.
Proof.
  apply list_eq. intros j. rewrite !list_lookup_fmap. destruct (decide (i = j)) as [<-|Hne].
  - rewrite list_lookup_alter_eq. by destruct (vs !! i).
  - by rewrite list_lookup_alter_ne.
Qed.

Lemma index_alter v i vs index : index_ok vs index → index_ok (alter (refresh v) i vs) index.
Proof.
  intros Hok k j. rewrite (Hok k j). destruct (decide (i = j)) as [<-|Hne].
  - rewrite list_lookup_alter_eq. destruct (vs !! i) as [r|] eqn:Hi; cbn.
    + split; intros (r' & [= <-] & <-); eauto.
    + by split; intros (r' & ? & _).
  - by rewrite list_lookup_alter_ne.
Qed.

(** The loop of [mergeScrapedViolations] implements [absorb_event] on the map. *)
Record merge_ok (st : merge_state) : Prop := {
  mo_keys : keys_distinct (ms_violations st);
  mo_index : index_ok (ms_violations st) (ms_index st);
}.

Lemma by_key_alter v i r vs :
  keys_distinct vs → vs !! i = Some r → record_key r = record_key v →
  by_key (alter (refresh v) i vs) = <[record_key v := refresh v r]> (by_key vs).
Proof.
  intros Hnd Hi Hk. apply map_eq. intros k. apply option_eq. intros r'.
  rewrite lookup_insert_Some, !lookup_by_key by (done || unfold keys_distinct; by rewrite keys_alter). split.
  - intros (j & Hj & <-). destruct (decide (i = j)) as [<-|Hne].
    + rewrite list_lookup_alter_eq, Hi in Hj. injection Hj as <-. left. by rewrite record_key_refresh.
    + rewrite list_lookup_alter_ne in Hj by done. right. split; [|eauto]. intros Heq. apply Hne.
      apply (NoDup_lookup _ i j (record_key v) Hnd); rewrite list_lookup_fmap;
        [rewrite Hi; exact (f_equal Some Hk)|rewrite Hj; exact (f_equal Some (eq_sym Heq))].
  - intros [[<- <-]|[Hne (j & Hj & <-)]].
    + exists i. by rewrite list_lookup_alter_eq, Hi.
    + exists j. rewrite list_lookup_alter_ne; [done|]. intros <-. congruence.
Qed.

Lemma by_key_snoc r vs : record_key r ∉ record_key <$> vs → by_key (vs ++ [r]) = <[record_key r := r]> (by_key vs).
Proof.
  intros Hnew. unfold by_key. rewrite fmap_app, list_to_map_app. cbn. rewrite insert_empty.
  symmetry. apply insert_union_singleton_r. apply not_elem_of_list_to_map_1. by rewrite <- list_fmap_compose.
Qed.

Lemma merge_one_step st v :
  merge_ok st → merge_ok (merge_one st v) ∧
  (by_key (ms_violations (merge_one st v)), ms_count (merge_one st v)) =
    absorb_event (by_key (ms_violations st), ms_count st) v.
Proof.
  intros [Hk Hi]. unfold merge_one, absorb_event. cbn [fst snd].
  destruct (ms_index st !! record_key v) as [i|] eqn:Hidx.
  - apply Hi in Hidx as (r & Hr & Hkr). split; [split|].
    + unfold keys_distinct. cbn. by rewrite keys_alter.
    + by apply index_alter.
    + apply pair_eq; split; [|done]. cbn [ms_violations]. rewrite (by_key_alter v i r) by done. symmetry. apply partial_alter_Some.
      replace (by_key (ms_violations st) !! record_key v) with (Some r); [done|]. symmetry. apply lookup_by_key; eauto.
  - assert (record_key v ∉ record_key <$> ms_violations st) as Hnew.
    { intros (r & Hkr & [i Hr]%list_elem_of_lookup)%list_elem_of_fmap.
      assert (ms_index st !! record_key v = Some i) by (apply Hi; eauto). congruence. }
    split; [split|].
    + unfold keys_distinct. cbn. rewrite fmap_app. apply NoDup_app. split_and!; [done| |apply NoDup_singleton].
      intros k Hin Heq%list_elem_of_singleton. by subst.
    + apply (index_snoc _ _ (new_record (ms_count st) v)); done.
    + apply pair_eq; split; [|done]. cbn [ms_violations]. rewrite by_key_snoc by done.
      change (record_key (new_record (ms_count st) v)) with (record_key v). symmetry. apply partial_alter_Some.
      assert (by_key (ms_violations st) !! record_key v = None) as ->; [|done].
      apply not_elem_of_list_to_map_1. by rewrite <- list_fmap_compose.
Qed.

(** ** What a merge does to a key *)

(** Events numbered in the order they are merged. *)
Fixpoint numbered (c : Z) (l : list ViolationRecord) : list (Z * ViolationRecord) :=
  match l with
  | [] => []
  | v :: l' => (c, v) :: numbered (s64 (c + 1)) l'
  end.

Definition events_of (k : violationRecordKey) (c : Z) (l : list ViolationRecord) : list (Z * ViolationRecord) :=
  filter (λ p, record_key p.2 = k) (numbered c l).

(** A record that absorbs the events [vs]: the latest time, one occurrence for each. *)
Definition refreshed (vs : list ViolationRecord) (r : ViolationRecord) : ViolationRecord :=
  MkViolation (vr_ID r) (foldl Z.max (vr_LastObserved r) (vr_LastObserved <$> vs))
    (vr_Occurrences r + Z.of_nat (length vs)) (vr_FirstObserved r) (vr_PodName r) (vr_ContainerName r)
    (vr_ExecutablePath r) (vr_ForeignRoot r) (vr_NodeName r) (vr_Action r)
    (vr_WorkloadName r) (vr_WorkloadKind r).

(** The record of a key after its events: the old one refreshed, or a new one that the first
    event creates. *)
Definition expected (old : option ViolationRecord) (evs : list (Z * ViolationRecord)) : option ViolationRecord :=
  match old, evs with
  | Some r, _ => Some (refreshed (snd <$> evs) r)
  | None, [] => None
  | None, (id, v) :: evs' => Some (refreshed (snd <$> evs') (new_record id v))
  end.

Lemma merge_loop st scraped :
  merge_ok st → merge_ok (foldl merge_one st scraped) ∧
  (by_key (ms_violations (foldl merge_one st scraped)), ms_count (foldl merge_one st scraped)) =
    foldl absorb_event (by_key (ms_violations st), ms_count st) scraped.
Proof.
  revert st. induction scraped as [|v scraped IH]; intros st Hok; [done|]. cbn [foldl].
  apply (merge_one_step _ v) in Hok as [Hok Hst]. rewrite <- Hst. by apply IH.
Qed.

Lemma absorb_lookup m c scraped k :
  fst (foldl absorb_event (m, c) scraped) !! k =
    foldl (λ o p, absorb p.1 p.2 o) (m !! k) (events_of k c scraped).
Proof.
  revert m c. induction scraped as [|v scraped IH]; intros m c; [done|]. cbn [foldl].
  unfold absorb_event at 2. cbn [fst snd]. rewrite IH. unfold events_of. cbn [numbered]. rewrite filter_cons. cbn [snd].
  case_decide as Hk.
  - subst. cbn [foldl fst snd]. by rewrite lookup_partial_alter_eq.
  - by rewrite lookup_partial_alter_ne.
Qed.

Lemma absorb_all_Some r evs :
  foldl (λ o p, absorb p.1 p.2 o) (Some r) evs = Some (foldl (λ r v, refresh v r) r (snd <$> evs)).
Proof. revert r. induction evs as [|[id v] evs IH]; intros r; [done|]. cbn [foldl absorb fst snd fmap list_fmap]. apply IH. Qed.

Lemma refresh_all r vs :
  0 <= vr_Occurrences r → vr_Occurrences r + Z.of_nat (length vs) < 2 ^ 63 →
  foldl (λ r v, refresh v r) r vs = refreshed vs r.
Proof.
  revert r. induction vs as [|v vs IH]; intros r H0 Hmax.
  { destruct r. unfold refreshed. cbn. f_equal. lia. }
  cbn [foldl length] in *. assert (vr_Occurrences (refresh v r) = vr_Occurrences r + 1) as Hocc.
  { cbn. apply s64_small. lia. }
  rewrite IH by lia. unfold refreshed. rewrite Hocc. cbn. f_equal; [|lia].
  f_equal. destruct (_ <? _) eqn:?; lia.
Qed.

Lemma length_events_of k c l : (length (events_of k c l) <= length l)%nat.
Proof.
  unfold events_of. etrans; [apply length_filter|].
  revert c. induction l as [|v l IH]; intros c; cbn; [done|]. by apply le_n_S.
Qed.

Lemma absorb_expected old evs :
  (∀ r, old = Some r → 0 <= vr_Occurrences r ∧ vr_Occurrences r + Z.of_nat (length evs) < 2 ^ 63) →
  Z.of_nat (length evs) < 2 ^ 63 →
  foldl (λ o p, absorb p.1 p.2 o) old evs = expected old evs.
Proof.
  intros Hold Hlen. destruct old as [r|].
  - destruct (Hold r eq_refl). rewrite absorb_all_Some, refresh_all; [done|lia|by rewrite length_fmap].
  - destruct evs as [|[id v] evs]; [done|]. cbn [foldl absorb fst snd length] in *.
    rewrite absorb_all_Some, refresh_all; [done|done|rewrite length_fmap; cbn; lia].
Qed.

(** ** The invariant of the status *)

Record records_ok (vs : list ViolationRecord) (count : Z) : Prop := {
  ro_keys : keys_distinct vs;
  ro_ids : NoDup (vr_ID <$> vs);
  ro_range r : r ∈ vs → 0 <= vr_ID r < count ∧ 1 <= vr_Occurrences r <= count;
  ro_count : 0 <= count;
}.

Record status_inv (s : violation_status) : Prop := {
  si_records : records_ok (st_Violations s) (ViolationCount s);
  si_sorted : StronglySorted (λ a b, newest_first a b = true) (st_Violations s);
  si_len : (length (st_Violations s) <= maxViolationRecords)%nat;
}.

Lemma records_ok_alter v i vs count :
  records_ok vs count → count + 1 < 2 ^ 63 → records_ok (alter (refresh v) i vs) (count + 1).
Proof.
  intros [H1 H2 H3 H4] Hmax. split; [|..|lia].
  - unfold keys_distinct. by rewrite keys_alter.
  - assert (vr_ID <$> alter (refresh v) i vs = vr_ID <$> vs) as ->; [|done].
    apply list_eq. intros j. rewrite !list_lookup_fmap. destruct (decide (i = j)) as [<-|Hne].
    + rewrite list_lookup_alter_eq. by destruct (vs !! i).
    + by rewrite list_lookup_alter_ne.
  - intros r [j Hj]%list_elem_of_lookup. destruct (decide (i = j)) as [<-|Hne].
    + rewrite list_lookup_alter_eq in Hj. destruct (vs !! i) as [r0|] eqn:Hi; [|done].
      apply list_elem_of_lookup_2, H3 in Hi. injection Hj as <-. cbn. rewrite s64_small by lia. lia.
    + rewrite list_lookup_alter_ne in Hj by done. apply list_elem_of_lookup_2, H3 in Hj. lia.
Qed.

Lemma records_ok_snoc v vs count :
  records_ok vs count → record_key v ∉ record_key <$> vs → count + 1 < 2 ^ 63 →
  records_ok (vs ++ [new_record count v]) (count + 1).
Proof.
  intros [H1 H2 H3 H4] Hnew Hmax. split; [|..|lia].
  - unfold keys_distinct. rewrite fmap_app. apply NoDup_app. split_and!; [done| |apply NoDup_singleton].
    intros k Hin Heq%list_elem_of_singleton. by subst.
  - rewrite fmap_app. apply NoDup_app. split_and!; [done| |apply NoDup_singleton].
    intros id (r & -> & Hr)%list_elem_of_fmap Heq%list_elem_of_singleton. apply H3 in Hr. cbn in Heq. lia.
  - intros r [Hr|Hr%list_elem_of_singleton]%elem_of_app; [apply H3 in Hr; lia|]. subst. cbn. lia.
Qed.

Lemma merge_one_records st v :
  merge_ok st → records_ok (ms_violations st) (ms_count st) → ms_count st + 1 < 2 ^ 63 →
  records_ok (ms_violations (merge_one st v)) (ms_count (merge_one st v)) ∧
  ms_count (merge_one st v) = ms_count st + 1.
Proof.
  intros [Hk Hi] Hr Hmax. pose proof (ro_count _ _ Hr). unfold merge_one.
  destruct (ms_index st !! record_key v) as [i|] eqn:Hidx; cbn [ms_violations ms_count]; rewrite s64_small by lia.
  - split; [by apply records_ok_alter|done].
  - split; [|done]. apply records_ok_snoc; [done| |done].
    intros (r & Hkr & [i Hr']%list_elem_of_lookup)%list_elem_of_fmap.
    assert (ms_index st !! record_key v = Some i) by (apply Hi; eauto). congruence.
Qed.

Lemma merge_records st scraped :
  merge_ok st → records_ok (ms_violations st) (ms_count st) →
  ms_count st + Z.of_nat (length scraped) < 2 ^ 63 →
  records_ok (ms_violations (foldl merge_one st scraped)) (ms_count (foldl merge_one st scraped)) ∧
  ms_count (foldl merge_one st scraped) = ms_count st + Z.of_nat (length scraped).
Proof.
  revert st. induction scraped as [|v scraped IH]; intros st Hok Hr Hmax; cbn [foldl length] in *.
  { split; [done|lia]. }
  destruct (merge_one_records st v) as [Hr' Hc']; [done|done|lia|].
  destruct (IH (merge_one st v)) as [Hr2 Hc2]; [by apply merge_one_step|done|lia|]. split; [done|lia].
Qed.

Lemma records_ok_perm vs vs' count : vs' ≡ₚ vs → records_ok vs count → records_ok vs' count.
Proof.
  intros Hp [H1 H2 H3 H4]. unfold keys_distinct in *. split; [|..|done].
  - unfold keys_distinct. by rewrite Hp.
  - by rewrite Hp.
  - intros r. rewrite Hp. apply H3.
Qed.

Lemma records_ok_take n vs count : records_ok vs count → records_ok (take n vs) count.
Proof.
  assert (∀ {B} (f : ViolationRecord → B), NoDup (f <$> vs) → NoDup (f <$> take n vs)) as Hnd.
  { intros B f. rewrite <- (take_drop n vs) at 1. rewrite fmap_app, NoDup_app. by intros [? _]. }
  intros [H1 H2 H3 H4]. split; [by apply Hnd|by apply Hnd| |done]. intros r Hr. apply H3. rewrite <- (take_drop n vs). apply elem_of_app. by left.
Qed.

Lemma StronglySorted_take {A} (R : A → A → Prop) n l : StronglySorted R l → StronglySorted R (take n l).
Proof.
  intros H. revert n. induction H as [|x l Hs IH Hx]; intros [|n]; cbn; try constructor; [auto|].
  by apply Forall_take.
Qed.

(** In a sorted list, what is cut off comes after what is kept. *)
Lemma StronglySorted_cut {A} (R : A → A → Prop) n l x y :
  StronglySorted R l → x ∈ take n l → y ∈ drop n l → R x y.
Proof.
  intros H. revert n. induction H as [|z l Hs IH Hz]; intros [|n]; cbn; try set_solver.
  intros [->|Hx]%elem_of_cons Hy; [|by eapply IH]. rewrite Forall_forall in Hz. apply Hz.
  rewrite <- (take_drop n l). apply elem_of_app. by right.
Qed.

Section merge.
  Context (s : violation_status) (scraped : list ViolationRecord).
  Context (I : status_inv s) (Hmax : ViolationCount s + Z.of_nat (length scraped) < 2 ^ 63).

Let st := foldl merge_one (MkMerge (st_Violations s) (index_records (st_Violations s)) (ViolationCount s)) scraped.

Lemma merge_start_ok : merge_ok (MkMerge (st_Violations s) (index_records (st_Violations s)) (ViolationCount s)).
Proof. destruct I as [[H1 _ _ _] _ _]. split; [done|]. by apply index_records_ok. Qed.

Lemma merged_records : records_ok (ms_violations st) (ms_count st) ∧ ms_count st = ViolationCount s + Z.of_nat (length scraped).
Proof. apply merge_records; [apply merge_start_ok|apply I|done]. Qed.

Lemma merged_lookup k :
  by_key (ms_violations st) !! k = expected (by_key (st_Violations s) !! k) (events_of k (ViolationCount s) scraped).
Proof.
  destruct (merge_loop _ scraped merge_start_ok) as [_ Heq]. apply (f_equal fst) in Heq. cbn [fst] in Heq.
  unfold st. rewrite Heq, absorb_lookup. cbn [ms_violations ms_count].
  pose proof (length_events_of k (ViolationCount s) scraped). pose proof (ro_count _ _ (si_records _ I)).
  apply absorb_expected; [|lia].
  intros r Hr. apply lookup_by_key in Hr as (i & Hi%list_elem_of_lookup_2 & _); [|apply I].
  apply (ro_range _ _ (si_records _ I)) in Hi. lia.
Qed.

Lemma merged_elem r :
  r ∈ ms_violations st ↔
  expected (by_key (st_Violations s) !! record_key r) (events_of (record_key r) (ViolationCount s) scraped) = Some r.
Proof.
  rewrite <- merged_lookup, lookup_by_key by apply merged_records. rewrite list_elem_of_lookup. naive_solver.
Qed.
End merge.

Lemma newest_first_sorted l : StronglySorted (λ a b, newest_first a b = true) (SortStableFunc newest_first l).
Proof. apply SortStableFunc_sorted; unfold newest_first; lia. Qed.

Lemma merge_status_inv s scraped :
  status_inv s → ViolationCount s + Z.of_nat (length scraped) < 2 ^ 63 →
  status_inv (mergeScrapedViolations scraped s).
Proof.
  intros I Hmax. destruct (merged_records s scraped I Hmax) as [Hrec _]. unfold mergeScrapedViolations.
  split; cbn [st_Violations ViolationCount];
    [|apply StronglySorted_take, newest_first_sorted|rewrite length_take; lia].
  apply records_ok_take. eapply records_ok_perm, Hrec. apply SortStableFunc_perm.
Qed.

(** C17: merging scraped events into the status of a policy.  The records stay consistent:
    one per (pod, container, executable, foreign flag, action), with distinct ids that were
    allocated from the counter, newest first, at most 100.  The counter grows by the number
    of events.  Every record kept is the old record of its key with the latest time and one
    more occurrence per event, or a new one that the first event of the key creates; and a
    record is dropped only when 100 records at least as recent are kept. *)
Theorem mergeScrapedViolations_spec s scraped :
  status_inv s → ViolationCount s + Z.of_nat (length scraped) < 2 ^ 63 →
  let s' := mergeScrapedViolations scraped s in
  let record_of k := expected (by_key (st_Violations s) !! k) (events_of k (ViolationCount s) scraped) in
  status_inv s' ∧ ViolationCount s' = ViolationCount s + Z.of_nat (length scraped) ∧
  (∀ r, r ∈ st_Violations s' → record_of (record_key r) = Some r) ∧
  (∀ k r, record_of k = Some r → r ∈ st_Violations s' ∨
     length (st_Violations s') = maxViolationRecords ∧
     ∀ r', r' ∈ st_Violations s' → vr_LastObserved r <= vr_LastObserved r').
Proof.
  intros I Hmax s' record_of. destruct (merged_records s scraped I Hmax) as [Hrec Hcount].
  pose proof (merged_elem s scraped I Hmax) as Helem. pose proof (merged_lookup s scraped I Hmax) as Hlk.
  unfold s', mergeScrapedViolations. set (st := foldl merge_one _ scraped) in *.
  cbn [st_Violations ViolationCount]. pose proof (SortStableFunc_perm newest_first (ms_violations st)) as Hp.
  pose proof (newest_first_sorted (ms_violations st)) as Hs. set (sorted := SortStableFunc newest_first _) in *.
  split_and!; [by apply merge_status_inv|done|..].
  - intros r Hr. unfold record_of. apply (proj1 (Helem r)), (elem_of_perm _ _ _ Hp). rewrite <- (take_drop maxViolationRecords sorted).
    apply elem_of_app. by left.
  - intros k r Hr. unfold record_of in Hr. rewrite <- Hlk in Hr. apply lookup_by_key in Hr as (i & Hi & _); [|apply Hrec].
    apply list_elem_of_lookup_2, (elem_of_perm _ _ _ (symmetry Hp)) in Hi.
    rewrite <- (take_drop maxViolationRecords sorted) in Hi.
    apply elem_of_app in Hi as [Hi|Hi]; [by left|]. right. split.
    + rewrite length_take. apply list_elem_of_lookup in Hi as [j Hj%lookup_lt_Some]. rewrite length_drop in Hj. lia.
    + intros r' Hr'. pose proof (StronglySorted_cut _ _ _ _ _ Hs Hr' Hi) as Hle. unfold newest_first in Hle. lia.
Qed.

(** The events of a key, in the order they are merged. *)
Lemma events_of_key k c l : snd <$> events_of k c l = filter (λ v, record_key v = k) l.
Proof.
  unfold events_of. revert c. induction l as [|v l IH]; intros c; [done|]. cbn [numbered].
  rewrite !filter_cons. cbn [snd]. case_decide; [|apply IH]. cbn [fmap list_fmap snd]. f_equal. apply IH.
Qed.

Lemma foldl_max_le t l : Forall (λ x, x <= t) l → foldl Z.max t l = t.
Proof.
  revert t. induction l as [|x l IH]; intros t Hl; [done|]. apply Forall_cons in Hl as [Hx Hl].
  cbn [foldl]. rewrite Z.max_l by done. by apply IH.
Qed.

Lemma StronglySorted_filter {A} (R : A → A → Prop) (Q : A → Prop) `{∀ x, Decision (Q x)} l :
  StronglySorted R l → StronglySorted R (filter Q l).
Proof.
  induction 1 as [|x l Hs IH Hx]; [constructor|]. rewrite filter_cons. case_decide; [|done].
  constructor; [done|]. rewrite Forall_forall in Hx |- *. intros y [_ Hy]%list_elem_of_filter. by apply Hx.
Qed.

(** The first observation of a violation is the last one of its batch.  Agents are drained
    newest first; when several events of a new violation arrive in one scrape, the record says
    it was first observed at the time of the newest, although older ones were seen. *)
Theorem first_observed_is_newest s scraped r :
  status_inv s → ViolationCount s + Z.of_nat (length scraped) < 2 ^ 63 →
  StronglySorted (λ a b, newest_first a b = true) scraped →
  r ∈ st_Violations (mergeScrapedViolations scraped s) → by_key (st_Violations s) !! record_key r = None →
  vr_FirstObserved r = vr_LastObserved r ∧
  ∀ v, v ∈ scraped → record_key v = record_key r → vr_LastObserved v <= vr_FirstObserved r.
Proof.
  intros I Hmax Hsorted Hr Hnew. unfold mergeScrapedViolations in Hr. cbn [st_Violations] in Hr.
  assert (r ∈ SortStableFunc newest_first (ms_violations (foldl merge_one
    (MkMerge (st_Violations s) (index_records (st_Violations s)) (ViolationCount s)) scraped))) as Hin.
  { rewrite <- (take_drop maxViolationRecords). apply elem_of_app. by left. }
  rewrite SortStableFunc_perm in Hin. apply merged_elem in Hin; [|done..]. rewrite Hnew in Hin.
  pose proof (events_of_key (record_key r) (ViolationCount s) scraped) as Hevs.
  pose proof (StronglySorted_filter _ (λ v, record_key v = record_key r) _ Hsorted) as Hs. rewrite <- Hevs in Hs.
  destruct (events_of (record_key r) (ViolationCount s) scraped) as [|[id v0] evs]; [done|]. cbn [fmap list_fmap snd] in *.
  apply StronglySorted_inv in Hs as [_ Hs]. rewrite Forall_forall in Hs.
  assert (Forall (λ x, x <= vr_LastObserved v0) (vr_LastObserved <$> (snd <$> evs))) as Hle.
  { apply Forall_forall. intros t (v & -> & Hv)%list_elem_of_fmap. apply Hs in Hv. unfold newest_first in Hv. lia. }
  unfold expected in Hin. injection Hin as Hin. subst r. cbn [refreshed vr_FirstObserved vr_LastObserved new_record].
  rewrite foldl_max_le by done. split; [done|]. intros v Hv Hk.
  assert (v ∈ v0 :: (snd <$> evs)) as Hv' by (rewrite Hevs; by apply list_elem_of_filter).
  apply elem_of_cons in Hv' as [->|Hv']; [done|]. apply Hs in Hv'. unfold newest_first in Hv'. lia.
Qed.

(** ** Acknowledging, from the command line to the status *)

(** The id an annotation acknowledges. *)
Definition ack_id (k : string) : option Z := CutPrefix k ViolationAcknowledgePrefix ≫= ParseInt.

Lemma ack_id_key id : - 2 ^ 63 <= id < 2 ^ 63 → ack_id (violationAcknowledgeAnnotationKey id) = Some id.
Proof.
  intros H. unfold ack_id, violationAcknowledgeAnnotationKey. rewrite CutPrefix_app. by apply ParseInt_FormatInt.
Qed.

Lemma collect_ack_id m k reason :
  collect_ack m (k, reason) = match ack_id k with Some id => <[id := MkAnnotationInfo k reason]> m | None => m end.
Proof. unfold collect_ack, ack_id. cbn [fst snd]. by destruct (CutPrefix k ViolationAcknowledgePrefix). Qed.

Lemma collect_none m l : (∀ kv, kv ∈ l → ack_id kv.1 = None) → foldl collect_ack m l = m.
Proof.
  revert m. induction l as [|[k r] l IH]; intros m Hl; [done|]. cbn [foldl].
  assert (ack_id k = None) as Hk by (apply (Hl (k, r)); left).
  rewrite collect_ack_id, Hk. apply IH. intros kv Hkv. apply Hl. by right.
Qed.

(** The annotations of one acknowledgement. *)
Lemma collect_one `{R : GoRange, !GoRangeOk R} key id reason annotations :
  ack_id key = Some id → (∀ k r, annotations !! k = Some r → ack_id k = None) →
  foldl collect_ack ∅ (range (<[key := reason]> annotations)) = {[ id := MkAnnotationInfo key reason ]}.
Proof.
  intros Hid Hnone. assert (annotations !! key = None) as Hkey.
  { destruct (annotations !! key) eqn:H; [|done]. apply Hnone in H. congruence. }
  assert (range (<[key := reason]> annotations) ≡ₚ (key, reason) :: map_to_list annotations) as Hp.
  { rewrite range_perm. by apply map_to_list_insert. }
  symmetry in Hp. apply Permutation_cons_inv_l in Hp as (l1 & l2 & Heq & Hp). rewrite Heq, foldl_app. cbn [foldl].
  assert (∀ kv, kv ∈ l1 ++ l2 → ack_id kv.1 = None) as Hrest.
  { intros [k r] Hkv. rewrite <- Hp, elem_of_map_to_list in Hkv. by eapply Hnone. }
  rewrite (collect_none ∅ l1), collect_ack_id, Hid, collect_none; [apply insert_empty|..];
    intros kv Hkv; apply Hrest, elem_of_app; auto.
Qed.

(** Acknowledging one id takes the record with it out of the list. *)
Lemma ack_violations_one now id info vs annotations :
  NoDup (vr_ID <$> vs) →
  ack_violations now {[ id := info ]} vs annotations =
    (filter (λ r, vr_ID r ≠ id) vs,
     if decide (id ∈ vr_ID <$> vs) then delete (annotationKey info) annotations else annotations,
     (λ v, MkAck v (ai_reason info) now) <$> filter (λ r, vr_ID r = id) vs).
Proof.
  revert annotations. induction vs as [|v vs IH]; intros annotations Hnd; [done|].
  cbn [ack_violations fmap list_fmap] in *. apply NoDup_cons in Hnd as [Hnew Hnd]. rewrite !filter_cons.
  destruct (decide (vr_ID v = id)) as [<-|Hne].
  - rewrite lookup_singleton_eq, IH by done. rewrite (decide_False (P := vr_ID v ∈ _)) by done.
    rewrite (decide_True (P := vr_ID v ∈ _)) by left. by rewrite (decide_False (P := ¬ vr_ID v = vr_ID v)) by (intros []; done).
  - rewrite lookup_singleton_ne, IH by done. rewrite (decide_True (P := vr_ID v ≠ id)) by done. cbn.
    by rewrite (decide_ext _ (id ∈ vr_ID v :: (vr_ID <$> vs))) by set_solver.
Qed.

Lemma ack_first old ack :
  Forall (λ a, ak_AcknowledgedAt a < ak_AcknowledgedAt ack) old →
  head (take maxViolationRecords (SortStableFunc newest_ack_first (old ++ [ack]))) = Some ack.
Proof.
  intros Hold. pose proof (SortStableFunc_perm newest_ack_first (old ++ [ack])) as Hp.
  assert (StronglySorted (λ a b, newest_ack_first a b = true) (SortStableFunc newest_ack_first (old ++ [ack]))) as Hs.
  { apply SortStableFunc_sorted; unfold newest_ack_first; lia. }
  destruct (SortStableFunc newest_ack_first (old ++ [ack])) as [|h l].
  { by apply Permutation_nil, app_eq_nil in Hp as [_ ?]. }
  cbn. f_equal. assert (h ∈ old ++ [ack]) as Hh by (rewrite <- Hp; left).
  apply elem_of_app in Hh as [Hh|Hh%list_elem_of_singleton]; [|done].
  assert (ack ∈ h :: l) as Hack by (rewrite Hp; apply elem_of_app; right; by left).
  rewrite Forall_forall in Hold. apply Hold in Hh as Hlt.
  apply elem_of_cons in Hack as [Hack|Hack]; [done|]. apply StronglySorted_inv in Hs as [_ Hs].
  rewrite Forall_forall in Hs. apply Hs in Hack. unfold newest_ack_first in Hack. lia.
Qed.

Lemma filter_none {A} (P : A → Prop) `{∀ x, Decision (P x)} (l : list A) :
  (∀ x, x ∈ l → ¬ P x) → filter P l = [].
Proof.
  induction l as [|x l IH]; intros Hl; [done|]. rewrite filter_cons, decide_False by (apply Hl; left).
  apply IH. intros y Hy. apply Hl. by right.
Qed.

Lemma filter_one_id v vs :
  NoDup (vr_ID <$> vs) → v ∈ vs → filter (λ r, vr_ID r = vr_ID v) vs = [v].
Proof.
  induction vs as [|w vs IH]; intros Hnd Hv; [by apply elem_of_nil in Hv|]. cbn in Hnd.
  apply NoDup_cons in Hnd as [Hnew Hnd]. rewrite filter_cons. apply elem_of_cons in Hv as [<-|Hv].
  - rewrite decide_True by done. f_equal. apply filter_none.
    intros r Hr Heq. apply Hnew. rewrite <- Heq. by apply list_elem_of_fmap_2.
  - rewrite decide_False; [auto|]. intros Heq. apply Hnew. rewrite Heq. by apply list_elem_of_fmap_2.
Qed.

(** An acknowledgement makes the round trip.  The annotation that [kubectl] writes for a
    violation of the status, when no other acknowledgement is pending, makes the next status
    computation move exactly that violation to the acknowledged ones (with the reason and the
    time, first in the list), and removes the annotation again. *)
Theorem acknowledge_roundtrip `{R : GoRange, !GoRangeOk R} s v reason now annotations :
  status_inv s → ViolationCount s < 2 ^ 63 → v ∈ st_Violations s →
  (∀ k r, annotations !! k = Some r → ack_id k = None) →
  Forall (λ a, ak_AcknowledgedAt a < now) (st_Acknowledged s) →
  let '(key, unchanged, annotated) := applyAckAnnotation (vr_ID v) reason annotations in
  let '(acked, annotations', s') := acknowledgeViolationsFromAnnotations now annotated s in
  unchanged = false ∧ acked = [MkAck v reason now] ∧ annotations' = annotations ∧
  st_Violations s' = filter (λ r, vr_ID r ≠ vr_ID v) (st_Violations s) ∧
  head (st_Acknowledged s') = Some (MkAck v reason now).
Proof.
  intros [[_ Hids Hrange _] _ _] Hmax Hv Hnone Hold. apply Hrange in Hv as Hr.
  assert (ack_id (violationAcknowledgeAnnotationKey (vr_ID v)) = Some (vr_ID v)) as Hid by (apply ack_id_key; lia).
  unfold applyAckAnnotation. set (key := violationAcknowledgeAnnotationKey (vr_ID v)) in *.
  assert (annotations !! key = None) as Hkey.
  { destruct (annotations !! key) eqn:H; [|done]. apply Hnone in H. congruence. }
  rewrite Hkey. unfold acknowledgeViolationsFromAnnotations.
  rewrite (collect_one key (vr_ID v) reason annotations Hid Hnone), map_size_insert_None by done.
  rewrite map_size_singleton. cbn [Nat.eqb]. rewrite ack_violations_one by done.
  rewrite filter_one_id, decide_True by (done || by apply list_elem_of_fmap_2).
  cbn [fmap list_fmap annotationKey ai_reason st_Violations st_Acknowledged].
  split_and!; [done|done|by apply delete_insert_id|done|by apply ack_first].
Qed.

(** ** Instances *)

Definition scraped_ls (t : Z) : ViolationRecord :=
  MkViolation 0 t 0 0 "pod" "web" (bytes_of_string "/bin/ls") false "node1" "protect" "app" "Deployment".
Definition scraped_id (t : Z) : ViolationRecord :=
  MkViolation 0 t 0 0 "pod" "web" (bytes_of_string "/bin/id") false "node1" "protect" "app" "Deployment".

Definition no_violations : violation_status := MkViolationStatus 0 0 [] [].

Lemma no_violations_inv : status_inv no_violations.
Proof. split; [split; [apply NoDup_nil_2|apply NoDup_nil_2|by intros ? ?%elem_of_nil|done]|constructor|cbn; lia]. Qed.

(** Three events of two keys. *)
Definition two_violations : violation_status :=
  mergeScrapedViolations [scraped_ls 7; scraped_id 6; scraped_ls 5] no_violations.

Lemma two_violations_value :
  st_Violations two_violations = [refresh (scraped_ls 5) (new_record 0 (scraped_ls 7)); new_record 1 (scraped_id 6)].
Proof. vm_compute. reflexivity. Qed.

Lemma mergeScrapedViolations_spec_witness :
  status_inv two_violations ∧ ViolationCount two_violations = 3 ∧
  (vr_Occurrences <$> st_Violations two_violations) = [2; 1].
Proof.
  destruct (mergeScrapedViolations_spec no_violations [scraped_ls 7; scraped_id 6; scraped_ls 5])
    as (H1 & H2 & _); [exact no_violations_inv|reflexivity|].
  split_and!; [exact H1|exact H2|vm_compute; reflexivity].
Defined.

(** Two events of the same violation, at [5] and at [7]: the record says [7]. *)
Lemma first_observed_is_newest_witness :
  let r := refresh (scraped_ls 5) (new_record 0 (scraped_ls 7)) in
  r ∈ st_Violations (mergeScrapedViolations [scraped_ls 7; scraped_ls 5] no_violations) ∧ vr_FirstObserved r = 7.
Proof.
  intros r. assert (st_Violations (mergeScrapedViolations [scraped_ls 7; scraped_ls 5] no_violations) = [r]) as Hv
    by (vm_compute; reflexivity).
  split; [rewrite Hv; left|].
  destruct (first_observed_is_newest no_violations [scraped_ls 7; scraped_ls 5] r) as [-> _];
    [exact no_violations_inv|reflexivity|repeat constructor|rewrite Hv; left|reflexivity|reflexivity].
Defined.

#[local] Existing Instances list_range list_range_ok.

(** The violation with id [1] is acknowledged. *)
Lemma acknowledge_roundtrip_witness :
  let '(_, _, annotated) := applyAckAnnotation 1 "known" ∅ in
  let '(acked, annotations', s') := acknowledgeViolationsFromAnnotations 20 annotated two_violations in
  acked = [MkAck (new_record 1 (scraped_id 6)) "known" 20] ∧ annotations' = ∅ ∧ (vr_ID <$> st_Violations s') = [0].
Proof.
  pose proof (acknowledge_roundtrip two_violations (new_record 1 (scraped_id 6)) "known" 20 ∅) as H.
  change (vr_ID (new_record 1 (scraped_id 6))) with 1 in H.
  destruct (applyAckAnnotation 1 "known" ∅) as [[key unchanged] annotated].
  destruct (acknowledgeViolationsFromAnnotations 20 annotated two_violations) as [[acked annotations'] s'].
  destruct H as (_ & -> & -> & Hv & _); [|reflexivity|..|done|by constructor|].
  - apply merge_status_inv; [exact no_violations_inv|reflexivity].
  - rewrite two_violations_value. right. left.
  - split_and!; [done|done|]. rewrite Hv, two_violations_value. reflexivity.
Defined.
