(* ===== verification/PolicyStatus.v ===== *)
(** * The status of a policy

    [src/api/v1alpha1/policy_node_status.go] and [workloadpolicy_types.go]: how the status of a
    policy is recomputed from the nodes and the scraped violations;
    [src/internal/controller/workloadpolicystatus_sync.go] and
    [workloadpolicystatus_helpers.go]: how the controller collects both from the agents and
    writes the result. *)
From Stdlib Require Import Sorting.Sorted.
From S2P Require Import Prelude GoStd CLayout ProgramTypes KernelLayout Kernel ConcreteKernel StringMaps PolicyValues CgroupTracker Events AgentMaps Resolver ResolverSpec ViolationBuffer Violations.
Local Open Scope Z_scope.

(** ** Nodes *)

Definition maxNodesWithIssues : nat := 20.
Definition maxTransitioningNodes : nat := 20.
Definition truncationString : string := "...".
Definition truncationMessage : string := "Maximum number of nodes with issues reached".

Inductive PolicyCode :=
  | PolicyUnknown | PolicyReady | PolicyMissing | PolicyFailed | PolicyTransitioning
  | PolicyOther (code : string).

#[export] Instance PolicyCode_eq_dec : EqDecision PolicyCode.
Proof. solve_decision. Defined.

Record NodePolicyStatus := MkNodePolicyStatus {
  ps_Code : PolicyCode;
  ps_Message : string;
  ps_Since : Z;
}.

Definition no_status : NodePolicyStatus := MkNodePolicyStatus PolicyUnknown "" 0.

Record PolicyNodeStatus := MkPolicyNodeStatus {
  pn_Status : NodePolicyStatus;
  pn_NodeName : string;
}.

Inductive Phase := NoPhase | Transitioning | Failed | Ready.

(** The part of the status that is about nodes. *)
Record node_stats := MkNodeStats {
  NodesWithIssues : gmap string NodePolicyStatus;
  TotalNodes : Z;
  SuccessfulNodes : Z;
  FailedNodes : Z;
  TransitioningNodes : Z;
  NodesTransitioning : list PolicyNodeStatus;
  st_Phase : Phase;
}.

(** The zero time is [0]. *)
Definition transitionTime (previous current : NodePolicyStatus) (now : Z) : Z :=
  if bool_decide (ps_Code previous = ps_Code current) && negb (ps_Since previous =? 0)
  then ps_Since previous else now.

Definition set_since (t : Z) (st : NodePolicyStatus) : NodePolicyStatus :=
  MkNodePolicyStatus (ps_Code st) (ps_Message st) t.

Definition addTransitioningNode (status : PolicyNodeStatus) (previous : NodePolicyStatus) (now : Z)
  (s : node_stats) : node_stats :=
  let n := length (NodesTransitioning s) in
  let nodes :=
    if (n <? maxTransitioningNodes - 1)%nat then
      NodesTransitioning s ++
        [MkPolicyNodeStatus (set_since (transitionTime previous (pn_Status status) now) (pn_Status status))
           (pn_NodeName status)]
    else if (n =? maxTransitioningNodes - 1)%nat then
      NodesTransitioning s ++ [MkPolicyNodeStatus no_status truncationString]
    else NodesTransitioning s in
  MkNodeStats (NodesWithIssues s) (TotalNodes s) (SuccessfulNodes s) (FailedNodes s)
    (s64 (TransitioningNodes s + 1)) nodes (st_Phase s).

Definition addNodeIssue (nodeName : string) (status previous : NodePolicyStatus) (now : Z)
  (s : node_stats) : node_stats :=
  let n := size (NodesWithIssues s) in
  let nodes :=
    if (n <? maxNodesWithIssues - 1)%nat then
      <[nodeName := set_since (transitionTime previous status now) status]> (NodesWithIssues s)
    else if (n =? maxNodesWithIssues - 1)%nat then
      <[truncationString := MkNodePolicyStatus PolicyFailed truncationMessage 0]> (NodesWithIssues s)
    else NodesWithIssues s in
  MkNodeStats nodes (TotalNodes s) (SuccessfulNodes s) (s64 (FailedNodes s + 1))
    (TransitioningNodes s) (NodesTransitioning s) (st_Phase s).

Definition resetPolicyNodeStatus (totalNodes : Z) (s : node_stats) : node_stats :=
  MkNodeStats ∅ totalNodes 0 0 0 [] (st_Phase s).

Definition nodeStatus (s : node_stats) (nodeName : string) : NodePolicyStatus :=
  match NodesWithIssues s !! nodeName with
  | Some ps => ps
  | None =>
      match list_find (λ ns, pn_NodeName ns = nodeName) (NodesTransitioning s) with
      | Some (_, ns) => pn_Status ns
      | None => no_status
      end
  end.

Definition addSuccessfulNode (s : node_stats) : node_stats :=
  MkNodeStats (NodesWithIssues s) (TotalNodes s) (s64 (SuccessfulNodes s + 1)) (FailedNodes s)
    (TransitioningNodes s) (NodesTransitioning s) (st_Phase s).

(** The loop over the nodes. *)
Fixpoint add_nodes (previous : node_stats) (nodes : list PolicyNodeStatus) (now : Z) (s : node_stats)
  : go_result node_stats :=
  match nodes with
  | [] => Ok s
  | status :: nodes' =>
      let prev := nodeStatus previous (pn_NodeName status) in
      let st := pn_Status status in
      match ps_Code st with
      | PolicyReady => add_nodes previous nodes' now (addSuccessfulNode s)
      | PolicyTransitioning => add_nodes previous nodes' now (addTransitioningNode status prev now s)
      | PolicyFailed | PolicyMissing =>
          add_nodes previous nodes' now
            (addNodeIssue (pn_NodeName status) (MkNodePolicyStatus (ps_Code st) (ps_Message st) 0) prev now s)
      | PolicyUnknown | PolicyOther _ => Err "unknown node status state"
      end
  end.

Definition name_le (a b : PolicyNodeStatus) : bool := String.leb (pn_NodeName a) (pn_NodeName b).

Definition compute_phase (s : node_stats) : Phase :=
  if SuccessfulNodes s =? TotalNodes s then Ready
  else if 0 <? FailedNodes s then Failed
  else if 0 <? TransitioningNodes s then Transitioning
  else st_Phase s.

(** Nodes are compared by name; names are distinct, so the order is determined. *)
Definition processPolicyNodeStatus (previous : node_stats) (nodes : list PolicyNodeStatus) (now : Z)
  (s : node_stats) : go_result node_stats :=
  match add_nodes previous nodes now (resetPolicyNodeStatus (Z.of_nat (length nodes)) s) with
  | Ok s1 =>
      let s2 := MkNodeStats (NodesWithIssues s1) (TotalNodes s1) (SuccessfulNodes s1) (FailedNodes s1)
                  (TransitioningNodes s1) (SortStableFunc name_le (NodesTransitioning s1)) (st_Phase s1) in
      if negb (TotalNodes s2 =? s64 (s64 (FailedNodes s2 + TransitioningNodes s2) + SuccessfulNodes s2))
      then Err "inconsistent node stats"
      else Ok (MkNodeStats (NodesWithIssues s2) (TotalNodes s2) (SuccessfulNodes s2) (FailedNodes s2)
                 (TransitioningNodes s2) (NodesTransitioning s2) (compute_phase s2))
  | Err e => Err e
  | Panic e => Panic e
  end.

(** ** The whole status *)

Record WorkloadPolicyStatus := MkWorkloadPolicyStatus {
  ObservedGeneration : Z;
  ws_nodes : node_stats;
  ws_violations : violation_status;
}.

(** A policy as the API server stores it. *)
Record PolicyObject := MkPolicyObject {
  po_wp : WorkloadPolicy;
  po_Generation : Z;
  po_Annotations : gmap string string;
  po_Status : WorkloadPolicyStatus;
}.

Definition RecomputeStatus `{R : GoRange} (nodes : list PolicyNodeStatus) (scraped : list ViolationRecord)
  (now : Z) (po : PolicyObject) : go_result (list AcknowledgedViolationRecord * PolicyObject) :=
  let s := po_Status po in
  match processPolicyNodeStatus (ws_nodes s) nodes now (ws_nodes s) with
  | Ok ns =>
      let v1 := mergeScrapedViolations scraped (ws_violations s) in
      let v2 := clearAllowedViolations (wp_RulesByContainer (po_wp po)) v1 in
      let '(acknowledged, annotations, v3) := acknowledgeViolationsFromAnnotations now (po_Annotations po) v2 in
      let v4 := MkViolationStatus (ViolationCount v3) (Z.of_nat (length (st_Violations v3)))
                  (st_Violations v3) (st_Acknowledged v3) in
      Ok (acknowledged,
          MkPolicyObject (po_wp po) (po_Generation po) annotations
            (MkWorkloadPolicyStatus (po_Generation po) ns v4))
  | Err e => Err e
  | Panic e => Panic e
  end.

(** ** What the controller asks the agents *)

Definition policyModeMatchesExpected (mode : PolicyModeProto) (expectedMode : string) : bool :=
  if (expectedMode =? "protect")%string then
    match mode with PROTO_MODE_PROTECT => true | _ => false end
  else if (expectedMode =? "monitor")%string then
    match mode with PROTO_MODE_MONITOR => true | _ => false end
  else false.

Definition policyNodeStatus (expectedMode : string) (policyStatus : option PolicyStatus)
  : PolicyCode * string * go_error :=
  match policyStatus with
  | None => (PolicyMissing, "policy not found on the node", None)
  | Some ps =>
      match PolicyStatus_State ps with
      | POLICY_STATE_READY =>
          if policyModeMatchesExpected (PolicyStatus_Mode ps) expectedMode
          then (PolicyReady, "", None) else (PolicyTransitioning, "", None)
      | POLICY_STATE_ERROR =>
          let msg := PolicyStatus_Message ps in
          (PolicyFailed, if (msg =? "")%string then "policy is in error state" else msg, None)
      | POLICY_STATE_UNSPECIFIED => (PolicyUnknown, "", Some "unknown policy state")
      end
  end.

(** What happens to a scrape: the agent answers, is not reached, or drains its buffer and the
    answer is lost. *)
Inductive scrape_outcome := Delivered | NotReached | AnswerLost.

(** The agent of a node, as its client sees it. *)
Record agent := MkAgent {
  ag_policies : go_result (gmap string PolicyStatus);
  ag_buffer : violationbuf.Buffer;
  ag_scrape : scrape_outcome;
}.

Section sync.
  Context `{R : GoRange, P : Timestamppb}.

(** [ListPoliciesStatus] of the observer: a copy of the resolver's statuses. *)
Definition ListPoliciesStatus (r : Resolver) : gmap string PolicyStatus := GetPolicyStatuses r.

Definition status_message (code : PolicyCode) (message nodeName : string) : PolicyNodeStatus :=
  MkPolicyNodeStatus (MkNodePolicyStatus code message 0) nodeName.

(** The status of [policy] on one node. *)
Definition node_status_of (nodeName : string) (client : option agent) (policy : PolicyObject) : PolicyNodeStatus :=
  match client with
  | None => status_message PolicyMissing "No agent client available" nodeName
  | Some a =>
      match ag_policies a with
      | Ok nodePolicies =>
          if (size nodePolicies =? 0)%nat then status_message PolicyMissing "no policies found on the node" nodeName
          else
            match policyNodeStatus (wp_Mode (po_wp policy)) (nodePolicies !! NamespacedName (po_wp policy)) with
            | (code, message, None) => status_message code message nodeName
            | (_, _, Some e) => status_message PolicyFailed e nodeName
            end
      | _ => status_message PolicyMissing "failed to get policies status" nodeName
      end
  end.

Definition append_to {A} (k : string) (x : A) (m : gmap string (list A)) : gmap string (list A) :=
  partial_alter (λ o, Some (default [] o ++ [x])) k m.

(** Both loops of [getNodeStatusByPolicy]. *)
Definition getNodeStatusByPolicy (clients : gmap string (option agent)) (policies : list PolicyObject)
  : gmap string (list PolicyNodeStatus) :=
  let start := foldl (λ m policy, <[NamespacedName (po_wp policy) := []]> m) ∅ policies in
  foldl (λ m nc, foldl (λ m policy,
      append_to (NamespacedName (po_wp policy)) (node_status_of nc.1 nc.2 policy) m) m policies)
    start (range clients).

Definition record_of_pb (v : pbViolationRecord) : ViolationRecord :=
  MkViolation 0 (AsTime (pb_Timestamp v)) 0 0 (pb_PodName v) (pb_ContainerName v) (pb_ExecutablePath v)
    (pb_ForeignRoot v) (pb_NodeName v) (pb_Action v) (pb_WorkloadName v) (pb_WorkloadKind v).

(** One call of [ScrapeViolations]: the answer and the agent afterwards.  A panic of the agent
    is an error of the call. *)
Definition scrape (a : agent) : option (list pbViolationRecord) * agent :=
  match ag_scrape a with
  | NotReached => (None, a)
  | outcome =>
      match ScrapeViolations (ag_buffer a) with
      | Ok (records, b') =>
          (match outcome with Delivered => Some records | _ => None end,
           MkAgent (ag_policies a) b' (ag_scrape a))
      | _ => (None, a)
      end
  end.

Definition add_scraped (m : gmap string (list ViolationRecord)) (v : pbViolationRecord)
  : gmap string (list ViolationRecord) := append_to (pb_PolicyName v) (record_of_pb v) m.

(** The loop over the clients: the violations and the clients afterwards. *)
Fixpoint get_violations (l : list (string * option agent)) (m : gmap string (list ViolationRecord))
  (clients : gmap string (option agent)) : gmap string (list ViolationRecord) * gmap string (option agent) :=
  match l with
  | [] => (m, clients)
  | (_, None) :: l' => get_violations l' m clients
  | (nodeName, Some a) :: l' =>
      let '(answer, a') := scrape a in
      let clients' := <[nodeName := Some a']> clients in
      match answer with
      | None => get_violations l' m clients'
      | Some pbViolations => get_violations l' (foldl add_scraped m pbViolations) clients'
      end
  end.

Definition getViolationsByPolicy (clients : gmap string (option agent))
  : gmap string (list ViolationRecord) * gmap string (option agent) :=
  get_violations (range clients) ∅ clients.

(** ** Writing the result *)

Inductive patch_result := PatchOk | PatchNotFound | PatchError (e : string).

Definition managePatchError (r : patch_result) : go_error :=
  match r with PatchError e => Some e | _ => None end.

(** The policy in memory, the one the API server stores, the acknowledgements that are
    logged, and the error.  [status_patch] and [patch] are the answers of the API server. *)
Definition processWorkloadPolicy (wp : PolicyObject) (nodes : list PolicyNodeStatus)
  (scrapedViolations : list ViolationRecord) (now : Z) (status_patch patch : patch_result)
  : PolicyObject * PolicyObject * list AcknowledgedViolationRecord * go_error :=
  match RecomputeStatus nodes scrapedViolations now wp with
  | Ok (acknowledged, newPolicy) =>
      match status_patch with
      | PatchOk =>
          let stored := MkPolicyObject (po_wp wp) (po_Generation wp) (po_Annotations wp) (po_Status newPolicy) in
          match patch with
          | PatchOk => (newPolicy, newPolicy, acknowledged, None)
          | r => (wp, stored, acknowledged, managePatchError r)
          end
      | r => (wp, wp, [], managePatchError r)
      end
  | Err e => (wp, wp, [], Some e)
  | Panic e => (wp, wp, [], Some e)
  end.

(** [sync]: [pool1] and [pool2] are the clients the two calls of [UpdatePool] return, and
    [patches] answers the patches of each policy.  The policies as stored afterwards, and the
    clients. *)
Definition sync (wps : list PolicyObject) (pool1 pool2 : go_result (gmap string (option agent))) (now : Z)
  (patches : string → patch_result * patch_result) : go_result (list PolicyObject * gmap string (option agent)) :=
  match wps with
  | [] => Ok ([], ∅)
  | _ =>
      match pool1 with
      | Ok clients =>
          let nodeStatusByPolicy := getNodeStatusByPolicy clients wps in
          match pool2 with
          | Ok clients2 =>
              let '(violationsByPolicy, clients2') := getViolationsByPolicy clients2 in
              Ok ((λ wp,
                let policyName := NamespacedName (po_wp wp) in
                let '(_, stored, _, _) :=
                  processWorkloadPolicy wp (default [] (nodeStatusByPolicy !! policyName))
                    (default [] (violationsByPolicy !! policyName)) now
                    (patches policyName).1 (patches policyName).2 in
                stored) <$> wps, clients2')
          | Err e => Err e
          | Panic e => Panic e
          end
      | Err e => Err e
      | Panic e => Panic e
      end
  end.
End sync.

(** ** The node status *)

Definition code_of (n : PolicyNodeStatus) : PolicyCode := ps_Code (pn_Status n).
Definition is_ready (n : PolicyNodeStatus) : bool := bool_decide (code_of n = PolicyReady).
Definition is_transitioning (n : PolicyNodeStatus) : bool := bool_decide (code_of n = PolicyTransitioning).
Definition is_failing (n : PolicyNodeStatus) : bool :=
  bool_decide (code_of n = PolicyFailed) || bool_decide (code_of n = PolicyMissing).
Definition known (n : PolicyNodeStatus) : Prop := is_ready n || is_transitioning n || is_failing n = true.

Definition count (f : PolicyNodeStatus → bool) (nodes : list PolicyNodeStatus) : Z :=
  Z.of_nat (length (filter (λ n, f n = true) nodes)).

(** What is recorded about a failing node: its code and message, and since when. *)
Definition issue_of (previous : node_stats) (now : Z) (n : PolicyNodeStatus) : NodePolicyStatus :=
  let st := MkNodePolicyStatus (code_of n) (ps_Message (pn_Status n)) 0 in
  set_since (transitionTime (nodeStatus previous (pn_NodeName n)) st now) st.

(** The nodes with issues list exactly the failing nodes, up to the marker of the limit. *)
Record issues_ok (previous : node_stats) (now : Z) (nodes : list PolicyNodeStatus)
  (issues : gmap string NodePolicyStatus) : Prop := {
  is_size : (size issues <= maxNodesWithIssues)%nat;
  is_full : (maxNodesWithIssues <= size issues)%nat → is_Some (issues !! truncationString);
  is_sound k st : issues !! k = Some st →
    k = truncationString ∨ ∃ n, n ∈ nodes ∧ is_failing n = true ∧ pn_NodeName n = k ∧ st = issue_of previous now n;
  is_complete n : n ∈ nodes → is_failing n = true →
    is_Some (issues !! pn_NodeName n) ∨ is_Some (issues !! truncationString);
}.

Lemma count_snoc f nodes n : count f (nodes ++ [n]) = count f nodes + (if f n then 1 else 0).
Proof.
  unfold count. rewrite filter_app, length_app, filter_cons, filter_nil.
  destruct (f n); [rewrite decide_True by done|rewrite decide_False by done]; cbn; lia.
Qed.

(** The loop over [nodes] keeps this relation between the processed nodes and the stats. *)
Record stats_ok (previous : node_stats) (now : Z) (nodes : list PolicyNodeStatus) (s : node_stats) : Prop := {
  so_known : Forall known nodes;
  so_ready : SuccessfulNodes s = count is_ready nodes;
  so_failed : FailedNodes s = count is_failing nodes;
  so_trans : TransitioningNodes s = count is_transitioning nodes;
  so_len : (length (NodesTransitioning s) <= maxTransitioningNodes)%nat;
  so_issues : issues_ok previous now nodes (NodesWithIssues s);
}.

Lemma issues_skip previous now nodes n issues :
  is_failing n = false → issues_ok previous now nodes issues → issues_ok previous now (nodes ++ [n]) issues.
Proof.
  intros Hn [H1 H2 H3 H4]. split; [done|done| |].
  - intros k st [?|(m & Hm & ?)]%H3; [by left|right]. exists m. split; [|done]. apply elem_of_app. by left.
  - intros m [Hm|Hm%list_elem_of_singleton]%elem_of_app Hf; [auto|]. subst. congruence.
Qed.

Lemma size_insert_le {A} (m : gmap string A) k x : (size (<[k := x]> m) <= S (size m))%nat.
Proof. destruct (m !! k) eqn:Hk; [rewrite map_size_insert_Some by done; lia|by rewrite map_size_insert_None]. Qed.

Lemma issues_add previous now nodes n issues :
  is_failing n = true → issues_ok previous now nodes issues →
  let st := MkNodePolicyStatus (code_of n) (ps_Message (pn_Status n)) 0 in
  issues_ok previous now (nodes ++ [n])
    (if (size issues <? maxNodesWithIssues - 1)%nat then
       <[pn_NodeName n := set_since (transitionTime (nodeStatus previous (pn_NodeName n)) st now) st]> issues
     else if (size issues =? maxNodesWithIssues - 1)%nat then
       <[truncationString := MkNodePolicyStatus PolicyFailed truncationMessage 0]> issues
     else issues).
Proof.
  intros Hn [H1 H2 H3 H4] st.
  assert (∀ m k, k ∈ nodes ++ [m] → k ∈ nodes ∨ k = m) as Hsnoc.
  { intros m k [?|?%list_elem_of_singleton]%elem_of_app; auto. }
  assert (∀ k st0, issues !! k = Some st0 → k = truncationString ∨
    ∃ m, m ∈ nodes ++ [n] ∧ is_failing m = true ∧ pn_NodeName m = k ∧ st0 = issue_of previous now m) as H3'.
  { intros k st0 [?|(m & Hm & ?)]%H3; [by left|right]. exists m. split; [|done]. apply elem_of_app. by left. }
  destruct (size issues <? maxNodesWithIssues - 1)%nat eqn:Hlt; [|destruct (size issues =? maxNodesWithIssues - 1)%nat eqn:Heq].
  - pose proof (size_insert_le issues (pn_NodeName n) (set_since (transitionTime (nodeStatus previous (pn_NodeName n)) st now) st)).
    split; unfold maxNodesWithIssues in *; [lia|intros; exfalso; lia| |].
    + intros k st0 [[<- <-]|[_ Hk]]%lookup_insert_Some; [|auto]. right. exists n. split_and!; [|done..].
      apply elem_of_app. right. by left.
    + intros m [Hm| ->]%Hsnoc Hf; [|left; rewrite lookup_insert_eq; eauto].
      destruct (H4 m Hm Hf) as [Hi|Hi]; [left|right]; apply lookup_insert_is_Some'; by right.
  - pose proof (size_insert_le issues truncationString (MkNodePolicyStatus PolicyFailed truncationMessage 0)).
    split; unfold maxNodesWithIssues in *; [lia| | |].
    + intros _. rewrite lookup_insert_eq. eauto.
    + intros k st0 [[<- _]|[_ Hk]]%lookup_insert_Some; [by left|auto].
    + intros m _ _. right. rewrite lookup_insert_eq. eauto.
  - split; [done|done|done|]. intros m _ _. right. apply H2. unfold maxNodesWithIssues in *. lia.
Qed.

Lemma count_bound f nodes : 0 <= count f nodes <= Z.of_nat (length nodes).
Proof. unfold count. pose proof (length_filter (λ n, f n = true) nodes). lia. Qed.

(** The kinds of a node with a known code. *)
Lemma count_all f nodes : count f nodes = Z.of_nat (length nodes) ↔ Forall (λ n, f n = true) nodes.
Proof.
  induction nodes as [|n nodes IH] using rev_ind; [done|]. rewrite count_snoc, length_app, Forall_app, Forall_singleton.
  rewrite <- IH. cbn [length]. pose proof (count_bound f nodes). destruct (f n); split; [lia..| |]; intros; lia || naive_solver.
Qed.

Lemma kinds n :
  match code_of n with
  | PolicyReady => is_ready n = true ∧ is_transitioning n = false ∧ is_failing n = false
  | PolicyTransitioning => is_ready n = false ∧ is_transitioning n = true ∧ is_failing n = false
  | PolicyFailed | PolicyMissing => is_ready n = false ∧ is_transitioning n = false ∧ is_failing n = true
  | PolicyUnknown | PolicyOther _ => is_ready n = false ∧ is_transitioning n = false ∧ is_failing n = false
  end.
Proof. unfold is_ready, is_transitioning, is_failing. by destruct (code_of n). Qed.

Ltac stats_step Hk :=
  destruct Hk as (Hk1 & Hk2 & Hk3); split;
    [apply Forall_app; split; [done|]; apply Forall_singleton; unfold known; by rewrite Hk1, Hk2, Hk3
    |rewrite count_snoc, Hk1|rewrite count_snoc, Hk3|rewrite count_snoc, Hk2|..];
  cbn [SuccessfulNodes FailedNodes TransitioningNodes NodesTransitioning NodesWithIssues
       addSuccessfulNode addTransitioningNode addNodeIssue];
  try (rewrite ?s64_small by lia; lia).

Section node_step.
  Context (previous : node_stats) (now : Z) (nodes : list PolicyNodeStatus) (s : node_stats) (n : PolicyNodeStatus).
  Context (Hs : stats_ok previous now nodes s) (Hlen : Z.of_nat (length nodes) < 2 ^ 63 - 1).

Lemma ready_step :
  code_of n = PolicyReady → stats_ok previous now (nodes ++ [n]) (addSuccessfulNode s).
Proof.
  intros Hc. pose proof (kinds n) as Hk. rewrite Hc in Hk. destruct Hs as [S1 S2 S3 S4 S5 S6].
  pose proof (count_bound is_ready nodes). stats_step Hk. by apply issues_skip.
Qed.

Lemma transitioning_step prev :
  code_of n = PolicyTransitioning → stats_ok previous now (nodes ++ [n]) (addTransitioningNode n prev now s).
Proof.
  intros Hc. pose proof (kinds n) as Hk. rewrite Hc in Hk. destruct Hs as [S1 S2 S3 S4 S5 S6].
  pose proof (count_bound is_transitioning nodes). stats_step Hk; [|by apply issues_skip].
  unfold maxTransitioningNodes in *. repeat case_match; rewrite ?length_app; cbn; lia.
Qed.

Lemma failing_step :
  code_of n = PolicyFailed ∨ code_of n = PolicyMissing →
  stats_ok previous now (nodes ++ [n])
    (addNodeIssue (pn_NodeName n) (MkNodePolicyStatus (ps_Code (pn_Status n)) (ps_Message (pn_Status n)) 0)
       (nodeStatus previous (pn_NodeName n)) now s).
Proof.
  intros Hc. pose proof (kinds n) as Hk.
  assert (is_ready n = false ∧ is_transitioning n = false ∧ is_failing n = true) as Hk'
    by (by destruct Hc as [Hc|Hc]; rewrite Hc in Hk). clear Hk. destruct Hs as [S1 S2 S3 S4 S5 S6].
  pose proof (count_bound is_failing nodes). stats_step Hk'. by apply issues_add.
Qed.
End node_step.

Lemma add_nodes_ok previous now todo : ∀ processed s,
  stats_ok previous now processed s → Z.of_nat (length (processed ++ todo)) < 2 ^ 63 →
  match add_nodes previous todo now s with
  | Ok s' => stats_ok previous now (processed ++ todo) s' ∧ TotalNodes s' = TotalNodes s
  | Err _ => ¬ Forall known (processed ++ todo)
  | Panic _ => False
  end.
Proof.
  induction todo as [|n todo IH]; intros processed s Hs Hlen; cbn [add_nodes].
  { by rewrite app_nil_r. }
  rewrite length_app in Hlen. cbn [length] in Hlen. rewrite cons_middle, app_assoc.
  assert (Z.of_nat (length ((processed ++ [n]) ++ todo)) < 2 ^ 63) as Hlen' by (rewrite !length_app; cbn; lia).
  change (ps_Code (pn_Status n)) with (code_of n). pose proof (kinds n) as Hk. destruct (code_of n) eqn:Hc.
  1, 6: destruct Hk as (H1 & H2 & H3); intros HF; apply Forall_app in HF as [HF _];
    apply Forall_app in HF as [_ HF]; apply Forall_cons in HF as [HF _]; unfold known in HF;
    rewrite H1, H2, H3 in HF; discriminate.
  - refine (IH (processed ++ [n]) (addSuccessfulNode s) _ Hlen'). apply ready_step; [done|lia|done].
  - rewrite <- Hc. refine (IH (processed ++ [n]) (addNodeIssue _ _ _ _ s) _ Hlen'). apply failing_step; [done|lia|auto].
  - rewrite <- Hc. refine (IH (processed ++ [n]) (addNodeIssue _ _ _ _ s) _ Hlen'). apply failing_step; [done|lia|auto].
  - refine (IH (processed ++ [n]) (addTransitioningNode _ _ _ s) _ Hlen'). apply transitioning_step; [done|lia|done].
Qed.

Lemma stats_start previous now total s : stats_ok previous now [] (resetPolicyNodeStatus total s).
Proof.
  split; [by apply Forall_nil|done..|cbn; lia|]. split.
  - cbn [NodesWithIssues resetPolicyNodeStatus]. rewrite map_size_empty. lia.
  - cbn [NodesWithIssues resetPolicyNodeStatus]. rewrite map_size_empty. unfold maxNodesWithIssues. lia.
  - intros k st. cbn [NodesWithIssues resetPolicyNodeStatus]. by rewrite lookup_empty.
  - by intros n ?%elem_of_nil.
Qed.

(** A node of a known code is of one of the three kinds. *)
Lemma count_total nodes :
  Forall known nodes → count is_ready nodes + count is_failing nodes + count is_transitioning nodes = Z.of_nat (length nodes).
Proof.
  induction nodes as [|n nodes IH] using rev_ind; intros Hk; [done|].
  apply Forall_app in Hk as [Hk Hn]. apply Forall_cons in Hn as [Hn _]. unfold known in Hn. apply IH in Hk.
  rewrite !count_snoc, length_app. cbn [length]. pose proof (kinds n).
  destruct (code_of n); destruct H as (H1 & H2 & H3); rewrite H1, H2, H3 in *; lia || discriminate.
Qed.

(** What a computed status is. *)
Lemma process_ok previous nodes now s s' :
  Z.of_nat (length nodes) < 2 ^ 63 → processPolicyNodeStatus previous nodes now s = Ok s' →
  stats_ok previous now nodes s' ∧ TotalNodes s' = Z.of_nat (length nodes) ∧
  st_Phase s' = if decide (count is_ready nodes = Z.of_nat (length nodes)) then Ready
                else if decide (0 < count is_failing nodes) then Failed else Transitioning.
Proof.
  intros Hlen. unfold processPolicyNodeStatus.
  pose proof (add_nodes_ok previous now nodes [] (resetPolicyNodeStatus (Z.of_nat (length nodes)) s)) as H.
  specialize (H (stats_start _ _ _ _) Hlen). cbn [app] in H.
  destruct (add_nodes _ _ _ _) as [s1|e|e]; [|done..]. destruct H as [[S1 S2 S3 S4 S5 S6] Ht].
  cbn [TotalNodes resetPolicyNodeStatus] in Ht. cbn [TotalNodes SuccessfulNodes FailedNodes TransitioningNodes].
  pose proof (count_total nodes S1). pose proof (count_bound is_ready nodes).
  destruct (negb _); [done|]. intros [= <-]. split_and!; [|done|].
  - split; cbn; [done..| |done]. by rewrite SortStableFunc_perm.
  - cbn. unfold compute_phase. cbn. rewrite ?Ht, ?S2, ?S3, ?S4. repeat case_decide; repeat case_match; lia || done.
Qed.

(** The status is computed when the codes are known. *)
Lemma process_runs previous nodes now s :
  Z.of_nat (length nodes) < 2 ^ 63 →
  match processPolicyNodeStatus previous nodes now s with
  | Ok _ => True
  | Err _ => ¬ Forall known nodes
  | Panic _ => False
  end.
Proof.
  intros Hlen. unfold processPolicyNodeStatus.
  pose proof (add_nodes_ok previous now nodes [] (resetPolicyNodeStatus (Z.of_nat (length nodes)) s)) as H.
  specialize (H (stats_start _ _ _ _) Hlen). cbn [app] in H.
  destruct (add_nodes _ _ _ _) as [s1| |]; [|done..].
  destruct H as [[S1 S2 S3 S4 _ _] Ht]. cbn [TotalNodes resetPolicyNodeStatus] in Ht.
  cbn [TotalNodes SuccessfulNodes FailedNodes TransitioningNodes].
  pose proof (count_total nodes S1). pose proof (count_bound is_ready nodes).
  pose proof (count_bound is_failing nodes). pose proof (count_bound is_transitioning nodes).
  rewrite Ht, S2, S3, S4, (s64_small (_ + count is_transitioning nodes)), s64_small by lia.
  destruct (_ =? _) eqn:Heq; cbn [negb]; [done|lia].
Qed.

(** The status of the nodes.  It is computed unless a node reports an unknown code (the
    consistency check never fails); the counters are the numbers of nodes of each kind; the
    phase is ready exactly when all nodes are, failed exactly when one is failing, and
    transitioning otherwise; at most 20 entries are listed, one for each failing node with
    the time since when, unless the list ends with the marker of the limit. *)
Theorem processPolicyNodeStatus_spec previous nodes now s :
  Z.of_nat (length nodes) < 2 ^ 63 →
  match processPolicyNodeStatus previous nodes now s with
  | Ok s' =>
      stats_ok previous now nodes s' ∧ TotalNodes s' = Z.of_nat (length nodes) ∧
      st_Phase s' = if decide (count is_ready nodes = Z.of_nat (length nodes)) then Ready
                    else if decide (0 < count is_failing nodes) then Failed else Transitioning
  | Err _ => ¬ Forall known nodes
  | Panic _ => False
  end.
Proof.
  intros Hlen. pose proof (process_runs previous nodes now s Hlen).
  destruct (processPolicyNodeStatus previous nodes now s) eqn:Hr; [by eapply process_ok|done..].
Qed.

(** ** The violations of the status *)

Lemma status_inv_filter s (Q : ViolationRecord → Prop) `{∀ x, Decision (Q x)} active acked :
  status_inv s →
  status_inv (MkViolationStatus (ViolationCount s) active (filter Q (st_Violations s)) acked).
Proof.
  assert (∀ {B} (f : ViolationRecord → B) vs, NoDup (f <$> vs) → NoDup (f <$> filter Q vs)) as Hnd.
  { intros B f vs. induction vs as [|r vs IH]; intros Hvs; [done|]. cbn in Hvs.
    apply NoDup_cons in Hvs as [Hr Hvs]. rewrite filter_cons. case_decide; [|auto]. cbn. constructor; [|auto].
    intros (r' & Heq & [_ Hr']%list_elem_of_filter)%list_elem_of_fmap. apply Hr. rewrite Heq.
    by apply list_elem_of_fmap_2. }
  intros [[H1 H2 H3 H4] Hs Hl]. split; [split|..]; cbn [st_Violations ViolationCount].
  - by apply Hnd.
  - by apply Hnd.
  - intros r [_ Hr]%list_elem_of_filter. auto.
  - done.
  - by apply StronglySorted_filter.
  - etrans; [apply length_filter|done].
Qed.

Lemma ack_kept now acks vs annotations :
  (ack_violations now acks vs annotations).1.1 = filter (λ v, acks !! vr_ID v = None) vs.
Proof.
  revert annotations. induction vs as [|v vs IH]; intros annotations; [done|]. cbn [ack_violations]. rewrite filter_cons.
  destruct (acks !! vr_ID v) as [info|] eqn:Hv.
  - rewrite decide_False by done. specialize (IH (delete (annotationKey info) annotations)).
    by destruct (ack_violations _ _ _ _) as [[kept a] acked].
  - rewrite decide_True by done. specialize (IH annotations).
    destruct (ack_violations _ _ _ _) as [[kept a] acked]. cbn in *. by rewrite IH.
Qed.

(** Acknowledging only takes violations out. *)
Lemma acknowledge_kept `{R : GoRange} now annotations s :
  ∃ Q : ViolationRecord → bool,
    let s' := (acknowledgeViolationsFromAnnotations now annotations s).2 in
    st_Violations s' = filter (λ v, Q v = true) (st_Violations s) ∧ ViolationCount s' = ViolationCount s.
Proof.
  assert (∀ vs : list ViolationRecord, vs = filter (λ v, true = true) vs) as Hall.
  { induction vs as [|v vs IH]; [done|]. rewrite filter_cons, decide_True by done. by f_equal. }
  unfold acknowledgeViolationsFromAnnotations. destruct (size annotations =? 0)%nat; [by exists (λ _, true)|].
  destruct (size (foldl collect_ack ∅ (range annotations)) =? 0)%nat; [by exists (λ _, true)|].
  set (acks := foldl collect_ack ∅ (range annotations)). exists (λ v, bool_decide (acks !! vr_ID v = None)).
  pose proof (ack_kept now acks (st_Violations s) annotations) as Hk.
  destruct (ack_violations now acks (st_Violations s) annotations) as [[kept a] acked]. cbn in *. split; [|done].
  rewrite Hk. apply list_filter_iff. intros v. by rewrite bool_decide_eq_true.
Qed.

(** C33: recomputing the status.  The violations stay consistent, the active count is their
    number, and none of them is allowed by the current rules any more; the spec is not
    changed, and the generation it was computed for is recorded. *)
Theorem RecomputeStatus_inv `{R : GoRange} nodes scraped now po acked po' :
  status_inv (ws_violations (po_Status po)) →
  ViolationCount (ws_violations (po_Status po)) + Z.of_nat (length scraped) < 2 ^ 63 →
  RecomputeStatus nodes scraped now po = Ok (acked, po') →
  let v := ws_violations (po_Status po') in
  status_inv v ∧ ActiveViolationCount v = Z.of_nat (length (st_Violations v)) ∧
  Forall (λ r, allowed_now (wp_RulesByContainer (po_wp po)) r = false) (st_Violations v) ∧
  po_wp po' = po_wp po ∧ ObservedGeneration (po_Status po') = po_Generation po.
Proof.
  intros I Hmax H v. unfold RecomputeStatus in H.
  destruct (processPolicyNodeStatus _ _ _ _) as [ns|e|e]; [|done..].
  set (v1 := mergeScrapedViolations scraped (ws_violations (po_Status po))) in H.
  set (v2 := clearAllowedViolations _ v1) in H.
  assert (status_inv v1) as I1 by by apply merge_status_inv.
  destruct (acknowledge_kept now (po_Annotations po) v2) as (Q & HQ & Hcount).
  destruct (acknowledgeViolationsFromAnnotations _ _ _) as [[acks annots] v3]. cbn [snd] in HQ, Hcount.
  injection H as _ <-. unfold v. cbn. rewrite HQ, Hcount. split_and!; [|done| |done|done].
  - apply (status_inv_filter v2 (λ v, Q v = true)). by apply (status_inv_filter v1).
  - apply Forall_forall. intros r [_ [Hr _]%list_elem_of_filter]%list_elem_of_filter. exact Hr.
Qed.

(** ** Scraped violations *)

Abbreviation name_of wp := (NamespacedName (po_wp wp)).
Abbreviation names wps := ((λ wp, NamespacedName (po_wp wp)) <$> wps).

Section scraping.
  Context `{R : GoRange, !GoRangeOk R, P : Timestamppb}.

Lemma get_violations_clients l m clients :
  NoDup l.*1 → ∀ node,
  snd (get_violations l m clients) !! node =
    match list_find (λ nc, nc.1 = node) l with
    | Some (_, (_, Some a)) => Some (Some (snd (scrape a)))
    | _ => clients !! node
    end.
Proof.
  revert m clients. induction l as [|[k [a|]] l IH]; intros m clients Hnd node; [done|..];
    cbn [fmap list_fmap fst] in Hnd; apply NoDup_cons in Hnd as [Hk Hnd]; cbn [get_violations list_find].
  - destruct (scrape a) as [answer a'] eqn:Ha. cbn [fst].
    assert (∀ m', snd (get_violations l m' (<[k := Some a']> clients)) !! node =
      match list_find (λ nc, nc.1 = node) ((k, Some a) :: l) with
      | Some (_, (_, Some a)) => Some (Some (snd (scrape a)))
      | _ => clients !! node
      end) as Hgen.
    { intros m'. rewrite IH by done. cbn [list_find fst]. destruct (decide (k = node)) as [->|Hne].
      - cbn. rewrite Ha.
        assert (list_find (λ nc : string * option agent, nc.1 = node) l = None) as ->; [|by rewrite lookup_insert_eq].
        apply list_find_None, Forall_forall. intros [k' c'] Hin Heq. apply Hk. cbn in Heq. subst.
        by apply (list_elem_of_fmap_2 fst) in Hin.
      - destruct (list_find _ l) as [[i [k' [c'|]]]|]; cbn; [done|..];
          by rewrite lookup_insert_ne. }
    destruct answer; apply Hgen.
  - rewrite IH by done. cbn [fst]. destruct (decide (k = node)) as [->|Hne].
    + assert (list_find (λ nc : string * option agent, nc.1 = node) l = None) as ->; [|done].
      apply list_find_None, Forall_forall. intros [k' c'] Hin Heq. apply Hk. cbn in Heq. subst.
      by apply (list_elem_of_fmap_2 fst) in Hin.
    + by destruct (list_find _ l) as [[i [k' [c'|]]]|].
Qed.

Lemma range_fst {A} (m : gmap string A) : NoDup (range m).*1.
Proof. rewrite (range_perm _ m). apply NoDup_fst_map_to_list. Qed.

Lemma range_elem {A} (m : gmap string A) k x : (k, x) ∈ range m ↔ m !! k = Some x.
Proof. rewrite (range_perm _ m). apply elem_of_map_to_list. Qed.

(** A reached agent is asked once, and is left as the scrape leaves it. *)
Lemma scraped_client clients node a :
  clients !! node = Some (Some a) →
  snd (getViolationsByPolicy clients) !! node = Some (Some (snd (scrape a))).
Proof.
  intros Hc. unfold getViolationsByPolicy. rewrite get_violations_clients by apply range_fst.
  destruct (list_find _ _) as [[i [k c]]|] eqn:Hf.
  - apply list_find_Some in Hf as (Hi & Hk & _). cbn in Hk. subst k.
    apply list_elem_of_lookup_2, range_elem in Hi. by simplify_eq.
  - apply list_find_None in Hf. rewrite Forall_forall in Hf. apply range_elem in Hc. by apply Hf in Hc.
Qed.

Lemma scrape_drains a q :
  ag_scrape a = Delivered → represents (ag_buffer a) q → represents (ag_buffer (snd (scrape a))) [].
Proof.
  intros Ha Hr. unfold scrape, ScrapeViolations. rewrite Ha.
  by destruct (drain_represents _ _ Hr) as (b' & -> & Hb').
Qed.

Lemma sync_cons wp wps clients clients2 now patches :
  sync (wp :: wps) (Ok clients) (Ok clients2) now patches =
    Ok ((λ x, (processWorkloadPolicy x
        (default [] (getNodeStatusByPolicy clients (wp :: wps) !! NamespacedName (po_wp x)))
        (default [] ((getViolationsByPolicy clients2).1 !! NamespacedName (po_wp x))) now
        (patches (NamespacedName (po_wp x))).1 (patches (NamespacedName (po_wp x))).2).1.1.2) <$> wp :: wps,
     (getViolationsByPolicy clients2).2).
Proof.
  unfold sync. destruct (getViolationsByPolicy clients2) as [vs clients']. cbn [fst snd]. f_equal. f_equal.
  apply list_fmap_ext. intros i x _. by destruct (processWorkloadPolicy _ _ _ _ _ _) as [[[? ?] ?] ?].
Qed.

(** ** The statuses of a policy on the nodes *)

Lemma append_node (f : PolicyObject → PolicyNodeStatus) policies : ∀ m,
  NoDup (names policies) →
  (∀ wp l, wp ∈ policies → m !! name_of wp = Some l →
    foldl (λ m p, append_to (name_of p) (f p) m) m policies !! name_of wp = Some (l ++ [f wp])) ∧
  (∀ k, k ∉ names policies → foldl (λ m p, append_to (name_of p) (f p) m) m policies !! k = m !! k).
Proof.
  induction policies as [|p policies IH]; intros m Hnd; [split; [set_solver|done]|].
  cbn [fmap list_fmap foldl] in *. apply NoDup_cons in Hnd as [Hp Hnd].
  destruct (IH (append_to (name_of p) (f p) m) Hnd) as [H1 H2]. split.
  - intros wp l [->|Hin]%elem_of_cons Hl.
    + rewrite H2 by done. unfold append_to. by rewrite lookup_partial_alter_eq, Hl.
    + apply H1; [done|]. unfold append_to. rewrite lookup_partial_alter_ne; [done|].
      intros Heq. apply Hp, list_elem_of_fmap. by exists wp.
  - intros k [Hne Hk]%not_elem_of_cons. rewrite H2 by done. unfold append_to. by rewrite lookup_partial_alter_ne.
Qed.

Lemma append_nodes policies wp (l : list (string * option agent)) : ∀ m l0,
  NoDup (names policies) → wp ∈ policies → m !! name_of wp = Some l0 →
  foldl (λ m nc, foldl (λ m policy, append_to (name_of policy) (node_status_of nc.1 nc.2 policy) m) m policies)
    m l !! name_of wp = Some (l0 ++ ((λ nc, node_status_of nc.1 nc.2 wp) <$> l)).
Proof.
  induction l as [|nc l IH]; intros m l0 Hnd Hin Hm; cbn [foldl fmap list_fmap]; [by rewrite app_nil_r|].
  erewrite IH; [|done|done|by eapply append_node]. by rewrite <- (assoc_L (++)).
Qed.

(** Each policy gets one status for every client. *)
Lemma node_statuses clients policies wp :
  NoDup (names policies) → wp ∈ policies →
  getNodeStatusByPolicy clients policies !! name_of wp =
    Some ((λ nc, node_status_of nc.1 nc.2 wp) <$> range clients).
Proof.
  intros Hnd Hin. unfold getNodeStatusByPolicy. rewrite (append_nodes _ _ _ _ []); [done|done|done|].
  assert (∀ l (m : gmap string (list PolicyNodeStatus)),
    (wp ∈ l ∨ m !! name_of wp = Some []) →
    foldl (λ m policy, <[name_of policy := []]> m) m l !! name_of wp = Some []) as H; [|by apply H; left].
  induction l as [|p l IH]; intros m H; cbn; [destruct H; [set_solver|done]|]. apply IH.
  destruct (decide (name_of p = name_of wp)) as [->|Hne]; [right; by rewrite lookup_insert_eq|].
  destruct H as [[->|H]%elem_of_cons|H]; [done|by left|right]. by rewrite lookup_insert_ne.
Qed.

(** The agent of the node enforces the policy, in the mode the spec asks for. *)
Definition node_ready (wp : PolicyObject) (c : option agent) : Prop :=
  ∃ a statuses ps, c = Some a ∧ ag_policies a = Ok statuses ∧ statuses !! name_of wp = Some ps ∧
    PolicyStatus_State ps = POLICY_STATE_READY ∧
    (wp_Mode (po_wp wp), PolicyStatus_Mode ps) ∈ [("protect", PROTO_MODE_PROTECT); ("monitor", PROTO_MODE_MONITOR)].

Lemma policyModeMatchesExpected_iff mode want :
  policyModeMatchesExpected mode want = true ↔
  (want, mode) ∈ [("protect", PROTO_MODE_PROTECT); ("monitor", PROTO_MODE_MONITOR)].
Proof.
  unfold policyModeMatchesExpected. rewrite !elem_of_cons, elem_of_nil.
  destruct (String.eqb_spec want "protect") as [->|]; [destruct mode; naive_solver|].
  destruct (String.eqb_spec want "monitor") as [->|]; destruct mode; naive_solver.
Qed.

Lemma node_known node c wp : known (node_status_of node c wp).
Proof.
  unfold node_status_of, known. destruct c as [a|]; [|done]. destruct (ag_policies a) as [statuses| |]; [|done..].
  destruct (size statuses =? 0)%nat; [done|]. unfold policyNodeStatus.
  destruct (statuses !! _) as [ps|]; [|done]. destruct (PolicyStatus_State ps); [done| |done].
  by destruct (policyModeMatchesExpected _ _).
Qed.

Lemma node_ready_iff node c wp : is_ready (node_status_of node c wp) = true ↔ node_ready wp c.
Proof.
  unfold is_ready. rewrite bool_decide_eq_true. unfold node_status_of, code_of, node_ready. split.
  - intros H. destruct c as [a|]; [|done]. destruct (ag_policies a) as [statuses| |] eqn:Ha; [|done..].
    destruct (size statuses =? 0)%nat; [done|]. unfold policyNodeStatus in H.
    destruct (statuses !! _) as [ps|] eqn:Hps; [|done]. destruct (PolicyStatus_State ps) eqn:Hst; [done| |done].
    destruct (policyModeMatchesExpected _ _) eqn:Hm; [|done]. apply policyModeMatchesExpected_iff in Hm. by exists a, statuses, ps.
  - intros (a & statuses & ps & -> & -> & Hps & Hst & Hm%policyModeMatchesExpected_iff). destruct (size statuses =? 0)%nat eqn:Hsz.
    + apply Nat.eqb_eq, map_size_empty_inv in Hsz. by subst.
    + by rewrite Hps; cbn; rewrite Hst, Hm.
Qed.
End scraping.

(** Scraping drains the buffer of an agent before anything is written: when the status
    patch of every policy fails, the stored policies are as before and the violations are
    gone from the agent, so that the next round cannot report them. *)
Theorem scraped_violations_lost `{R : GoRange, !GoRangeOk R, P : Timestamppb} wps clients clients2 now patches node a q :
  wps ≠ [] → (∀ policy, (patches policy).1 ≠ PatchOk) →
  clients2 !! node = Some (Some a) → ag_scrape a = Delivered → represents (ag_buffer a) q →
  ∃ clients' a', sync wps (Ok clients) (Ok clients2) now patches = Ok (wps, clients') ∧
    clients' !! node = Some (Some a') ∧ represents (ag_buffer a') [].
Proof.
  intros Hne Hp Hc Ha Hr. destruct wps as [|wp wps]; [done|]. rewrite sync_cons.
  eexists _, _. split_and!; [|by apply scraped_client|by eapply scrape_drains]. f_equal. f_equal.
  etrans; [|apply list_fmap_id]. apply list_fmap_ext. intros i x _. unfold processWorkloadPolicy.
  destruct (RecomputeStatus _ _ _ _) as [[acked new]| |]; [|done..].
  specialize (Hp (NamespacedName (po_wp x))). by destruct (patches _).1.
Qed.

(** The status of known nodes is computed; it is ready when all of them are. *)
Lemma recompute_phase `{R : GoRange} nodes scraped now po :
  Z.of_nat (length nodes) < 2 ^ 63 → Forall known nodes →
  ∃ acked po', RecomputeStatus nodes scraped now po = Ok (acked, po') ∧
    ObservedGeneration (po_Status po') = po_Generation po ∧
    (st_Phase (ws_nodes (po_Status po')) = Ready ↔ Forall (λ n, is_ready n = true) nodes).
Proof.
  intros Hlen Hk. unfold RecomputeStatus.
  pose proof (process_runs (ws_nodes (po_Status po)) nodes now (ws_nodes (po_Status po)) Hlen) as Hrun.
  destruct (processPolicyNodeStatus _ nodes _ _) as [ns| |] eqn:Hns; [clear Hrun|done..].
  apply process_ok in Hns as (_ & _ & Hph); [|done].
  destruct (acknowledgeViolationsFromAnnotations _ _ _) as [[acks annots] v3].
  eexists _, _. split_and!; [done..|]. cbn. rewrite Hph, <- count_all. repeat case_decide; naive_solver.
Qed.

(** C13: in a round of the controller, every policy whose status patch is accepted gets a new
    status (no answer of an agent makes the computation fail), and it is shown as ready exactly
    when the agent of every node enforces it in the mode the spec asks for. *)
Theorem phase_ready_iff_enforced `{R : GoRange, !GoRangeOk R, P : Timestamppb} wps clients clients2 now patches i wp :
  NoDup (names wps) → Z.of_nat (size clients) < 2 ^ 63 → wps !! i = Some wp →
  (patches (name_of wp)).1 = PatchOk →
  ∃ wps' clients' stored, sync wps (Ok clients) (Ok clients2) now patches = Ok (wps', clients') ∧
    wps' !! i = Some stored ∧ ObservedGeneration (po_Status stored) = po_Generation wp ∧
    (st_Phase (ws_nodes (po_Status stored)) = Ready ↔ ∀ node c, clients !! node = Some c → node_ready wp c).
Proof.
  intros Hnd Hsz Hi Hp. destruct wps as [|wp0 wps]; [done|]. rewrite sync_cons.
  eexists _, _, _. split; [done|]. rewrite list_lookup_fmap, Hi. cbn [fmap option_fmap option_map]. split; [done|].
  apply list_elem_of_lookup_2 in Hi. rewrite node_statuses by done. cbn [default]. rewrite Hp.
  set (nodes := (λ nc, node_status_of nc.1 nc.2 wp) <$> range clients). unfold processWorkloadPolicy. cbn [id].
  destruct (recompute_phase nodes (default [] ((getViolationsByPolicy clients2).1 !! name_of wp)) now wp)
    as (acked & po' & -> & Hgen & Hph).
  { unfold nodes. by rewrite length_fmap, (range_perm _ clients), length_map_to_list. }
  { apply Forall_fmap, Forall_forall. intros nc _. apply node_known. }
  assert (Forall (λ n, is_ready n = true) nodes ↔ ∀ node c, clients !! node = Some c → node_ready wp c) as Hall.
  { unfold nodes. rewrite Forall_fmap, Forall_forall. split.
    - intros H node c Hc%range_elem. apply H in Hc. by eapply node_ready_iff.
    - intros H [node c] Hc%range_elem. by apply node_ready_iff, (H node). }
  by destruct (patches _).2; cbn; rewrite Hph.
Qed.

(** ** Instances *)

#[local] Existing Instances list_range list_range_ok.
#[local] Instance plain_timestamps : Timestamppb := {| timestamp := Z; timestamppb_New := λ t, t; AsTime := λ t, t |}.

Definition no_nodes : node_stats := MkNodeStats ∅ 0 0 0 0 [] NoPhase.

Definition web_policy : PolicyObject :=
  MkPolicyObject (MkWorkloadPolicy "ns" "pol" "protect" {["web" := MkRules [bytes_of_string "/bin/id"] ∅]})
    1 ∅ (MkWorkloadPolicyStatus 0 no_nodes no_violations).

Definition enforcing (mode : PolicyModeProto) (b : violationbuf.Buffer) : agent :=
  MkAgent (Ok {["ns/pol" := MkPolicyStatus POLICY_STATE_READY mode ""]}) b Delivered.

Definition one_violation : violationbuf.Buffer :=
  match violationbuf.BufferRecord (ls_violation 5) violationbuf.NewBuffer with
  | Ok (_, b) => b | _ => violationbuf.NewBuffer end.

Lemma one_violation_represents : represents one_violation [ls_violation 5].
Proof.
  destruct (record_represents (ls_violation 5) violationbuf.NewBuffer []) as (b' & Hb' & Hr); [|done|].
  - apply represents_nil; [|done]. cbn [violationbuf.NewBuffer violationbuf.buf]. by rewrite length_replicate.
  - unfold one_violation. by rewrite Hb'.
Qed.

(** One node is ready and one misses the policy. *)
Lemma processPolicyNodeStatus_spec_witness :
  let nodes := [status_message PolicyReady "" "n1"; status_message PolicyMissing "gone" "n2"] in
  ∃ s, processPolicyNodeStatus no_nodes nodes 9 no_nodes = Ok s ∧ st_Phase s = Failed ∧
    NodesWithIssues s !! "n2" = Some (MkNodePolicyStatus PolicyMissing "gone" 9).
Proof.
  intros nodes. eexists. split; [reflexivity|].
  pose proof (processPolicyNodeStatus_spec no_nodes nodes 9 no_nodes) as H. cbv beta in H.
  specialize (H ltac:(reflexivity)).
  destruct H as (_ & _ & H). split; [exact H|vm_compute; reflexivity].
Defined.

Lemma RecomputeStatus_inv_witness :
  ∃ acked po', RecomputeStatus [status_message PolicyReady "" "n1"] [scraped_ls 5; scraped_id 4] 9 web_policy = Ok (acked, po') ∧
    status_inv (ws_violations (po_Status po')) ∧ (vr_ExecutablePath <$> st_Violations (ws_violations (po_Status po'))) = [bytes_of_string "/bin/ls"].
Proof.
  eexists _, _. split; [vm_compute; reflexivity|].
  split; [|vm_compute; reflexivity].
  eapply (RecomputeStatus_inv [status_message PolicyReady "" "n1"] [scraped_ls 5; scraped_id 4] 9 web_policy);
    [exact no_violations_inv|reflexivity|vm_compute; reflexivity].
Defined.

Lemma scraped_violations_lost_witness :
  ∃ clients' a', sync [web_policy] (Ok ∅) (Ok {["n1" := Some (enforcing PROTO_MODE_PROTECT one_violation)]}) 9
      (λ _, (PatchError "conflict", PatchOk)) = Ok ([web_policy], clients') ∧
    clients' !! "n1" = Some (Some a') ∧ represents (ag_buffer a') [].
Proof.
  apply (scraped_violations_lost [web_policy] ∅ {["n1" := Some (enforcing PROTO_MODE_PROTECT one_violation)]} 9
    (λ _, (PatchError "conflict", PatchOk)) "n1" (enforcing PROTO_MODE_PROTECT one_violation) [ls_violation 5]);
    [done|done|reflexivity|reflexivity|exact one_violation_represents].
Defined.

(** One node still runs the policy in the other mode. *)
Lemma phase_ready_iff_enforced_witness :
  let clients := {["n1" := Some (enforcing PROTO_MODE_PROTECT one_violation);
                   "n2" := Some (enforcing PROTO_MODE_MONITOR violationbuf.NewBuffer)]} in
  ∃ wps' clients' stored, sync [web_policy] (Ok clients) (Ok clients) 9 (λ _, (PatchOk, PatchOk)) = Ok (wps', clients') ∧
    wps' !! 0%nat = Some stored ∧ st_Phase (ws_nodes (po_Status stored)) ≠ Ready.
Proof.
  intros clients.
  destruct (phase_ready_iff_enforced [web_policy] clients clients 9 (λ _, (PatchOk, PatchOk)) 0 web_policy)
    as (wps' & clients' & stored & Hsync & Hs & _ & Hr); [apply NoDup_singleton|reflexivity|reflexivity|reflexivity|].
  exists wps', clients', stored. split; [exact Hsync|]. split; [exact Hs|]. rewrite Hr. intros H.
  destruct (H "n2" _ eq_refl) as (a & statuses & ps & [= <-] & [= <-] & [= <-] & _ & Hm).
  cbn in Hm. rewrite !elem_of_cons, elem_of_nil in Hm. destruct Hm as [Hm|[Hm|[]]]; discriminate Hm.
Defined.
