(* ===== verification/Learning.v ===== *)
(** * Learning and promoting policies

    [src/api/v1alpha1/workloadpolicyproposal_types.go]: proposals, the lists of the
    executables that were seen; [src/internal/eventhandler/learning_controller.go] and
    [proposalutils]: how the agents of all nodes fill them;
    [src/internal/controller/workloadpolicyproposals_webhook.go]: what is admitted;
    [src/internal/controller/workloadpolicyproposal_controller.go]: how a proposal becomes a
    policy.  The API server and its client library are parameters ([ApiErrors], [ApiClient]),
    and so is the rate limiter of the retries ([RateLimiter]). *)
From S2P Require Import Prelude GoStd CLayout ProgramTypes KernelLayout Kernel ConcreteKernel StringMaps PolicyValues CgroupTracker Events AgentMaps EndToEnd Resolver ResolverSpec ViolationBuffer.
Local Open Scope Z_scope.

(** ** Proposals *)

Record OwnerReference := MkOwner {
  or_APIVersion : string;
  or_Kind : string;
  or_Name : string;
  or_UID : string;
  or_Controller : bool;
  or_BlockOwnerDeletion : bool;
}.

#[export] Instance OwnerReference_eq_dec : EqDecision OwnerReference.
Proof. solve_decision. Defined.

#[export] Instance WorkloadPolicyRules_eq_dec : EqDecision WorkloadPolicyRules.
Proof. solve_decision. Defined.

Record WorkloadPolicyProposal := MkProposal {
  pp_Namespace : string;
  pp_Name : string;
  pp_Labels : gmap string string;
  pp_OwnerReferences : list OwnerReference;
  pp_Deleting : bool;
  pp_RulesByContainer : gmap string WorkloadPolicyRules;
}.

#[export] Instance WorkloadPolicyProposal_eq_dec : EqDecision WorkloadPolicyProposal.
Proof. solve_decision. Defined.

Definition set_rules (rules : gmap string WorkloadPolicyRules) (p : WorkloadPolicyProposal)
  : WorkloadPolicyProposal :=
  MkProposal (pp_Namespace p) (pp_Name p) (pp_Labels p) (pp_OwnerReferences p) (pp_Deleting p) rules.
Definition set_owners (owners : list OwnerReference) (p : WorkloadPolicyProposal) : WorkloadPolicyProposal :=
  MkProposal (pp_Namespace p) (pp_Name p) (pp_Labels p) owners (pp_Deleting p) (pp_RulesByContainer p).

Definition policyProposalMaxExecutables : Z := 100.
Definition ProposalPromoteLabelKey : string := "runtimeenforcer.kubewarden.io/promote".
Definition PolicyPromotedFromLabelKey : string := "runtimeenforcer.kubewarden.io/promoted-from".

Section proposals.
  Context `{R : GoRange}.

Definition getExecutablesLength (p : WorkloadPolicyProposal) : Z :=
  foldl (λ result kv, s64 (result + Z.of_nat (length (Allowed kv.2)))) 0 (range (pp_RulesByContainer p)).

Definition IsFull (p : WorkloadPolicyProposal) : bool := policyProposalMaxExecutables <=? getExecutablesLength p.
End proposals.

Definition SetPromotionLabel (mode : string) (p : WorkloadPolicyProposal) : WorkloadPolicyProposal :=
  MkProposal (pp_Namespace p) (pp_Name p) (<[ProposalPromoteLabelKey := mode]> (pp_Labels p))
    (pp_OwnerReferences p) (pp_Deleting p) (pp_RulesByContainer p).

Definition HasPromotionLabel (p : WorkloadPolicyProposal) : option string :=
  match pp_Labels p !! ProposalPromoteLabelKey with
  | None => None
  | Some val =>
      if (val =? "monitor")%string then Some "monitor"
      else if (val =? "protect")%string then Some "protect"
      else None
  end.

Definition AddProcess (containerName : string) (executable : bytes) (p : WorkloadPolicyProposal)
  : WorkloadPolicyProposal :=
  match pp_RulesByContainer p !! containerName with
  | None => set_rules (<[containerName := MkRules [executable] ∅]> (pp_RulesByContainer p)) p
  | Some rules =>
      if bool_decide (executable ∈ Allowed rules) then p
      else set_rules (<[containerName := MkRules (Allowed rules ++ [executable]) (Options rules)]>
                        (pp_RulesByContainer p)) p
  end.

Definition SetAllowForeignRootExec (containerName : string) (p : WorkloadPolicyProposal)
  : WorkloadPolicyProposal :=
  match pp_RulesByContainer p !! containerName with
  | None =>
      set_rules (<[containerName := MkRules [] {[OptionAllowForeignRootExec := "1"]}]> (pp_RulesByContainer p)) p
  | Some rules =>
      set_rules (<[containerName := MkRules (Allowed rules) (<[OptionAllowForeignRootExec := "1"]> (Options rules))]>
                   (pp_RulesByContainer p)) p
  end.

Definition AddPartialOwnerReferenceDetails (workloadKind workload : string) (p : WorkloadPolicyProposal)
  : WorkloadPolicyProposal := set_owners [MkOwner "" workloadKind workload "" false false] p.

Definition IntoWorkloadPolicySpec (namespace name mode : string) (p : WorkloadPolicyProposal) : WorkloadPolicy :=
  MkWorkloadPolicy namespace name mode (pp_RulesByContainer p).

(** ** The cluster *)

(** A policy with its labels. *)
Record LabelledPolicy := MkLabelledPolicy {
  lp_Labels : gmap string string;
  lp_wp : WorkloadPolicy;
}.

(** The stored objects, by namespace and name. *)
Record cluster := MkCluster {
  proposals : gmap (string * string) WorkloadPolicyProposal;
  policies : gmap (string * string) LabelledPolicy;
}.

Definition proposal_key (p : WorkloadPolicyProposal) : string * string := (pp_Namespace p, pp_Name p).
Definition policy_key (lp : LabelledPolicy) : string * string := (wp_Namespace (lp_wp lp), wp_Name (lp_wp lp)).

(** The errors of the API server as its client library tells them apart, and the ways the
    code makes new ones.  [StatusCode] is the code of the [APIStatus] in the chain. *)
Class ApiErrors := {
  api_error : Type;
  IsNotFound : api_error → bool;
  IsConflict : api_error → bool;
  IsAlreadyExists : api_error → bool;
  StatusCode : api_error → option Z;
  Errorf : string → api_error;
  wrap : string → api_error → api_error;
  TerminalError : api_error → api_error;
}.

Definition http_Forbidden : Z := 403.
Definition http_Conflict : Z := 409.
Definition http_Gone : Z := 410.
Definition http_UnprocessableEntity : Z := 422.
Definition http_InternalServerError : Z := 500.

(** ** Admission *)

(** What the webhook answers: an error with the code of its status, or another one. *)
Inductive webhook_error `{E : ApiErrors} :=
  | ProposalValidatorError (code : Z) (message : string)
  | OtherError (e : api_error)
  | Invalid (message : string).
Arguments webhook_error : clear implicits.

Section webhook.
  Context `{E : ApiErrors}.
  (** The UID of the owner, asked from the API server. *)
  Context (owner : string → string → string → string + api_error).

Definition groupVersion (kind : string) : option string :=
  if (kind =? "Deployment")%string || (kind =? "DaemonSet")%string ||
     (kind =? "StatefulSet")%string || (kind =? "ReplicaSet")%string then Some "apps/v1"
  else if (kind =? "Job")%string || (kind =? "CronJob")%string then Some "batch/v1"
  else None.

Definition updateResource (proposal : WorkloadPolicyProposal) (ownerRef : OwnerReference)
  : WorkloadPolicyProposal + webhook_error E :=
  match groupVersion (or_Kind ownerRef) with
  | None => inr (ProposalValidatorError http_UnprocessableEntity "invalid proposal: not supported resource type")
  | Some version =>
      match owner (or_Kind ownerRef) (pp_Namespace proposal) (or_Name ownerRef) with
      | inr e =>
          if IsNotFound e then inr (ProposalValidatorError http_Gone "the owner reference is not found")
          else inr (OtherError (wrap "failed to get the owner" e))
      | inl uid =>
          inl (set_owners [MkOwner version (or_Kind ownerRef) (or_Name ownerRef) uid true true] proposal)
      end
  end.

Definition Default (proposal : WorkloadPolicyProposal) : WorkloadPolicyProposal + webhook_error E :=
  match pp_OwnerReferences proposal with
  | [ownerRef] =>
      if (or_Kind ownerRef =? "")%string
      then inr (ProposalValidatorError http_UnprocessableEntity "invalid proposal: kind is not specified in the owner reference")
      else if (or_Name ownerRef =? "")%string
      then inr (ProposalValidatorError http_UnprocessableEntity "invalid proposal: name is not specified in the owner reference")
      else if negb (or_UID ownerRef =? "")%string then inl proposal
      else updateResource proposal ownerRef
  | _ => inr (ProposalValidatorError http_UnprocessableEntity "invalid proposal: only one owner reference is expected")
  end.

Definition validatePromotionLabel (proposal : WorkloadPolicyProposal) : option (webhook_error E) :=
  match pp_Labels proposal !! ProposalPromoteLabelKey with
  | None => None
  | Some val => match HasPromotionLabel proposal with Some _ => None | None => Some (Invalid val) end
  end.

(** [ValidateCreate] and [ValidateUpdate] check the same. *)
Definition ValidateCreate (proposal : WorkloadPolicyProposal) : option (webhook_error E) :=
  validatePromotionLabel proposal.
Definition ValidateUpdate (oldProposal newProposal : WorkloadPolicyProposal) : option (webhook_error E) :=
  validatePromotionLabel newProposal.

(** A written proposal is completed, then validated. *)
Definition admission (old : option WorkloadPolicyProposal) (proposal : WorkloadPolicyProposal)
  : WorkloadPolicyProposal + webhook_error E :=
  match Default proposal with
  | inr e => inr e
  | inl p =>
      match (match old with None => ValidateCreate p | Some o => ValidateUpdate o p end) with
      | Some e => inr e
      | None => inl p
      end
  end.
End webhook.

(** ** The client *)

(** The calls of the client library that the controllers make.  They may fail at any time. *)
Class ApiClient (E : ApiErrors) := {
  GetNamespace : cluster → string → gmap string string + api_error;
  GetProposal : cluster → string * string → WorkloadPolicyProposal + api_error;
  ListPromoted : cluster → string → string → nat + api_error;
  GetOwner : string → string → string → string + api_error;
  CreateOrUpdate : cluster → WorkloadPolicyProposal → (WorkloadPolicyProposal → WorkloadPolicyProposal) →
    option api_error * cluster;
  CreatePolicy : cluster → LabelledPolicy → option api_error * cluster;
  DeleteProposal : cluster → WorkloadPolicyProposal → option api_error * cluster;
}.
Arguments GetNamespace {E} {ApiClient} _ _.
Arguments GetProposal {E} {ApiClient} _ _.
Arguments ListPromoted {E} {ApiClient} _ _ _.
Arguments GetOwner {E} {ApiClient} _ _ _.
Arguments CreateOrUpdate {E} {ApiClient} _ _ _.
Arguments CreatePolicy {E} {ApiClient} _ _.
Arguments DeleteProposal {E} {ApiClient} _ _.

Definition set_proposals (ps : gmap (string * string) WorkloadPolicyProposal) (c : cluster) : cluster :=
  MkCluster ps (policies c).

(** A policy of the namespace carries the label. *)
Definition promoted_from (namespace proposalName : string) (c : cluster) : Prop :=
  ∃ k lp, policies c !! k = Some lp ∧ k.1 = namespace ∧
    lp_Labels lp !! PolicyPromotedFromLabelKey = Some proposalName.

(** What the controllers rely on.  [CreateOrUpdate] reads the object, changes it and writes it
    when it changed; the write goes through admission, and is refused when the object was
    changed in between.  A call that fails changes nothing. *)
Class ApiClientOk {E : ApiErrors} (A : ApiClient E) : Prop := {
  GetProposal_stored c k p : GetProposal c k = inl p → proposals c !! k = Some p;
  ListPromoted_stored c ns name n : ListPromoted c ns name = inl n → (0 < n)%nat ↔ promoted_from ns name c;
  CreateOrUpdate_ok c p f c' :
    CreateOrUpdate c p f = (None, c') →
    let old := proposals c !! proposal_key p in
    (old = Some (f (default p old)) ∧ c' = c) ∨
    (∃ p', admission GetOwner old (f (default p old)) = inl p' ∧
      c' = set_proposals (<[proposal_key p := p']> (proposals c)) c);
  CreateOrUpdate_error c p f e c' : CreateOrUpdate c p f = (Some e, c') → c' = c;
  CreatePolicy_ok c lp c' :
    CreatePolicy c lp = (None, c') →
    policies c !! policy_key lp = None ∧ c' = MkCluster (proposals c) (<[policy_key lp := lp]> (policies c));
  CreatePolicy_error c lp e c' : CreatePolicy c lp = (Some e, c') → c' = c;
  DeleteProposal_ok c p c' :
    DeleteProposal c p = (None, c') → c' = set_proposals (delete (proposal_key p) (proposals c)) c;
  DeleteProposal_error c p e c' : DeleteProposal c p = (Some e, c') → c' = c;
}.

(** ** Learning *)

Definition ShortName (k : string) : option string :=
  if (k =? "Deployment")%string then Some "deploy"
  else if (k =? "ReplicaSet")%string then Some "rs"
  else if (k =? "DaemonSet")%string then Some "ds"
  else if (k =? "CronJob")%string then Some "cronjob"
  else if (k =? "Job")%string then Some "job"
  else if (k =? "StatefulSet")%string then Some "sts"
  else None.

(** The limit of the API on names. *)
Definition DNS1123SubdomainMaxLength : nat := 253.

Definition GetWorkloadPolicyProposalName (kind resourceName : string) : go_result string :=
  match ShortName kind with
  | None => Err "unknown kind"
  | Some shortname =>
      let ret := (shortname ++ "-" ++ resourceName)%string in
      if (DNS1123SubdomainMaxLength <? String.length ret)%nat then Err "the name exceeds the maximum name length"
      else Ok ret
  end.

Definition maxConflictRetries : Z := 15.
(** In milliseconds. *)
Definition baseDelay : Z := 5.
Definition maxDelay : Z := 1000 * 1000.

(** The rate limiter that [NewLearningReconciler] makes. *)
Class RateLimiter := {
  limiter : Type;
  NumRequeues : limiter → KubeProcessInfo → Z;
  When : limiter → KubeProcessInfo → Z * limiter;
  Forget : limiter → KubeProcessInfo → limiter;
}.
(** It counts the failures of each item, and doubles the delay with each one. *)
Class RateLimiterOk (W : RateLimiter) : Prop := {
  NumRequeues_When l req : NumRequeues (snd (When l req)) req = NumRequeues l req + 1;
  NumRequeues_Forget l req : NumRequeues (Forget l req) req = 0;
  When_delay l req : 0 <= NumRequeues l req →
    fst (When l req) = Z.min (baseDelay * 2 ^ NumRequeues l req) maxDelay;
}.

Section learning.
  Context `{R : GoRange, E : ApiErrors, A : !ApiClient E, W : RateLimiter}.
  (** The namespace selector of the agent. *)
  Context (Matches : gmap string string → bool).

Definition HasProposalBeenPromoted (c : cluster) (namespace proposalName : string) : bool + api_error :=
  match ListPromoted c namespace proposalName with
  | inl n => inl (0 <? n)%nat
  | inr e => inr e
  end.

Definition handleAdmissionError (err : api_error) : option api_error :=
  match StatusCode err with
  | None => Some err
  | Some code =>
      if code =? http_UnprocessableEntity then None
      else if code =? http_Gone then None
      else if code =? http_Conflict then Some err
      else if code =? http_Forbidden then Some err
      else if code =? http_InternalServerError then Some err
      else Some (wrap "error code received when running CreateOrUpdate" err)
  end.

Definition skipOrLearn (c : cluster) (req : KubeProcessInfo) (proposalName : string) : bool + api_error :=
  if negb (kp_PolicyName req =? "")%string then inl true
  else
    match GetProposal c (kp_Namespace req, proposalName) with
    | inl _ => inl false
    | inr err =>
        if negb (IsNotFound err)
        then inr (wrap "failed to get WorkloadPolicyProposal before learning update" err)
        else
          match HasProposalBeenPromoted c (kp_Namespace req) proposalName with
          | inr err => inr err
          | inl alreadyPromoted => inl alreadyPromoted
          end
    end.

(** The function that [reconcile] passes to [CreateOrUpdate]. *)
Definition learn (req : KubeProcessInfo) (policyProposal : WorkloadPolicyProposal) : WorkloadPolicyProposal :=
  let own p :=
    if negb (length (pp_OwnerReferences p) =? 0)%nat then p
    else AddPartialOwnerReferenceDetails (kp_WorkloadKind req) (kp_Workload req) p in
  match HasPromotionLabel policyProposal with
  | Some _ => policyProposal
  | None =>
      if kp_ForeignRoot req then own (SetAllowForeignRootExec (kp_ContainerName req) policyProposal)
      else if IsFull policyProposal then policyProposal
      else own (AddProcess (kp_ContainerName req) (kp_ExecutablePath req) policyProposal)
  end.

Definition reconcile (req : KubeProcessInfo) (c : cluster) : option api_error * cluster :=
  if (kp_WorkloadKind req =? "Pod")%string then (None, c)
  else
    match GetNamespace c (kp_Namespace req) with
    | inr err => if IsNotFound err then (None, c) else (Some (wrap "failed to get namespace" err), c)
    | inl labels =>
        if negb (Matches labels) then (None, c)
        else
          match GetWorkloadPolicyProposalName (kp_WorkloadKind req) (kp_Workload req) with
          | Err e | Panic e => (Some (TerminalError (wrap "failed to get proposal name" (Errorf e))), c)
          | Ok proposalName =>
              let policyProposal := MkProposal (kp_Namespace req) proposalName ∅ [] false ∅ in
              match skipOrLearn c req proposalName with
              | inr err => (Some err, c)
              | inl true => (None, c)
              | inl false =>
                  match CreateOrUpdate c policyProposal (learn req) with
                  | (Some err, c') => (handleAdmissionError err, c')
                  | (None, c') => (None, c')
                  end
              end
          end
    end.

(** The delay after which the event is tried again ([0]: not), the error, the limiter and the
    cluster. *)
Definition Reconcile (req : KubeProcessInfo) (l : limiter) (c : cluster)
  : Z * option api_error * limiter * cluster :=
  match reconcile req c with
  | (Some err, c') =>
      if negb (IsConflict err) && negb (IsAlreadyExists err) then (0, Some err, l, c')
      else if maxConflictRetries <? NumRequeues l req then (0, Some (TerminalError err), Forget l req, c')
      else let '(requeueAfter, l') := When l req in (requeueAfter, None, l', c')
  | (None, c') => (0, None, Forget l req, c')
  end.
End learning.

(** ** Promotion *)

Definition maxLabelValueLength : nat := 63.

Definition SetPromotedLabel (proposalName : string) (lp : LabelledPolicy) : go_result LabelledPolicy :=
  if (maxLabelValueLength <? String.length proposalName)%nat then Err "proposalName is too long"
  else Ok (MkLabelledPolicy (<[PolicyPromotedFromLabelKey := proposalName]> (lp_Labels lp)) (lp_wp lp)).

Definition HasPromotedLabel (proposalName : string) (lp : LabelledPolicy) : bool :=
  (default "" (lp_Labels lp !! PolicyPromotedFromLabelKey) =? proposalName)%string.

Section promotion.
  Context `{E : ApiErrors, A : !ApiClient E}.

Definition IgnoreNotFound (e : api_error) : option api_error := if IsNotFound e then None else Some e.

Definition delete_proposal (proposal : WorkloadPolicyProposal) (c : cluster) : option api_error * cluster :=
  match DeleteProposal c proposal with
  | (Some err, c') => (IgnoreNotFound err, c')
  | (None, c') => (None, c')
  end.

(** [Reconcile] of [WorkloadPolicyProposalReconciler]. *)
Definition promote (key : string * string) (c : cluster) : option api_error * cluster :=
  match GetProposal c key with
  | inr err => (IgnoreNotFound err, c)
  | inl proposal =>
      if pp_Deleting proposal then (None, c)
      else
        match HasProposalBeenPromoted c (pp_Namespace proposal) (pp_Name proposal) with
        | inr err => (Some (wrap "failed to check promoted WorkloadPolicy" err), c)
        | inl true => delete_proposal proposal c
        | inl false =>
            match HasPromotionLabel proposal with
            | None => (None, c)
            | Some mode =>
                let policy := MkLabelledPolicy ∅
                  (IntoWorkloadPolicySpec (pp_Namespace proposal) (pp_Name proposal) mode proposal) in
                match SetPromotedLabel (pp_Name proposal) policy with
                | Err e | Panic e => (Some (wrap "failed to set promoted label" (Errorf e)), c)
                | Ok policy =>
                    match CreatePolicy c policy with
                    | (Some err, c') =>
                        if IsAlreadyExists err then (None, c')
                        else (Some (wrap "failed to create WorkloadPolicy" err), c')
                    | (None, c') => delete_proposal proposal c'
                    end
                end
            end
        end
  end.
End promotion.

(** ** Specification *)

(** The executables of a proposal. *)
Definition executables (p : WorkloadPolicyProposal) : nat :=
  sum_list_with (λ kv, length (Allowed kv.2)) (map_to_list (pp_RulesByContainer p)).

(** At most 100 executables, none twice for a container. *)
Record proposal_ok (p : WorkloadPolicyProposal) : Prop := {
  po_max : Z.of_nat (executables p) <= policyProposalMaxExecutables;
  po_nodup c rules : pp_RulesByContainer p !! c = Some rules → NoDup (Allowed rules);
}.

Record cluster_ok (c : cluster) : Prop := {
  co_proposals k p : proposals c !! k = Some p → proposal_key p = k ∧ proposal_ok p;
}.

(** [p'] permits what [p] permits. *)
Definition grows (p p' : WorkloadPolicyProposal) : Prop :=
  ∀ c rules, pp_RulesByContainer p !! c = Some rules →
    ∃ rules', pp_RulesByContainer p' !! c = Some rules' ∧ Allowed rules `prefix_of` Allowed rules' ∧
      (AllowForeignRootExec rules = true → AllowForeignRootExec rules' = true).

(** The exec of [req] is permitted by the rules of its container. *)
Definition permits (rules : gmap string WorkloadPolicyRules) (req : KubeProcessInfo) : Prop :=
  ∃ r, rules !! kp_ContainerName req = Some r ∧
    ∀ mode, exec_decision (asked mode r) (kp_ForeignRoot req) (kp_ExecutablePath req) = Permit.

(** The events of a cluster: the controller of an agent handles an exec, a user asks for the
    promotion of a proposal, or the controller reconciles one.  Each call to the API server
    may fail. *)
Inductive step `{R : GoRange, E : ApiErrors} : cluster → cluster → Prop :=
  | step_learn (A : ApiClient E) (W : RateLimiter) Matches req l c :
      ApiClientOk A → step c (snd (Reconcile Matches req l c))
  | step_label k p mode c :
      proposals c !! k = Some p →
      step c (set_proposals (<[k := SetPromotionLabel mode p]> (proposals c)) c)
  | step_promote (A : ApiClient E) k c : ApiClientOk A → step c (snd (promote k c)).

(** ** Lemmas *)

#[export] Instance grows_preorder : PreOrder grows.
Proof.
  split; [by intros p c rules Hr; exists rules|]. intros p q r Hpq Hqr c rules Hc.
  destruct (Hpq _ _ Hc) as (r1 & H1 & Hp1 & Hf1). destruct (Hqr _ _ H1) as (r2 & H2 & Hp2 & Hf2).
  exists r2. split_and!; [done|by etrans|auto].
Qed.

Lemma grows_rules p p' : pp_RulesByContainer p' = pp_RulesByContainer p → grows p p'.
Proof. intros H c rules Hr. exists rules. by rewrite H. Qed.

Lemma grows_insert p c rules :
  (∀ r, pp_RulesByContainer p !! c = Some r → Allowed r `prefix_of` Allowed rules ∧
    (AllowForeignRootExec r = true → AllowForeignRootExec rules = true)) →
  grows p (set_rules (<[c := rules]> (pp_RulesByContainer p)) p).
Proof.
  intros H c' r Hr. cbn. destruct (decide (c = c')) as [->|Hne].
  - exists rules. rewrite lookup_insert_eq. split; [done|]. by apply H.
  - exists r. by rewrite lookup_insert_ne.
Qed.

Lemma permits_grows p p' req :
  grows p p' → permits (pp_RulesByContainer p) req → permits (pp_RulesByContainer p') req.
Proof.
  intros Hg (r & Hr & Hp). destruct (Hg _ _ Hr) as (r' & Hr' & Hpre & Hf). exists r'. split; [done|].
  intros mode. specialize (Hp mode). unfold exec_decision in *. cbn in *. destruct (kp_ForeignRoot req).
  - destruct (AllowForeignRootExec r); [by rewrite Hf|done].
  - case_bool_decide as Hin; [|done]. rewrite bool_decide_true; [done|]. destruct Hpre as [k ->].
    apply elem_of_app. by left.
Qed.

Lemma executables_set rules p :
  executables (set_rules rules p) = sum_list_with (λ kv, length (Allowed kv.2)) (map_to_list rules).
Proof. done. Qed.

Lemma sum_perm {A} (f : A → nat) l k : l ≡ₚ k → sum_list_with f l = sum_list_with f k.
Proof. induction 1; cbn; lia. Qed.

Lemma executables_insert p c rules :
  (executables (set_rules (<[c := rules]> (pp_RulesByContainer p)) p) +
    match pp_RulesByContainer p !! c with Some r => length (Allowed r) | None => 0 end =
   executables p + length (Allowed rules))%nat.
Proof.
  rewrite executables_set. unfold executables. set (m := pp_RulesByContainer p).
  assert (∀ (m' : gmap string WorkloadPolicyRules) r, m' !! c = None →
    sum_list_with (λ kv, length (Allowed kv.2)) (map_to_list (<[c := r]> m')) =
    (length (Allowed r) + sum_list_with (λ kv, length (Allowed kv.2)) (map_to_list m'))%nat) as Hins.
  { intros m' r Hm. by rewrite (sum_perm _ _ _ (map_to_list_insert m' c r Hm)). }
  destruct (m !! c) as [r|] eqn:Hc; [|rewrite Hins by done; lia].
  rewrite <- (insert_delete_id m c r Hc) at 2. rewrite <- insert_delete_eq.
  rewrite !Hins by apply lookup_delete_eq. lia.
Qed.

Lemma proposal_ok_insert p c rules :
  proposal_ok p → NoDup (Allowed rules) →
  Z.of_nat (executables p + length (Allowed rules)) <=
    policyProposalMaxExecutables + Z.of_nat (match pp_RulesByContainer p !! c with Some r => length (Allowed r) | None => 0 end) →
  proposal_ok (set_rules (<[c := rules]> (pp_RulesByContainer p)) p).
Proof.
  intros [Hm Hn] Hnd Hlen. pose proof (executables_insert p c rules). split; [lia|]. cbn.
  intros c' r' [[_ <-]|[_ Hr']]%lookup_insert_Some; [done|by eapply Hn].
Qed.

Section learning_lemmas.
  Context `{R : GoRange, !GoRangeOk R}.

Lemma getExecutablesLength_ok p :
  Z.of_nat (executables p) < 2 ^ 63 → getExecutablesLength p = Z.of_nat (executables p).
Proof.
  intros Hmax. unfold getExecutablesLength, executables in *. rewrite <- (sum_perm _ _ _ (range_perm _ _)) in Hmax |- *.
  set (l := range _) in *. assert (∀ l z, 0 <= z →
    z + Z.of_nat (sum_list_with (λ kv : string * _, length (Allowed kv.2)) l) < 2 ^ 63 →
    foldl (λ result kv, s64 (result + Z.of_nat (length (Allowed kv.2)))) z l =
    z + Z.of_nat (sum_list_with (λ kv, length (Allowed kv.2)) l)) as H; [|rewrite H; lia].
  clear. induction l as [|kv l IH]; intros z Hz Hmax; cbn in *; [lia|].
  rewrite s64_small by lia. rewrite IH; lia.
Qed.

Lemma IsFull_iff p : proposal_ok p → IsFull p = true ↔ Z.of_nat (executables p) = policyProposalMaxExecutables.
Proof.
  intros [Hm _]. unfold IsFull. rewrite getExecutablesLength_ok by (unfold policyProposalMaxExecutables in *; lia). lia.
Qed.

Lemma AddProcess_ok c exe p :
  proposal_ok p → IsFull p = false →
  proposal_ok (AddProcess c exe p) ∧ grows p (AddProcess c exe p) ∧
  ∃ r, pp_RulesByContainer (AddProcess c exe p) !! c = Some r ∧ exe ∈ Allowed r.
Proof.
  intros Hok Hfull. assert (Z.of_nat (executables p) < policyProposalMaxExecutables) as Hlt.
  { destruct Hok as [Hm Hn]. destruct (decide (Z.of_nat (executables p) = policyProposalMaxExecutables)) as [Heq|]; [|lia].
    apply IsFull_iff in Heq; [congruence|done]. }
  unfold AddProcess. destruct (pp_RulesByContainer p !! c) as [r|] eqn:Hc.
  - case_bool_decide as Hin; [split_and!; [done|done|by exists r]|]. split_and!.
    + apply proposal_ok_insert; [done| |rewrite Hc; cbn; rewrite length_app; cbn; lia].
      cbn. apply NoDup_app. split_and!; [by eapply po_nodup| |apply NoDup_singleton].
      by intros x Hx ->%list_elem_of_singleton.
    + apply grows_insert. intros r0 Hr0. simplify_eq. split; [by exists [exe]|done].
    + eexists. cbn. rewrite lookup_insert_eq. split; [done|]. cbn. apply elem_of_app. right. by left.
  - split_and!.
    + apply proposal_ok_insert; [done|apply NoDup_singleton|rewrite Hc; cbn; lia].
    + apply grows_insert. by rewrite Hc.
    + eexists. cbn. rewrite lookup_insert_eq. split; [done|]. by left.
Qed.

Lemma SetAllowForeignRootExec_ok c p :
  proposal_ok p →
  proposal_ok (SetAllowForeignRootExec c p) ∧ grows p (SetAllowForeignRootExec c p) ∧
  ∃ r, pp_RulesByContainer (SetAllowForeignRootExec c p) !! c = Some r ∧ AllowForeignRootExec r = true.
Proof.
  intros Hok. pose proof (po_max _ Hok) as Hm. unfold SetAllowForeignRootExec.
  destruct (pp_RulesByContainer p !! c) as [r|] eqn:Hc; set (r' := MkRules _ _);
    assert (AllowForeignRootExec r' = true) as Hf
      by (unfold AllowForeignRootExec, r'; cbn [Options]; by rewrite ?lookup_insert_eq, ?lookup_singleton_eq); split_and!.
  - apply proposal_ok_insert; [done|by eapply (po_nodup _ Hok c r)|rewrite Hc; cbn; lia].
  - apply grows_insert. intros r0 Hr0. by simplify_eq.
  - exists r'. cbn. by rewrite lookup_insert_eq.
  - apply proposal_ok_insert; [done|apply NoDup_nil_2|rewrite Hc; cbn; lia].
  - apply grows_insert. by rewrite Hc.
  - exists r'. cbn. by rewrite lookup_insert_eq.
Qed.

Lemma SetAllowForeignRootExec_key c p : proposal_key (SetAllowForeignRootExec c p) = proposal_key p.
Proof. unfold SetAllowForeignRootExec. by destruct (pp_RulesByContainer p !! c). Qed.

Lemma AddProcess_key c exe p : proposal_key (AddProcess c exe p) = proposal_key p.
Proof. unfold AddProcess. destruct (pp_RulesByContainer p !! c); [by case_bool_decide|done]. Qed.

Lemma own_rules kind workload p :
  let q := if negb (length (pp_OwnerReferences p) =? 0)%nat then p else AddPartialOwnerReferenceDetails kind workload p in
  pp_RulesByContainer q = pp_RulesByContainer p ∧ proposal_key q = proposal_key p ∧ pp_Labels q = pp_Labels p.
Proof. cbv zeta. by destruct (negb _). Qed.

Lemma proposal_ok_rules p q : pp_RulesByContainer q = pp_RulesByContainer p → proposal_ok p → proposal_ok q.
Proof. intros H [Hm Hn]. split; [unfold executables in *; by rewrite H|]. by rewrite H. Qed.

Lemma learn_ok req p :
  proposal_ok p →
  proposal_ok (learn req p) ∧ grows p (learn req p) ∧ proposal_key (learn req p) = proposal_key p ∧
  (HasPromotionLabel p = None → kp_ForeignRoot req = true ∨ IsFull p = false →
    permits (pp_RulesByContainer (learn req p)) req).
Proof.
  intros Hok. unfold learn. destruct (HasPromotionLabel p); [split_and!; [done|reflexivity|done|done]|].
  destruct (kp_ForeignRoot req) eqn:Hf.
  - destruct (SetAllowForeignRootExec_ok (kp_ContainerName req) p Hok) as (H1 & H2 & r & Hr & Hfr).
    set (q := SetAllowForeignRootExec _ p) in *.
    destruct (own_rules (kp_WorkloadKind req) (kp_Workload req) q) as (Hq & Hk & _). cbv zeta in Hq, Hk. split_and!.
    + by eapply proposal_ok_rules.
    + etrans; [exact H2|]. by apply grows_rules.
    + rewrite Hk. apply SetAllowForeignRootExec_key.
    + intros _ _. exists r. rewrite Hq. split; [done|]. intros mode. unfold exec_decision. rewrite Hf. cbn. by rewrite Hfr.
  - destruct (IsFull p) eqn:Hfull; [split_and!; [done|reflexivity|done|by intros _ [?|?]]|].
    destruct (AddProcess_ok (kp_ContainerName req) (kp_ExecutablePath req) p Hok Hfull) as (H1 & H2 & r & Hr & Hin).
    set (q := AddProcess _ _ p) in *.
    destruct (own_rules (kp_WorkloadKind req) (kp_Workload req) q) as (Hq & Hk & _). cbv zeta in Hq, Hk. split_and!.
    + by eapply proposal_ok_rules.
    + etrans; [exact H2|]. by apply grows_rules.
    + rewrite Hk. apply AddProcess_key.
    + intros _ _. exists r. rewrite Hq. split; [done|]. intros mode. unfold exec_decision. rewrite Hf. cbn.
      by rewrite bool_decide_true.
Qed.
End learning_lemmas.

Lemma admission_same `{E : ApiErrors} owner old p p' :
  admission owner old p = inl p' →
  pp_RulesByContainer p' = pp_RulesByContainer p ∧ proposal_key p' = proposal_key p ∧ pp_Labels p' = pp_Labels p.
Proof.
  unfold admission. destruct (Default owner p) as [q|] eqn:Hd; [|done].
  intros Hq. assert (q = p') as -> by (destruct old; [destruct (ValidateUpdate _ _)|destruct (ValidateCreate _)]; congruence).
  unfold Default, updateResource in Hd. repeat (case_match; simplify_eq; try done).
Qed.

Lemma empty_proposal_ok ns name : proposal_ok (MkProposal ns name ∅ [] false ∅).
Proof. by split. Qed.

(** What happened to the proposals: what they permit is still permitted, or a policy was made
    of them; policies stay. *)
Record evolves (c c' : cluster) : Prop := {
  ev_proposals k p : proposals c !! k = Some p →
    (∃ p', proposals c' !! k = Some p' ∧ grows p p') ∨ promoted_from k.1 k.2 c';
  ev_policies : policies c ⊆ policies c';
}.

Lemma promoted_mono ns name c c' : policies c ⊆ policies c' → promoted_from ns name c → promoted_from ns name c'.
Proof. intros Hsub (k & lp & Hk & H). exists k, lp. split; [|done]. by eapply lookup_weaken. Qed.

#[export] Instance evolves_preorder : PreOrder evolves.
Proof.
  split; [intros c; split; [|done]; intros k p Hp; left; by exists p|].
  intros c1 c2 c3 [H1 G1] [H2 G2]. split; [|by etrans]. intros k p Hp.
  destruct (H1 k p Hp) as [(p2 & Hp2 & Hg)|Hpr]; [|right; by eapply promoted_mono].
  destruct (H2 k p2 Hp2) as [(p3 & Hp3 & Hg3)|Hpr]; [|by right]. left. exists p3. split; [done|by etrans].
Qed.

(** Replacing one proposal. *)
Lemma replace_evolves c k p :
  cluster_ok c → proposal_key p = k → proposal_ok p → (∀ q, proposals c !! k = Some q → grows q p) →
  let c' := set_proposals (<[k := p]> (proposals c)) c in cluster_ok c' ∧ evolves c c'.
Proof.
  intros [Hc] Hk Hp Hg. split; split; [|..|done]; cbn.
  - intros k' p' [[<- <-]|[_ Hp']]%lookup_insert_Some; [done|by apply Hc].
  - intros k' q Hq. left. destruct (decide (k = k')) as [->|Hne].
    + exists p. rewrite lookup_insert_eq. auto.
    + exists q. by rewrite lookup_insert_ne.
Qed.

Lemma delete_evolves c k :
  cluster_ok c → promoted_from k.1 k.2 c →
  let c' := set_proposals (delete k (proposals c)) c in cluster_ok c' ∧ evolves c c'.
Proof.
  intros [Hc] Hpr. split; split; [|..|done]; cbn.
  - intros k' p' [_ Hp']%lookup_delete_Some. by apply Hc.
  - intros k' q Hq. destruct (decide (k = k')) as [->|Hne]; [by right|]. left. exists q. by rewrite lookup_delete_ne.
Qed.

Section controllers.
  Context `{R : GoRange, !GoRangeOk R, E : ApiErrors}.

(** What [reconcile] may do to the cluster. *)
Lemma reconcile_cases (A : ApiClient E) Matches req c e c' :
  ApiClientOk A → reconcile Matches req c = (e, c') →
  c' = c ∨
  ∃ name p', GetWorkloadPolicyProposalName (kp_WorkloadKind req) (kp_Workload req) = Ok name ∧
    let key := (kp_Namespace req, name) in
    admission GetOwner (proposals c !! key)
      (learn req (default (MkProposal (kp_Namespace req) name ∅ [] false ∅) (proposals c !! key))) = inl p' ∧
    c' = set_proposals (<[key := p']> (proposals c)) c.
Proof.
  intros Hok. unfold reconcile. destruct (_ =? "Pod")%string; [intros; left; congruence|].
  destruct (GetNamespace _ _) as [labels|]; [|case_match; intros; left; congruence].
  destruct (negb _); [intros; left; congruence|].
  destruct (GetWorkloadPolicyProposalName _ _) as [name| |]; [|intros; left; congruence..].
  destruct (skipOrLearn _ _ _) as [[|]|]; [intros; left; congruence| |intros; left; congruence].
  destruct (CreateOrUpdate _ _ _) as [[err|] c1] eqn:Hcu; intros [= <- <-].
  - left. by eapply CreateOrUpdate_error.
  - apply CreateOrUpdate_ok in Hcu as [[_ Hc']|(p' & Hp' & Hc')]; [by left|]. right. by exists name, p'.
Qed.

Lemma reconcile_evolves (A : ApiClient E) Matches req c e c' :
  ApiClientOk A → cluster_ok c → reconcile Matches req c = (e, c') → cluster_ok c' ∧ evolves c c'.
Proof.
  intros Hok Hc [->|(name & p' & _ & Hp' & ->)]%reconcile_cases; [done| |done].
  set (key := (kp_Namespace req, name)) in *. set (q := default _ (proposals c !! key)) in Hp'.
  assert (proposal_key q = key ∧ proposal_ok q) as [Hk Hq].
  { unfold q. destruct (proposals c !! key) as [q'|] eqn:Hq'; [by apply Hc|]. split; [done|apply empty_proposal_ok]. }
  apply admission_same in Hp' as (Hr & Hk' & _). destruct (learn_ok req q Hq) as (H1 & H2 & H3 & _).
  apply replace_evolves; [done|congruence|by eapply proposal_ok_rules|].
  intros q' Hq'. etrans; [|by apply grows_rules]. etrans; [|exact H2]. unfold q. by rewrite Hq'.
Qed.

Lemma delete_proposal_evolves (A : ApiClient E) p c r c' :
  ApiClientOk A → cluster_ok c → promoted_from (pp_Namespace p) (pp_Name p) c →
  delete_proposal p c = (r, c') → cluster_ok c' ∧ evolves c c'.
Proof.
  intros Hok Hc Hpr. unfold delete_proposal. destruct (DeleteProposal c p) as [[e|] c1] eqn:Hd; intros [= <- <-].
  - apply DeleteProposal_error in Hd. by subst.
  - apply DeleteProposal_ok in Hd as ->. by apply (delete_evolves c (proposal_key p)).
Qed.

(** What a promotion does when it succeeds. *)
Lemma promote_cases (A : ApiClient E) k c r c' :
  ApiClientOk A → cluster_ok c → promote k c = (r, c') →
  c' = c ∨
  (∃ p, proposals c !! k = Some p ∧ promoted_from k.1 k.2 c ∧ delete_proposal p c = (r, c')) ∨
  (∃ p mode lp, proposals c !! k = Some p ∧ HasPromotionLabel p = Some mode ∧
    lp = MkLabelledPolicy {[PolicyPromotedFromLabelKey := k.2]}
           (MkWorkloadPolicy k.1 k.2 mode (pp_RulesByContainer p)) ∧
    (String.length k.2 <= maxLabelValueLength)%nat ∧ policies c !! k = None ∧
    delete_proposal p (MkCluster (proposals c) (<[k := lp]> (policies c))) = (r, c')).
Proof.
  intros Hok [Hc] H. unfold promote in H. destruct (GetProposal c k) as [p|] eqn:Hg; [|left; congruence].
  apply GetProposal_stored in Hg. destruct (Hc _ _ Hg) as [Hk _]. unfold proposal_key in Hk.
  destruct (pp_Deleting p); [left; congruence|]. unfold HasProposalBeenPromoted in H.
  destruct (ListPromoted _ _ _) as [n|] eqn:Hl; [|left; congruence].
  apply ListPromoted_stored in Hl. subst k. cbn [fst snd]. destruct (0 <? n)%nat eqn:Hn.
  - right. left. exists p. split_and!; [done| |done]. apply Hl. by apply Nat.ltb_lt.
  - destruct (HasPromotionLabel p) as [mode|] eqn:Hm; [|left; congruence]. unfold SetPromotedLabel in H.
    destruct (maxLabelValueLength <? String.length (pp_Name p))%nat eqn:Hlen; [left; congruence|].
    cbn [lp_Labels lp_wp] in H.
    destruct (CreatePolicy c _) as [[e|] c1] eqn:Hcr.
    + apply CreatePolicy_error in Hcr as ->. destruct (IsAlreadyExists e); left; congruence.
    + apply CreatePolicy_ok in Hcr as [Hnone ->]. right. right. eexists p, mode, _.
      split_and!; [done|done|reflexivity| |done|done]. apply Nat.ltb_ge in Hlen. done.
Qed.

Lemma create_evolves c k lp :
  cluster_ok c → policies c !! k = None →
  let c' := MkCluster (proposals c) (<[k := lp]> (policies c)) in cluster_ok c' ∧ evolves c c'.
Proof.
  intros [Hc] Hk. split; split; cbn; [done| |by apply insert_subseteq]. intros k' p Hp. left. by exists p.
Qed.

Lemma step_evolves c c' : cluster_ok c → step c c' → cluster_ok c' ∧ evolves c c'.
Proof.
  intros Hc Hs. destruct Hs as [A W Matches req l c Hok|k p mode c Hp|A k c Hok].
  - destruct (reconcile Matches req c) as [e c1] eqn:Hr. pose proof (reconcile_evolves A _ _ _ _ _ Hok Hc Hr) as H.
    unfold Reconcile. rewrite Hr. destruct e; [|done]. destruct (negb _ && negb _); [done|].
    destruct (_ <? _); [done|]. by destruct (When l req).
  - destruct Hc as [Hc0]. destruct (Hc0 _ _ Hp) as [Hk Hpok]. apply replace_evolves; [done|done|..].
    + by apply (proposal_ok_rules p).
    + intros q Hq. simplify_eq. by apply grows_rules.
  - destruct (promote k c) as [r c'] eqn:Hr.
    destruct (promote_cases A k c r c' Hok Hc Hr) as [->|[(p & Hp & Hpr & Hd)|(p & mode & lp & Hp & _ & -> & _ & Hnone & Hd)]]; [done|..];
      destruct Hc as [Hc0]; destruct (Hc0 _ _ Hp) as [Hk _].
    + eapply delete_proposal_evolves; [done|done| |exact Hd]. by subst.
    + set (lp := MkLabelledPolicy _ _) in Hd. destruct (create_evolves c k lp) as [Hc1 He1]; [done|done|].
      destruct (delete_proposal_evolves A p (MkCluster (proposals c) (<[k := lp]> (policies c))) r c') as [Hc2 He2]; [done|done| |done|].
      * subst k. exists (proposal_key p), lp. split_and!; [by apply lookup_insert_eq|done|]. apply lookup_singleton_eq.
      * split; [done|]. cbn. by etrans.
Qed.
Lemma steps_evolve c c' : cluster_ok c → rtc step c c' → cluster_ok c' ∧ evolves c c'.
Proof.
  intros Hc Hs. induction Hs as [c|c1 c2 c3 H12 _ IH]; [by split; [|reflexivity]|].
  destruct (step_evolves c1 c2 Hc H12) as [Hc2 He]. destruct (IH Hc2) as [Hc3 He3]. split; [done|by etrans].
Qed.

(** A write that is accepted and that the proposal has room for is learned. *)
Lemma accepted_learns (A : ApiClient E) req c c' name :
  let key := (kp_Namespace req, name) in
  ApiClientOk A → cluster_ok c →
  (∀ p, proposals c !! key = Some p → HasPromotionLabel p = None ∧ Z.of_nat (executables p) < policyProposalMaxExecutables) →
  CreateOrUpdate c (MkProposal (kp_Namespace req) name ∅ [] false ∅) (learn req) = (None, c') →
  cluster_ok c' ∧ ∃ p, proposals c' !! key = Some p ∧ permits (pp_RulesByContainer p) req.
Proof.
  intros key Hok Hc Hroom Hcu. apply CreateOrUpdate_ok in Hcu. cbv zeta in Hcu. change (proposal_key _) with key in Hcu.
  set (q := default _ (proposals c !! key)) in Hcu.
  assert (proposal_key q = key ∧ proposal_ok q ∧ HasPromotionLabel q = None ∧ IsFull q = false ∧
    ∀ q', proposals c !! key = Some q' → q' = q) as (Hqk & Hq & Hl & Hf & Hold).
  { unfold q. destruct (proposals c !! key) as [q'|] eqn:Hq'.
    - destruct (Hroom _ eq_refl) as [Hl Hlt]. destruct (co_proposals _ Hc _ _ Hq') as [Hk Hpo]. split_and!; [done..| |by intros ? [= ->]].
      cbn. destruct (IsFull q') eqn:Hf; [|done]. apply IsFull_iff in Hf; [lia|done].
    - split_and!; [done|apply empty_proposal_ok|done| |done]. cbn. destruct (IsFull _) eqn:Hf; [|done].
      apply IsFull_iff in Hf; [done|apply empty_proposal_ok]. }
  destruct (learn_ok req q Hq) as (Hlok & Hg & Hlk & Hperm). specialize (Hperm Hl (or_intror Hf)).
  destruct Hcu as [[Hsame ->]|(p' & (Hr & Hk & _)%admission_same & ->)].
  - split; [done|]. by exists (learn req q).
  - split; [|exists p'; cbn; rewrite lookup_insert_eq, Hr; done].
    apply replace_evolves; [done|congruence|by eapply proposal_ok_rules|].
    intros q' ->%Hold. etrans; [exact Hg|]. by apply grows_rules.
Qed.

(** What a promotion makes of a proposal. *)
Lemma promote_permits (A : ApiClient E) k c r c' p :
  ApiClientOk A → cluster_ok c → proposals c !! k = Some p → ¬ promoted_from k.1 k.2 c →
  promote k c = (r, c') → c' ≠ c →
  ∃ mode lp, HasPromotionLabel p = Some mode ∧ policies c' !! k = Some lp ∧
    lp = MkLabelledPolicy {[PolicyPromotedFromLabelKey := k.2]} (MkWorkloadPolicy k.1 k.2 mode (pp_RulesByContainer p)).
Proof.
  intros Hok Hc Hp Hnp Hr Hne.
  destruct (promote_cases A k c r c' Hok Hc Hr) as [?|[(q & _ & ? & _)|(q & mode & lp & Hq & Hm & -> & _ & _ & Hd)]]; [done..|].
  simplify_eq. eexists mode, _. split_and!; [done| |done].
  unfold delete_proposal in Hd. destruct (DeleteProposal _ _) as [[e|] c1] eqn:Hdel; injection Hd as _ <-.
  - apply DeleteProposal_error in Hdel as ->. apply lookup_insert_eq.
  - apply DeleteProposal_ok in Hdel as ->. apply lookup_insert_eq.
Qed.
End controllers.

(** ** Theorems *)


(** Learning an exec.  When [reconcile] returns without error for an event of a supported
    workload that is not skipped, the stored proposal of the workload permits the exec,
    except when the proposal is promoted or full, or the webhook refuses it for good. *)
Theorem reconcile_learns `{R : GoRange, !GoRangeOk R, E : ApiErrors} (A : ApiClient E) Matches req c c' labels name :
  ApiClientOk A → cluster_ok c → kp_WorkloadKind req ≠ "Pod" →
  GetNamespace c (kp_Namespace req) = inl labels → Matches labels = true →
  GetWorkloadPolicyProposalName (kp_WorkloadKind req) (kp_Workload req) = Ok name →
  skipOrLearn c req name = inl false →
  reconcile Matches req c = (None, c') →
  let key := (kp_Namespace req, name) in
  (∃ p, proposals c' !! key = Some p ∧ permits (pp_RulesByContainer p) req) ∨
  (∃ p p', proposals c !! key = Some p ∧ proposals c' !! key = Some p' ∧
    pp_RulesByContainer p' = pp_RulesByContainer p ∧
    (is_Some (HasPromotionLabel p) ∨ Z.of_nat (executables p) = policyProposalMaxExecutables)) ∨
  (c' = c ∧ ∃ e, StatusCode e = Some http_UnprocessableEntity ∨ StatusCode e = Some http_Gone).
Proof.
  intros Hok Hc Hpod Hns Hm Hname Hskip H key. unfold reconcile in H.
  rewrite (proj2 (String.eqb_neq _ _) Hpod), Hns, Hm, Hname, Hskip in H. cbn [negb] in H.
  destruct (CreateOrUpdate _ _ _) as [[err|] c1] eqn:Hcu.
  - injection H as Hr <-. apply CreateOrUpdate_error in Hcu as ->. right. right. split; [done|]. exists err.
    unfold handleAdmissionError in Hr. destruct (StatusCode err) as [code|]; [|done].
    destruct (code =? _) eqn:H1; [left; f_equal; lia|]. destruct (code =? http_Gone) eqn:H2; [right; f_equal; lia|].
    by repeat case_match.
  - injection H as <-. apply CreateOrUpdate_ok in Hcu. cbv zeta in Hcu. change (proposal_key _) with key in Hcu.
    set (q := default _ (proposals c !! key)) in Hcu.
    assert (proposal_ok q) as Hq.
    { unfold q. destruct (proposals c !! key) as [q'|] eqn:Hq'; [by apply (co_proposals _ Hc) in Hq' as [_ ?]|apply empty_proposal_ok]. }
    destruct (learn_ok req q Hq) as (_ & _ & _ & Hperm).
    assert (∃ p, proposals c1 !! key = Some p ∧ pp_RulesByContainer p = pp_RulesByContainer (learn req q)) as (p & Hp & Hpr).
    { destruct Hcu as [[Hold ->]|(p' & Hp' & ->)]; [by eexists|]. exists p'. cbn. rewrite lookup_insert_eq.
      by apply admission_same in Hp' as [? _]. }
    destruct (HasPromotionLabel q) eqn:Hl; [right; left|
      destruct (kp_ForeignRoot req) eqn:Hf; [left; exists p; rewrite Hpr; auto|
        destruct (IsFull q) eqn:Hfull; [right; left|left; exists p; rewrite Hpr; auto]]].
    + unfold q in *. destruct (proposals c !! key) as [q'|] eqn:Hq'; [|done]. cbn in *.
      exists q', p. split_and!; [done|done| |left; by rewrite Hl]. rewrite Hpr. unfold learn. by rewrite Hl.
    + unfold q in *. destruct (proposals c !! key) as [q'|] eqn:Hq'.
      * cbn in *. exists q', p. split_and!; [done|done| |right; by apply IsFull_iff].
        rewrite Hpr. unfold learn. by rewrite Hl, Hf, Hfull.
      * apply IsFull_iff in Hfull; [done|apply empty_proposal_ok].
Qed.

(** Promotion.  When the controller changes the cluster for a proposal that no policy was
    made of yet, it creates the policy of the same name with the mode the user asked for and
    the rules of the proposal: every exec the proposal permits is permitted by the policy the
    agents then enforce. *)
Theorem promoted_policy_permits `{R : GoRange, E : ApiErrors} (A : ApiClient E) k c r c' p :
  ApiClientOk A → cluster_ok c → proposals c !! k = Some p → ¬ promoted_from k.1 k.2 c →
  promote k c = (r, c') → c' ≠ c →
  ∃ mode lp, HasPromotionLabel p = Some mode ∧ policies c' !! k = Some lp ∧
    HasPromotedLabel k.2 lp = true ∧ wp_Mode (lp_wp lp) = mode ∧ (∃ m, ParseMode mode = Ok m) ∧
    NamespacedName (lp_wp lp) = (k.1 ++ "/" ++ k.2)%string ∧
    ∀ req, permits (pp_RulesByContainer p) req → permits (wp_RulesByContainer (lp_wp lp)) req.
Proof.
  intros Hok Hc Hp Hnp Hr Hne. destruct (promote_permits A k c r c' p Hok Hc Hp Hnp Hr Hne) as (mode & lp & Hm & Hlp & ->).
  eexists mode, _. split_and!; [done|exact Hlp| |done| |done|done].
  - unfold HasPromotedLabel. cbn [lp_Labels]. rewrite lookup_singleton_eq. apply String.eqb_refl.
  - unfold HasPromotionLabel in Hm. destruct (pp_Labels p !! _) as [val|]; [|done].
    destruct (val =? "monitor")%string; [injection Hm as <-; by eexists|].
    destruct (val =? "protect")%string; [injection Hm as <-; by eexists|done].
Qed.

(** Names of 64 to 253 bytes.  A proposal of such a name is learned, but no policy is
    ever made of it: the label that records the promotion is limited to 63 bytes. *)
Theorem long_names_never_promoted `{R : GoRange, E : ApiErrors} kind short workload :
  ShortName kind = Some short →
  (63 < String.length (short ++ "-" ++ workload) <= 253)%nat →
  ∃ name, GetWorkloadPolicyProposalName kind workload = Ok name ∧
    ∀ (A : ApiClient E) ns c, ApiClientOk A → cluster_ok c →
      policies (snd (promote (ns, name) c)) = policies c.
Proof.
  intros Hs [H1 H2]. exists (short ++ "-" ++ workload)%string. unfold GetWorkloadPolicyProposalName. rewrite Hs. split.
  - cbv zeta. destruct (DNS1123SubdomainMaxLength <? _)%nat eqn:Hlt; [|done].
    apply Nat.ltb_lt in Hlt. unfold DNS1123SubdomainMaxLength in Hlt. lia.
  - intros A ns c Hok Hc. destruct (promote _ c) as [r c'] eqn:Hr.
    destruct (promote_cases A _ c r c' Hok Hc Hr) as [->|[(q & _ & _ & Hd)|(q & mode & lp & _ & _ & _ & Hlen & _)]]; [done| |].
    + unfold delete_proposal in Hd. destruct (DeleteProposal _ _) as [[e|] c1] eqn:Hdel; injection Hd as _ <-; cbn.
      * by apply DeleteProposal_error in Hdel as ->.
      * by apply DeleteProposal_ok in Hdel as ->.
    + cbn [snd] in Hlen. unfold maxLabelValueLength in Hlen. lia.
Qed.

(** ** Retries *)

Section retries.
  Context `{R : GoRange, E : ApiErrors, W : RateLimiter, !RateLimiterOk W}.
  (** What the API server answers to each call, and what others do to the cluster before it. *)
  Context (A : nat → ApiClient E) (others : nat → cluster → cluster) (Matches : gmap string string → bool).

(** The calls of [Reconcile] for one event, as long as it asks to be called again: the delays,
    and how the last call ends. *)
Fixpoint attempts (req : KubeProcessInfo) (l : limiter) (c : cluster) (i fuel : nat)
  : option (list Z * option api_error * limiter) :=
  match fuel with
  | O => None
  | S fuel' =>
      let '(d, err, l', c') := Reconcile (A := A i) Matches req l (others i c) in
      if 0 <? d then
        match attempts req l' c' (S i) fuel' with
        | Some (ds, err', l'') => Some (d :: ds, err', l'')
        | None => None
        end
      else Some ([], err, l')
  end.

Lemma attempts_S req l c i fuel :
  attempts req l c i (S fuel) =
    let '(d, err, l', c') := Reconcile (A := A i) Matches req l (others i c) in
    if 0 <? d then
      match attempts req l' c' (S i) fuel with
      | Some (ds, err', l'') => Some (d :: ds, err', l'')
      | None => None
      end
    else Some ([], err, l').
Proof. done. Qed.

Lemma delay_room k : 0 <= k <= 16 → 0 <= baseDelay * (2 ^ 16 - 2 ^ k).
Proof. intros Hk. pose proof (Z.pow_le_mono_r 2 k 16). unfold baseDelay. lia. Qed.

Lemma attempts_end req n : (n <= 16)%nat → ∀ l c i,
  NumRequeues l req = 16 - Z.of_nat n →
  ∃ ds err l', attempts req l c i (S n) = Some (ds, err, l') ∧ (length ds <= n)%nat ∧
    foldr Z.add 0 ds <= baseDelay * (2 ^ 16 - 2 ^ (16 - Z.of_nat n)) ∧
    (err = None → NumRequeues l' req = 0).
Proof.
  induction n as [|n IH]; intros Hn l c i Hl; rewrite attempts_S; unfold Reconcile;
    (destruct (reconcile Matches req (others i c)) as [[e|] c1];
     [destruct (negb _ && negb _);
       [eexists _, _, _; split_and!; [done|cbn; lia|apply delay_room; lia|done]|]
     |eexists _, _, _; split_and!; [done|cbn; lia|apply delay_room; lia|intros _; apply NumRequeues_Forget]]).
  - rewrite (proj2 (Z.ltb_lt _ _)) by (unfold maxConflictRetries; lia).
    eexists _, _, _. by split_and!.
  - rewrite (proj2 (Z.ltb_ge _ _)) by (unfold maxConflictRetries; lia).
    pose proof (NumRequeues_When l req) as Hnum. pose proof (When_delay l req) as Hd. rewrite Hl in Hnum, Hd.
    destruct (When l req) as [d l1]. cbn [fst snd] in *. set (k := 16 - Z.of_nat (S n)) in *.
    pose proof (Z.pow_pos_nonneg 2 k). pose proof (Z.pow_le_mono_r 2 k 15). unfold maxDelay, baseDelay in *.
    rewrite (proj2 (Z.ltb_lt _ _)) by lia.
    destruct (IH ltac:(lia) l1 c1 (S i)) as (ds & err & l' & -> & Hlen & Hsum & Hend); [lia|].
    exists (d :: ds), err, l'. split_and!; [done|cbn; lia| |done]. cbn [foldr].
    replace (16 - Z.of_nat n) with (Z.succ k) in Hsum by lia. rewrite Z.pow_succ_r in Hsum by lia. lia.
Qed.
End retries.

(** C31: retries end.  However the API server answers and whatever others do in between, an
    event that keeps running into conflicts is tried at most 17 times, over at most 327675 ms
    of delays, and an event that is done leaves no count behind. *)
Theorem conflict_retries_bounded `{R : GoRange, E : ApiErrors, W : RateLimiter, !RateLimiterOk W}
  (A : nat → ApiClient E) others Matches req l c :
  NumRequeues l req = 0 →
  ∃ ds err l', attempts A others Matches req l c 0 17 = Some (ds, err, l') ∧ (length ds <= 16)%nat ∧
    foldr Z.add 0 ds <= 327675 ∧ (err = None → NumRequeues l' req = 0).
Proof. intros Hl. by apply (attempts_end A others Matches req 16 (le_n _) l c 0). Qed.

(** ** Instances *)

#[local] Existing Instances list_range list_range_ok.

Inductive sample_error := NotFoundError | ConflictError | ExistsError | MessageError (message : string).

#[local] Instance sample_errors : ApiErrors := {|
  api_error := sample_error;
  IsNotFound := λ e, match e with NotFoundError => true | _ => false end;
  IsConflict := λ e, match e with ConflictError => true | _ => false end;
  IsAlreadyExists := λ e, match e with ExistsError => true | _ => false end;
  StatusCode := λ e, match e with NotFoundError => Some 404 | MessageError _ => None | _ => Some http_Conflict end;
  Errorf := MessageError;
  wrap := λ _ e, e;
  TerminalError := λ e, e;
|}.

(** A server that answers every call; writes end with [conflict] when there is one. *)
Definition sample_client (conflict : option sample_error) : ApiClient sample_errors := {|
  GetNamespace := λ _ _, inl ∅;
  GetProposal := λ c k, match proposals c !! k with Some p => inl p | None => inr NotFoundError end;
  ListPromoted := λ c ns name, inl (length (filter (λ e, e.1.1 = ns ∧ lp_Labels e.2 !! PolicyPromotedFromLabelKey = Some name)
    (map_to_list (policies c))));
  GetOwner := λ _ _ _, inl "uid";
  CreateOrUpdate := λ c p f,
    match conflict with
    | Some e => (Some e, c)
    | None =>
        let old := proposals c !! proposal_key p in
        match admission (λ _ _ _, inl "uid") old (f (default p old)) with
        | inl p' => (None, set_proposals (<[proposal_key p := p']> (proposals c)) c)
        | inr _ => (Some (MessageError "denied"), c)
        end
    end;
  CreatePolicy := λ c lp,
    match policies c !! policy_key lp with
    | Some _ => (Some ExistsError, c)
    | None => (None, MkCluster (proposals c) (<[policy_key lp := lp]> (policies c)))
    end;
  DeleteProposal := λ c p, (None, set_proposals (delete (proposal_key p) (proposals c)) c);
|}.

Lemma sample_client_ok conflict : ApiClientOk (sample_client conflict).
Proof.
  split; cbn.
  - intros c k p. destruct (proposals c !! k); [by intros [= <-]|done].
  - intros c ns name n [= <-]. split.
    + intros Hn. destruct (filter _ _) as [|[k lp] l] eqn:Hf; [cbn in Hn; lia|].
      assert ((k, lp) ∈ filter (λ e : string * string * LabelledPolicy, e.1.1 = ns ∧
        lp_Labels e.2 !! PolicyPromotedFromLabelKey = Some name) (map_to_list (policies c))) as Hin by (rewrite Hf; left).
      apply list_elem_of_filter in Hin as [[H1 H2] Hin%elem_of_map_to_list]. by exists k, lp.
    + intros (k & lp & Hk & H1 & H2). apply elem_of_map_to_list in Hk.
      assert ((k, lp) ∈ filter (λ e : string * string * LabelledPolicy, e.1.1 = ns ∧
        lp_Labels e.2 !! PolicyPromotedFromLabelKey = Some name) (map_to_list (policies c))) as Hin
        by (apply list_elem_of_filter; done).
      destruct (filter _ _); [by apply elem_of_nil in Hin|cbn; lia].
  - intros c p f c'. destruct conflict; [done|]. destruct (admission _ _ _) as [p'|] eqn:Ha; [|done].
    intros [= <-]. right. by exists p'.
  - intros c p f e c'. destruct conflict; [by intros [= _ <-]|]. destruct (admission _ _ _); [done|by intros [= _ <-]].
  - intros c lp c'. destruct (policies c !! policy_key lp) eqn:Hp; [done|]. by intros [= <-].
  - intros c lp e c'. destruct (policies c !! policy_key lp) eqn:Hp; [by intros [= _ <-]|done].
  - by intros c p c' [= <-].
  - done.
Qed.

#[export] Instance KubeProcessInfo_eq_dec : EqDecision KubeProcessInfo.
Proof. solve_decision. Defined.

#[local] Instance counting_limiter : RateLimiter := {|
  limiter := KubeProcessInfo → Z;
  NumRequeues := λ l req, l req;
  When := λ l req, (Z.min (baseDelay * 2 ^ l req) maxDelay, λ r, if decide (r = req) then l r + 1 else l r);
  Forget := λ l req, λ r, if decide (r = req) then 0 else l r;
|}.
#[local] Instance counting_limiter_ok : RateLimiterOk counting_limiter.
Proof. split; cbn; intros; by rewrite ?decide_True. Qed.

Definition ls_event : KubeProcessInfo :=
  MkKubeProcessInfo "ns" "web" "Deployment" "app" (bytes_of_string "/bin/ls") "pod" "c1" "" false.

Definition empty_cluster : cluster := MkCluster ∅ ∅.

Lemma empty_cluster_ok : cluster_ok empty_cluster.
Proof. by split. Qed.

Abbreviation plain := (sample_client None).

(** The event is learned, the promotion is asked for, and the policy is made. *)
Definition ls_proposal : WorkloadPolicyProposal :=
  MkProposal "ns" "deploy-web" ∅ [MkOwner "apps/v1" "Deployment" "web" "uid" true true] false
    {["app" := MkRules [bytes_of_string "/bin/ls"] ∅]}.
Definition ls_key : string * string := ("ns", "deploy-web").
Definition learned : cluster := MkCluster {[ls_key := ls_proposal]} ∅.
Definition labelled : cluster :=
  set_proposals (<[ls_key := SetPromotionLabel "protect" ls_proposal]> (proposals learned)) learned.
Definition promoted : cluster :=
  MkCluster ∅ {[ls_key := MkLabelledPolicy {[PolicyPromotedFromLabelKey := "deploy-web"]}
    (MkWorkloadPolicy "ns" "deploy-web" "protect" (pp_RulesByContainer ls_proposal))]}.

Lemma learn_ls : reconcile (A := plain) (λ _, true) ls_event empty_cluster = (None, learned).
Proof. vm_compute. reflexivity. Qed.
Lemma promote_ls : promote (A := plain) ls_key labelled = (None, promoted).
Proof. vm_compute. reflexivity. Qed.

Lemma ls_proposal_ok : proposal_ok ls_proposal.
Proof.
  split; [vm_compute; discriminate|]. intros c rules Hr. unfold ls_proposal in Hr. cbn [pp_RulesByContainer] in Hr.
  apply lookup_singleton_Some in Hr as [_ <-]. apply NoDup_singleton.
Qed.

Lemma learned_ok : cluster_ok learned.
Proof.
  split. unfold learned. cbn [proposals]. intros k p [<- <-]%lookup_singleton_Some. split; [done|exact ls_proposal_ok].
Qed.
Lemma labelled_ok : cluster_ok labelled.
Proof.
  split. unfold labelled, learned. cbn [proposals set_proposals].
  intros k p [[<- <-]|[_ [<- <-]%lookup_singleton_Some]]%lookup_insert_Some;
    (split; [done|]); [by apply (proposal_ok_rules ls_proposal), ls_proposal_ok|exact ls_proposal_ok].
Qed.


Lemma reconcile_learns_witness : permits (pp_RulesByContainer ls_proposal) ls_event.
Proof.
  destruct (reconcile_learns plain (λ _, true) ls_event empty_cluster learned ∅ "deploy-web")
    as [(p & Hp & H)|[(p & p' & Hp & _)|(H & _)]];
    [apply sample_client_ok|exact empty_cluster_ok|discriminate|reflexivity|reflexivity|reflexivity|reflexivity|
     exact learn_ls|injection Hp as <-; exact H|discriminate Hp|discriminate H].
Defined.

Lemma promoted_policy_permits_witness :
  ∃ lp, policies promoted !! ls_key = Some lp ∧ permits (wp_RulesByContainer (lp_wp lp)) ls_event.
Proof.
  destruct (promoted_policy_permits plain ls_key labelled None promoted (SetPromotionLabel "protect" ls_proposal))
    as (mode & lp & _ & Hlp & _ & _ & _ & _ & H);
    [apply sample_client_ok|exact labelled_ok|reflexivity| |exact promote_ls|discriminate|].
  - intros (k & lp & Hk & _). discriminate Hk.
  - exists lp. split; [exact Hlp|]. apply H. eexists. split; [reflexivity|]. intros mode'. reflexivity.
Defined.

Definition long_name : string := "a-workload-with-a-name-that-is-longer-than-a-label-value-may-be-x".

Lemma long_names_never_promoted_witness :
  ∃ name, GetWorkloadPolicyProposalName "Deployment" long_name = Ok name ∧
    ∀ ns c, cluster_ok c → policies (snd (promote (A := plain) (ns, name) c)) = policies c.
Proof.
  destruct (long_names_never_promoted "Deployment" "deploy" long_name) as (name & Hn & H);
    [reflexivity|split; apply Nat.leb_le; vm_compute; reflexivity|]. exists name. split; [exact Hn|].
  intros ns c Hc. apply (H plain ns c); [apply sample_client_ok|exact Hc].
Defined.

(** Every write runs into a conflict. *)
Lemma conflict_retries_bounded_witness :
  ∃ ds err l', attempts (W := counting_limiter) (λ _, sample_client (Some ConflictError)) (λ _ c, c) (λ _, true) ls_event (λ _, 0) empty_cluster 0 17 =
      Some (ds, err, l') ∧ (length ds <= 16)%nat ∧ foldr Z.add 0 ds <= 327675 ∧ (err = None → l' ls_event = 0).
Proof.
  apply (conflict_retries_bounded (W := counting_limiter) (λ _, sample_client (Some ConflictError)) (λ _ c, c) (λ _, true) ls_event (λ _, 0) empty_cluster).
  reflexivity.
Defined.
