(* ===== verification/BpfManager.v ===== *)
(** * The eBPF manager of the agent

    [src/internal/bpf/manager.go]: how the programs are probed, configured and loaded;
    [src/internal/bpf/events_common.go]: the loop that turns the records of a ring buffer into
    events; [src/internal/bpf/logging.go]: the loop that turns the log records of the programs
    into log lines, its rate limiters, and how both loops are stopped by another goroutine. *)
From S2P Require Import Prelude GoStd CLayout ProgramTypes KernelLayout Kernel ConcreteKernel StringMaps PolicyValues Names CgroupTracker CgroupInfo Events AgentMaps.
Local Open Scope Z_scope.

(** ** Log lines *)

Inductive slog_level := LevelInfo | LevelWarn | LevelError.

Inductive log_attr := AttrInt (key : string) (value : Z) | AttrBytes (key : string) (value : bytes) | AttrString (key value : string).

(** A line, without the text of the error it may carry. *)
Record log_line := MkLine { ll_level : slog_level; ll_msg : string; ll_attrs : list log_attr }.

(** ** Rate limiters

    [Allow] is the call of golang.org/x/time/rate.  Its answers depend on the clock, which is
    part of the state [T]: every sequence of answers is possible. *)

Definition suppressionMsg : string := "logs suppressed by rate limiting".
Definition suppressedCountLogKey : string := "count".
Definition suppressedLogTypeKey : string := "log_type".

Record logRateLimiter (T : Type) := MkLimiter { limiter_state : T; suppressed : Z }.
Arguments MkLimiter {T} _ _.
Arguments limiter_state {T} _.
Arguments suppressed {T} _.

Definition suppression_line (level : slog_level) (count : Z) (msg : string) : log_line :=
  MkLine level suppressionMsg [AttrInt suppressedCountLogKey count; AttrString suppressedLogTypeKey msg].

(** ** Log events *)

(** The record as [binary.Read] fills it: the fields of [struct log_evt] in order, with the
    padding before the first 64-bit one. *)
Record bpfLogEvt := MkBpfLogEvt {
  ev_Code : Z;
  ev_Comm : bytes;
  ev_CgTrackerId : Z;
  ev_Pid : Z;
  ev_Tgid : Z;
  ev_Arg1 : Z;
  ev_Arg2 : Z;
}.

Definition read_log_evt (raw : bytes) : option bpfLogEvt :=
  if (length raw <? sizeof_log_evt)%nat then None
  else Some (MkBpfLogEvt (le_val (read 0 4 raw)) (read 4 16 raw) (le_val (read 24 8 raw)) (le_val (read 32 4 raw))
               (le_val (read 36 4 raw)) (le_val (read 40 8 raw)) (le_val (read 48 8 raw))).

Fixpoint until_nul (bs : bytes) : bytes :=
  match bs with
  | [] => []
  | b :: bs' => if b =? 0 then [] else b :: until_nul bs'
  end.

Definition getComm (evt : bpfLogEvt) : bytes := until_nul (ev_Comm evt).

Definition logEvent (evt : bpfLogEvt) (msg : string) (level : slog_level) (additionalArgs : list log_attr) : log_line :=
  MkLine level msg
    ([AttrInt "tid" (ev_Pid evt); AttrInt "pid" (ev_Tgid evt); AttrBytes "comm" (getComm evt);
      AttrInt "cgroup_tracker_id" (ev_CgTrackerId evt)] ++ additionalArgs).

Section logging.
  Context {T : Type} (Allow : T → bool * T).

(** The method of the rate limiter. *)
Definition limiter_logEvent (evt : bpfLogEvt) (msg : string) (level : slog_level) (additionalArgs : list log_attr)
  (l : logRateLimiter T) : list log_line * logRateLimiter T :=
  let '(ok, t) := Allow (limiter_state l) in
  if negb ok then ([], MkLimiter t (s64 (suppressed l + 1)))
  else if 0 <? suppressed l then
    ([suppression_line level (suppressed l) msg; logEvent evt msg level additionalArgs], MkLimiter t 0)
  else ([logEvent evt msg level additionalArgs], MkLimiter t (suppressed l)).

(** The two limiters of the package. *)
Record log_limiters := MkLimiters {
  dropExecLimiter : logRateLimiter T;
  dropViolationLimiter : logRateLimiter T;
}.

Definition logEventMsg (evt : bpfLogEvt) (ls : log_limiters) : list log_line * log_limiters :=
  let code := ev_Code evt in
  let plain msg level args := ([logEvent evt msg level args], ls) in
  if code =? 1 then plain "failed to lookup process event in per-cpu map" LevelError [AttrInt "cpu" (ev_Arg1 evt)]
  else if code =? 2 then plain "executable with missing file struct" LevelError []
  else if code =? 3 then plain "failed to resolve path" LevelWarn []
  else if code =? 4 then plain "empty path detected" LevelWarn []
  else if code =? 5 then plain "failed to copy exec path" LevelError []
  else if code =? 6 then
    let '(lines, l) := limiter_logEvent evt "dropped exec event" LevelWarn [] (dropExecLimiter ls) in
    (lines, MkLimiters l (dropViolationLimiter ls))
  else if code =? 7 then plain "path length too long" LevelWarn []
  else if code =? 8 then plain "policy mode missing" LevelWarn [AttrInt "policy_id" (ev_Arg1 evt)]
  else if code =? 9 then
    let '(lines, l) := limiter_logEvent evt "dropped violation event" LevelWarn
      [AttrInt "policy_id" (ev_Arg1 evt); AttrInt "mode" (ev_Arg2 evt)] (dropViolationLimiter ls) in
    (lines, MkLimiters (dropExecLimiter ls) l)
  else if code =? 10 then plain "failed to resolve cgroup id" LevelWarn []
  else if code =? 11 then plain "failed to resolve parent cgroup id" LevelWarn []
  else ([MkLine LevelError "unknown log event type" [AttrInt "type" code]], ls).

(** ** The loops

    What the calls of [rd.Read] return, in order; after the last one the loop waits. *)

Inductive ring_read := GotRecord (raw : bytes) | ReaderClosed | ReaderError (e : string).
Inductive loop_end := LoopWaits | LoopReturns (e : go_error) | LoopPanics (e : string).

Fixpoint loggerStart (reads : list ring_read) (ls : log_limiters) : list log_line * log_limiters * loop_end :=
  match reads with
  | [] => ([], ls, LoopWaits)
  | ReaderClosed :: _ => ([MkLine LevelInfo "ringbuf reader closed" []], ls, LoopReturns None)
  | ReaderError _ :: _ => ([], ls, LoopReturns (Some "reading from reader"))
  | GotRecord raw :: reads' =>
      let '(lines, ls') :=
        match read_log_evt raw with
        | None => ([MkLine LevelError "parsing ringbuf event" []], ls)
        | Some evt => logEventMsg evt ls
        end in
      let '(lines', ls'', end_) := loggerStart reads' ls' in
      (lines ++ lines', ls'', end_)
  end.
End logging.
Arguments log_limiters T : clear implicits.
Arguments MkLimiters {T} _ _.
Arguments dropExecLimiter {T} _.
Arguments dropViolationLimiter {T} _.

(** [processRingbufEvents]: the events sent, the lines logged and how the loop ends. *)
Fixpoint processRingbufEvents (reads : list ring_read) : list ProcessEvent * list log_line * loop_end :=
  match reads with
  | [] => ([], [], LoopWaits)
  | ReaderClosed :: _ => ([], [MkLine LevelInfo "ringbuf reader closed" []], LoopReturns None)
  | ReaderError _ :: _ => ([], [], LoopReturns (Some "reading from reader"))
  | GotRecord raw :: reads' =>
      match decode_event raw with
      | Ok event => let '(events, lines, end_) := processRingbufEvents reads' in (event :: events, lines, end_)
      | Err e => let '(events, lines, end_) := processRingbufEvents reads' in (events, MkLine LevelError e [] :: lines, end_)
      | Panic e => ([], [], LoopPanics e)
      end
  end.

Inductive consumer_mode := learning | monitoring.

(** The consumer of a ring buffer: [attach] and [newReader] are the errors of attaching the exec
    hook and of opening the reader; [records] is what the reader of each buffer returns. *)
Definition setupEventConsumer (mod_ : consumer_mode) (attach newReader : go_error) (records : ringbuf → list ring_read)
  : list ProcessEvent * list log_line * loop_end :=
  let consume buf :=
    match newReader with
    | Some _ => ([], [], LoopReturns (Some "opening ringbuf reader"))
    | None => processRingbufEvents (records buf)
    end in
  match mod_ with
  | learning => consume RB_execve
  | monitoring =>
      match attach with
      | Some _ => ([], [], LoopReturns (Some "failed to attach prog"))
      | None => consume RB_monitoring
      end
  end.

(** ** Loading *)

(** The part of a map's specification that is rewritten: its size, and the key size of the inner
    map when it is a map of maps. *)
Record map_spec := MkMapSpec { MaxEntries : Z; InnerKeySize : option Z }.
Record collection_spec := MkSpec { sp_Maps : gmap string map_spec; sp_Variables : gmap string load_conf }.

Inductive ebpf_log_level := LogLevelStats | LogLevelBranch.

Definition loadTimeConfigBPFVar : string := "load_time_config".
Definition oversized_maps : list string := ["pol_str_maps_8"; "pol_str_maps_9"; "pol_str_maps_10"].

(** What the host and github.com/cilium/ebpf answer while the manager is made.  [LoadAndAssign]
    is asked at most twice: its answer depends on the attempt. *)
Class Loader := {
  RemoveMemlock : go_error;
  HaveRingBuf : go_error;
  NewProbe : go_error;
  AttachProbe : go_error;
  CloseProbeLink : go_error;
  loadBpf : go_result collection_spec;
  SetVariable : load_conf → go_error;
  kernel_release : string;
  ebpf_objects : Type;
  LoadAndAssign : collection_spec → ebpf_log_level → go_result ebpf_objects;
}.

Section manager.
  Context `{LD : Loader, H : HostFs}.

Definition probeEbpfFeatures : go_error :=
  match HaveRingBuf with
  | Some _ => Some "BPF_MAP_TYPE_RINGBUF not supported"
  | None =>
      match NewProbe with
      | Some e => Some e
      | None => match AttachProbe with Some e => Some e | None => CloseProbeLink end
      end
  end.

(** The loop over the maps whose keys are too long for kernels before 5.11. *)
Fixpoint shrink_maps (names : list string) (maps : gmap string map_spec) : go_result (gmap string map_spec) :=
  match names with
  | [] => Ok maps
  | name :: names' =>
      match maps !! name with
      | None => Err "map not found in spec"
      | Some spec =>
          match InnerKeySize spec with
          | None => Err "map is not a hash of maps"
          | Some _ => shrink_maps names' (<[name := MkMapSpec 1 (Some stringMapSize7)]> maps)
          end
      end
  end.

(** [err.Error()] of an error that is nil panics. *)
Definition error_text {A} (r : go_result A) : go_result string :=
  match r with Err e | Panic e => Ok e | Ok _ => Panic "nil pointer dereference" end.

Definition loadEbpfObjects (spec : collection_spec) (level : ebpf_log_level) : go_result ebpf_objects :=
  match LoadAndAssign spec level with Ok objs => Ok objs | Err e | Panic e => Err e end.

(** The specification of the programs and maps, ready to be loaded. *)
Definition prepare_spec (enableLearning : bool) : go_result collection_spec :=
  match RemoveMemlock with
  | Some _ => Err "failed to remove memlock"
  | None =>
  match probeEbpfFeatures with
  | Some _ => Err "failure during eBPF feature probing"
  | None =>
  match loadBpf with
  | Err _ | Panic _ => Err "failed to load BPF spec"
  | Ok spec =>
  match getLoadTimeConfig enableLearning with
  | Err _ | Panic _ => Err "failed to get load time config"
  | Ok conf =>
  match sp_Variables spec !! loadTimeConfigBPFVar with
  | None => Panic "nil pointer dereference"
  | Some _ =>
  match SetVariable conf with
  | Some _ => Err "error rewriting load_time_config"
  | None =>
      let vars := <[loadTimeConfigBPFVar := conf]> (sp_Variables spec) in
      if CurrVersionIsLowerThan kernel_release "5.11" then
        match shrink_maps oversized_maps (sp_Maps spec) with
        | Ok maps => Ok (MkSpec maps vars)
        | Err e => Err e
        | Panic e => Panic e
        end
      else Ok (MkSpec (sp_Maps spec) vars)
  end end end end end end.

Definition NewManager (enableLearning : bool) : go_result (collection_spec * ebpf_objects) :=
  match prepare_spec enableLearning with
  | Err e => Err e
  | Panic e => Panic e
  | Ok spec =>
      match loadEbpfObjects spec LogLevelStats with
      | Ok objs => Ok (spec, objs)
      | Err _ | Panic _ =>
          match error_text (loadEbpfObjects spec LogLevelBranch) with
          | Panic e => Panic e
          | Ok _ | Err _ => Err "failed to load eBPF objects"
          end
      end
  end.

Lemma shrink_maps_Ok names maps maps' :
  shrink_maps names maps = Ok maps' → ∀ name,
  maps' !! name = if decide (name ∈ names) then Some (MkMapSpec 1 (Some stringMapSize7)) else maps !! name.
Proof.
  revert maps. induction names as [|n names IH]; intros maps Hs name; cbn [shrink_maps] in Hs; [by injection Hs as <-|].
  destruct (maps !! n) as [spec|]; [|done]. destruct (InnerKeySize spec); [|done]. rewrite (IH _ Hs name).
  destruct (decide (name ∈ names)), (decide (name ∈ n :: names)) as [Hin|Hin]; [done|set_solver| |].
  - assert (name = n) as -> by set_solver. by rewrite lookup_insert_eq.
  - rewrite lookup_insert_ne; [done|]. set_solver.
Qed.

(** C32: making the manager.  Once the specification is prepared it carries the configuration of
    the host, and on kernels before 5.11, and only there, the three maps with keys over 512 bytes are cut
    down to that size and one entry; every other map is as it was built.  The manager is made
    when the programs load; when they do not, the second attempt, made only for its messages,
    must fail too: if it succeeds, the agent crashes instead of starting. *)
Theorem NewManager_cases learn spec' :
  prepare_spec learn = Ok spec' →
  (∃ spec conf, loadBpf = Ok spec ∧ getLoadTimeConfig learn = Ok conf ∧
    sp_Variables spec' !! loadTimeConfigBPFVar = Some conf ∧
    ∀ name, sp_Maps spec' !! name =
      if CurrVersionIsLowerThan kernel_release "5.11" && bool_decide (name ∈ oversized_maps)
      then Some (MkMapSpec 1 (Some 512)) else sp_Maps spec !! name) ∧
  (∀ r, NewManager learn = Ok r ↔ ∃ objs, LoadAndAssign spec' LogLevelStats = Ok objs ∧ r = (spec', objs)) ∧
  ((∃ e, NewManager learn = Panic e) ↔
    (∀ objs, LoadAndAssign spec' LogLevelStats ≠ Ok objs) ∧ ∃ objs, LoadAndAssign spec' LogLevelBranch = Ok objs).
Proof.
  intros Hp. split; [|unfold NewManager, loadEbpfObjects, error_text; rewrite Hp;
    destruct (LoadAndAssign spec' LogLevelStats), (LoadAndAssign spec' LogLevelBranch); naive_solver].
  unfold prepare_spec in Hp. destruct RemoveMemlock; [done|]. destruct probeEbpfFeatures; [done|].
  destruct loadBpf as [spec| |]; [|done..]. destruct (getLoadTimeConfig learn) as [conf| |]; [|done..].
  destruct (sp_Variables spec !! _); [|done]. destruct (SetVariable conf); [done|]. exists spec, conf.
  destruct (CurrVersionIsLowerThan _ _); cbn [andb].
  - destruct (shrink_maps oversized_maps (sp_Maps spec)) as [maps| |] eqn:Hs; [|done..]. injection Hp as <-.
    split_and!; [done..|apply lookup_insert_eq|]. intros name. cbn [sp_Maps]. rewrite (shrink_maps_Ok _ _ _ Hs name).
    by destruct (decide _) as [?|?]; [rewrite bool_decide_true|rewrite bool_decide_false].
  - injection Hp as <-. split_and!; [done..|apply lookup_insert_eq|done].
Qed.
End manager.

(** ** Stopping a loop

    When the context ends, a goroutine of its own closes the reader.  In [processRingbufEvents]
    it keeps the result of [Close] in a variable of its own; in [loggerStart] it assigns it to
    the variable [err] of the loop ([shared]).  The steps below are the reads and writes of that
    variable, in any interleaving. *)

Inductive loop_error := ErrClosed | ParseError | CloseError.

Inductive loop_pc :=
  | AtRead                              (** about to call [rd.Read()] *)
  | AtNilTest                           (** at [err != nil] after it *)
  | AtClosedTest                        (** at [errors.Is(err, ringbuf.ErrClosed)] *)
  | AtParse                             (** about to call [binary.Read] *)
  | AtParseTest (evt : option bpfLogEvt) (** at [err != nil] after it *)
  | Stopped (result : go_error).

Inductive closer_pc :=
  | CloserWaits                         (** at [<-ctx.Done()] *)
  | CloserAssigns (r : option loop_error) (** [rd.Close()] has returned *)
  | CloserTests (r : option loop_error)   (** at [err != nil] *)
  | CloserDone.

Record shutdown := MkShutdown {
  sd_pc : loop_pc;
  sd_closer : closer_pc;
  sd_open : bool;
  sd_err : option loop_error;
  sd_record : bytes;
  sd_errors : list string;
}.

Inductive shutdown_step (shared : bool) : shutdown → shutdown → Prop :=
  | loop_reads raw c e rec l :
      shutdown_step shared (MkShutdown AtRead c true e rec l) (MkShutdown AtNilTest c true None raw l)
  | loop_reads_closed c e rec l :
      shutdown_step shared (MkShutdown AtRead c false e rec l) (MkShutdown AtNilTest c false (Some ErrClosed) [] l)
  | loop_tests_nil c o e rec l :
      shutdown_step shared (MkShutdown AtNilTest c o e rec l)
        (MkShutdown (match e with None => AtParse | Some _ => AtClosedTest end) c o e rec l)
  | loop_tests_closed c o e rec l :
      shutdown_step shared (MkShutdown AtClosedTest c o e rec l)
        (MkShutdown (Stopped (match e with Some ErrClosed => None | _ => Some "reading from reader" end)) c o e rec l)
  | loop_parses c o e rec l :
      shutdown_step shared (MkShutdown AtParse c o e rec l)
        (MkShutdown (AtParseTest (read_log_evt rec)) c o
           (match read_log_evt rec with Some _ => None | None => Some ParseError end) rec l)
  | loop_tests_parse evt c o e rec l :
      shutdown_step shared (MkShutdown (AtParseTest evt) c o e rec l)
        (MkShutdown AtRead c o e rec (match e with Some _ => l ++ ["parsing ringbuf event"] | None => l end))
  | closer_closes pc r o e rec l :
      shutdown_step shared (MkShutdown pc CloserWaits o e rec l) (MkShutdown pc (CloserAssigns r) false e rec l)
  | closer_assigns pc r o e rec l :
      shutdown_step shared (MkShutdown pc (CloserAssigns r) o e rec l)
        (MkShutdown pc (CloserTests r) o (if shared then r else e) rec l)
  | closer_tests pc r o e rec l :
      shutdown_step shared (MkShutdown pc (CloserTests r) o e rec l)
        (MkShutdown pc CloserDone o e rec
           (match (if shared then e else r) with Some _ => l ++ ["closing ringbuf reader"] | None => l end)).

Definition loop_started (s : shutdown) : Prop := ∃ e rec, s = MkShutdown AtRead CloserWaits true e rec [].

(** A loop with a variable of its own: what the variable holds at each test. *)
Definition own_variable (s : shutdown) : Prop :=
  match sd_pc s with
  | AtNilTest => sd_err s = None ∨ sd_err s = Some ErrClosed
  | AtClosedTest => sd_err s = Some ErrClosed
  | Stopped r => r = None
  | _ => True
  end.

Lemma own_variable_step s s' : own_variable s → shutdown_step false s s' → own_variable s'.
Proof.
  intros Ho Hs. destruct Hs as [| |c o [e|] rec l| | | | | |]; unfold own_variable in *; cbn [sd_pc sd_err] in *; auto.
  - by destruct Ho as [?|?].
  - by subst.
Qed.

Lemma own_variable_run s s' : loop_started s → rtc (shutdown_step false) s s' → own_variable s'.
Proof.
  intros (e & rec & ->) Hrun. assert (own_variable (MkShutdown AtRead CloserWaits true e rec [])) as Ho by done.
  revert Ho. induction Hrun as [|a b c Hs _ IH]; [done|]. intros Ho. by eapply IH, own_variable_step.
Qed.


(** ** From the programs to the log *)

(** The bytes of a record as the programs reserve it; [pad] is what the kernel leaves in the
    padding. *)
Definition log_evt_bytes (pad : bytes) (e : log_evt) : bytes :=
  le_bytes 4 (log_code_val (le_code e)) ++ le_comm e ++ pad ++ le_bytes 8 (le_cg_tracker_id e) ++
  le_bytes 4 (le_pid e) ++ le_bytes 4 (le_tgid e) ++ le_bytes 8 (le_arg1 e) ++ le_bytes 8 (le_arg2 e).

(** The fields are in the range of their C types. *)
Record log_evt_ok (e : log_evt) : Prop := {
  lo_comm : length (le_comm e) = 16%nat;
  lo_cg : 0 <= le_cg_tracker_id e < 2 ^ 64;
  lo_pid : 0 <= le_pid e < 2 ^ 32;
  lo_tgid : 0 <= le_tgid e < 2 ^ 32;
  lo_arg1 : 0 <= le_arg1 e < 2 ^ 64;
  lo_arg2 : 0 <= le_arg2 e < 2 ^ 64;
}.

Definition decoded (e : log_evt) : bpfLogEvt :=
  MkBpfLogEvt (log_code_val (le_code e)) (le_comm e) (le_cg_tracker_id e) (le_pid e) (le_tgid e) (le_arg1 e) (le_arg2 e).

Lemma read_field pre post off n x :
  Z.to_nat off = length pre → 0 <= x < 2 ^ (8 * Z.of_nat n) →
  le_val (read off n (pre ++ le_bytes n x ++ post)) = x.
Proof. intros Ho Hx. rewrite (read_app pre) by (by rewrite ?length_le_bytes). rewrite le_val_bytes. by apply Z.mod_small. Qed.

Lemma log_code_range c : 0 <= log_code_val c < 2 ^ 32.
Proof. destruct c; cbn; lia. Qed.

Lemma read_log_evt_bytes pad e :
  log_evt_ok e → length pad = 4%nat → read_log_evt (log_evt_bytes pad e) = Some (decoded e).
Proof.
  intros [Hc Hcg Hp Ht H1 H2] Hpad. pose proof (log_code_range (le_code e)).
  unfold read_log_evt. assert (length (log_evt_bytes pad e) = 56%nat) as -> by (unfold log_evt_bytes; len).
  unfold decoded. cbn [Nat.ltb Nat.leb sizeof_log_evt]. unfold log_evt_bytes. repeat f_equal.
  - by apply (read_field []).
  - by apply (read_app (le_bytes 4 _)).
  - rewrite !(app_assoc _ _ (le_bytes 8 (le_cg_tracker_id e) ++ _)). apply read_field; [len|done].
  - rewrite !(app_assoc _ _ (le_bytes 4 (le_pid e) ++ _)). apply read_field; [len|done].
  - rewrite !(app_assoc _ _ (le_bytes 4 (le_tgid e) ++ _)). apply read_field; [len|done].
  - rewrite !(app_assoc _ _ (le_bytes 8 (le_arg1 e) ++ _)). apply read_field; [len|done].
  - rewrite <- (app_nil_r (le_bytes 8 (le_arg2 e))) at 1. rewrite !(app_assoc _ _ (le_bytes 8 (le_arg2 e) ++ [])).
    apply read_field; [len|done].
Qed.

(** What the log should say about a record. *)
Definition log_entry (e : log_evt) : log_line :=
  let line level msg args :=
    MkLine level msg ([AttrInt "tid" (le_pid e); AttrInt "pid" (le_tgid e); AttrBytes "comm" (until_nul (le_comm e));
      AttrInt "cgroup_tracker_id" (le_cg_tracker_id e)] ++ args) in
  match le_code e with
  | LOG_FAIL_TO_LOOKUP_EVT_MAP =>
      line LevelError "failed to lookup process event in per-cpu map" [AttrInt "cpu" (le_arg1 e)]
  | LOG_MISSING_FILE_STRUCT => line LevelError "executable with missing file struct" []
  | LOG_FAIL_TO_RESOLVE_PATH => line LevelWarn "failed to resolve path" []
  | LOG_EMPTY_PATH => line LevelWarn "empty path detected" []
  | LOG_FAIL_TO_COPY_EXEC_PATH => line LevelError "failed to copy exec path" []
  | LOG_DROP_EXEC_EVENT => line LevelWarn "dropped exec event" []
  | LOG_PATH_LEN_TOO_LONG => line LevelWarn "path length too long" []
  | LOG_POLICY_MODE_MISSING => line LevelWarn "policy mode missing" [AttrInt "policy_id" (le_arg1 e)]
  | LOG_DROP_VIOLATION =>
      line LevelWarn "dropped violation event" [AttrInt "policy_id" (le_arg1 e); AttrInt "mode" (le_arg2 e)]
  | LOG_FAIL_TO_RESOLVE_CGROUP_ID => line LevelWarn "failed to resolve cgroup id" []
  | LOG_FAIL_TO_RESOLVE_PARENT_CGROUP_ID => line LevelWarn "failed to resolve parent cgroup id" []
  end.

(** Records that are lost events, of which many may come at once. *)
Definition is_drop (c : log_code) : bool :=
  match c with LOG_DROP_EXEC_EVENT | LOG_DROP_VIOLATION => true | _ => false end.
Definition drop_msg (c : log_code) : string :=
  match c with LOG_DROP_EXEC_EVENT => "dropped exec event" | _ => "dropped violation event" end.

(** The number of lost events of a kind that a line tells of. *)
Definition tells (msg : string) (l : log_line) : Z :=
  if (ll_msg l =? msg)%string then 1
  else if (ll_msg l =? suppressionMsg)%string then
    match ll_attrs l with
    | [AttrInt _ count; AttrString _ msg'] => if (msg' =? msg)%string then count else 0
    | _ => 0
    end
  else 0.
Definition told (msg : string) (lines : list log_line) : Z := foldr (λ l n, tells msg l + n) 0 lines.

Definition about_drops (l : log_line) : bool :=
  (ll_msg l =? suppressionMsg)%string || (ll_msg l =? "dropped exec event")%string || (ll_msg l =? "dropped violation event")%string.

Definition drops (c : log_code) (es : list log_evt) : Z := Z.of_nat (length (filter (λ e, le_code e = c) es)).

Definition limiter_for {T} (c : log_code) (ls : log_limiters T) : logRateLimiter T :=
  match c with LOG_DROP_EXEC_EVENT => dropExecLimiter ls | _ => dropViolationLimiter ls end.

Section log_theorems.
  Context {T : Type} (Allow : T → bool * T).

Lemma told_app msg l1 l2 : told msg (l1 ++ l2) = told msg l1 + told msg l2.
Proof. unfold told. rewrite foldr_app. induction l1 as [|x l1 IH]; cbn [foldr]; lia. Qed.

(** What one record adds to the log. *)
Record logged (es : list log_evt) (ls : log_limiters T) (lines : list log_line) (ls' : log_limiters T) : Prop := {
  lg_plain : filter (λ l, about_drops l = false) lines = log_entry <$> filter (λ e, is_drop (le_code e) = false) es;
  lg_drops c : is_drop c = true →
    told (drop_msg c) lines + suppressed (limiter_for c ls') = suppressed (limiter_for c ls) + drops c es;
  lg_range c : is_drop c = true → 0 <= suppressed (limiter_for c ls') <= suppressed (limiter_for c ls) + drops c es;
}.

Definition room (n : Z) (ls : log_limiters T) : Prop :=
  ∀ c, is_drop c = true → 0 <= suppressed (limiter_for c ls) /\ suppressed (limiter_for c ls) + n < 2 ^ 63.

Lemma tells_suppression level n m msg :
  m ≠ suppressionMsg → tells m (suppression_line level n msg) = if (msg =? m)%string then n else 0.
Proof.
  intros Hm. unfold tells. cbn [ll_msg ll_attrs suppression_line].
  by rewrite (proj2 (String.eqb_neq _ _) (not_eq_sym Hm)), String.eqb_refl.
Qed.

Lemma tells_event evt m msg level args :
  msg ≠ suppressionMsg → tells m (logEvent evt msg level args) = if (msg =? m)%string then 1 else 0.
Proof. intros Hm. unfold tells. cbn [ll_msg logEvent]. by rewrite (proj2 (String.eqb_neq _ _) Hm). Qed.

Lemma limiter_step evt msg level args l :
  0 <= suppressed l < 2 ^ 63 - 1 → msg ≠ suppressionMsg →
  let '(lines, l') := limiter_logEvent Allow evt msg level args l in
  told msg lines + suppressed l' = suppressed l + 1 ∧ 0 <= suppressed l' <= suppressed l + 1 ∧
  (∀ m, m ≠ msg → m ≠ suppressionMsg → told m lines = 0) ∧
  Forall (λ x, ll_msg x = suppressionMsg ∨ ll_msg x = msg) lines.
Proof.
  intros Hl Hmsg. unfold limiter_logEvent. destruct (Allow (limiter_state l)) as [[] t]; cbn [negb suppressed].
  - destruct (Z.ltb_spec 0 (suppressed l)); cbn [told foldr suppressed].
    + rewrite tells_suppression, tells_event, String.eqb_refl by done. cbv iota. split_and!; [lia..| |].
      * intros m Hm Hs. rewrite tells_suppression, tells_event by done. by rewrite (proj2 (String.eqb_neq _ _) (not_eq_sym Hm)).
      * constructor; [by left|]. constructor; [by right|constructor].
    + rewrite tells_event, String.eqb_refl by done. cbv iota. split_and!; [lia..| |].
      * intros m Hm Hs. rewrite tells_event by done. by rewrite (proj2 (String.eqb_neq _ _) (not_eq_sym Hm)).
      * constructor; [by right|constructor].
  - rewrite s64_small by lia. split_and!; [cbn; lia|lia|lia|done|constructor].
Qed.
(** The lines of a limiter are about lost events only. *)
Lemma limiter_lines_filtered msg lines :
  Forall (λ x, ll_msg x = suppressionMsg ∨ ll_msg x = msg) lines →
  (msg = "dropped exec event" ∨ msg = "dropped violation event") →
  filter (λ l, about_drops l = false) lines = [].
Proof.
  intros Hl Hmsg. induction Hl as [|x lines Hx _ IH]; [done|]. rewrite filter_cons, decide_False; [done|].
  unfold about_drops. destruct Hx as [->| ->]; [done|]. by destruct Hmsg as [-> | ->].
Qed.

Lemma logEventMsg_logged e ls :
  room 1 ls → let '(lines, ls') := logEventMsg Allow (decoded e) ls in logged [e] ls lines ls'.
Proof.
  intros Hroom. pose proof (Hroom LOG_DROP_EXEC_EVENT eq_refl) as H1. pose proof (Hroom LOG_DROP_VIOLATION eq_refl) as H2.
  unfold logEventMsg. cbn [decoded ev_Code]. unfold drops.
  destruct (is_drop (le_code e)) eqn:Hd.
  - destruct (le_code e) eqn:Hc; try discriminate Hd; cbn [log_code_val Z.eqb Pos.eqb];
      [pose proof (limiter_step (decoded e) "dropped exec event" LevelWarn [] (dropExecLimiter ls)) as Hs
      |pose proof (limiter_step (decoded e) "dropped violation event" LevelWarn
         [AttrInt "policy_id" (ev_Arg1 (decoded e)); AttrInt "mode" (ev_Arg2 (decoded e))] (dropViolationLimiter ls)) as Hs];
      cbn [limiter_for] in H1, H2; specialize (Hs ltac:(lia) ltac:(done));
      destruct (limiter_logEvent _ _ _ _ _ _) as [lines l'], Hs as (Ht & [Hn Hn'] & Hother & Hl);
      (split; [rewrite (limiter_lines_filtered _ _ Hl ltac:(by auto)), filter_cons, Hc; done| |]);
      intros [] [=]; cbn [limiter_for drop_msg dropExecLimiter dropViolationLimiter]; unfold drops;
      rewrite ?filter_cons, ?Hc, ?decide_True, ?decide_False by done; cbn [filter list_filter length];
      rewrite ?Hother by done; lia.
  - assert (∀ msg level args, log_entry e = logEvent (decoded e) msg level args →
      msg ∉ [suppressionMsg; "dropped exec event"; "dropped violation event"] →
      logged [e] ls [logEvent (decoded e) msg level args] ls) as Hplain.
    { intros msg level args Heq Hm. rewrite !not_elem_of_cons in Hm. destruct Hm as (Hm1 & Hm2 & Hm3 & _). split.
      - rewrite !filter_cons, decide_True, Hd, decide_True; [by rewrite fmap_cons, Heq|done|]. unfold about_drops. cbn [ll_msg logEvent].
        by rewrite !(proj2 (String.eqb_neq _ _)).
      - intros c Hc. cbn [told foldr]. rewrite tells_event, (proj2 (String.eqb_neq _ _)) by (done || by destruct c).
        unfold drops. rewrite filter_cons, decide_False; [cbn; lia|]. intros Heq'. congruence.
      - intros c Hc. specialize (Hroom c Hc). unfold drops. lia. }
    destruct (le_code e) eqn:Hc; try discriminate Hd; cbn [log_code_val Z.eqb Pos.eqb];
      (apply Hplain; [unfold log_entry; rewrite Hc; reflexivity|rewrite !not_elem_of_cons; split_and!; [done..|apply not_elem_of_nil]]).
Qed.
Lemma drops_cons c e es : drops c (e :: es) = drops c [e] + drops c es.
Proof. unfold drops. change (e :: es) with ([e] ++ es). rewrite filter_app, length_app. lia. Qed.

Lemma logged_cons e es ls ls1 ls' lines lines' :
  logged [e] ls lines ls1 → logged es ls1 lines' ls' → logged (e :: es) ls (lines ++ lines') ls'.
Proof.
  intros [P1 D1 R1] [P2 D2 R2]. split.
  - rewrite filter_app, P1, P2. change (e :: es) with ([e] ++ es). by rewrite (filter_app _ [e]), fmap_app.
  - intros c Hc. specialize (D1 c Hc). specialize (D2 c Hc). rewrite told_app, drops_cons. lia.
  - intros c Hc. specialize (R1 c Hc). specialize (R2 c Hc). rewrite drops_cons. lia.
Qed.

Lemma logged_room e ls lines ls' n : room (Z.of_nat (S n)) ls → logged [e] ls lines ls' → room (Z.of_nat n) ls'.
Proof.
  intros Hr [_ _ Hrange] c Hc. specialize (Hrange c Hc). specialize (Hr c Hc).
  assert (drops c [e] <= 1); [|lia]. unfold drops. pose proof (length_filter (λ e, le_code e = c) [e]). cbn [length] in *. lia.
Qed.

(** C28: the log of the programs.  Whatever log records the programs queue, the loop that reads
    them parses each one and logs, in order, exactly one line for every record that is not a
    lost event, with the message of its code, the task, its name up to the first nul byte and the arguments
    of the code.  Lost events are rate limited but not forgotten: for both kinds, the lines and
    the counts of the suppression lines, with the count still pending, add up to the number of
    records, however the limiters answer. *)
Theorem log_complete es pads ls :
  Forall log_evt_ok es → Forall (λ pad, length pad = 4%nat) pads → length pads = length es →
  room (Z.of_nat (length es)) ls →
  ∃ lines ls', loggerStart Allow (GotRecord <$> zip_with log_evt_bytes pads es) ls = (lines, ls', LoopWaits) ∧
    filter (λ l, about_drops l = false) lines = log_entry <$> filter (λ e, is_drop (le_code e) = false) es ∧
    ∀ c, is_drop c = true →
      told (drop_msg c) lines + suppressed (limiter_for c ls') = suppressed (limiter_for c ls) + drops c es.
Proof.
  intros Hes Hpads Hlen Hroom. assert (∃ lines ls',
    loggerStart Allow (GotRecord <$> zip_with log_evt_bytes pads es) ls = (lines, ls', LoopWaits) ∧ logged es ls lines ls')
    as (lines & ls' & Hrun & [P D _]); [|by exists lines, ls'].
  revert pads Hpads Hlen ls Hroom. induction Hes as [|e es He _ IH]; intros pads Hpads Hlen ls Hroom.
  { destruct pads; [|done]. exists [], ls. split; [done|]. split; [done|..]; intros c Hc; [unfold drops; cbn; lia|].
    specialize (Hroom c Hc). unfold drops. cbn in *. lia. }
  destruct pads as [|pad pads]; [done|]. apply Forall_cons in Hpads as [Hpad Hpads].
  cbn [zip_with]. rewrite fmap_cons. cbn [loggerStart]. rewrite read_log_evt_bytes by done.
  pose proof (logEventMsg_logged e ls) as Hl. destruct (logEventMsg Allow (decoded e) ls) as [lines1 ls1].
  assert (logged [e] ls lines1 ls1) as H1.
  { apply Hl. intros c Hc. specialize (Hroom c Hc). cbn [length] in Hroom. lia. }
  destruct (IH pads Hpads ltac:(cbn in Hlen; lia) ls1) as (lines2 & ls2 & Hrun & H2); [by eapply logged_room|].
  exists (lines1 ++ lines2), ls2. split; [|by eapply logged_cons].
  by rewrite Hrun.
Qed.
End log_theorems.

(** The loop sends the events of the records that decode, in order; a record that does not is
    logged and hides no other. *)
Lemma process_records raws reads :
  Forall (λ raw, ∀ e, decode_event raw ≠ Panic e) raws →
  let '(events, lines, end_) := processRingbufEvents reads in
  ∃ lines', processRingbufEvents ((GotRecord <$> raws) ++ reads) =
    (omap (λ raw, match decode_event raw with Ok ev => Some ev | _ => None end) raws ++ events, lines' ++ lines, end_).
Proof.
  intros Hp. destruct (processRingbufEvents reads) as [[events lines] end_] eqn:Hr.
  induction Hp as [|raw raws Hraw _ [lines' IH]]; [by exists []; cbn; rewrite Hr|].
  rewrite fmap_cons. cbn [app processRingbufEvents omap list_omap]. rewrite IH.
  destruct (decode_event raw) as [ev|e|e] eqn:Hd; [by exists lines'|by eexists (_ :: lines')|by destruct (Hraw e)].
Qed.

(** ** Instances *)

(** A host with an old kernel whose first load fails and whose second one succeeds. *)
Definition flaky_loader : Loader := {|
  RemoveMemlock := None;
  HaveRingBuf := None;
  NewProbe := None;
  AttachProbe := None;
  CloseProbeLink := None;
  loadBpf := Ok (MkSpec (list_to_map ((λ n, (n, MkMapSpec 1 (Some 1024))) <$> oversized_maps))
                   {[ loadTimeConfigBPFVar := LoadConf 0 0 0 0 0 ]});
  SetVariable := λ _, None;
  kernel_release := "5.8.0";
  ebpf_objects := unit;
  LoadAndAssign := λ _ level, match level with LogLevelStats => Err "resource temporarily unavailable" | LogLevelBranch => Ok tt end;
|}.

Lemma NewManager_cases_witness :
  ∃ e, NewManager (LD := flaky_loader) (H := v1_host) true = Panic e.
Proof.
  destruct (prepare_spec (LD := flaky_loader) (H := v1_host) true) as [spec| |] eqn:Hp; [|vm_compute in Hp; discriminate Hp..].
  destruct (NewManager_cases (LD := flaky_loader) (H := v1_host) true spec Hp) as (_ & _ & [_ Hpanic]).
  apply Hpanic. split; [discriminate|exists tt; reflexivity].
Defined.

(** Three lost execs and a missing mode; the limiter lets the first and the third pass. *)
Definition sample_log (code : log_code) (arg1 : Z) : log_evt := LogEvt code (bytes_of_string "curl" ++ replicate 12 0) 77 12 11 arg1 0.
Definition every_other (t : bool) : bool * bool := (t, negb t).
Definition fresh_limiters : log_limiters bool := MkLimiters (MkLimiter true 0) (MkLimiter true 0).

Lemma log_complete_witness :
  let es := [sample_log LOG_DROP_EXEC_EVENT 0; sample_log LOG_DROP_EXEC_EVENT 0;
             sample_log LOG_POLICY_MODE_MISSING 5; sample_log LOG_DROP_EXEC_EVENT 0] in
  ∃ lines ls', loggerStart every_other (GotRecord <$> zip_with log_evt_bytes (replicate 4 (replicate 4 9)) es) fresh_limiters =
      (lines, ls', LoopWaits) ∧
    filter (λ l, about_drops l = false) lines = [log_entry (sample_log LOG_POLICY_MODE_MISSING 5)] ∧
    told "dropped exec event" lines + suppressed (dropExecLimiter ls') = 3.
Proof.
  intros es. destruct (log_complete every_other es (replicate 4 (replicate 4 9)) fresh_limiters) as (lines & ls' & Hrun & Hplain & Hdrops).
  - repeat constructor; vm_compute; discriminate.
  - repeat constructor.
  - reflexivity.
  - intros [] [=]; vm_compute; split; (discriminate || reflexivity).
  - exists lines, ls'. split; [exact Hrun|]. split; [exact Hplain|]. exact (Hdrops LOG_DROP_EXEC_EVENT eq_refl).
Defined.
