(* ===== verification/Pipeline.v ===== *)
(** * From the exec hook to the status of a policy

    [src/internal/eventscraper/eventscraper.go]: the loop between the consumers of the ring
    buffers and the rest of the agent.  With it the parts of the program are composed along the
    two ways an event can take: a violation from the exec hook through the ring buffer, the
    decoder, the scraper, the violation buffer and the controller into the status of the policy;
    and a learned exec into a proposal, and from there into the policy that permits it. *)
From S2P Require Import Prelude GoStd CLayout ProgramTypes KernelLayout Kernel ConcreteKernel StringMaps PolicyValues Names CgroupTracker CgroupInfo Events AgentMaps DPath Enforce EndToEnd Resolver ResolverSpec ResolverTheorems Nri PolicyHandler ViolationBuffer Violations PolicyStatus Learning BpfManager.
Local Open Scope Z_scope.

(** ** The scraper *)

Definition bufferFullMsg : string := "violation buffer full, oldest entry dropped".

Record scraper_state (T : Type) := MkScraper {
  sc_enqueued : list KubeProcessInfo;
  sc_emitted : list (list log_attr);
  sc_buffer : violationbuf.Buffer;
  sc_limiter : logRateLimiter T;
  sc_lines : list log_line;
}.
Arguments MkScraper {T} _ _ _ _ _.
Arguments sc_enqueued {T} _.
Arguments sc_emitted {T} _.
Arguments sc_buffer {T} _.
Arguments sc_limiter {T} _.
Arguments sc_lines {T} _.

(** What the loop receives: the end of the context, or an event of one of its channels, with
    the resolver and the clock at that moment. *)
Inductive scraper_input :=
  | ContextDone
  | LearningEvent (r : Resolver) (event : ProcessEvent)
  | MonitoringEvent (r : Resolver) (now : Z) (event : ProcessEvent).

Section scraper.
  Context `{R : GoRange} {T : Type} (Allow : T → bool * T).
  (** The name of the node, and whether violations are exported as well. *)
  Context (nodeName : string) (violationLogger : bool).

Definition shouldLog (l : logRateLimiter T) : bool * logRateLimiter T :=
  let '(ok, t) := Allow (limiter_state l) in
  if negb ok then (false, MkLimiter t (s64 (suppressed l + 1))) else (true, MkLimiter t (suppressed l)).

Definition flushSuppressed (msg : string) (l : logRateLimiter T) : list log_line * logRateLimiter T :=
  if 0 <? suppressed l then ([suppression_line LevelWarn (suppressed l) msg], MkLimiter (limiter_state l) 0)
  else ([], l).

Definition emitViolationEvent (info : KubeProcessInfo) (action : string) : list (list log_attr) :=
  if negb violationLogger then []
  else [[AttrString "policy.name" (kp_PolicyName info); AttrString "k8s.namespace.name" (kp_Namespace info);
         AttrString "k8s.pod.name" (kp_PodName info); AttrString "container.name" (kp_ContainerName info);
         AttrBytes "proc.exepath" (kp_ExecutablePath info);
         AttrInt "proc.foreign_root" (if kp_ForeignRoot info then 1 else 0);
         AttrString "node.name" nodeName; AttrString "action" action]].

Definition reportViolation (now : Z) (info : KubeProcessInfo) (action : string) (st : scraper_state T)
  : go_result (scraper_state T) :=
  match violationbuf.BufferRecord (violation_of nodeName now info action) (sc_buffer st) with
  | Ok (dropped, b) =>
      let '(lines, l) :=
        if dropped then
          let '(log, l1) := shouldLog (sc_limiter st) in
          if log then let '(flushed, l2) := flushSuppressed bufferFullMsg l1 in (flushed ++ [MkLine LevelWarn bufferFullMsg []], l2)
          else ([], l1)
        else ([], sc_limiter st) in
      Ok (MkScraper (sc_enqueued st) (sc_emitted st) b l (sc_lines st ++ lines))
  | Err e => Err e
  | Panic e => Panic e
  end.

Definition add_line (line : log_line) (st : scraper_state T) : scraper_state T :=
  MkScraper (sc_enqueued st) (sc_emitted st) (sc_buffer st) (sc_limiter st) (sc_lines st ++ [line]).

Definition no_pod_line (event : ProcessEvent) : log_line :=
  MkLine LevelError "failed to get pod info" [AttrInt "cgTrackerID" (CgTrackerID event); AttrBytes "exe" (Events.ExePath event)].

(** One event of a channel. *)
Definition scrape_event (input : scraper_input) (st : scraper_state T) : go_result (scraper_state T) :=
  match input with
  | ContextDone => Ok st
  | LearningEvent r event =>
      match getKubeProcessInfo r event with
      | None => Ok (add_line (no_pod_line event) st)
      | Some kubeInfo =>
          Ok (MkScraper (sc_enqueued st ++ [kubeInfo]) (sc_emitted st) (sc_buffer st) (sc_limiter st) (sc_lines st))
      end
  | MonitoringEvent r now event =>
      match getKubeProcessInfo r event with
      | None => Ok (add_line (no_pod_line event) st)
      | Some kubeInfo =>
          let action := EvMode event in
          let st1 := if (kp_PolicyName kubeInfo =? "")%string
            then add_line (MkLine LevelError "missing policy label for"
                   [AttrString "pod" (kp_PodName kubeInfo); AttrString "namespace" (kp_Namespace kubeInfo)]) st
            else st in
          reportViolation now kubeInfo action
            (MkScraper (sc_enqueued st1) (sc_emitted st1 ++ emitViolationEvent kubeInfo action) (sc_buffer st1)
               (sc_limiter st1) (sc_lines st1))
      end
  end.

(** [Start]: the state the loop leaves, and whether the context has ended. *)
Fixpoint Start (inputs : list scraper_input) (st : scraper_state T) : go_result (bool * scraper_state T) :=
  match inputs with
  | [] => Ok (false, st)
  | ContextDone :: _ => Ok (true, st)
  | input :: inputs' =>
      match scrape_event input st with
      | Ok st' => Start inputs' st'
      | Err e => Err e
      | Panic e => Panic e
      end
  end.
End scraper.

(** ** What the scraper passes on *)

Section scraper_spec.
  Context `{R : GoRange} {T : Type} (Allow : T → bool * T) (nodeName : string) (violationLogger : bool).

Definition learned_of (input : scraper_input) : option KubeProcessInfo :=
  match input with LearningEvent r event => getKubeProcessInfo r event | _ => None end.
Definition violated (input : scraper_input) : option (Z * KubeProcessInfo * string) :=
  match input with
  | MonitoringEvent r now event => (λ info, (now, info, EvMode event)) <$> getKubeProcessInfo r event
  | _ => None
  end.
Definition violation_record (v : Z * KubeProcessInfo * string) : violationbuf.ViolationRecord :=
  violation_of nodeName v.1.1 v.1.2 v.2.

Lemma reportViolation_run now info action st q :
  represents (sc_buffer st) q → Z.of_nat (length q) < 2 ^ 63 - 1 →
  ∃ st', reportViolation Allow nodeName now info action st = Ok st' ∧
    represents (sc_buffer st') (violation_of nodeName now info action :: q) ∧
    sc_enqueued st' = sc_enqueued st ∧ sc_emitted st' = sc_emitted st.
Proof.
  intros Hr Hq. unfold reportViolation.
  destruct (record_represents (violation_of nodeName now info action) _ _ Hr Hq) as (b & -> & Hb).
  match goal with |- context [let '(_, _) := ?x in _] => destruct x as [lines l] end. eexists. by split_and!.
Qed.

(** One event. *)
Lemma scrape_event_run input st q :
  represents (sc_buffer st) q → Z.of_nat (length q) < 2 ^ 63 - 1 →
  ∃ st', scrape_event Allow nodeName violationLogger input st = Ok st' ∧
    represents (sc_buffer st') (option_list (violation_record <$> violated input) ++ q) ∧
    sc_enqueued st' = sc_enqueued st ++ option_list (learned_of input) ∧
    sc_emitted st' = sc_emitted st ++ from_option (λ v, emitViolationEvent nodeName violationLogger v.1.2 v.2) [] (violated input).
Proof.
  intros Hr Hq. destruct input as [|r event|r now event]; cbn [scrape_event violated learned_of].
  - exists st. by rewrite !app_nil_r.
  - destruct (getKubeProcessInfo r event); eexists; cbn; by rewrite ?app_nil_r.
  - destruct (getKubeProcessInfo r event) as [info|]; [|eexists; cbn; by rewrite ?app_nil_r].
    match goal with |- context [sc_lines ?x] => set (st1 := x) end.
    assert (sc_buffer st1 = sc_buffer st ∧ sc_enqueued st1 = sc_enqueued st ∧ sc_emitted st1 = sc_emitted st)
      as (Hb & He & Hm) by (unfold st1; by destruct (_ =? "")%string).
    destruct (reportViolation_run now info (EvMode event)
      (MkScraper (sc_enqueued st1) (sc_emitted st1 ++ emitViolationEvent nodeName violationLogger info (EvMode event))
         (sc_buffer st1) (sc_limiter st1) (sc_lines st1)) q) as (st' & Hrun & Hrep & He' & Hm'); [by cbn; rewrite Hb|done|].
    exists st'. cbn [sc_enqueued sc_emitted] in He', Hm'. rewrite Hrun, He', Hm', He, Hm. cbn. by rewrite app_nil_r.
Qed.

(** C20: the scraper forwards every event of a known container, once and in order: learning
    events to the learning controller, violations to the buffer (newest first) and, when it is
    configured, to the exporter.  It does not crash, whatever the rate limiter answers and
    whatever the other events are. *)
Theorem scraper_forwards inputs st q :
  represents (sc_buffer st) q → Z.of_nat (length q + length inputs) < 2 ^ 63 → ContextDone ∉ inputs →
  ∃ st', Start Allow nodeName violationLogger inputs st = Ok (false, st') ∧
    sc_enqueued st' = sc_enqueued st ++ omap learned_of inputs ∧
    represents (sc_buffer st') (reverse (violation_record <$> omap violated inputs) ++ q) ∧
    sc_emitted st' = sc_emitted st ++
      (omap violated inputs ≫= λ v, emitViolationEvent nodeName violationLogger v.1.2 v.2).
Proof.
  revert st q. induction inputs as [|input inputs IH]; intros st q Hr Hlen Hdone.
  { exists st. by rewrite !app_nil_r. }
  apply not_elem_of_cons in Hdone as [Hin Hdone]. cbn [length] in Hlen.
  destruct (scrape_event_run input st q) as (st1 & Hrun & Hr1 & He1 & Hm1); [done|lia|].
  assert (Start Allow nodeName violationLogger (input :: inputs) st = Start Allow nodeName violationLogger inputs st1) as ->.
  { cbn [Start]. rewrite Hrun. by destruct input. }
  destruct (IH st1 _ Hr1) as (st' & -> & He & Hrep & Hm); [|done|].
  { rewrite length_app. destruct (violated input); unfold option_list; cbn [fmap option_fmap option_map option_rect length]; lia. }
  exists st'. split; [done|]. rewrite He, He1, Hm, Hm1. cbn [omap list_omap].
  split_and!.
  - destruct (learned_of input); cbn; by rewrite <- ?app_assoc, ?app_nil_r.
  - destruct (violated input); [|exact Hrep].
    rewrite fmap_cons, reverse_cons, <- app_assoc. exact Hrep.
  - destruct (violated input); cbn; by rewrite <- ?app_assoc, ?app_nil_r.
Qed.
End scraper_spec.

(** ** Containers the resolver knows *)

(** The container [cid] of the pod [podID] is cached and runs in the cgroup [cg]. *)
Record cached (r : Resolver) (cg : Z) (podID : string) (pod : podEntry) (cid : string) (cm : ContainerMeta) : Prop := {
  ca_pod : podCache r !! podID = Some pod;
  ca_container : pod_containers pod !! cid = Some cm;
  ca_cgroup : ContainerMeta_CgroupID cm = cg;
  ca_index : cgroupIDToPodID r !! cg = Some podID;
  ca_own : own_cgroups r;
}.

(** What the scraper says about an event of that container. *)
Definition info_for (pod : podEntry) (cid : string) (cm : ContainerMeta) (event : ProcessEvent) : KubeProcessInfo :=
  MkKubeProcessInfo (podNamespace pod) (PodMeta_WorkloadName (pod_meta pod)) (PodMeta_WorkloadType (pod_meta pod))
    (ContainerMeta_Name cm) (Events.ExePath event) (PodMeta_Name (pod_meta pod)) cid (policyName pod) (Events.ForeignRoot event).

Section known.
  Context `{R : GoRange, !GoRangeOk R}.

Lemma find_container_first cg pod cid cm l :
  (cid, cm) ∈ l → ContainerMeta_CgroupID cm = cg →
  (∀ cid' cm', (cid', cm') ∈ l → ContainerMeta_CgroupID cm' = cg → cid' = cid ∧ cm' = cm) →
  find_container cg pod l = Some (MkContainerView (MkContainerMeta cid (ContainerMeta_Name cm) cg) (pod_meta pod)).
Proof.
  induction l as [|[k m] l IH]; intros Hin Hcg Huniq; [by apply elem_of_nil in Hin|]. cbn [find_container].
  destruct (Z.eqb_spec cg (ContainerMeta_CgroupID m)) as [Heq|Hne].
  - by destruct (Huniq k m (list_elem_of_here _ _) (eq_sym Heq)) as [-> ->].
  - apply elem_of_cons in Hin as [[= <- <-]|Hin]; [congruence|]. apply IH; [done|done|].
    intros cid' cm' Hin'. apply Huniq. by right.
Qed.

Lemma getKubeProcessInfo_cached r cg podID pod cid cm event :
  cached r cg podID pod cid cm → CgTrackerID event = cg →
  getKubeProcessInfo r event = Some (info_for pod cid cm event).
Proof.
  intros [Hp Hc Hcg Hi Hown] Hev. unfold getKubeProcessInfo, GetContainerView. rewrite Hev, Hi, Hp.
  rewrite (find_container_first cg pod cid cm); [done|by apply elem_of_range|done|].
  intros cid' cm' Hin%elem_of_range Hcg'.
  destruct (Hown podID pod cid' cm' podID pod cid cm) as [_ ->]; [done..|congruence|]. split; [done|congruence].
Qed.
End known.

(** ** What the controller collects *)

Section collected.
  Context `{R : GoRange, !GoRangeOk R, P : Timestamppb}.

Lemma add_scraped_keeps k x v m : x ∈ default [] (m !! k) → x ∈ default [] (add_scraped m v !! k).
Proof.
  intros Hx. unfold add_scraped, append_to. destruct (decide (pb_PolicyName v = k)) as [<-|Hne].
  - rewrite lookup_partial_alter_eq. cbn. apply elem_of_app. by left.
  - by rewrite lookup_partial_alter_ne.
Qed.

Lemma add_all_keeps k x vs m : x ∈ default [] (m !! k) → x ∈ default [] (foldl add_scraped m vs !! k).
Proof. revert m. induction vs as [|v vs IH]; intros m Hx; [done|]. by apply IH, add_scraped_keeps. Qed.

Lemma add_all_adds v vs m : v ∈ vs → record_of_pb v ∈ default [] (foldl add_scraped m vs !! pb_PolicyName v).
Proof.
  revert m. induction vs as [|w vs IH]; intros m Hv; [by apply elem_of_nil in Hv|].
  apply elem_of_cons in Hv as [<-|Hv]; [|by apply IH]. cbn [foldl]. apply add_all_keeps.
  unfold add_scraped, append_to. rewrite lookup_partial_alter_eq. cbn. apply elem_of_app. right. by left.
Qed.

Lemma get_violations_keeps l m clients k x :
  x ∈ default [] (m !! k) → x ∈ default [] ((get_violations l m clients).1 !! k).
Proof.
  revert m clients. induction l as [|[node [a|]] l IH]; intros m clients Hx; cbn [get_violations]; [done| |by apply IH].
  destruct (scrape a) as [[vs|] a']; apply IH; [|done]. by apply add_all_keeps.
Qed.

(** A violation in the buffer of an agent that answers is collected for its policy. *)
Lemma collected_violation clients node a q v :
  clients !! node = Some (Some a) → ag_scrape a = Delivered → represents (ag_buffer a) q →
  v ∈ take (Z.to_nat violationbuf.MaxBufferEntries) q →
  record_of_pb (violation_to_pb v) ∈
    default [] ((getViolationsByPolicy clients).1 !! pb_PolicyName (violation_to_pb v)).
Proof.
  intros Hc Ha Hr Hv. unfold getViolationsByPolicy. apply range_elem in Hc.
  generalize (∅ : gmap string (list ViolationRecord)). generalize clients at 2.
  induction (range clients) as [|[k c] l IH]; [by apply elem_of_nil in Hc|]. intros clients' m.
  apply elem_of_cons in Hc as [[= <- <-]|Hc].
  - cbn [get_violations]. unfold scrape, ScrapeViolations. rewrite Ha.
    destruct (drain_represents _ _ Hr) as (b' & -> & _). apply get_violations_keeps, add_all_adds. by apply list_elem_of_fmap_2.
  - cbn [get_violations]. destruct c as [a1|]; [|by apply IH]. destruct (scrape a1) as [[vs|] a']; by apply IH.
Qed.
End collected.

(** ** What the status records *)

Lemma allowed_now_key rules r v : record_key r = record_key v → allowed_now rules r = allowed_now rules v.
Proof. unfold record_key, allowed_now. intros [= _ -> -> -> _]. done. Qed.

Lemma merge_one_length st v : (length (ms_violations (merge_one st v)) <= S (length (ms_violations st)))%nat.
Proof. unfold merge_one. destruct (_ !! _); cbn [ms_violations]; [by rewrite length_alter; lia|rewrite length_app; cbn; lia]. Qed.

Lemma merge_length st scraped :
  (length (ms_violations (foldl merge_one st scraped)) <= length (ms_violations st) + length scraped)%nat.
Proof.
  revert st. induction scraped as [|v scraped IH]; intros st; cbn [foldl length]; [lia|].
  pose proof (IH (merge_one st v)). pose proof (merge_one_length st v). lia.
Qed.

Lemma foldl_max_ge t l x : x = t ∨ x ∈ l → x <= foldl Z.max t l.
Proof.
  revert t x. induction l as [|y l IH]; intros t x Hx; cbn [foldl].
  { destruct Hx as [->|Hx]; [done|by apply elem_of_nil in Hx]. }
  assert (Z.max t y <= foldl Z.max (Z.max t y) l) by (apply IH; by left).
  destruct Hx as [->|[->|Hx]%elem_of_cons]; [lia|lia|]. apply IH. by right.
Qed.

(** An event makes or refreshes the record of its key. *)
Lemma expected_event old c scraped v :
  v ∈ scraped → ∃ r, expected old (events_of (record_key v) c scraped) = Some r ∧ vr_LastObserved v <= vr_LastObserved r.
Proof.
  intros Hv. assert (v ∈ snd <$> events_of (record_key v) c scraped) as Hev.
  { rewrite events_of_key. by apply list_elem_of_filter. }
  set (evs := events_of _ _ _) in *. destruct old as [r|]; cbn [expected].
  - eexists. split; [done|]. cbn [refreshed vr_LastObserved]. apply foldl_max_ge. right. by apply list_elem_of_fmap_2.
  - destruct evs as [|[id w] evs]; [by apply elem_of_nil in Hev|]. eexists. split; [done|].
    cbn [refreshed vr_LastObserved new_record]. apply foldl_max_ge. cbn in Hev. apply elem_of_cons in Hev as [->|Hev]; [by left|right].
    by apply list_elem_of_fmap_2.
Qed.

Lemma merge_records_event s scraped v :
  status_inv s → ViolationCount s + Z.of_nat (length scraped) < 2 ^ 63 →
  (length (st_Violations s) + length scraped <= maxViolationRecords)%nat → v ∈ scraped →
  ∃ r, r ∈ st_Violations (mergeScrapedViolations scraped s) ∧ record_key r = record_key v ∧ vr_LastObserved v <= vr_LastObserved r.
Proof.
  intros I Hmax Hroom Hv.
  destruct (expected_event (by_key (st_Violations s) !! record_key v) (ViolationCount s) scraped v Hv) as (r & Hr & Ht).
  pose proof Hr as Hk. rewrite <- (merged_lookup s scraped I Hmax) in Hk.
  apply lookup_by_key in Hk as (i & Hi & Hk); [|by apply merged_records]. exists r. split_and!; [|done|done].
  unfold mergeScrapedViolations. cbn [st_Violations]. rewrite take_ge.
  - rewrite SortStableFunc_perm. by eapply list_elem_of_lookup_2.
  - rewrite SortStableFunc_perm. etrans; [apply merge_length|]. cbn [ms_violations]. done.
Qed.

(** No annotation acknowledges a violation. *)
Definition no_acks (po : PolicyObject) : Prop := ∀ k reason, po_Annotations po !! k = Some reason → ack_id k = None.

Lemma acknowledge_nothing `{R : GoRange, !GoRangeOk R} now po s :
  no_acks po → acknowledgeViolationsFromAnnotations now (po_Annotations po) s = ([], po_Annotations po, s).
Proof.
  intros Hno. unfold acknowledgeViolationsFromAnnotations. destruct (size _ =? 0)%nat; [done|].
  rewrite collect_none; [done|]. intros [k reason] Hin. apply range_elem in Hin. by apply (Hno k reason).
Qed.

Lemma recompute_records `{R : GoRange, !GoRangeOk R} nodes scraped now po v :
  let s := ws_violations (po_Status po) in
  Z.of_nat (length nodes) < 2 ^ 63 → Forall known nodes →
  status_inv s → ViolationCount s + Z.of_nat (length scraped) < 2 ^ 63 →
  (length (st_Violations s) + length scraped <= maxViolationRecords)%nat → no_acks po →
  v ∈ scraped → allowed_now (wp_RulesByContainer (po_wp po)) v = false →
  ∃ acked po' r, RecomputeStatus nodes scraped now po = Ok (acked, po') ∧
    r ∈ st_Violations (ws_violations (po_Status po')) ∧ record_key r = record_key v ∧ vr_LastObserved v <= vr_LastObserved r.
Proof.
  intros s Hlen Hk I Hmax Hroom Hno Hv Hallowed. unfold RecomputeStatus.
  pose proof (process_runs (ws_nodes (po_Status po)) nodes now (ws_nodes (po_Status po)) Hlen) as Hrun.
  destruct (processPolicyNodeStatus _ nodes _ _) as [ns| |]; [clear Hrun|done..].
  rewrite acknowledge_nothing by done. destruct (merge_records_event s scraped v) as (r & Hr & Hrk & Ht); [done..|].
  eexists _, _, r. split; [done|]. split; [|done]. cbn. apply list_elem_of_filter. split; [|done].
  by rewrite (allowed_now_key _ _ _ Hrk).
Qed.

(** ** Violations, from the exec to the status *)

(** The container [cm] of [pod] runs in the cgroup [cg] under the rules [rules] that the last
    reconciled version of the policy has for it. *)
Record governed (a : agent_state) (wp : WorkloadPolicy) (mode : Mode) (rules : WorkloadPolicyRules)
  (cg : Z) (podID : string) (pod : podEntry) (cid : string) (cm : ContainerMeta) : Prop := {
  gv_ready : ∃ info pid, wpState (n_resolver (a_node a)) !! NamespacedName wp = Some info ∧
    PolicyStatus_State (wp_status info) = POLICY_STATE_READY ∧
    polByContainer info !! ContainerMeta_Name cm = Some pid ∧ policy_of (a_node a) cg = Some pid;
  gv_last : a_last a !! NamespacedName wp = Some wp;
  gv_mode : ParseMode (wp_Mode wp) = Ok mode;
  gv_rules : wp_RulesByContainer wp !! ContainerMeta_Name cm = Some rules;
  gv_ok : policy_ok (asked Monitor rules);
  gv_cached : cached (n_resolver (a_node a)) cg podID pod cid cm;
  gv_match : matchPolicy pod (wp_Name wp) (wp_Namespace wp) = true;
}.

(** A round of the controller that can store the status of the [i]-th policy: its patch is
    accepted, the counters do not overflow, there is room for the scraped violations, and no
    annotation acknowledges one. *)
Record round_ok `{R : GoRange, P : Timestamppb} (wps : list PolicyObject) (i : nat) (po : PolicyObject)
  (clients clients2 : gmap string (option agent)) (patches : string → patch_result * patch_result) : Prop := {
  rk_names : NoDup (names wps);
  rk_policy : wps !! i = Some po;
  rk_nodes : Z.of_nat (size clients) < 2 ^ 63;
  rk_patch : (patches (name_of po)).1 = PatchOk;
  rk_inv : status_inv (ws_violations (po_Status po));
  rk_count : ViolationCount (ws_violations (po_Status po)) +
    Z.of_nat (length (default [] ((getViolationsByPolicy clients2).1 !! name_of po))) < 2 ^ 63;
  rk_room : (length (st_Violations (ws_violations (po_Status po))) +
    length (default [] ((getViolationsByPolicy clients2).1 !! name_of po)) <= maxViolationRecords)%nat;
  rk_acks : no_acks po;
}.

Section violations.
  Context `{K : Kernel, L : KernelLayout, !KernelOk K, B : Ebpf, BM : EbpfMap, R : GoRange, !GoRangeOk R, H : HostFs,
    P : Timestamppb, !TimestamppbOk P}.
  Context (cgroup_tree : string → cgroup_path) (ver : Z) (conf : load_conf).
  Context {T : Type} (Allow : T → bool * T) (nodeName : string) (violationLogger : bool).

(** A round stores a scraped violation that the rules do not allow. *)
Lemma sync_records wps i po clients clients2 patches now v :
  round_ok wps i po clients clients2 patches →
  v ∈ default [] ((getViolationsByPolicy clients2).1 !! name_of po) →
  allowed_now (wp_RulesByContainer (po_wp po)) v = false →
  ∃ wps' clients' stored r, sync wps (Ok clients) (Ok clients2) now patches = Ok (wps', clients') ∧
    wps' !! i = Some stored ∧ r ∈ st_Violations (ws_violations (po_Status stored)) ∧
    record_key r = record_key v ∧ vr_LastObserved v <= vr_LastObserved r.
Proof.
  intros [Hnd Hi Hsz Hp Hinv Hcount Hroom Hno] Hv Hallowed. destruct wps as [|wp0 wps]; [done|]. rewrite sync_cons.
  pose proof Hi as Hin%list_elem_of_lookup_2.
  destruct (recompute_records ((λ nc, node_status_of nc.1 nc.2 po) <$> range clients)
    (default [] ((getViolationsByPolicy clients2).1 !! name_of po)) now po v) as (acked & po' & r & Hrun & Hr);
    [by rewrite length_fmap, (range_perm _ clients), length_map_to_list
    |apply Forall_fmap, Forall_forall; intros nc _; apply node_known|done..|].
  eexists _, _, _, r. split; [done|]. rewrite list_lookup_fmap, Hi. cbn [fmap option_fmap option_map]. split; [done|].
  rewrite node_statuses by done. cbn [default]. unfold processWorkloadPolicy. cbn [id]. rewrite Hrun, Hp.
  by destruct (patches _).2.
Qed.

(** One violation of a known container is recorded. *)
Lemma scraped_once r now event st q info :
  getKubeProcessInfo r event = Some info → represents (sc_buffer st) q → Z.of_nat (length q) < 2 ^ 63 - 1 →
  ∃ st', Start Allow nodeName violationLogger [MonitoringEvent r now event] st = Ok (false, st') ∧
    represents (sc_buffer st') (violation_of nodeName now info (EvMode event) :: q).
Proof.
  intros Hinfo Hr Hq. destruct (scrape_event_run Allow nodeName violationLogger (MonitoringEvent r now event) st q)
    as (st' & Hrun & Hrep & _); [done..|]. exists st'. cbn [Start]. rewrite Hrun.
  cbn [violated] in Hrep. by rewrite Hinfo in Hrep.
Qed.

(** What reaches the controller of a violation: the name of the policy, and a record that its
    rules do not allow. *)
Lemma info_for_policy pod wp cid cm event now mode rules denied :
  matchPolicy pod (wp_Name wp) (wp_Namespace wp) = true →
  wp_RulesByContainer wp !! ContainerMeta_Name cm = Some rules →
  exec_decision (asked mode rules) (Events.ForeignRoot event) (Events.ExePath event) = Violation denied →
  let v := violation_to_pb (violation_of nodeName now (info_for pod cid cm event) (EvMode event)) in
  pb_PolicyName v = NamespacedName wp ∧
  record_key (record_of_pb v) = (PodMeta_Name (pod_meta pod), ContainerMeta_Name cm, Events.ExePath event,
    Events.ForeignRoot event, EvMode event) ∧
  allowed_now (wp_RulesByContainer wp) (record_of_pb v) = false ∧ vr_LastObserved (record_of_pb v) = now.
Proof.
  intros Hm Hr Hd v. apply andb_prop in Hm as [Hn%String.eqb_eq Hs%String.eqb_eq]. split_and!.
  - unfold NamespacedName. by rewrite <- Hn, <- Hs.
  - done.
  - unfold allowed_now. cbn. rewrite Hr. unfold exec_decision in Hd. cbn [asked pol_allow_foreign pol_allowed] in Hd.
    destruct (Events.ForeignRoot event); [by destruct (AllowForeignRootExec rules)|by case_bool_decide].
  - cbn. apply AsTime_New.
Qed.

(** C2: a violation reaches the status.  In every state the agent can reach, when a container under
    a policy runs an executable that the rules of its container do not permit (with a path the
    hook can resolve and a ring buffer with room), the hook decides as the policy says and queues a record; the
    consumer of the ring buffer decodes it, the scraper records it, and when the controller next scrapes
    the node and stores the status of the policy, the status lists a violation of that pod,
    container, executable and mode, observed at that time or later. *)
Theorem violation_reaches_status a a' wp mode rules cg podID pod cid cm bprm p denied :
  agent_init a → rtc (agent_step cgroup_tree ver) a a' → governed a' wp mode rules cg podID pod cid cm →
  tracked_exec conf (n_bpf (a_node a')) bprm cg p →
  Z.of_nat (length p) <= 4094 → same_bucket_len (Z.of_nat (length p)) = true →
  exec_decision (asked mode rules) (exec_is_foreign_root bprm) p = Violation denied →
  (∀ n, ringbuf_reserve_ok RB_monitoring n = true) →
  ∃ s' rec, enforce_cgroup_policy conf bprm (n_bpf (a_node a')) = (decision_code (Violation denied), s') ∧
    ringbuf_monitoring s' = ringbuf_monitoring (n_bpf (a_node a')) ++ [rec] ∧
    let event := MkProcessEvent cg p (Mode_String mode) (exec_is_foreign_root bprm) in
    processRingbufEvents [GotRecord rec] = ([event], [], LoopWaits) ∧
    ∀ st q now, represents (sc_buffer st) q → Z.of_nat (length q) < 2 ^ 63 - 1 →
    ∃ st', Start Allow nodeName violationLogger [MonitoringEvent (n_resolver (a_node a')) now event] st = Ok (false, st') ∧
      represents (sc_buffer st') (violation_of nodeName now (info_for pod cid cm event) (Mode_String mode) :: q) ∧
    ∀ statuses wps i po clients clients2 patches t,
      round_ok wps i po clients clients2 patches → po_wp po = wp →
      clients2 !! nodeName = Some (Some (MkAgent statuses (sc_buffer st') Delivered)) →
    ∃ wps' clients' stored r, sync wps (Ok clients) (Ok clients2) t patches = Ok (wps', clients') ∧
      wps' !! i = Some stored ∧ r ∈ st_Violations (ws_violations (po_Status stored)) ∧
      record_key r = (PodMeta_Name (pod_meta pod), ContainerMeta_Name cm, p, exec_is_foreign_root bprm, Mode_String mode) ∧
      now <= vr_LastObserved r.
Proof.
  intros Hinit Hreach Hgov Hexec Hlen Hb Hd Hrb. destruct (agent_reachable _ _ _ _ Hinit Hreach) as [_ Hinst].
  destruct Hgov as [(info & pid & Hi & Hready & Hpid & Hcg) Hlast Hmode Hrules Hok Hcached Hmatch].
  destruct (Hinst _ _ Hi Hready) as (wp' & mode' & Hlast' & _ & Hmode' & info' & Hi' & _ & Hin). simplify_eq.
  assert (mode' = mode) as -> by congruence. destruct (Hin _ _ Hrules) as (pid' & Hpid' & Hinstalled). simplify_eq.
  destruct (enforce_run conf (n_bpf (a_node a')) bprm _ p Hexec Hlen pid (asked mode rules)) as (s' & Hrun & _ & Hrep); [done..|].
  rewrite visible_decision, Hd in Hrun, Hrep by done. destruct Hrep as (rec & Hdec & Hring). rewrite Hrb in Hring.
  exists s', rec. split; [done|]. split; [done|]. intros event. split; [cbn [processRingbufEvents]; by rewrite Hdec|].
  intros st q now Hr Hq.
  pose proof (getKubeProcessInfo_cached _ _ _ _ _ _ event Hcached eq_refl) as Hinfo.
  destruct (scraped_once _ now event st q _ Hinfo Hr Hq) as (st' & Hst & Hrep). exists st'. split; [exact Hst|]. split; [exact Hrep|].
  intros statuses wps i po clients clients2 patches t Hround <- Hc.
  destruct (info_for_policy pod (po_wp po) cid cm event now mode rules denied)
    as (Hname & Hkey & Hna & Ht); [done..|].
  set (v := record_of_pb _) in *.
  destruct (sync_records wps i po clients clients2 patches t v Hround)
    as (wps' & clients' & stored & r & Hs & Hi2 & Hr2 & Hk & Hobs); [|exact Hna|].
  { rewrite <- Hname. eapply (collected_violation _ _ (MkAgent statuses (sc_buffer st') Delivered)); [done|done|done|]. by left. }
  exists wps', clients', stored, r. split_and!; [done..|by rewrite Hk, Hkey|by rewrite <- Ht].
Qed.
End violations.

(** ** Learning, from the exec to the policy that permits it *)

(** The namespace of an event is learned, and its write to the API server is accepted. *)
Record learning_ok `{R : GoRange, E : ApiErrors} (A : ApiClient E) (Matches : gmap string string → bool)
  (info : KubeProcessInfo) (name : string) (c c' : cluster) : Prop := {
  ln_client : ApiClientOk A;
  ln_cluster : cluster_ok c;
  ln_kind : kp_WorkloadKind info ≠ "Pod";
  ln_namespace : ∃ labels, GetNamespace c (kp_Namespace info) = inl labels ∧ Matches labels = true;
  ln_name : GetWorkloadPolicyProposalName (kp_WorkloadKind info) (kp_Workload info) = Ok name;
  ln_skip : skipOrLearn c info name = inl false;
  ln_room p : proposals c !! (kp_Namespace info, name) = Some p →
    HasPromotionLabel p = None ∧ Z.of_nat (executables p) < policyProposalMaxExecutables;
  ln_accepted : CreateOrUpdate c (MkProposal (kp_Namespace info) name ∅ [] false ∅) (learn info) = (None, c');
}.

Lemma reconcile_accepted `{R : GoRange, !GoRangeOk R, E : ApiErrors} (A : ApiClient E) Matches info name c c' :
  learning_ok A Matches info name c c' →
  Learning.reconcile Matches info c = (None, c') ∧ cluster_ok c' ∧
  ∃ p, proposals c' !! (kp_Namespace info, name) = Some p ∧ permits (pp_RulesByContainer p) info.
Proof.
  intros [Hok Hc Hk (labels & Hns & Hm) Hn Hs Hr Ha]. split; [|by eapply accepted_learns].
  unfold Learning.reconcile. rewrite (proj2 (String.eqb_neq _ _) Hk), Hns, Hm, Hn, Hs. cbn [negb]. by rewrite Ha.
Qed.

Section learning.
  Context `{K : Kernel, L : KernelLayout, !KernelOk K, R : GoRange, !GoRangeOk R, E : ApiErrors}.
  Context (conf : load_conf) {T : Type} (Allow : T → bool * T) (nodeName : string) (violationLogger : bool).

(** C4: what is learned is permitted.  When a container without a policy executes a file (with a
    path the hook can resolve, learning on and room in the ring buffer), the exec is let
    through and the event arrives at the learning controller with the names of the container;
    when its write is accepted the proposal of the workload permits the exec; whatever agents,
    users and controllers then do to the cluster, when the proposal is promoted the policy
    permits the same exec in the same container, in either mode. *)
Theorem learned_exec_permitted s bprm cg p r podID pod cid cm :
  tracked_exec conf s bprm cg p → Z.of_nat (length p) <= 4094 →
  cg_to_policy_map s !! cg = None → learning_enabled conf ≠ 0 → (∀ n, ringbuf_reserve_ok RB_execve n = true) →
  cached r cg podID pod cid cm →
  let foreign := exec_is_foreign_root bprm in
  let info := info_for pod cid cm (MkProcessEvent cg (if foreign then [] else p) "" foreign) in
  ∃ s' rec events, enforce_cgroup_policy conf bprm s = (0, s') ∧
    ringbuf_execve s' = ringbuf_execve s ++ [rec] ∧
    processRingbufEvents [GotRecord rec] = (events, [], LoopWaits) ∧
    (∀ st, ∃ st', Start Allow nodeName violationLogger (LearningEvent r <$> events) st = Ok (false, st') ∧
       sc_enqueued st' = sc_enqueued st ++ [info]) ∧
    ∀ (A A' : ApiClient E) Matches name c c1 c2 c3 res p2,
      learning_ok A Matches info name c c1 → rtc step c1 c2 →
      let key := (kp_Namespace info, name) in
      ApiClientOk A' → proposals c2 !! key = Some p2 → ¬ promoted_from key.1 key.2 c2 →
      promote (A := A') key c2 = (res, c3) → c3 ≠ c2 →
      Learning.reconcile (A := A) Matches info c = (None, c1) ∧
      ∃ lp rules, policies c3 !! key = Some lp ∧ wp_RulesByContainer (lp_wp lp) !! ContainerMeta_Name cm = Some rules ∧
        ∀ mode, exec_decision (asked mode rules) foreign p = Permit.
Proof.
  intros Hexec Hlen Hpid Hlearn Hrb Hcached foreign info.
  destruct (learn_exec_run conf s bprm cg p Hexec Hlen Hpid Hlearn) as (s' & rec & Hrun & Hdec & Hring & _). fold foreign in Hdec.
  rewrite Hrb in Hring. set (event := MkProcessEvent cg (if foreign then [] else p) "" foreign) in Hdec.
  pose proof (getKubeProcessInfo_cached r cg podID pod cid cm event Hcached eq_refl) as Hinfo.
  exists s', rec, [event]. cbn [processRingbufEvents]. rewrite Hdec.
  split_and!; [done..| |].
  - intros st. eexists. cbn [fmap list_fmap Start scrape_event]. rewrite Hinfo. done.
  - intros A A' Matches name c c1 c2 c3 res p2 Hln Hsteps Hok' Hp2 Hnp Hprom Hne.
    set (key := (kp_Namespace info, name)) in *.
    destruct (reconcile_accepted A Matches _ name c c1 Hln) as (Hrec & Hc1 & p1 & Hp1 & Hperm). split; [done|].
    destruct (steps_evolve c1 c2 Hc1 Hsteps) as [Hc2 [Hev _]]. fold key in Hp1.
    destruct (Hev _ _ Hp1) as [(p2' & Hp2' & Hg)|?]; [|done]. simplify_eq.
    destruct (promote_permits A' key c2 res c3 p2 Hok' Hc2 Hp2 Hnp Hprom Hne) as (mode & lp & _ & Hlp & ->).
    destruct (permits_grows _ _ _ Hg Hperm) as (rules & Hr & Hd). eexists _, rules. split_and!; [done|exact Hr|].
    intros m. specialize (Hd m). cbn in Hd. unfold exec_decision in *. by destruct foreign.
Qed.
End learning.

(** ** Instances *)

#[local] Existing Instances list_range list_range_ok.
#[local] Existing Instance plain_timestamps.
#[local] Instance plain_timestamps_ok : TimestamppbOk plain_timestamps.
Proof. by split. Qed.

(** The limiter of a scraper that lets everything pass. *)
Definition lenient (t : unit) : bool * unit := (true, t).
Definition empty_scraper : scraper_state unit := MkScraper [] [] violationbuf.NewBuffer (MkLimiter tt 0) [].

Lemma empty_scraper_represents : represents (sc_buffer empty_scraper) [].
Proof. apply represents_nil; [|done]. cbn [empty_scraper sc_buffer violationbuf.NewBuffer violationbuf.buf]. by rewrite length_replicate. Qed.

(** A policy that does not allow [/bin/sh], on an agent that synchronizes with a runtime that runs
    a pod of the policy. *)
Definition id_rules : WorkloadPolicyRules := MkRules [bytes_of_string "/bin/id"] ∅.
Definition strict_wp : WorkloadPolicy := MkWorkloadPolicy "ns" "pol" "protect" {[ "side" := id_rules ]}.
Definition strict_node1 : node := snd (ResolverTheorems.reconcile strict_wp new_node).
Definition strict_agent1 : agent_state :=
  PolicyHandler.MkAgent (MkPlugin strict_node1 false None) false {[ NamespacedName strict_wp := strict_wp ]}.
Definition strict_agent2 : agent_state :=
  PolicyHandler.MkAgent (snd (sync_side (MkPlugin strict_node1 false None))) false (a_last strict_agent1).

Lemma strict_agent2_reachable : rtc (agent_step (K := sample_kernel) no_dirs linux_6_8) agent0 strict_agent2.
Proof.
  apply (rtc_l _ _ strict_agent1); [|apply rtc_once; exact (step_event (K := sample_kernel) no_dirs linux_6_8 strict_agent1 _
    (event_synchronize (K := sample_kernel) no_dirs false [Some side_sandbox] [Some side_ct] (MkPlugin strict_node1 false None)))].
  refine (step_reconcile (K := sample_kernel) no_dirs linux_6_8 "ns" "pol" (GetOk strict_wp) agent0 (Ok tt) strict_node1 _ _ _).
  - intros wp [= <-]. split_and!; [reflexivity..|]. apply ids_left_small; [vm_compute; discriminate|vm_compute; lia].
  - apply (run_is (ResolverTheorems.reconcile strict_wp)). vm_compute. reflexivity.
  - discriminate.
Qed.

Definition strict_pod : podEntry :=
  MkPodEntry (podSandboxToPodMeta side_sandbox "web-pod" "Pod") {[ "c1" := side_container ]}.

Lemma one_pod_own r podID pod cid cm :
  podCache r = {[ podID := pod ]} → pod_containers pod = {[ cid := cm ]} → own_cgroups r.
Proof.
  unfold own_cgroups. intros Hr Hp. rewrite Hr. intros p1 pod1 c1 cm1 p2 pod2 c2 cm2.
  intros [<- <-]%lookup_singleton_Some H1 [<- <-]%lookup_singleton_Some H2 _. rewrite Hp in H1, H2.
  apply lookup_singleton_Some in H1 as [<- _]. by apply lookup_singleton_Some in H2 as [<- _].
Qed.

Lemma strict_governed :
  governed strict_agent2 strict_wp Protect id_rules container_cgroup "p1" strict_pod "c1" side_container.
Proof.
  split.
  - eexists _, 1. split_and!; vm_compute; reflexivity.
  - cbn. apply lookup_singleton_eq.
  - reflexivity.
  - cbn. apply lookup_singleton_eq.
  - repeat constructor; try lia; apply (bool_decide_unpack _); vm_compute; exact I.
  - split; [vm_compute; reflexivity..|]. eapply (one_pod_own _ "p1" strict_pod "c1" side_container); vm_compute; reflexivity.
  - reflexivity.
Qed.

Definition strict_policy : PolicyObject :=
  MkPolicyObject strict_wp 1 ∅ (MkWorkloadPolicyStatus 0 no_nodes no_violations).

Definition one_client (b : violationbuf.Buffer) : gmap string (option agent) :=
  {[ "n1" := Some (MkAgent (Ok ∅) b Delivered) ]}.

Lemma one_client_violations b v :
  represents b [v] → (getViolationsByPolicy (one_client b)).1 =
    {[ pb_PolicyName (violation_to_pb v) := [record_of_pb (violation_to_pb v)] ]}.
Proof.
  intros Hr. unfold getViolationsByPolicy, one_client, range, list_range. rewrite map_to_list_singleton.
  cbn [get_violations]. unfold scrape, ScrapeViolations. cbn [ag_scrape ag_buffer].
  by destruct (drain_represents b [v] Hr) as (b' & -> & _).
Qed.

(** [/bin/sh] is denied, and the violation is listed in the status of the policy. *)
Lemma violation_reaches_status_witness :
  let K := sample_kernel in let L := x86_layout in
  fst (enforce_cgroup_policy sample_conf BPRM (n_bpf (a_node strict_agent2))) = - EPERM ∧
  ∃ clients wps' clients' stored r,
    sync [strict_policy] (Ok clients) (Ok clients) 9 (λ _, (PatchOk, PatchOk)) = Ok (wps', clients') ∧
    wps' !! 0%nat = Some stored ∧ r ∈ st_Violations (ws_violations (po_Status stored)) ∧ vr_ExecutablePath r = bin_sh_path.
Proof.
  intros K L.
  destruct (violation_reaches_status (K := K) (L := L) no_dirs linux_6_8 sample_conf lenient "n1" false
    agent0 strict_agent2 strict_wp Protect id_rules container_cgroup "p1" strict_pod "c1" side_container BPRM bin_sh_path true)
    as (s' & rec & Hrun & _ & _ & Hst).
  - split_and!; [exact new_node_fresh|reflexivity..].
  - exact strict_agent2_reachable.
  - exact strict_governed.
  - exec_sample 2%nat (DENTRY 2) (rev bin_sh).
  - vm_compute. discriminate.
  - reflexivity.
  - vm_compute. reflexivity.
  - reflexivity.
  - split; [by rewrite Hrun|].
    destruct (Hst empty_scraper [] 5 empty_scraper_represents eq_refl) as (st' & _ & Hrep & Hsync).
    pose proof (one_client_violations _ _ Hrep) as Hv.
    destruct (Hsync (Ok ∅) [strict_policy] 0%nat strict_policy (one_client (sc_buffer st')) (one_client (sc_buffer st'))
      (λ _, (PatchOk, PatchOk)) 9) as (wps' & clients' & stored & r & Hs & Hi & Hr & Hk & _);
      [|reflexivity|reflexivity|exists (one_client (sc_buffer st')), wps', clients', stored, r; refine (conj Hs (conj Hi (conj Hr _))); exact (f_equal (λ k, k.1.1.2) Hk)].
    split; rewrite ?Hv; [apply NoDup_singleton|reflexivity|reflexivity|reflexivity|exact no_violations_inv|reflexivity| |by intros k reason].
    vm_compute. lia.
Defined.

(** A violation of the pod, an event of an unknown cgroup, and a learning event. *)
Lemma scraper_forwards_witness :
  let r := n_resolver (a_node strict_agent2) in
  let event cg mode := MkProcessEvent cg bin_sh_path mode false in
  ∃ st', Start lenient "n1" true [MonitoringEvent r 3 (event container_cgroup "protect"); MonitoringEvent r 4 (event 999 "protect");
      LearningEvent r (event container_cgroup "")] empty_scraper = Ok (false, st') ∧
    (kp_PodName <$> sc_enqueued st') = ["web-pod"] ∧ length (sc_emitted st') = 1%nat.
Proof.
  intros r event.
  destruct (scraper_forwards lenient "n1" true [MonitoringEvent r 3 (event container_cgroup "protect"); MonitoringEvent r 4 (event 999 "protect");
      LearningEvent r (event container_cgroup "")] empty_scraper []) as (st' & Hrun & He & _ & Hm);
    [exact empty_scraper_represents|reflexivity|rewrite !not_elem_of_cons; split_and!; [discriminate..|apply not_elem_of_nil]|].
  exists st'. split; [exact Hrun|]. rewrite He, Hm. split; vm_compute; reflexivity.
Defined.

(** A deployment without a policy executes [/bin/sh]; the proposal that is learned is promoted in
    protect mode. *)
Definition plain_pod : podEntry :=
  MkPodEntry (MkPodMeta "p1" "ns" "web-7d9f-x2x4z" "web" "Deployment" ∅) {[ "c1" := side_container ]}.
Definition plain_resolver : Resolver := MkResolver {[ "p1" := plain_pod ]} {[ container_cgroup := "p1" ]} 1 ∅.

Definition sh_info : KubeProcessInfo := info_for plain_pod "c1" side_container (MkProcessEvent container_cgroup bin_sh_path "" false).
Definition sh_learned : cluster := snd (Learning.reconcile (A := sample_client None) (λ _, true) sh_info empty_cluster).
Definition sh_proposal : WorkloadPolicyProposal :=
  default (MkProposal "" "" ∅ [] false ∅) (proposals sh_learned !! ("ns", "deploy-web")).
Definition sh_labelled : cluster :=
  set_proposals (<[("ns", "deploy-web") := SetPromotionLabel "protect" sh_proposal]> (proposals sh_learned)) sh_learned.
Definition sh_promoted : cluster := snd (promote (A := sample_client None) ("ns", "deploy-web") sh_labelled).

Lemma learned_exec_permitted_witness :
  ∃ lp rules, policies sh_promoted !! ("ns", "deploy-web") = Some lp ∧
    wp_RulesByContainer (lp_wp lp) !! "side" = Some rules ∧ exec_decision (asked Protect rules) false bin_sh_path = Permit.
Proof.
  destruct (learned_exec_permitted (K := sample_kernel) (L := x86_layout) (E := sample_errors) sample_conf lenient "n1" false
    (node_state None (sh_policy Monitor)) BPRM container_cgroup bin_sh_path plain_resolver "p1" plain_pod "c1" side_container)
    as (s' & rec & events & _ & _ & _ & _ & Hperm).
  - exec_sample 2%nat (DENTRY 2) (rev bin_sh).
  - vm_compute. discriminate.
  - reflexivity.
  - discriminate.
  - reflexivity.
  - split; [apply lookup_singleton_eq|apply lookup_singleton_eq|reflexivity|apply lookup_singleton_eq|].
    by apply (one_pod_own _ "p1" plain_pod "c1" side_container).
  - destruct (Hperm (sample_client None) (sample_client None) (λ _, true) "deploy-web" empty_cluster sh_learned sh_labelled sh_promoted
      None (SetPromotionLabel "protect" sh_proposal)) as (_ & lp & rules & Hlp & Hr & Hd).
    + split; [apply sample_client_ok|exact empty_cluster_ok|discriminate|by exists ∅|reflexivity|vm_compute; reflexivity|done|vm_compute; reflexivity].
    + apply rtc_once. apply (step_label (E := sample_errors) ("ns", "deploy-web") sh_proposal "protect" sh_learned). vm_compute. reflexivity.
    + apply sample_client_ok.
    + apply lookup_insert_eq.
    + intros (k & lp & Hk & _). vm_compute in Hk. destruct k. discriminate Hk.
    + apply injective_projections; vm_compute; reflexivity.
    + intros Heq. apply (f_equal (λ c, size (policies c))) in Heq. vm_compute in Heq. discriminate Heq.
    + exists lp, rules. split; [exact Hlp|]. split; [exact Hr|]. exact (Hd Protect).
Defined.
