(* ===== verification/Debugger.v ===== *)
(** * The cache debugger

    [src/internal/debugger]: how the pods an agent has cached are compared with the pods the
    cluster knows, and the two sides of the comparison: the agent's answer
    ([ListPodCache] of [src/internal/grpcexporter/agent_observer.go]) and the view of a pod of
    the API server. *)
From Stdlib Require Import Sorting.Sorted Ascii.
From S2P Require Import Prelude GoStd CLayout ProgramTypes KernelLayout Kernel ConcreteKernel StringMaps PolicyValues CgroupTracker Events AgentMaps EndToEnd Resolver ResolverSpec ResolverTheorems.
Local Open Scope Z_scope.
Local Open Scope string_scope.
Local Open Scope list_scope.

(** ** The cache of an agent *)

(** The message of a pod; containers by id, with their name and cgroup. *)
Record pbPodView := MkPbPodView {
  pv_Id : string;
  pv_Name : string;
  pv_Namespace : string;
  pv_WorkloadName : string;
  pv_WorkloadType : string;
  pv_Labels : gmap string string;
  pv_Containers : gmap string (string * Z);
}.

Section observer.
  Context `{R : GoRange}.

Definition podViewToProto (podView : PodView) : pbPodView :=
  let meta := PodView_Meta podView in
  MkPbPodView (PodMeta_ID meta) (PodMeta_Name meta) (PodMeta_Namespace meta) (PodMeta_WorkloadName meta)
    (PodMeta_WorkloadType meta) (PodMeta_Labels meta)
    ((λ c, (ContainerMeta_Name c, ContainerMeta_CgroupID c)) <$> PodView_Containers podView).

Definition ListPodCache (r : Resolver) : list pbPodView :=
  (λ kv, podViewToProto kv.2) <$> range (PodCacheSnapshot r).
End observer.

(** ** The pods of the cluster *)

Record container_status := MkContainerStatus {
  cs_Name : string;
  cs_ContainerID : string;
  cs_Terminated : bool;
  cs_LastTerminated : option string;
}.

Inductive PodPhase := PodPending | PodRunning | PodSucceeded | PodFailed | PodUnknown | OtherPhase (p : string).

Record cluster_pod := MkClusterPod {
  cp_UID : string;
  cp_Name : string;
  cp_Namespace : string;
  cp_NodeName : string;
  cp_Phase : PodPhase;
  cp_Annotations : gmap string string;
  cp_InitContainerStatuses : list container_status;
  cp_ContainerStatuses : list container_status;
  cp_EphemeralContainerStatuses : list container_status;
}.

Definition staticPodAnnotation : string := "kubernetes.io/config.mirror".

Record clusterContainerMeta := MkClusterContainer { cc_id : string; cc_name : string; cc_terminated : bool }.

Record clusterPodView := MkClusterPodView {
  cv_id : string;
  cv_name : string;
  cv_namespace : string;
  cv_containers : gmap string clusterContainerMeta;
}.

(** What follows the first occurrence of [sep]. *)
Fixpoint after_first (sep s : string) : option string :=
  match CutPrefix s sep with
  | Some rest => Some rest
  | None => match s with EmptyString => None | String _ s' => after_first sep s' end
  end.

Definition extractContainerID (containerIDRuntimeFormat : string) : string :=
  default containerIDRuntimeFormat (after_first "://" containerIDRuntimeFormat).

Definition addContainerToPodView (containers : gmap string clusterContainerMeta) (st : container_status)
  : gmap string clusterContainerMeta :=
  let cID := extractContainerID (cs_ContainerID st) in
  let containers1 := <[cID := MkClusterContainer cID (cs_Name st) (cs_Terminated st)]> containers in
  match cs_LastTerminated st with
  | Some terminatedID =>
      let tID := extractContainerID terminatedID in
      <[tID := MkClusterContainer tID (cs_Name st) true]> containers1
  | None => containers1
  end.

Definition newClusterPodView (pod : cluster_pod) : clusterPodView :=
  let annotation := default "" (cp_Annotations pod !! staticPodAnnotation) in
  let podUID := if negb (annotation =? "")%string then annotation else cp_UID pod in
  MkClusterPodView podUID (cp_Name pod) (cp_Namespace pod)
    (foldl addContainerToPodView
      (foldl addContainerToPodView (foldl addContainerToPodView ∅ (cp_InitContainerStatuses pod)) (cp_ContainerStatuses pod))
      (cp_EphemeralContainerStatuses pod)).

(** ** Comparing *)

(** A line of the report. *)
Inductive difference :=
  | missingPodFromAgentCache (pod : clusterPodView)
  | unexpectedPodInAgentCache (pod : pbPodView)
  | fieldMismatch (pod : clusterPodView) (field clusterValue agentValue : string)
  | missingContainer (pod : clusterPodView) (containerID name : string)
  | containerNameMismatch (pod : clusterPodView) (containerID clusterValue agentValue : string)
  | onlyInAgentCache (pod : clusterPodView) (containerID name : string).

(** [sort.Slice] by a key: the elements in an order in which the keys do not decrease. *)
Class GoSort := { sort_slice : ∀ {A}, (A → string) → list A → list A }.
Class GoSortOk (S : GoSort) : Prop := {
  sort_slice_perm {A} (key : A → string) l : sort_slice key l ≡ₚ l;
  sort_slice_sorted {A} (key : A → string) l : StronglySorted (λ a b, String.leb (key a) (key b) = true) (sort_slice key l);
}.

Section compare.
  Context `{R : GoRange}.

Definition compare_cluster_container (clusterPod : clusterPodView) (cachePod : pbPodView)
  (kv : string * clusterContainerMeta) : list difference :=
  match pv_Containers cachePod !! kv.1 with
  | None => if cc_terminated kv.2 then [] else [missingContainer clusterPod kv.1 (cc_name kv.2)]
  | Some (name, _) =>
      if negb (cc_name kv.2 =? name)%string then [containerNameMismatch clusterPod kv.1 (cc_name kv.2) name] else []
  end.

Definition compare_agent_container (clusterPod : clusterPodView) (kv : string * (string * Z)) : list difference :=
  match cv_containers clusterPod !! kv.1 with
  | Some _ => []
  | None => [onlyInAgentCache clusterPod kv.1 kv.2.1]
  end.

Definition comparePods (clusterPod : clusterPodView) (cachePod : pbPodView) : list difference :=
  (if negb (cv_namespace clusterPod =? pv_Namespace cachePod)%string
   then [fieldMismatch clusterPod "namespace" (cv_namespace clusterPod) (pv_Namespace cachePod)] else []) ++
  (if negb (cv_name clusterPod =? pv_Name cachePod)%string
   then [fieldMismatch clusterPod "name" (cv_name clusterPod) (pv_Name cachePod)] else []) ++
  (range (cv_containers clusterPod) ≫= compare_cluster_container clusterPod cachePod) ++
  (range (pv_Containers cachePod) ≫= compare_agent_container clusterPod).

(** The loop over both lists, with an index into each. *)
Fixpoint compareCaches (clusterCache : list clusterPodView) : list pbPodView → list difference :=
  match clusterCache with
  | [] => λ agentCache, unexpectedPodInAgentCache <$> agentCache
  | clusterPod :: clusterCache' =>
      fix inner (agentCache : list pbPodView) : list difference :=
        match agentCache with
        | [] => missingPodFromAgentCache <$> clusterPod :: clusterCache'
        | cachePod :: agentCache' =>
            if String.ltb (cv_id clusterPod) (pv_Id cachePod) then
              missingPodFromAgentCache clusterPod :: compareCaches clusterCache' (cachePod :: agentCache')
            else if String.ltb (pv_Id cachePod) (cv_id clusterPod) then
              unexpectedPodInAgentCache cachePod :: inner agentCache'
            else comparePods clusterPod cachePod ++ compareCaches clusterCache' agentCache'
        end
  end.

(** What is printed for a node; a node in order is not mentioned. *)
Inductive node_report :=
  | noAgentCache (nodeName : string)
  | foundNodeDifferences (nodeName : string) (differences : list difference) (agentCache : list pbPodView)
  | unexpectedAgentCache (nodeName : string) (agentCache : list pbPodView).

Context `{S : GoSort}.

Definition node_differences (clusterCache : list clusterPodView) (agentCache : list pbPodView) : list difference :=
  compareCaches (sort_slice cv_id clusterCache) (sort_slice pv_Id agentCache).

Definition validate_node (agentCaches : gmap string (list pbPodView)) (kv : string * list clusterPodView) : list node_report :=
  match agentCaches !! kv.1 with
  | None => [noAgentCache kv.1]
  | Some agentCache =>
      match node_differences kv.2 agentCache with
      | [] => []
      | differences => [foundNodeDifferences kv.1 differences (sort_slice pv_Id agentCache)]
      end
  end.

Definition validateCaches (agentCaches : gmap string (list pbPodView)) (clusterCaches : gmap string (list clusterPodView))
  : list node_report :=
  (range clusterCaches ≫= validate_node agentCaches) ++
  (range agentCaches ≫= λ kv, match clusterCaches !! kv.1 with Some _ => [] | None => [unexpectedAgentCache kv.1 kv.2] end).

(** The loop over the clients: the caches that were listed, and the nodes marked as stale. *)
Definition list_cache (st : gmap string (list pbPodView) * list string)
  (nc : string * option (go_result (list pbPodView))) : gmap string (list pbPodView) * list string :=
  match nc.2 with
  | None => st
  | Some (Ok pods) => (<[nc.1 := pods]> st.1, st.2)
  | Some _ => (st.1, st.2 ++ [nc.1])
  end.
Definition list_caches (clients : list (string * option (go_result (list pbPodView))))
  : gmap string (list pbPodView) * list string :=
  foldl list_cache (∅, []) clients.

Definition in_cluster_cache (phase : PodPhase) : bool :=
  match phase with PodRunning | PodSucceeded | PodFailed => true | _ => false end.

Definition add_pod (caches : gmap string (list clusterPodView)) (pod : cluster_pod) : gmap string (list clusterPodView) :=
  if in_cluster_cache (cp_Phase pod)
  then partial_alter (λ o, Some (default [] o ++ [newClusterPodView pod])) (cp_NodeName pod) caches
  else caches.

(** [clients] is what [UpdatePool] returns, with the answer of each client; [podList] what [List]
    returns. *)
Definition ValidatePodCacheIntegrity (clients : go_result (gmap string (option (go_result (list pbPodView)))))
  (podList : go_result (list cluster_pod)) : go_result (list node_report) * list string :=
  match clients with
  | Err _ | Panic _ => (Err "failed to update agent client pool", [])
  | Ok cs =>
      let '(agentCaches, stale) := list_caches (range cs) in
      match podList with
      | Err _ | Panic _ => (Err "failed to list pods in the cluster", stale)
      | Ok pods => (Ok (validateCaches agentCaches (foldl add_pod ∅ pods)), stale)
      end
  end.
End compare.

(** ** What the comparison finds *)

(** The differences there are between the pods of the cluster and of an agent. *)
Inductive explained `{R : GoRange} (clusterCache : list clusterPodView) (agentCache : list pbPodView) : difference → Prop :=
  | explained_missing c : c ∈ clusterCache → cv_id c ∉ pv_Id <$> agentCache →
      explained clusterCache agentCache (missingPodFromAgentCache c)
  | explained_unexpected a : a ∈ agentCache → pv_Id a ∉ cv_id <$> clusterCache →
      explained clusterCache agentCache (unexpectedPodInAgentCache a)
  | explained_pods c a d : c ∈ clusterCache → a ∈ agentCache → cv_id c = pv_Id a → d ∈ comparePods c a →
      explained clusterCache agentCache d.

(** An agent knows a pod as the cluster does: its name, and its containers by id; containers
    that have terminated may be unknown to it. *)
Record pod_agrees (c : clusterPodView) (a : pbPodView) : Prop := {
  ag_namespace : cv_namespace c = pv_Namespace a;
  ag_name : cv_name c = pv_Name a;
  ag_known id cc : cv_containers c !! id = Some cc →
    match pv_Containers a !! id with Some (name, _) => name = cc_name cc | None => cc_terminated cc = true end;
  ag_only id : is_Some (pv_Containers a !! id) → is_Some (cv_containers c !! id);
}.

(** The key of an entry of the cache is the id of its pod. *)
Definition keyed (n : node) : Prop :=
  ∀ id st, podCache (n_resolver n) !! id = Some st → PodMeta_ID (pod_meta st) = id.

(** The pods of a node the report looks at. *)
Definition pods_on (nodeName : string) (pods : list cluster_pod) : list clusterPodView :=
  newClusterPodView <$> filter (λ p, in_cluster_cache (cp_Phase p) = true ∧ cp_NodeName p = nodeName) pods.

(** The node a part of the report is about. *)
Definition report_node (r : node_report) : string :=
  match r with
  | noAgentCache nodeName | foundNodeDifferences nodeName _ _ | unexpectedAgentCache nodeName _ => nodeName
  end.

(** The cache of an agent is in order: it has the pods of the cluster, as the cluster knows them. *)
Record cache_agrees (r : Resolver) (clusterCache : list clusterPodView) : Prop := {
  ca_pods id : id ∈ cv_id <$> clusterCache ↔ is_Some (podCache r !! id);
  ca_agrees c st : c ∈ clusterCache → podCache r !! cv_id c = Some st → pod_agrees c (podViewToProto (toView st));
}.

Section merge.
  Context `{R : GoRange}.

Lemma explained_cons_l c cs a_s d :
  cv_id c ∉ pv_Id <$> a_s → explained (c :: cs) a_s d ↔ d = missingPodFromAgentCache c ∨ explained cs a_s d.
Proof.
  intros Hc. split.
  - destruct 1 as [c' H1 H2|a H1 H2|c' a d H1 H2 H3 H4].
    + apply elem_of_cons in H1 as [->|H1]; [by left|right; by constructor].
    + right. constructor; set_solver.
    + apply elem_of_cons in H1 as [->|H1]; [|right; by eapply explained_pods]. destruct Hc. rewrite H3. by apply list_elem_of_fmap_2.
  - intros [->|[c' H1 H2|a H1 H2|c' a d' H1 H2 H3 H4]]; [constructor; set_solver|constructor; set_solver| |].
    + constructor; [done|]. rewrite fmap_cons, not_elem_of_cons. split; [|done]. intros He. destruct Hc. rewrite <- He.
      by apply list_elem_of_fmap_2.
    + eapply explained_pods; [by right|exact H2|done..].
Qed.

Lemma explained_cons_r a cs a_s d :
  pv_Id a ∉ cv_id <$> cs → explained cs (a :: a_s) d ↔ d = unexpectedPodInAgentCache a ∨ explained cs a_s d.
Proof.
  intros Ha. split.
  - destruct 1 as [c H1 H2|a' H1 H2|c a' d H1 H2 H3 H4].
    + right. constructor; set_solver.
    + apply elem_of_cons in H1 as [->|H1]; [by left|right; by constructor].
    + apply elem_of_cons in H2 as [->|H2]; [|right; by eapply explained_pods]. destruct Ha. rewrite <- H3. by apply list_elem_of_fmap_2.
  - intros [->|[c H1 H2|a' H1 H2|c a' d' H1 H2 H3 H4]]; [constructor; set_solver| |constructor; set_solver|].
    + constructor; [done|]. rewrite fmap_cons, not_elem_of_cons. split; [|done]. intros He. destruct Ha. rewrite <- He.
      by apply list_elem_of_fmap_2.
    + eapply explained_pods; [exact H1|by right|done..].
Qed.

Lemma explained_cons c a cs a_s d :
  cv_id c = pv_Id a → cv_id c ∉ cv_id <$> cs → pv_Id a ∉ pv_Id <$> a_s →
  explained (c :: cs) (a :: a_s) d ↔ d ∈ comparePods c a ∨ explained cs a_s d.
Proof.
  intros He Hc Ha. split.
  - destruct 1 as [c' H1 H2|a' H1 H2|c' a' d H1 H2 H3 H4].
    + rewrite fmap_cons, not_elem_of_cons in H2. destruct H2 as [Hne H2].
      apply elem_of_cons in H1 as [->|H1]; [done|]. right. by constructor.
    + rewrite fmap_cons, not_elem_of_cons in H2. destruct H2 as [Hne H2].
      apply elem_of_cons in H1 as [->|H1]; [done|]. right. by constructor.
    + apply elem_of_cons in H1 as [->|H1], H2 as [->|H2]; [by left| | |right; by eapply explained_pods].
      * destruct Ha. rewrite <- He, H3. by apply list_elem_of_fmap_2.
      * destruct Hc. rewrite He, <- H3. by apply list_elem_of_fmap_2.
  - intros [H|[c' H1 H2|a' H1 H2|c' a' d' H1 H2 H3 H4]].
    + by eapply explained_pods; [left|left|..].
    + constructor; [by right|]. rewrite fmap_cons, not_elem_of_cons. split; [|done]. rewrite <- He. intros Hx.
      destruct Hc. rewrite <- Hx. by apply list_elem_of_fmap_2.
    + constructor; [by right|]. rewrite fmap_cons, not_elem_of_cons. split; [|done]. rewrite He. intros Hx.
      destruct Ha. rewrite <- Hx. by apply list_elem_of_fmap_2.
    + eapply explained_pods; [by right|by right|done..].
Qed.

(** In a list in order, a smaller key is in no place. *)
Lemma below_sorted {A} (key : A → string) k x l :
  StronglySorted (λ a b, String.leb (key a) (key b) = true) (x :: l) → String.ltb k (key x) = true → k ∉ key <$> x :: l.
Proof.
  intros [_ Hx]%StronglySorted_inv Hk (y & -> & Hy)%list_elem_of_fmap. rewrite Forall_forall in Hx.
  apply elem_of_cons in Hy as [->|Hy]; [by apply ltb_neq in Hk|]. by eapply ltb_neq; [eapply ltb_leb_trans; [exact Hk|by apply Hx]|].
Qed.

Lemma compareCaches_explained cs a_s d :
  StronglySorted (λ a b, String.leb (cv_id a) (cv_id b) = true) cs → NoDup (cv_id <$> cs) →
  StronglySorted (λ a b, String.leb (pv_Id a) (pv_Id b) = true) a_s → NoDup (pv_Id <$> a_s) →
  d ∈ compareCaches cs a_s ↔ explained cs a_s d.
Proof.
  intros Hcs Hnc. revert a_s. induction cs as [|c cs IHc].
  - intros a_s _ _. cbn [compareCaches]. rewrite list_elem_of_fmap. split.
    + intros (a & -> & Ha). constructor; set_solver.
    + destruct 1; [set_solver|eauto|set_solver].
  - specialize (IHc (proj1 (StronglySorted_inv Hcs)) (proj2 (proj1 (NoDup_cons _ _) Hnc))).
    intros a_s Ha Hna. induction a_s as [|a a_s IHa].
    { cbn [compareCaches]. rewrite list_elem_of_fmap. split.
      + intros (c' & -> & Hc). constructor; set_solver.
      + destruct 1; [eauto|set_solver..]. }
    assert (StronglySorted (λ a b, String.leb (pv_Id a) (pv_Id b) = true) a_s) as Ha' by apply (StronglySorted_inv Ha).
    assert (NoDup (pv_Id <$> a_s)) as Hna' by by apply NoDup_cons in Hna as [_ ?].
    specialize (IHa Ha' Hna').
    cbn [compareCaches] in IHa |- *.
    destruct (String.ltb (cv_id c) (pv_Id a)) eqn:H1; [|destruct (String.ltb (pv_Id a) (cv_id c)) eqn:H2].
    + rewrite elem_of_cons, IHc by done. rewrite explained_cons_l; [done|by apply below_sorted].
    + rewrite elem_of_cons, IHa. rewrite explained_cons_r; [done|by apply below_sorted].
    + rewrite elem_of_app, IHc by done.
      rewrite explained_cons; [done|by apply ltb_same|by apply NoDup_cons in Hnc as [? _]|by apply NoDup_cons in Hna as [? _]].
Qed.
End merge.

Section exact.
  Context `{R : GoRange, !GoRangeOk R, S : GoSort, !GoSortOk S}.

Lemma bind_nil {A B} (f : A → list B) l : l ≫= f = [] ↔ ∀ x, x ∈ l → f x = [].
Proof.
  induction l as [|x l IH]; [split; [set_solver|done]|]. rewrite bind_cons, app_nil, IH. split.
  - intros [Hx Hl] y [->|Hy]%elem_of_cons; [done|by apply Hl].
  - intros H. split; [apply H; by left|]. intros y Hy. apply H. by right.
Qed.

Lemma if_nil {A} (b : bool) (l : list A) : l ≠ [] → (if negb b then l else []) = [] ↔ b = true.
Proof. by destruct b. Qed.

Lemma comparePods_nil c a : comparePods c a = [] ↔ pod_agrees c a.
Proof.
  unfold comparePods. rewrite !app_nil, !bind_nil, !if_nil, !String.eqb_eq by done. split.
  - intros (Hns & Hn & Hc & Ha). split; [done|done| |].
    + intros id cc Hid%elem_of_range%Hc. unfold compare_cluster_container in Hid. cbn in Hid.
      destruct (pv_Containers a !! id) as [[name cg]|]; [|by destruct (cc_terminated cc)].
      apply if_nil in Hid; [|done]. symmetry. by apply String.eqb_eq.
    + intros id [v Hid%elem_of_range%Ha]. unfold compare_agent_container in Hid. cbn in Hid.
      by destruct (cv_containers c !! id).
  - intros [Hns Hn Hc Ha]. split_and!; [done|done| |].
    + intros [id cc] Hid%elem_of_range%Hc. unfold compare_cluster_container. cbn.
      destruct (pv_Containers a !! id) as [[name cg]|]; [|by rewrite Hid]. apply if_nil; [done|]. rewrite Hid. apply String.eqb_refl.
    + intros [id v] Hid%elem_of_range. unfold compare_agent_container. cbn.
      destruct (Ha id) as [? ->]; [by eexists|done].
Qed.

Lemma node_differences_explained cs a_s d :
  NoDup (cv_id <$> cs) → NoDup (pv_Id <$> a_s) → d ∈ node_differences cs a_s ↔ explained cs a_s d.
Proof.
  intros Hc Ha. unfold node_differences. rewrite compareCaches_explained; [|apply sort_slice_sorted|
    by rewrite sort_slice_perm|apply sort_slice_sorted|by rewrite sort_slice_perm].
  split; (destruct 1 as [c H1 H2|a H1 H2|c a d H1 H2 H3 H4]; [constructor|constructor|eapply explained_pods];
    [by rewrite ?sort_slice_perm in *..|done|done]).
Qed.

Lemma explained_none cs a_s :
  (∀ d, ¬ explained cs a_s d) ↔
  (∀ id, id ∈ cv_id <$> cs ↔ id ∈ pv_Id <$> a_s) ∧ ∀ c a, c ∈ cs → a ∈ a_s → cv_id c = pv_Id a → pod_agrees c a.
Proof.
  split.
  - intros H. split.
    + intros id. split; intros (x & -> & Hx)%list_elem_of_fmap; apply dec_stable; intros Hn; eapply H; by constructor.
    + intros c a Hc Ha He. apply comparePods_nil. apply elem_of_nil_inv. intros d Hd. by eapply H, explained_pods.
  - intros [Hid Hag] d. destruct 1 as [c H1 H2|a H1 H2|c a d H1 H2 H3 H4].
    + apply H2, Hid. by apply list_elem_of_fmap_2.
    + apply H2, Hid. by apply list_elem_of_fmap_2.
    + specialize (Hag c a H1 H2 H3). apply comparePods_nil in Hag. rewrite Hag in H4. set_solver.
Qed.

(** *** The loops over the nodes *)

Lemma list_caches_skip l st k : k ∉ l.*1 → (foldl list_cache st l).1 !! k = st.1 !! k.
Proof.
  revert st. induction l as [|[k' o] l IH]; intros st Hk; [done|]. cbn [foldl].
  rewrite fmap_cons, not_elem_of_cons in Hk. destruct Hk as [Hne Hk]. rewrite IH by done. unfold list_cache. cbn.
  destruct o as [[pods| |]|]; [by apply lookup_insert_ne|done..].
Qed.

Lemma list_caches_lookup l k pods :
  NoDup l.*1 → (k, Some (Ok pods)) ∈ l → (list_caches l).1 !! k = Some pods.
Proof.
  unfold list_caches. generalize (∅ : gmap string (list pbPodView), [] : list string).
  induction l as [|[k' o] l IH]; intros st Hnd Hin; [set_solver|]. cbn [foldl].
  apply NoDup_cons in Hnd as [Hk Hnd]. apply elem_of_cons in Hin as [[= <- <-]|Hin]; [|by apply IH].
  rewrite list_caches_skip by done. apply lookup_insert_eq.
Qed.

Lemma pods_on_cons k p pods :
  pods_on k (p :: pods) =
    (if decide (in_cluster_cache (cp_Phase p) = true ∧ cp_NodeName p = k) then [newClusterPodView p] else []) ++ pods_on k pods.
Proof. unfold pods_on. rewrite filter_cons. by case_decide. Qed.

Lemma add_pods_lookup pods caches k :
  default [] (foldl add_pod caches pods !! k) = default [] (caches !! k) ++ pods_on k pods ∧
  (is_Some (foldl add_pod caches pods !! k) ↔ is_Some (caches !! k) ∨ pods_on k pods ≠ []).
Proof.
  revert caches. induction pods as [|p pods IH]; intros caches; cbn [foldl].
  { rewrite app_nil_r. split; [done|]. split; [by left|]. by intros [?|[]]. }
  destruct (IH (add_pod caches p)) as [-> ->]. rewrite pods_on_cons. unfold add_pod.
  destruct (in_cluster_cache (cp_Phase p)) eqn:Hp; [|rewrite decide_False by naive_solver; done].
  destruct (decide (cp_NodeName p = k)) as [->|Hne].
  - rewrite decide_True, lookup_partial_alter_eq by done. cbn [default from_option id]. rewrite (assoc_L (++)). split; [done|].
    split; [by right|by left].
  - rewrite decide_False, lookup_partial_alter_ne by naive_solver. done.
Qed.

Lemma validate_reports agentCaches clusterCaches k r :
  r ∈ validateCaches agentCaches clusterCaches → report_node r = k → is_Some (clusterCaches !! k) →
  ∃ cs, clusterCaches !! k = Some cs ∧ r ∈ validate_node agentCaches (k, cs).
Proof.
  unfold validateCaches. rewrite elem_of_app, !list_elem_of_bind.
  intros [([k' cs] & Hr & Hin%elem_of_range)|([k' a_s] & Hr & Hin%elem_of_range)] Hk Hc.
  - assert (k' = k) as ->; [|by exists cs]. rewrite <- Hk. unfold validate_node in Hr. cbn in Hr.
    destruct (agentCaches !! k'); [destruct (node_differences _ _)|]; set_solver.
  - cbn in Hr. destruct (clusterCaches !! k') eqn:Hck; [set_solver|].
    apply list_elem_of_singleton in Hr as ->. cbn in Hk. subst. by destruct Hc as [? ?]; simplify_eq.
Qed.
End exact.

(** *** The cache of the resolver *)

Section keys.
  Context `{K : Kernel, B : Ebpf, BM : EbpfMap, R : GoRange, !GoRangeOk R} (ver : Z) (sd : bool).

Lemma reconcile_pods wp n :
  node_inv n → ids_left wp n → podCache (n_resolver (snd (ReconcileWP ver sd wp n))) = podCache (n_resolver n).
Proof.
  intros I Hleft. destruct (ReconcileWP ver sd wp n) as [res n'] eqn:H.
  apply reconcile_run in H as (n1 & f & Hr & -> & _). cbn. destruct (ensured_same wp n) as (_ & _ & Hens & _).
  destruct Hr as [? ? _ _ ->|mode e n1 ? _ _ _ Hs|mode news n1 ? n3 n2 pols _ Hs Hp]; [done| |].
  - destruct (sync_facts ver sd wp _ _ _ _ I Hleft Hs) as (-> & _). done.
  - apply sync_pods_run in Hp as [Hsh _ _]. rewrite (sh_pods _ _ _ _ Hsh).
    by apply (recorded_pods ver sd wp n mode news n1 I Hleft Hs).
Qed.

Lemma delete_pods wp n : podCache (n_resolver (snd (HandleWPDelete ver sd wp n))) = podCache (n_resolver n).
Proof.
  destruct (HandleWPDelete ver sd wp n) as [res n'] eqn:H.
  apply delete_run in H as [(_ & -> & _)|(info & n0 & _ & -> & [Hr _ _ _]%clear_loop)]; [done|]. cbn in *. by rewrite Hr.
Qed.

Lemma add_containers_keyed podID cached l st n res n' :
  add_containers sd podID cached l st n = (res, n') → PodMeta_ID (pod_meta st) = podID → keyed n →
  keyed n' ∧ ∀ st', res = Ok st' → PodMeta_ID (pod_meta st') = podID.
Proof.
  revert st n. induction l as [|[cid ci] l IH]; intros st n H Hid Hk; cbn [add_containers] in H.
  { injection H as <- <-. split; [done|]. by intros st' [= <-]. }
  destruct (pod_containers st !! cid) as [cm|] eqn:Hc.
  { destruct (_ && _); [by eapply IH|by injection H as <- <-]. }
  set (st' := MkPodEntry _ _) in H. unfold mbind, gom_bind in H.
  assert (∃ n1, (if cached then update (λ r, set_podCache (<[podID := st']> (podCache r)) r) else mret tt) n = (Ok tt, n1) ∧
    keyed n1) as (n1 & Hn1 & Hk1).
  { destruct cached; [|by exists n]. eexists. split; [done|]. intros id e. cbn.
    intros [[<- <-]|[_ He]]%lookup_insert_Some; [done|by apply Hk]. }
  rewrite Hn1 in H. cbn [update] in H. destruct (cgTrackerUpdateFunc _ _ _ _) as [[[]|e|e] n2] eqn:Ht.
  all: apply cgTracker_run in Ht as [Hr _].
  all: assert (keyed n2) as Hk2 by (intros id e'; rewrite Hr; apply Hk1).
  - by eapply IH.
  - by injection H as <- <-.
  - by injection H as <- <-.
Qed.

Lemma add_keyed pod n : keyed n → keyed (snd (AddPodContainerFromNri sd pod n)).
Proof.
  intros Hk. unfold AddPodContainerFromNri, mbind, gom_bind. cbn [resolver].
  set (st := default _ _). assert (PodMeta_ID (pod_meta st) = PodMeta_ID (PodInput_Meta pod)) as Hid.
  { subst st. destruct (podCache _ !! _) as [e|] eqn:He; [by apply Hk in He|done]. }
  destruct (add_containers _ _ _ _ _ _) as [[st'|e|e] n1] eqn:Ha; apply add_containers_keyed in Ha as [Hk1 Hst]; try done.
  cbn [update]. specialize (Hst _ eq_refl). set (n2 := MkNode _ _).
  assert (keyed n2) as Hk2.
  { intros id e. cbn. intros [[<- <-]|[_ He]]%lookup_insert_Some; [done|by apply Hk1]. }
  destruct (applyPolicyToPodIfPresent sd st' n2) as [res n3] eqn:H. cbn.
  apply applyIfPresent_run in H as [[-> _]|(info & _ & [Hr _ _ _]%apply_run)]; [done|]. intros id e. rewrite Hr. apply Hk2.
Qed.

Lemma remove_keyed podID cID n : keyed n → keyed (snd (RemovePodContainerFromNri sd podID cID n)).
Proof.
  intros Hk. unfold RemovePodContainerFromNri, mbind, gom_bind. cbn [resolver].
  destruct (podCache (n_resolver n) !! podID) as [st|] eqn:Hst; [|done].
  destruct (pod_containers st !! cID) as [cm|]; [|done].
  destruct (size (pod_containers st) =? 1)%nat; cbn [update].
  all: destruct (cgroupToPolicyMapUpdateFunc _ _ _ _ _) as [res n'] eqn:H; apply cg_remove_run in H as (Hr & _).
  all: intros id e; cbn; rewrite Hr; cbn.
  - intros [_ He]%lookup_delete_Some. by apply Hk.
  - intros [[<- <-]|[_ He]]%lookup_insert_Some; [by apply Hk in Hst|by apply Hk].
Qed.

Lemma reached_keyed n0 n : fresh_node n0 → rtc (handles ver sd) n0 n → keyed n.
Proof.
  intros Hfresh H. assert (node_inv n0 ∧ keyed n0) as Hn.
  { split; [by apply fresh_node_inv|]. destruct Hfresh as (Hr & _). intros id st. rewrite Hr. cbn. by rewrite lookup_empty. }
  clear Hfresh. induction H as [n|n1 n2 n3 Hstep _ IH]; [apply Hn|]. apply IH. destruct Hn as [I Hk]. destruct Hstep as [wp n Hw|wp n|pod n|podID cID n].
  - split; [by apply reconcile_inv|]. intros id st. rewrite reconcile_pods by done. apply Hk.
  - split; [by apply delete_inv|]. intros id st. rewrite delete_pods. apply Hk.
  - split; [by apply add_inv|by apply add_keyed].
  - split; [by apply remove_pod_inv|by apply remove_keyed].
Qed.
End keys.

(** ** The report *)

Section report.
  Context `{K : Kernel, B : Ebpf, BM : EbpfMap, R : GoRange, !GoRangeOk R, S : GoSort, !GoSortOk S} (ver : Z).

Lemma elem_of_ListPodCache n a :
  a ∈ ListPodCache (n_resolver n) ↔ ∃ id st, podCache (n_resolver n) !! id = Some st ∧ a = podViewToProto (toView st).
Proof.
  unfold ListPodCache, PodCacheSnapshot. rewrite list_elem_of_fmap. split.
  - intros ([id v] & -> & Hin%elem_of_range). apply lookup_fmap_Some in Hin as (st & <- & Hst). eauto.
  - intros (id & st & Hst & ->). exists (id, toView st). split; [done|]. apply elem_of_range. by rewrite lookup_fmap, Hst.
Qed.

Lemma NoDup_ListPodCache n : keyed n → NoDup (pv_Id <$> ListPodCache (n_resolver n)).
Proof.
  intros Hk. unfold ListPodCache, PodCacheSnapshot. rewrite <- list_fmap_compose.
  erewrite list_fmap_ext; [apply (NoDup_range (toView <$> podCache (n_resolver n)))|].
  intros i [id v] Hi%list_elem_of_lookup_2%elem_of_range. apply lookup_fmap_Some in Hi as (st & <- & Hst%Hk). exact Hst.
Qed.

Lemma cache_agrees_iff n cs :
  keyed n → cache_agrees (n_resolver n) cs ↔ ∀ d, ¬ explained cs (ListPodCache (n_resolver n)) d.
Proof.
  intros Hk. rewrite explained_none. split.
  - intros [Hp Ha]. split.
    + intros id. rewrite Hp, list_elem_of_fmap. setoid_rewrite elem_of_ListPodCache. split.
      * intros [st Hst]. eexists. split; [|by eexists _, _]. by apply Hk in Hst.
      * intros (a & -> & id' & st & Hst & ->). cbn. by rewrite (Hk _ _ Hst).
    + intros c a Hc (id & st & Hst & ->)%elem_of_ListPodCache Heq. apply Ha; [done|]. rewrite Heq. cbn. by rewrite (Hk _ _ Hst).
  - intros [Hp Ha]. split.
    + intros id. rewrite Hp, list_elem_of_fmap. setoid_rewrite elem_of_ListPodCache. split.
      * intros (a & -> & id' & st & Hst & ->). cbn. by rewrite (Hk _ _ Hst).
      * intros [st Hst]. eexists. split; [|by eexists _, _]. by apply Hk in Hst.
    + intros c st Hc Hst. apply Ha; [done|by apply elem_of_ListPodCache; eauto|]. by rewrite <- (Hk _ _ Hst).
Qed.

(** A node both sides know is in the report when there are differences, once. *)
Lemma node_report_iff agentCaches clusterCaches nodeName cs a_s r :
  clusterCaches !! nodeName = Some cs → agentCaches !! nodeName = Some a_s →
  r ∈ validateCaches agentCaches clusterCaches ∧ report_node r = nodeName ↔
  node_differences cs a_s ≠ [] ∧ r = foundNodeDifferences nodeName (node_differences cs a_s) (sort_slice pv_Id a_s).
Proof.
  intros Hcs Hag. split.
  - intros [Hr Hn]. apply (validate_reports _ _ _ _ Hr) in Hn as (cs' & Hcs' & Hv); [|by rewrite Hcs].
    rewrite Hcs in Hcs'. injection Hcs' as <-. unfold validate_node in Hv. cbn in Hv. rewrite Hag in Hv.
    destruct (node_differences _ _) eqn:Hd; [set_solver|]. apply list_elem_of_singleton in Hv as ->. done.
  - intros [Hd ->]. split; [|done]. apply elem_of_app. left. apply list_elem_of_bind. exists (nodeName, cs).
    split; [|by apply elem_of_range]. unfold validate_node. cbn. rewrite Hag. destruct (node_differences _ _); set_solver.
Qed.

(** C19: the cache debugger.  For a node with pods, whose agent answers with its cache (in any
    state its handlers reach), the lines the debugger prints for the node are exactly the
    differences there are: a pod of the cluster the agent does not have, a pod only the agent
    has, and for a pod both have what [comparePods] finds.  And the node is left out of the
    report exactly when the cache is in order. *)
Theorem debugger_exact sd n0 n clients pods nodeName report stale :
  fresh_node n0 → rtc (handles ver sd) n0 n →
  clients !! nodeName = Some (Some (Ok (ListPodCache (n_resolver n)))) →
  pods_on nodeName pods ≠ [] → NoDup (cv_id <$> pods_on nodeName pods) →
  ValidatePodCacheIntegrity (Ok clients) (Ok pods) = (Ok report, stale) →
  (∀ d, (∃ ds dump, foundNodeDifferences nodeName ds dump ∈ report ∧ d ∈ ds) ↔
    explained (pods_on nodeName pods) (ListPodCache (n_resolver n)) d) ∧
  ((∀ r, r ∈ report → report_node r ≠ nodeName) ↔ cache_agrees (n_resolver n) (pods_on nodeName pods)).
Proof.
  intros Hfresh Hreach Hcl Hne Hnd Hrun.
  apply (reached_keyed ver sd n0 n Hfresh) in Hreach as Hk. rewrite cache_agrees_iff by done.
  unfold ValidatePodCacheIntegrity in Hrun.
  assert ((list_caches (range clients)).1 !! nodeName = Some (ListPodCache (n_resolver n))) as Hag
    by (apply list_caches_lookup; [apply NoDup_range|by apply elem_of_range]).
  destruct (list_caches (range clients)) as [agentCaches stale']. cbn in Hag. injection Hrun as <- <-.
  destruct (add_pods_lookup pods ∅ nodeName) as [Hpods Hsome]. rewrite lookup_empty in Hpods, Hsome.
  destruct (proj2 Hsome (or_intror Hne)) as [cs Hcs]. rewrite Hcs in Hpods. cbn in Hpods. subst cs.
  set (cs := pods_on nodeName pods) in *. set (report := validateCaches _ _).
  pose proof (λ r, node_report_iff _ _ _ _ _ r Hcs Hag) as Hrep. fold report in Hrep.
  pose proof (λ d, node_differences_explained cs (ListPodCache (n_resolver n)) d Hnd (NoDup_ListPodCache n Hk)) as Hex.
  split.
  - intros d. rewrite <- Hex. split.
    + intros (ds & dump & Hin & Hd). assert (report_node (foundNodeDifferences nodeName ds dump) = nodeName) as Hn by done.
      by apply (conj Hin), Hrep in Hn as [_ [= -> ->]].
    + intros Hd. eexists _, _. split; [|exact Hd]. apply Hrep. split; [|done]. intros Hnil. rewrite Hnil in Hd. set_solver.
  - setoid_rewrite <- Hex. split.
    + intros Hr d Hd. refine (Hr _ (proj1 (proj2 (Hrep _) (conj _ eq_refl))) eq_refl). intros Hnil. rewrite Hnil in Hd. set_solver.
    + intros Hd r Hin Hn. apply (conj Hin), Hrep in Hn as [Hnil _]. by apply Hnil, elem_of_nil_inv.
Qed.
End report.

(** ** Instances *)

#[local] Existing Instances list_range list_range_ok.

Definition stable_sort : GoSort :=
  {| sort_slice := λ A key, SortStableFunc (λ a b, String.leb (key a) (key b)) |}.

Lemma stable_sort_ok : GoSortOk stable_sort.
Proof.
  constructor.
  - intros A key l. apply SortStableFunc_perm.
  - intros A key l. apply SortStableFunc_sorted; [intros; apply String.leb_total|intros ???; apply leb_trans].
Qed.

#[local] Existing Instances stable_sort stable_sort_ok.

(** The pod of [pod_node] as the API server has it; then with a second container, whose image
    is being pulled. *)
Definition side_status : container_status := MkContainerStatus "side" "containerd://c1" false (Some "containerd://c0").
Definition waiting_status : container_status := MkContainerStatus "web" "" false None.
Definition api_pod (containers : list container_status) : cluster_pod :=
  MkClusterPod "p1" "pod" "ns" "node1" PodRunning ∅ [] containers [].

Definition node1_clients : gmap string (option (go_result (list pbPodView))) :=
  {[ "node1" := Some (Ok (ListPodCache (n_resolver pod_node))) ]}.

(** A container that waits to be started has no id yet; it is compared as a container with the
    empty id, and reported as missing from the cache of an agent that is in order. *)
Example waiting_container_reported :
  ValidatePodCacheIntegrity (Ok node1_clients) (Ok [api_pod [side_status]]) = (Ok [], []) ∧
  ∃ view dump, ValidatePodCacheIntegrity (Ok node1_clients) (Ok [api_pod [side_status; waiting_status]]) =
    (Ok [foundNodeDifferences "node1" [missingContainer view "" "web"] dump], []).
Proof. split; [vm_compute; reflexivity|]. eexists _, _. vm_compute. reflexivity. Qed.

Lemma debugger_exact_witness :
  cache_agrees (n_resolver pod_node) (pods_on "node1" [api_pod [side_status]]).
Proof.
  apply (debugger_exact (K := sample_kernel) linux_6_8 false new_node pod_node node1_clients [api_pod [side_status]] "node1" [] []).
  - exact new_node_fresh.
  - apply (rtc_l _ _ policy_node); [|apply rtc_once; exact (handles_add (K := sample_kernel) linux_6_8 false side_pod policy_node)].
    refine (handles_reconcile (K := sample_kernel) linux_6_8 false two_containers new_node _).
    apply ids_left_small; [vm_compute; discriminate|vm_compute; lia].
  - apply lookup_singleton_eq.
  - vm_compute. discriminate.
  - vm_compute. apply NoDup_singleton.
  - vm_compute. reflexivity.
  - intros r Hr. by apply elem_of_nil in Hr.
Defined.
