(* ===== verification/ClientPool.v ===== *)
(** * The controller's connections to the agents, and the deletion of policies

    [src/internal/grpcexporter/agent_client_pool.go]: the pool of clients the controller keeps,
    one per node, through which it reads the state of the agents ([PolicyStatus]); and
    [src/internal/controller/workloadpolicy_webhook.go], the admission of the deletion of a
    policy.  Clients and the calls of the API server are parameters. *)
From S2P Require Import Prelude GoStd CLayout ProgramTypes KernelLayout Kernel StringMaps PolicyValues Names CgroupTracker Events AgentMaps DPath Enforce EndToEnd Resolver.
Local Open Scope Z_scope.

(** ** The pool *)

Record agent_pod := MkAgentPod {
  ap_Name : string;
  ap_Namespace : string;
  ap_NodeName : string;
  ap_PodIP : string;
}.

(** [clients] maps a node to its client, or to nil.  [created] and [closed] record the clients
    that were created and closed, for the statements below. *)
Record pool (A : Type) := MkPool {
  clients : gmap string (option A);
  created : list A;
  closed : list A;
}.
Arguments MkPool {A} _ _ _.
Arguments clients {A} _.
Arguments created {A} _.
Arguments closed {A} _.

Section pool.
  Context {A : Type} `{R : GoRange} (NewClient : agent_pod → go_result A).

Definition set_client (node : string) (c : option A) (p : pool A) : pool A :=
  MkPool (<[node := c]> (clients p)) (created p) (closed p).

(** [Close] of a client that may be nil. *)
Definition close_client (c : option A) (p : pool A) : pool A :=
  match c with
  | Some c => MkPool (clients p) (created p) (c :: closed p)
  | None => p
  end.

Definition getOrCreateClient (pod : agent_pod) (p : pool A) : go_result A * pool A :=
  let node := ap_NodeName pod in
  match clients p !! node with
  | Some (Some agentClient) => (Ok agentClient, p)
  | _ =>
      match NewClient pod with
      | Ok c => (Ok c, set_client node (Some c) (MkPool (clients p) (c :: created p) (closed p)))
      | Err _ => (Err "failed to create connection to pod", set_client node None p)
      | Panic e => (Panic e, p)
      end
  end.

(** The loop over the pods; errors are logged. *)
Fixpoint ensure_clients (pods : list agent_pod) (activeNodes : gset string) (p : pool A)
  : go_result (gset string) * pool A :=
  match pods with
  | [] => (Ok activeNodes, p)
  | pod :: pods' =>
      match getOrCreateClient pod p with
      | (Panic e, p') => (Panic e, p')
      | (_, p') => ensure_clients pods' ({[ ap_NodeName pod ]} ∪ activeNodes) p'
      end
  end.

(** The loop over the clients, which closes and deletes the stale ones. *)
Fixpoint remove_stale (l : list (string * option A)) (activeNodes : gset string) (p : pool A) : pool A :=
  match l with
  | [] => p
  | (node, c) :: l' =>
      if decide (node ∈ activeNodes) then remove_stale l' activeNodes p
      else
        let p' := close_client c p in
        remove_stale l' activeNodes (MkPool (delete node (clients p')) (created p') (closed p'))
  end.

Definition UpdatePool (podList : go_result (list agent_pod)) (p : pool A)
  : go_result (gmap string (option A)) * pool A :=
  match podList with
  | Ok pods =>
      match ensure_clients pods ∅ p with
      | (Ok activeNodes, p1) =>
          let p2 := remove_stale (range (clients p1)) activeNodes p1 in
          (Ok (clients p2), p2)
      | (Err e, p1) => (Err e, p1)
      | (Panic e, p1) => (Panic e, p1)
      end
  | Err e => (Err e, p)
  | Panic e => (Panic e, p)
  end.

Definition MarkStaleAgentClient (nodeName : string) (p : pool A) : pool A :=
  match clients p !! nodeName with
  | None => p
  | Some client => set_client nodeName None (close_client client p)
  end.

(** ** Which clients are in the pool *)

(** The clients of the pool. *)
Definition live (m : gmap string (option A)) : list A := omap snd (map_to_list m).

(** Every client that was created is in the pool or closed, once. *)
Definition no_leak (p : pool A) : Prop := created p ≡ₚ live (clients p) ++ closed p.

Lemma live_clients_insert m k o : m !! k = None → live (<[k := o]> m) ≡ₚ option_list o ++ live m.
Proof. intros Hk. unfold live. rewrite map_to_list_insert by done. by destruct o. Qed.

Lemma live_clients_delete m k o : m !! k = Some o → live m ≡ₚ option_list o ++ live (delete k m).
Proof.
  intros Hk. rewrite <- (insert_delete_id m k o Hk) at 1. apply live_clients_insert. apply lookup_delete_eq.
Qed.

(** A node without client or with a nil one gets [o]. *)
Lemma live_set m k o : m !! k = None ∨ m !! k = Some None → live (<[k := o]> m) ≡ₚ option_list o ++ live m.
Proof.
  intros [Hk|Hk]; [by apply live_clients_insert|]. rewrite (live_clients_delete m k None Hk), <- insert_delete_eq.
  rewrite live_clients_insert by apply lookup_delete_eq. done.
Qed.

Lemma getOrCreateClient_no_leak pod p : no_leak p → no_leak (snd (getOrCreateClient pod p)).
Proof.
  unfold getOrCreateClient, no_leak. intros Hp.
  destruct (clients p !! ap_NodeName pod) as [[c|]|] eqn:Hc; [done|..].
  all: destruct (NewClient pod) as [c|e|e]; cbn; [|by rewrite live_set by auto|done].
  all: rewrite live_set by auto; by rewrite Hp.
Qed.

Lemma ensure_clients_no_leak pods active p : no_leak p → no_leak (snd (ensure_clients pods active p)).
Proof.
  revert active p. induction pods as [|pod pods IH]; intros active p Hp; [done|]. cbn [ensure_clients].
  pose proof (getOrCreateClient_no_leak pod p Hp) as Hg.
  destruct (getOrCreateClient pod p) as [[c|e|e] p']; [by apply IH|by apply IH|done].
Qed.

Lemma remove_stale_no_leak l active p :
  NoDup l.*1 → (∀ k c, (k, c) ∈ l → clients p !! k = Some c) → no_leak p → no_leak (remove_stale l active p).
Proof.
  revert p. induction l as [|[node c] l IH]; intros p Hnd Hl Hp; [done|]. cbn in Hnd.
  apply NoDup_cons in Hnd as [Hnot Hnd]. cbn [remove_stale].
  assert (clients p !! node = Some c) as Hc by (apply Hl; by left).
  assert (∀ k c', (k, c') ∈ l → clients p !! k = Some c') as Hl' by (intros; apply Hl; by right).
  case_decide; [by apply IH|]. apply IH; [done|..].
  - intros k c' Hin. assert (k ≠ node) by (intros ->; apply Hnot; by apply (list_elem_of_fmap_2 fst) in Hin).
    assert (clients (close_client c p) = clients p) as -> by by destruct c. cbn [clients]. rewrite lookup_delete_ne by done. by apply Hl'.
  - unfold no_leak in *. rewrite (live_clients_delete _ _ _ Hc) in Hp. destruct c as [c|]; cbn in *; [|done].
    rewrite Hp. by rewrite Permutation_middle.
Qed.

Lemma MarkStale_no_leak node p : no_leak p → no_leak (MarkStaleAgentClient node p).
Proof.
  unfold MarkStaleAgentClient, no_leak. destruct (clients p !! node) as [c|] eqn:Hc; [|done]. intros Hp.
  rewrite (live_clients_delete _ _ _ Hc) in Hp. cbn. assert (clients (close_client c p) = clients p) as -> by by destruct c.
  rewrite <- insert_delete_eq, live_clients_insert by apply lookup_delete_eq. cbn.
  destruct c as [c|]; cbn in *; [|done]. rewrite Hp. by rewrite Permutation_middle.
Qed.

Context `{!GoRangeOk R}.

Lemma range_NoDup {V} (m : gmap string V) : NoDup (range m).*1.
Proof. rewrite range_perm. apply NoDup_fst_map_to_list. Qed.

Lemma range_lookup {V} (m : gmap string V) k v : (k, v) ∈ range m → m !! k = Some v.
Proof. by rewrite range_perm, elem_of_map_to_list. Qed.

Lemma UpdatePool_no_leak podList p : no_leak p → no_leak (snd (UpdatePool podList p)).
Proof.
  intros Hp. unfold UpdatePool. destruct podList as [pods|e|e]; [|done..].
  pose proof (ensure_clients_no_leak pods ∅ p Hp) as Hg.
  destruct (ensure_clients pods ∅ p) as [[active|e|e] p1]; [|done..]. cbn in *.
  apply remove_stale_no_leak; [apply range_NoDup|apply range_lookup|done].
Qed.

(** One operation of the pool. *)
Inductive pool_step : pool A → pool A → Prop :=
  | step_update podList p : pool_step p (snd (UpdatePool podList p))
  | step_mark node p : pool_step p (MarkStaleAgentClient node p).

(** C34: the controller leaks no connection.  After any sequence of operations on an empty pool,
    every client that was created is either in the pool or was closed, and was closed only
    once. *)
Theorem pool_no_leak p : rtc pool_step (MkPool ∅ [] []) p → created p ≡ₚ live (clients p) ++ closed p.
Proof.
  intros H. assert (no_leak (MkPool ∅ [] [])) as H0 by (unfold no_leak, live; cbn; by rewrite map_to_list_empty).
  change (no_leak p). induction H as [|p1 p2 p3 Hs _ IH]; [done|]. apply IH.
  destruct Hs; [by apply UpdatePool_no_leak|by apply MarkStale_no_leak].
Qed.

(** An entry without client gets [o]. *)
Lemma set_spec (m : gmap string (option A)) pod o (P : A → Prop) :
  m !! ap_NodeName pod = Some None ∨ m !! ap_NodeName pod = None →
  (∀ c, o = Some c → P c) →
  (∀ node c, m !! node = Some (Some c) → <[ap_NodeName pod := o]> m !! node = Some (Some c)) ∧
  (∀ node c, <[ap_NodeName pod := o]> m !! node = Some (Some c) → m !! node = Some (Some c) ∨
     ap_NodeName pod = node ∧ P c) ∧
  (∀ node, is_Some (<[ap_NodeName pod := o]> m !! node) ↔ is_Some (m !! node) ∨ ap_NodeName pod = node).
Proof.
  intros Hm HP. split_and!.
  - intros node c Hc. destruct (decide (ap_NodeName pod = node)) as [<-|]; [|by rewrite lookup_insert_ne].
    destruct Hm; congruence.
  - intros node c. destruct (decide (ap_NodeName pod = node)) as [<-|]; [|rewrite lookup_insert_ne by done; by left].
    rewrite lookup_insert_eq. intros [= ->]. right. auto.
  - intros node. destruct (decide (ap_NodeName pod = node)) as [<-|]; [|rewrite lookup_insert_ne by done; tauto].
    rewrite lookup_insert_eq. split; [by right|by eexists].
Qed.

(** The loop over the pods fails only in a panic. *)
Lemma ensure_clients_error pods active p res p' :
  ensure_clients pods active p = (res, p') → (∀ a, res ≠ Ok a) → ∃ pod e, NewClient pod = Panic e.
Proof.
  revert active p. induction pods as [|pod pods IH]; intros active p H Hne; cbn [ensure_clients] in H.
  { injection H as <- <-. by destruct (Hne active). }
  revert H. unfold getOrCreateClient. destruct (clients p !! ap_NodeName pod) as [[c|]|]; [intros H; by eapply IH|..].
  all: destruct (NewClient pod) as [c|e|e] eqn:Hn; [intros H; by eapply IH..|by intros _; exists pod, e].
Qed.

(** What the loop over the pods leaves for a node. *)
Lemma ensure_clients_spec pods active p active' p' :
  ensure_clients pods active p = (Ok active', p') →
  active' = list_to_set (ap_NodeName <$> pods) ∪ active ∧
  (∀ node c, clients p !! node = Some (Some c) → clients p' !! node = Some (Some c)) ∧
  (∀ node c, clients p' !! node = Some (Some c) → clients p !! node = Some (Some c) ∨
     ∃ pod, pod ∈ pods ∧ ap_NodeName pod = node ∧ NewClient pod = Ok c) ∧
  (∀ node, is_Some (clients p' !! node) ↔ is_Some (clients p !! node) ∨ ∃ pod, pod ∈ pods ∧ ap_NodeName pod = node).
Proof.
  revert active p. induction pods as [|pod pods IH]; intros active p H; cbn [ensure_clients] in H.
  { injection H as <- <-. split_and!; [set_solver|auto|auto|set_solver]. }
  assert (∃ p1, ensure_clients pods ({[ ap_NodeName pod ]} ∪ active) p1 = (Ok active', p') ∧
    (∀ node c, clients p !! node = Some (Some c) → clients p1 !! node = Some (Some c)) ∧
    (∀ node c, clients p1 !! node = Some (Some c) → clients p !! node = Some (Some c) ∨
       ap_NodeName pod = node ∧ NewClient pod = Ok c) ∧
    (∀ node, is_Some (clients p1 !! node) ↔ is_Some (clients p !! node) ∨ ap_NodeName pod = node))
    as (p1 & H1 & Hkeep & Hnew & Hdom).
  { revert H. unfold getOrCreateClient. destruct (clients p !! ap_NodeName pod) as [[c|]|] eqn:Hc.
    - intros H. exists p. split_and!; [done|done|auto|]. intros node. split; [by left|]. intros [?| <-]; [done|by rewrite Hc].
    - destruct (NewClient pod) as [c|e|e] eqn:Hn; [| |done]; intros H; eexists; (split; [exact H|]);
        apply (set_spec _ pod _ (λ c', _ = Ok c')); [auto|by intros ? [= <-]|auto|by intros ? [=]].
    - destruct (NewClient pod) as [c|e|e] eqn:Hn; [| |done]; intros H; eexists; (split; [exact H|]);
        apply (set_spec _ pod _ (λ c', _ = Ok c')); [auto|by intros ? [= <-]|auto|by intros ? [=]]. }
  apply IH in H1 as (-> & K1 & N1 & D1). split_and!.
  - set_solver.
  - eauto.
  - intros node c [Hc|(pod' & ? & ? & ?)]%N1; [|right; exists pod'; split_and!; [by right|done..]].
    apply Hnew in Hc as [?|[? ?]]; [by left|right; exists pod; split_and!; [by left|done..]].
  - intros node. rewrite D1, Hdom. setoid_rewrite elem_of_cons. naive_solver.
Qed.

Lemma remove_stale_lookup l active p node :
  NoDup l.*1 →
  clients (remove_stale l active p) !! node =
    if decide (node ∈ l.*1 ∧ node ∉ active) then None else clients p !! node.
Proof.
  revert p. induction l as [|[n c] l IH]; intros p Hnd; [by rewrite decide_False by set_solver|].
  cbn in Hnd. apply NoDup_cons in Hnd as [Hnot Hnd]. cbn [remove_stale].
  destruct (decide (n ∈ active)) as [Hn|Hn]; rewrite IH by done.
  - apply decide_ext. cbn. set_solver.
  - cbn [clients]. assert (clients (close_client c p) = clients p) as -> by by destruct c.
    destruct (decide (node = n)) as [->|Hne].
    + rewrite (decide_True (P := n ∈ ((n, c) :: l).*1 ∧ n ∉ active)) by (cbn; set_solver).
      case_decide; [done|apply lookup_delete_eq].
    + rewrite lookup_delete_ne by done. apply decide_ext. cbn. set_solver.
Qed.

(** The pool follows the agents.  When the agent pods can be listed, the pool has an entry
    for exactly the nodes of the listed pods; a client that was there for such a node is kept,
    and a client that is new was created for a pod of its node; when they cannot, the pool is
    as it was. *)
Theorem UpdatePool_follows podList p res p' :
  UpdatePool podList p = (res, p') →
  match podList, res with
  | Ok pods, Ok cs =>
      cs = clients p' ∧
      (∀ node, is_Some (cs !! node) ↔ ∃ pod, pod ∈ pods ∧ ap_NodeName pod = node) ∧
      (∀ pod c, pod ∈ pods → clients p !! ap_NodeName pod = Some (Some c) → cs !! ap_NodeName pod = Some (Some c)) ∧
      (∀ node c, cs !! node = Some (Some c) → clients p !! node = Some (Some c) ∨
         ∃ pod, pod ∈ pods ∧ ap_NodeName pod = node ∧ NewClient pod = Ok c)
  | Ok _, _ => ∃ pod e, NewClient pod = Panic e
  | _, _ => p' = p ∧ ∀ cs, res ≠ Ok cs
  end.
Proof.
  unfold UpdatePool. destruct podList as [pods|e|e]; [|by intros [= <- <-]..].
  destruct (ensure_clients pods ∅ p) as [[active|e|e] p1] eqn:He; intros [= <- <-];
    [|by apply ensure_clients_error in He..].
  apply ensure_clients_spec in He as (-> & K1 & N1 & D1).
  assert (∀ node, node ∈ ap_NodeName <$> pods ↔ ∃ pod, pod ∈ pods ∧ ap_NodeName pod = node) as Hnode
    by (intros node; rewrite list_elem_of_fmap; set_solver).
  setoid_rewrite <- Hnode. setoid_rewrite <- Hnode in D1.
  assert (∀ node, clients (remove_stale (range (clients p1)) (list_to_set (ap_NodeName <$> pods) ∪ ∅) p1) !! node =
    if decide (node ∈ ap_NodeName <$> pods) then clients p1 !! node else None) as Hl.
  { intros node. rewrite remove_stale_lookup by apply range_NoDup.
    assert (node ∈ (range (clients p1)).*1 ↔ is_Some (clients p1 !! node)) as Hr.
    { rewrite range_perm, list_elem_of_fmap. split.
      - intros ([k v] & -> & Hv). apply elem_of_map_to_list in Hv. by eexists.
      - intros [v Hv]. exists (node, v). by rewrite elem_of_map_to_list. }
    destruct (decide (node ∈ ap_NodeName <$> pods)) as [Hp|Hp]; [by rewrite decide_False by set_solver|].
    destruct (clients p1 !! node) as [v|] eqn:Hv; [|by case_decide]. rewrite decide_True; [done|].
    rewrite Hr. split; [by eexists|set_solver]. }
  split_and!; [done|..].
  - intros node. rewrite Hl. case_decide as Hp; [|split; [by intros [? ?]|done]]. rewrite D1. tauto.
  - intros pod c Hin Hc. rewrite Hl, decide_True; [auto|]. apply Hnode. by exists pod.
  - intros node c Hc. rewrite Hl in Hc. case_decide; [|done]. auto.
Qed.
End pool.

(** The pod of a node is listed, its client fails, and the pod goes away. *)
Definition sample_client (pod : agent_pod) : go_result string := Ok (ap_Name pod).
Definition sample_pod : agent_pod := MkAgentPod "agent-1" "enforcer" "node-1" "10.0.0.1".
Definition sample_pool_1 : pool string :=
  snd (UpdatePool (R := list_range) sample_client (Ok [sample_pod]) (MkPool ∅ [] [])).
Definition sample_pool_2 : pool string :=
  snd (UpdatePool (R := list_range) sample_client (Ok [sample_pod]) (MarkStaleAgentClient "node-1" sample_pool_1)).

Lemma pool_no_leak_witness :
  length (created sample_pool_2) = 2%nat ∧ created sample_pool_2 ≡ₚ live (clients sample_pool_2) ++ closed sample_pool_2.
Proof.
  split; [vm_compute; reflexivity|].
  apply (pool_no_leak (R := list_range) (GoRangeOk0 := list_range_ok) sample_client).
  eapply rtc_l; [apply (step_update sample_client (Ok [sample_pod]))|].
  eapply rtc_l; [apply (step_mark sample_client "node-1")|].
  apply rtc_once, (step_update sample_client (Ok [sample_pod])).
Defined.

(** ** The deletion of a policy *)

Record pod_info := MkPodInfo {
  pi_Name : string;
  pi_Namespace : string;
  pi_Labels : gmap string string;
  pi_Phase : string;
}.

Definition PodSucceeded : string := "Succeeded".
Definition PodFailed : string := "Failed".
Definition maxPodNames : nat := 10.

(** [strings.Join(names, ", ")]. *)
Fixpoint join_names (names : list string) : string :=
  match names with
  | [] => ""
  | [name] => name
  | name :: names' => (name ++ ", " ++ join_names names')%string
  end.

Definition listPodNames (names : list string) : string :=
  match names with
  | [] => ""
  | _ =>
      if (length names <=? maxPodNames)%nat then join_names names
      else (join_names (take maxPodNames names) ++ " (and " ++
            FormatInt (Z.of_nat (length names - maxPodNames)) ++ " more)")%string
  end.

(** The pods the list request selects. *)
Definition uses_policy (policy : WorkloadPolicy) (pod : pod_info) : bool :=
  (pi_Namespace pod =? wp_Namespace policy)%string &&
  bool_decide (pi_Labels pod !! PolicyLabelKey = Some (wp_Name policy)) &&
  negb (pi_Phase pod =? PodSucceeded)%string && negb (pi_Phase pod =? PodFailed)%string.

(** [pods] is what the API server has, or the error of the request. *)
Definition ValidateDelete (pods : go_result (list pod_info)) (policy : WorkloadPolicy) : go_error :=
  match pods with
  | Ok pods =>
      match List.filter (uses_policy policy) pods with
      | [] => None
      | items =>
          Some ("cannot delete WorkloadPolicy " ++ wp_Name policy ++ " while " ++
                FormatInt (Z.of_nat (length items)) ++ " pod(s) in namespace " ++ wp_Namespace policy ++
                " still use it: " ++ listPodNames (pi_Name <$> items))%string
      end
  | _ => Some "list pods for WorkloadPolicy"
  end.

(** C35: a policy in use cannot be deleted.  The webhook admits the deletion of a policy exactly
    when the pods can be listed and none of them that is not finished has the label of the
    policy in its namespace. *)
Theorem ValidateDelete_iff pods policy :
  ValidateDelete pods policy = None ↔
  ∃ l, pods = Ok l ∧ ∀ pod, pod ∈ l → pi_Namespace pod = wp_Namespace policy →
    pi_Labels pod !! PolicyLabelKey = Some (wp_Name policy) →
    pi_Phase pod = PodSucceeded ∨ pi_Phase pod = PodFailed.
Proof.
  destruct pods as [l|e|e]; cbn [ValidateDelete]; [|split; [done|by intros (? & ? & _)]..].
  assert (List.filter (uses_policy policy) l = [] ↔ ∀ pod, pod ∈ l → uses_policy policy pod = false) as Hf.
  { split.
    - intros Hn pod Hin. destruct (uses_policy policy pod) eqn:Hu; [|done].
      assert (In pod (List.filter (uses_policy policy) l)) as Hi by (apply filter_In; by rewrite <- list_elem_of_In).
      by rewrite Hn in Hi.
    - intros Hall. destruct (List.filter _ l) as [|pod l'] eqn:He; [done|].
      assert (In pod (List.filter (uses_policy policy) l)) as [Hi Hu]%filter_In by (rewrite He; by left).
      rewrite Hall in Hu; [done|]. by apply list_elem_of_In. }
  assert ((match List.filter (uses_policy policy) l with [] => None | items => Some
    ("cannot delete WorkloadPolicy " ++ wp_Name policy ++ " while " ++ FormatInt (Z.of_nat (length items)) ++
     " pod(s) in namespace " ++ wp_Namespace policy ++ " still use it: " ++ listPodNames (pi_Name <$> items))%string end) = None ↔
    ∀ pod, pod ∈ l → uses_policy policy pod = false) as -> by (rewrite <- Hf; by destruct (List.filter _ l)).
  split.
  - intros Hall. exists l. split; [done|]. intros pod Hin Hns Hlab. specialize (Hall pod Hin).
    unfold uses_policy in Hall. rewrite Hns, String.eqb_refl, bool_decide_true in Hall by done.
    destruct (String.eqb_spec (pi_Phase pod) PodSucceeded), (String.eqb_spec (pi_Phase pod) PodFailed); auto; done.
  - intros (l' & [= <-] & Hall) pod Hin. unfold uses_policy.
    destruct (String.eqb_spec (pi_Namespace pod) (wp_Namespace policy)); [|done].
    case_bool_decide; [|done]. destruct (Hall pod Hin) as [->| ->]; [done..|].
    by destruct (String.eqb _ PodSucceeded).
Qed.
