(* ===== verification/Elf.v ===== *)
(** * The kind of an executable file

    [src/internal/imagescan/classify.go] and [src/internal/elfutil/elfutil.go]: how the policy
    generator tells programs from shared libraries, and the bound on the sections it lets the
    ELF parser decompress.  The parser, [debug/elf], is a parameter, which may also panic. *)
From S2P Require Import Prelude GoStd PolicyValues.
Local Open Scope Z_scope.

(** ** The ELF format *)

Inductive elf_class := ELFCLASS32 | ELFCLASS64.
Inductive byte_order := LittleEndian | BigEndian.

Definition ELFMAG : bytes := [127; 69; 76; 70].
Definition shebang : bytes := [35; 33].

Definition ET_NONE : Z := 0.
Definition ET_REL : Z := 1.
Definition ET_DYN : Z := 3.
Definition ET_CORE : Z := 4.
Definition PT_DYNAMIC : Z := 2.
Definition PT_INTERP : Z := 3.
Definition DT_NULL : Z := 0.
Definition DT_FLAGS_1 : Z := 1879048187.
Definition DF_1_PIE : Z := 134217728.
Definition SHT_SYMTAB : Z := 2.
Definition SHT_DYNAMIC : Z := 6.
Definition SHT_NOBITS : Z := 8.
Definition SHT_DYNSYM : Z := 11.
Definition SHT_GNU_VERDEF : Z := 1879048189.
Definition SHT_GNU_VERNEED : Z := 1879048190.
Definition SHT_GNU_VERSYM : Z := 1879048191.
Definition SHF_ALLOC : Z := 2.
Definition SHF_COMPRESSED : Z := 2048.
Definition SHN_XINDEX : Z := 65535.

(** The integer in some bytes. *)
Definition decode (order : byte_order) (bs : bytes) : Z :=
  match order with
  | LittleEndian => le_val bs
  | BigEndian => le_val (rev bs)
  end.

(** A field of [n] bytes at [off] of a structure. *)
Definition field (order : byte_order) (bs : bytes) (off n : nat) : Z := decode order (take n (drop off bs)).

(** Reading [n] bytes at [off] with [io.ReadFull]; fewer bytes are an error. *)
Definition read_full (file : bytes) (off : Z) (n : nat) : option bytes :=
  if (0 <=? off) && (off + Z.of_nat n <=? Z.of_nat (length file))
  then Some (take n (drop (Z.to_nat off) file)) else None.

(** ** The section name table: [elfutil.go] *)

Definition maxDeclaredSectionSize : Z := 128 * 2 ^ 20.
Definition ErrDeclaredSizeExceeded : string := "declared decompressed size over the limit".

Record sectionHeader := MkSectionHeader {
  sh_flags : Z;
  sh_offset : Z;
  sh_size : Z;
  sh_link : Z;
}.

Definition sectionHeaderSize (class : elf_class) : nat :=
  match class with ELFCLASS32 => 40 | ELFCLASS64 => 64 end.
Definition compressionHeaderSize (class : elf_class) : nat :=
  match class with ELFCLASS32 => 12 | ELFCLASS64 => 24 end.

Definition identify (file : bytes) : option (elf_class * byte_order) :=
  match read_full file 0 16 with
  | None => None
  | Some ident =>
      if negb (bool_decide (take 4 ident = ELFMAG)) then None
      else
        match
          match nth 4 ident 0 with
          | 1 => Some ELFCLASS32
          | 2 => Some ELFCLASS64
          | _ => None
          end
        with
        | None => None
        | Some class =>
            match nth 5 ident 0 with
            | 1 => Some (class, LittleEndian)
            | 2 => Some (class, BigEndian)
            | _ => None
            end
        end
  end.

(** [shoff], [shentsize], [shnum] and [shstrndx]; [shoff] is converted to [int64]. *)
Definition fileHeader (file : bytes) (class : elf_class) (order : byte_order) : option (Z * Z * Z * Z) :=
  match class with
  | ELFCLASS32 =>
      h ← read_full file 0 52;
      Some (field order h 32 4, field order h 46 2, field order h 48 2, field order h 50 2)
  | ELFCLASS64 =>
      h ← read_full file 0 64;
      Some (s64 (field order h 40 8), field order h 58 2, field order h 60 2, field order h 62 2)
  end.

Definition readSectionHeader (file : bytes) (class : elf_class) (order : byte_order) (off : Z)
  : option sectionHeader :=
  sh ← read_full file off (sectionHeaderSize class);
  match class with
  | ELFCLASS32 =>
      Some (MkSectionHeader (field order sh 8 4) (field order sh 16 4) (field order sh 20 4) (field order sh 24 4))
  | ELFCLASS64 =>
      Some (MkSectionHeader (field order sh 8 8) (s64 (field order sh 24 8)) (field order sh 32 8) (field order sh 40 4))
  end.

Definition compressedSize (file : bytes) (class : elf_class) (order : byte_order) (off : Z) : option Z :=
  if off <? 0 then None
  else
    ch ← read_full file off (compressionHeaderSize class);
    match class with
    | ELFCLASS32 => Some (field order ch 4 4)
    | ELFCLASS64 => Some (field order ch 8 8)
    end.

Definition MaxInt64 : Z := 2 ^ 63 - 1.

(** With a zero [e_shnum] the number of sections, and an index that does not fit, are in the
    first header. *)
Definition extended_index (first : option sectionHeader) (shnum shstrndx : Z) : option (Z * Z) :=
  if shnum =? 0 then
    sh ← first;
    Some (sh_size sh, if shstrndx =? SHN_XINDEX then sh_link sh else shstrndx)
  else Some (shnum, shstrndx).

Definition sectionNameTableHeader (file : bytes) (class : elf_class) (order : byte_order) : option sectionHeader :=
  '(shoff, shentsize, shnum, shstrndx) ← fileHeader file class order;
  if (shoff <=? 0) || (shentsize <? Z.of_nat (sectionHeaderSize class)) then None
  else
    '(shnum, shstrndx) ← extended_index (readSectionHeader file class order shoff) shnum shstrndx;
    if (shstrndx =? 0) || (shnum <=? shstrndx) then None
    else if MaxInt64 / shentsize <? shstrndx then None
    else
      let off := s64 (shoff + s64 (shstrndx * shentsize)) in
      if off <? 0 then None else readSectionHeader file class order off.

Definition CheckSectionNameTable (file : bytes) : go_error :=
  match identify file with
  | None => None
  | Some (class, order) =>
      match sectionNameTableHeader file class order with
      | None => None
      | Some sh =>
          if Z.land (sh_flags sh) SHF_COMPRESSED =? 0 then None
          else match compressedSize file class order (sh_offset sh) with
               | None => None
               | Some declared =>
                   if maxDeclaredSectionSize <? declared then Some ErrDeclaredSizeExceeded else None
               end
      end
  end.

(** ** The parsed file *)

Record elf_section := MkSection {
  s_Name : string;
  s_Type : Z;
  s_Flags : Z;
  s_Size : Z;
  s_Link : Z;
  s_Head : bytes;  (** the bytes a read of twelve at the start gives *)
}.

Record elf_prog := MkProg {
  p_Type : Z;
  p_Filesz : Z;
  p_Data : option bytes;  (** the bytes of the segment, when they can be read *)
}.

Record elf_file := MkElfFile {
  f_Class : elf_class;
  f_ByteOrder : byte_order;
  f_Type : Z;
  f_Progs : list elf_prog;
  f_Sections : list elf_section;
}.

Definition legacyZlibHeaderSize : nat := 12.
Definition sectionsReadByName : list string :=
  [".symtab"; ".data"; ".text"; ".gopclntab"; ".note.package"; ".modinfo"].

Definition chdrDeclaredSize (s : elf_section) : option Z :=
  if negb (Z.land (s_Flags s) SHF_ALLOC =? 0) then None else Some (s_Size s).

Definition zdebugDeclaredSize (s : elf_section) : option Z :=
  match CutPrefix (s_Name s) ".zdebug" with
  | None => None
  | Some _ =>
      if (length (s_Head s) =? legacyZlibHeaderSize)%nat && bool_decide (take 4 (s_Head s) = bytes_of_string "ZLIB")
      then Some (le_val (rev (drop 4 (s_Head s)))) else None
  end.

Definition declaredSectionSize (s : elf_section) : option Z :=
  if s_Type s =? SHT_NOBITS then None
  else if negb (Z.land (s_Flags s) SHF_COMPRESSED =? 0) then chdrDeclaredSize s
  else zdebugDeclaredSize s.

(** [mark]. *)
Definition mark (n : nat) (i : Z) (reach : gset nat) : gset nat :=
  if (0 <=? i) && (i <? Z.of_nat n) then {[ Z.to_nat i ]} ∪ reach else reach.

Definition mark_section (n : nat) (i : nat) (s : elf_section) (reach : gset nat) : gset nat :=
  let reach :=
    if (s_Type s =? SHT_SYMTAB) || (s_Type s =? SHT_DYNSYM) || (s_Type s =? SHT_DYNAMIC)
    then mark n (s_Link s) (mark n (Z.of_nat i) reach)
    else if (s_Type s =? SHT_GNU_VERSYM) || (s_Type s =? SHT_GNU_VERDEF) || (s_Type s =? SHT_GNU_VERNEED)
    then mark n (Z.of_nat i) reach
    else reach in
  if bool_decide (s_Name s ∈ sectionsReadByName) then mark n (Z.of_nat i) reach else reach.

Fixpoint mark_sections (n : nat) (i : nat) (l : list elf_section) (reach : gset nat) : gset nat :=
  match l with
  | [] => reach
  | s :: l' => mark_sections n (S i) l' (mark_section n i s reach)
  end.

Definition reachableSections (f : elf_file) : gset nat :=
  mark_sections (length (f_Sections f)) 0 (f_Sections f) ∅.

Definition section_over (f : elf_file) (i : nat) : bool :=
  match f_Sections f !! i with
  | Some s =>
      match declaredSectionSize s with
      | Some declared => maxDeclaredSectionSize <? declared
      | None => false
      end
  | None => false
  end.

(** The loop over the reachable sections, in any order, stops at one that is too large. *)
Definition checkReachableSections (f : elf_file) : go_error :=
  if existsb (section_over f) (elements (reachableSections f)) then Some ErrDeclaredSizeExceeded else None.

Section parser.
  Context (elf_NewFile : bytes → go_result elf_file).

Definition NewFile (file : bytes) : go_result elf_file :=
  match CheckSectionNameTable file with
  | Some e => Err e
  | None =>
      match elf_NewFile file with
      | Ok f => match checkReachableSections f with Some e => Err e | None => Ok f end
      | r => r
      end
  end.

Definition CheckAllSections (file : bytes) : go_error :=
  match identify file with
  | None => None
  | Some _ =>
      match CheckSectionNameTable file with
      | Some e => Some e
      | None =>
          match elf_NewFile file with
          | Ok f => checkReachableSections f
          | _ => None
          end
      end
  end.

(** ** The kind of a file: [classify.go] *)

Definition KindProgram : string := "program".
Definition KindLibrary : string := "library".
Definition KindScript : string := "script".
Definition KindUnknown : string := "unknown".

Definition maxDynamicSize : Z := 65536.

Definition entry_size (class : elf_class) : nat := match class with ELFCLASS32 => 8 | ELFCLASS64 => 16 end.

(** [int32] of an unsigned value. *)
Definition s32 (x : Z) : Z := if x <? 2 ^ 31 then x else x - 2 ^ 32.

(** One entry: its tag, signed, and its value. *)
Definition decode_entry (class : elf_class) (order : byte_order) (bs : bytes) : Z * Z :=
  match class with
  | ELFCLASS32 => (s32 (field order bs 0 4), field order bs 4 4)
  | ELFCLASS64 => (s64 (field order bs 0 8), field order bs 8 8)
  end.

Fixpoint decode_entries (class : elf_class) (order : byte_order) (count : nat) (data : bytes) : list (Z * Z) :=
  match count with
  | O => []
  | S count' =>
      decode_entry class order (take (entry_size class) data) ::
      decode_entries class order count' (drop (entry_size class) data)
  end.

Definition readDynamic (f : elf_file) (p : elf_prog) : option (list (Z * Z)) :=
  let entrySize := entry_size (f_Class f) in
  if maxDynamicSize <? p_Filesz p then None
  else
    let size := Z.to_nat (p_Filesz p) in
    if negb (size mod entrySize =? 0)%nat then None
    else
      data ← p_Data p;
      if (length data <? size)%nat then None
      else Some (decode_entries (f_Class f) (f_ByteOrder f) (size / entrySize) (take size data)).

(** The loop over the entries. *)
Fixpoint pie_loop (entries : list (Z * Z)) (flags1 : Z) (found : bool) : option bool :=
  match entries with
  | [] => None
  | (tag, val) :: entries' =>
      if tag =? DT_NULL then Some (negb (Z.land flags1 DF_1_PIE =? 0))
      else if tag =? DT_FLAGS_1 then (if found then None else pie_loop entries' val true)
      else pie_loop entries' flags1 found
  end.

Definition isPIE (f : elf_file) : option bool :=
  match find (λ p, p_Type p =? PT_DYNAMIC) (f_Progs f) with
  | None => Some false
  | Some p =>
      match readDynamic f p with
      | None => None
      | Some entries => pie_loop entries 0 false
      end
  end.

(** A panic of the parser is recovered. *)
Definition classifyELF (file : bytes) : string :=
  match NewFile file with
  | Ok f =>
      if (f_Type f =? ET_NONE) || (f_Type f =? ET_REL) || (f_Type f =? ET_CORE) then KindUnknown
      else if negb (f_Type f =? ET_DYN) then KindProgram
      else if existsb (λ p, p_Type p =? PT_INTERP) (f_Progs f) then KindProgram
      else match isPIE f with
           | None | Some true => KindProgram
           | Some false => KindLibrary
           end
  | _ => KindProgram
  end.

(** [readerAt] says that the reader gives random access.  The file is one that can be read. *)
Definition classify (readerAt : bool) (file : bytes) : string :=
  let head := take 4 file in
  if bool_decide (take 2 head = shebang) then KindScript
  else if negb (bool_decide (head = ELFMAG)) then KindUnknown
  else if negb readerAt then KindProgram
  else classifyELF file.
End parser.

(** ** The offsets of the section name table *)

(** The same with integers of any size and the fields of the file as they are. *)
Definition exact_fileHeader (file : bytes) (class : elf_class) (order : byte_order) : option (Z * Z * Z * Z) :=
  match class with
  | ELFCLASS32 =>
      h ← read_full file 0 52;
      Some (field order h 32 4, field order h 46 2, field order h 48 2, field order h 50 2)
  | ELFCLASS64 =>
      h ← read_full file 0 64;
      Some (field order h 40 8, field order h 58 2, field order h 60 2, field order h 62 2)
  end.

Definition exact_SectionHeader (file : bytes) (class : elf_class) (order : byte_order) (off : Z)
  : option sectionHeader :=
  sh ← read_full file off (sectionHeaderSize class);
  match class with
  | ELFCLASS32 =>
      Some (MkSectionHeader (field order sh 8 4) (field order sh 16 4) (field order sh 20 4) (field order sh 24 4))
  | ELFCLASS64 =>
      Some (MkSectionHeader (field order sh 8 8) (field order sh 24 8) (field order sh 32 8) (field order sh 40 4))
  end.

(** The header of the name table is entry [shstrndx] of the section table. *)
Definition exact_NameTable (file : bytes) (class : elf_class) (order : byte_order) : option sectionHeader :=
  '(shoff, shentsize, shnum, shstrndx) ← exact_fileHeader file class order;
  if (shoff =? 0) || (shentsize <? Z.of_nat (sectionHeaderSize class)) then None
  else
    '(shnum, shstrndx) ← extended_index (exact_SectionHeader file class order shoff) shnum shstrndx;
    if (shstrndx =? 0) || (shnum <=? shstrndx) then None
    else exact_SectionHeader file class order (shoff + shstrndx * shentsize).

(** The decompressed size the name table of a file declares, if it is compressed. *)
Definition name_table_size (file : bytes) : option Z :=
  '(class, order) ← identify file;
  sh ← exact_NameTable file class order;
  if Z.land (sh_flags sh) SHF_COMPRESSED =? 0 then None
  else
    ch ← read_full file (sh_offset sh) (compressionHeaderSize class);
    Some (match class with ELFCLASS32 => field order ch 4 4 | ELFCLASS64 => field order ch 8 8 end).

Section exact.
  Context (file : bytes) (Hlen : Z.of_nat (length file) < 2 ^ 63) (Hbytes : Forall is_byte file).

Lemma read_full_far off n : 2 ^ 63 <= off → read_full file off n = None.
Proof.
  intros H. unfold read_full.
  by replace ((0 <=? off) && (off + Z.of_nat n <=? Z.of_nat (length file))) with false by lia.
Qed.

Lemma read_full_neg off n : off < 0 → read_full file off n = None.
Proof.
  intros H. unfold read_full. by replace (0 <=? off) with false by lia.
Qed.

Lemma read_full_bytes off n bs : read_full file off n = Some bs → Forall is_byte bs.
Proof.
  unfold read_full. destruct (_ && _); [|done]. intros [= <-]. by apply Forall_take, Forall_drop.
Qed.

Lemma field_range order bs off n : Forall is_byte bs → 0 <= field order bs off n < 2 ^ (8 * Z.of_nat n).
Proof.
  intros Hb. unfold field, decode.
  assert (Forall is_byte (take n (drop off bs))) as Ht by by apply Forall_take, Forall_drop.
  assert (length (take n (drop off bs)) <= n)%nat as Hl by (rewrite length_take; lia).
  assert (2 ^ (8 * Z.of_nat (length (take n (drop off bs)))) <= 2 ^ (8 * Z.of_nat n)) as Hp by (apply Z.pow_le_mono_r; lia).
  destruct order; [pose proof (le_val_range _ Ht); lia|].
  assert (Forall is_byte (rev (take n (drop off bs)))) as Hr by by apply Forall_rev.
  pose proof (le_val_range _ Hr) as H. rewrite length_rev in H. lia.
Qed.

(** The signed reading of an unsigned 64-bit value. *)
Lemma s64_cases x : 0 <= x < 2 ^ 64 → s64 x = x ∧ x < 2 ^ 63 ∨ s64 x < 0 ∧ 2 ^ 63 <= x.
Proof.
  intros H. unfold s64. destruct (Z.lt_ge_cases x (2 ^ 63)) as [Hx|Hx].
  - left. rewrite Z.mod_small by lia. lia.
  - right. replace ((x + 2 ^ 63) mod 2 ^ 64) with (x - 2 ^ 63); [lia|].
    apply Z.mod_unique with 1; lia.
Qed.

(** A header read at an offset: the fields agree up to the sign of the offset of the
    section, which a read of its contents rejects. *)
Definition same_header (sh sh' : sectionHeader) : Prop :=
  sh_flags sh = sh_flags sh' ∧ sh_size sh = sh_size sh' ∧ sh_link sh = sh_link sh' ∧
  0 <= sh_size sh' ∧ 0 <= sh_link sh' ∧
  (sh_offset sh = sh_offset sh' ∧ 0 <= sh_offset sh' ∨ sh_offset sh < 0 ∧ 2 ^ 63 <= sh_offset sh').

Definition same_result (r r' : option sectionHeader) : Prop :=
  match r, r' with
  | Some sh, Some sh' => same_header sh sh'
  | None, None => True
  | _, _ => False
  end.

Lemma readSectionHeader_exact class order off :
  same_result (readSectionHeader file class order off) (exact_SectionHeader file class order off).
Proof.
  unfold readSectionHeader, exact_SectionHeader, mbind, option_bind.
  destruct (read_full file off (sectionHeaderSize class)) as [sh|] eqn:Hr; [|done].
  apply read_full_bytes in Hr. unfold same_result, same_header.
  destruct class; cbn [sh_flags sh_offset sh_size sh_link]; repeat split; try apply (field_range order sh _ _ Hr).
  - left. split; [done|apply (field_range order sh 16 4 Hr)].
  - pose proof (field_range order sh 24 8 Hr) as Ho. destruct (s64_cases _ Ho) as [[? ?]|[? ?]]; [left|right]; lia.
Qed.

(** An offset beyond the largest signed value. *)
Lemma exact_far class order off : 2 ^ 63 <= off → exact_SectionHeader file class order off = None.
Proof. intros H. unfold exact_SectionHeader. by rewrite read_full_far. Qed.

(** The overflow checks on the offset of the header of the name table: the 64-bit computation
    gives the exact offset or rejects one that is beyond the end. *)
Lemma name_table_offset class order shoff shentsize shstrndx :
  0 < shoff < 2 ^ 63 → 0 < shentsize < 2 ^ 16 → 0 <= shstrndx →
  same_result
    (if MaxInt64 / shentsize <? shstrndx then None
     else let off := s64 (shoff + s64 (shstrndx * shentsize)) in
          if off <? 0 then None else readSectionHeader file class order off)
    (exact_SectionHeader file class order (shoff + shstrndx * shentsize)).
Proof.
  intros Hs He Hi. unfold MaxInt64. destruct (Z.ltb_spec ((2 ^ 63 - 1) / shentsize) shstrndx) as [Hlt|Hle].
  - rewrite exact_far; [done|].
    pose proof (Z.mul_succ_div_gt (2 ^ 63 - 1) shentsize ltac:(lia)). nia.
  - assert (0 <= shstrndx * shentsize <= 2 ^ 63 - 1) as Hm.
    { pose proof (Z.mul_div_le (2 ^ 63 - 1) shentsize ltac:(lia)). nia. }
    set (m := shstrndx * shentsize) in *.
    destruct (s64_cases m ltac:(lia)) as [[-> _]|[_ ?]]; [|lia].
    cbv zeta. destruct (s64_cases (shoff + m) ltac:(lia)) as [[-> Hlt]|[Hneg Hge]].
    + replace (shoff + m <? 0) with false by lia. apply readSectionHeader_exact.
    + replace (s64 (shoff + m) <? 0) with true by lia. by rewrite exact_far.
Qed.

Lemma fileHeader_exact class order :
  match fileHeader file class order, exact_fileHeader file class order with
  | Some (shoff, a, b, c), Some (shoff', a', b', c') =>
      a = a' ∧ b = b' ∧ c = c' ∧ 0 <= a' < 2 ^ 16 ∧ 0 <= b' ∧ 0 <= c' ∧
      (shoff = shoff' ∧ 0 <= shoff' < 2 ^ 63 ∨ shoff < 0 ∧ 2 ^ 63 <= shoff')
  | None, None => True
  | _, _ => False
  end.
Proof.
  unfold fileHeader, exact_fileHeader, mbind, option_bind. destruct class.
  - destruct (read_full file 0 52) as [h|] eqn:Hr; [|done]. apply read_full_bytes in Hr.
    pose proof (field_range order h 32 4 Hr). pose proof (field_range order h 46 2 Hr).
    pose proof (field_range order h 48 2 Hr). pose proof (field_range order h 50 2 Hr). lia.
  - destruct (read_full file 0 64) as [h|] eqn:Hr; [|done]. apply read_full_bytes in Hr.
    pose proof (field_range order h 40 8 Hr) as Ho. pose proof (field_range order h 58 2 Hr).
    pose proof (field_range order h 60 2 Hr). pose proof (field_range order h 62 2 Hr).
    destruct (s64_cases _ Ho) as [[? ?]|[? ?]]; lia.
Qed.

(** The number of sections and the index of the name table, from the first header. *)
Lemma extended_exact class order shoff shnum shstrndx :
  0 <= shstrndx →
  let r := extended_index (exact_SectionHeader file class order shoff) shnum shstrndx in
  extended_index (readSectionHeader file class order shoff) shnum shstrndx = r ∧
  ∀ n i, r = Some (n, i) → 0 <= i.
Proof.
  intros Hi. unfold extended_index. destruct (shnum =? 0); [|by split; [|intros ?? [= _ <-]]].
  pose proof (readSectionHeader_exact class order shoff) as H.
  destruct (readSectionHeader file class order shoff) as [sh|], (exact_SectionHeader file class order shoff) as [sh'|];
    try done. destruct H as (_ & Hsz & Hlk & _ & Hlk0 & _). cbn. rewrite Hsz, Hlk. split; [done|].
  intros n i [= _ <-]. by destruct (shstrndx =? SHN_XINDEX).
Qed.

Lemma sectionNameTableHeader_exact class order :
  same_result (sectionNameTableHeader file class order) (exact_NameTable file class order).
Proof.
  unfold sectionNameTableHeader, exact_NameTable. pose proof (fileHeader_exact class order) as Hh.
  destruct (fileHeader file class order) as [[[[shoff a] b] c]|], (exact_fileHeader file class order) as [[[[shoff' a'] b'] c']|];
    try done. destruct Hh as (-> & -> & -> & Ha & Hb & Hc & Hoff).
  cbn [mbind option_bind]. destruct Hoff as [[-> Hoff]|[Hneg Hfar]].
  - destruct (shoff' =? 0) eqn:H0; [by replace (shoff' <=? 0) with true by lia|].
    replace (shoff' <=? 0) with false by lia. cbn [orb].
    destruct (a' <? Z.of_nat (sectionHeaderSize class)) eqn:Hsz; [done|].
    destruct (extended_exact class order shoff' b' c' Hc) as [-> Hi].
    destruct (extended_index _ b' c') as [[n i]|]; [|done]. cbn [mbind option_bind].
    destruct ((i =? 0) || (n <=? i)); [done|].
    apply name_table_offset; [lia| |by eapply Hi]. destruct class; cbn in Hsz; lia.
  - replace (shoff <=? 0) with true by lia. cbn [orb]. replace (shoff' =? 0) with false by lia. cbn [orb].
    destruct (a' <? Z.of_nat (sectionHeaderSize class)); [done|].
    unfold extended_index. rewrite (exact_far class order shoff' Hfar). destruct (b' =? 0); [done|]. cbn [mbind option_bind].
    destruct ((c' =? 0) || (b' <=? c')); [done|]. rewrite exact_far; [done|nia].
Qed.

(** C23: the guard of the ELF parser computes with 64-bit integers as with integers of any size.
    For every file, whatever its headers claim, [CheckSectionNameTable] refuses it exactly when
    the section name table, located by the exact offset [shoff + shstrndx * shentsize] of its
    header, is compressed and declares more than 128 MiB: no offset wraps around to another
    header. *)
Theorem CheckSectionNameTable_exact :
  CheckSectionNameTable file = Some ErrDeclaredSizeExceeded ↔
  ∃ declared, name_table_size file = Some declared ∧ maxDeclaredSectionSize < declared.
Proof.
  unfold CheckSectionNameTable, name_table_size. destruct (identify file) as [[class order]|]; [|split; [done|by intros (? & ? & _)]].
  cbn [mbind option_bind]. pose proof (sectionNameTableHeader_exact class order) as He.
  destruct (sectionNameTableHeader file class order) as [sh|], (exact_NameTable file class order) as [sh'|]; try done;
    [|split; [done|by intros (? & ? & _)]].
  destruct He as (-> & _ & _ & _ & _ & Hoff). cbn [mbind option_bind]. destruct (Z.land (sh_flags sh') SHF_COMPRESSED =? 0);
    [split; [done|by intros (? & ? & _)]|].
  unfold compressedSize. destruct Hoff as [[-> H0]|[Hneg Hfar]].
  - replace (sh_offset sh' <? 0) with false by lia.
    destruct (read_full file (sh_offset sh') (compressionHeaderSize class)) as [ch|]; cbn [mbind option_bind];
      [|split; [done|by intros (? & ? & _)]].
    destruct class;
      match goal with |- context [maxDeclaredSectionSize <? ?d] => destruct (Z.ltb_spec maxDeclaredSectionSize d) end;
      (split; [try done; intros _; by eexists|intros (d & [= <-] & ?); done || lia]).
  - replace (sh_offset sh <? 0) with true by lia. rewrite read_full_far by done.
    split; [done|by intros (? & ? & _)].
Qed.
End exact.

(** ** The sections the parser may decompress *)

(** Section [i] is one that may be read: by its name, by its type, or as the string table of a
    symbol table or of the dynamic section. *)
Definition may_read (f : elf_file) (i : nat) (s : elf_section) : Prop :=
  s_Name s ∈ sectionsReadByName ∨
  s_Type s ∈ [SHT_SYMTAB; SHT_DYNSYM; SHT_DYNAMIC; SHT_GNU_VERSYM; SHT_GNU_VERDEF; SHT_GNU_VERNEED] ∨
  ∃ j s', f_Sections f !! j = Some s' ∧ s_Type s' ∈ [SHT_SYMTAB; SHT_DYNSYM; SHT_DYNAMIC] ∧ s_Link s' = Z.of_nat i.

(** On a file of a known class that the parser accepts, the check without a parse and the one of
    [NewFile] agree. *)
Lemma CheckAllSections_NewFile elf_NewFile file f :
  is_Some (identify file) → elf_NewFile file = Ok f →
  CheckAllSections elf_NewFile file = None ↔ NewFile elf_NewFile file = Ok f.
Proof.
  intros [cl Hid] Hf. unfold CheckAllSections, NewFile. rewrite Hid, Hf.
  destruct (CheckSectionNameTable file); [done|]. by destruct (checkReachableSections f).
Qed.

Lemma mark_subseteq n i reach : reach ⊆ mark n i reach.
Proof. unfold mark. destruct (_ && _); set_solver. Qed.

Lemma mark_nat n i reach : (i < n)%nat → i ∈ mark n (Z.of_nat i) reach.
Proof.
  intros H. unfold mark. replace ((0 <=? Z.of_nat i) && (Z.of_nat i <? Z.of_nat n)) with true by lia.
  rewrite Nat2Z.id. set_solver.
Qed.

Lemma mark_section_subseteq n i s reach : reach ⊆ mark_section n i s reach.
Proof.
  unfold mark_section. repeat case_match; repeat (etrans; [|apply mark_subseteq]); done.
Qed.

Lemma mark_sections_subseteq n i l reach : reach ⊆ mark_sections n i l reach.
Proof.
  revert i reach. induction l as [|s l IH]; intros i reach; [done|]. cbn [mark_sections].
  etrans; [apply mark_section_subseteq|apply IH].
Qed.

Lemma mark_section_self n i s reach :
  (i < n)%nat →
  s_Name s ∈ sectionsReadByName ∨
  s_Type s ∈ [SHT_SYMTAB; SHT_DYNSYM; SHT_DYNAMIC; SHT_GNU_VERSYM; SHT_GNU_VERDEF; SHT_GNU_VERNEED] →
  i ∈ mark_section n i s reach.
Proof.
  intros Hi H. unfold mark_section. destruct (bool_decide (s_Name s ∈ sectionsReadByName)) eqn:Hn; [by apply mark_nat|].
  apply bool_decide_eq_false in Hn. destruct H as [?|H]; [done|].
  destruct ((s_Type s =? SHT_SYMTAB) || (s_Type s =? SHT_DYNSYM) || (s_Type s =? SHT_DYNAMIC)) eqn:Ht.
  - eapply (mark_subseteq n (s_Link s)). by apply mark_nat.
  - rewrite !elem_of_cons in H.
    replace ((s_Type s =? SHT_GNU_VERSYM) || (s_Type s =? SHT_GNU_VERDEF) || (s_Type s =? SHT_GNU_VERNEED)) with true;
      [by apply mark_nat|]. rewrite !orb_false_iff, !Z.eqb_neq in Ht. symmetry.
    rewrite !orb_true_iff, !Z.eqb_eq. set_solver.
Qed.

Lemma mark_section_link n i s j reach :
  (j < n)%nat → s_Type s ∈ [SHT_SYMTAB; SHT_DYNSYM; SHT_DYNAMIC] → s_Link s = Z.of_nat j →
  j ∈ mark_section n i s reach.
Proof.
  intros Hj Ht Hl. unfold mark_section.
  replace ((s_Type s =? SHT_SYMTAB) || (s_Type s =? SHT_DYNSYM) || (s_Type s =? SHT_DYNAMIC)) with true.
  - rewrite Hl. case_match; [apply mark_subseteq|]; by apply mark_nat.
  - symmetry. rewrite !orb_true_iff, !Z.eqb_eq. set_solver.
Qed.

Lemma mark_sections_elem n base l reach k i s :
  l !! k = Some s → (∀ r, i ∈ mark_section n (base + k) s r) → i ∈ mark_sections n base l reach.
Proof.
  revert base reach k. induction l as [|s' l IH]; intros base reach k Hk Hm; [done|]. cbn [mark_sections].
  destruct k as [|k]; [injection Hk as ->|].
  - apply mark_sections_subseteq. rewrite <- (Nat.add_0_r base). apply Hm.
  - eapply (IH (S base) _ k); [done|]. intros r. by replace (S base + k)%nat with (base + S k)%nat by lia.
Qed.

Lemma may_read_reachable f i s : f_Sections f !! i = Some s → may_read f i s → i ∈ reachableSections f.
Proof.
  intros Hi Hr. pose proof (lookup_lt_Some _ _ _ Hi) as Hlt. unfold reachableSections.
  destruct Hr as [Hn|[Ht|(j & s' & Hj & Ht & Hl)]].
  - eapply (mark_sections_elem _ 0 _ _ i); [done|]. intros r. apply mark_section_self; [done|by left].
  - eapply (mark_sections_elem _ 0 _ _ i); [done|]. intros r. apply mark_section_self; [done|by right].
  - eapply (mark_sections_elem _ 0 _ _ j); [done|]. intros r. by apply mark_section_link.
Qed.

Section parsed.
  Context (elf_NewFile : bytes → go_result elf_file).

(** C22: no decompression bomb gets through.  Whatever the parser returns, a file that
    [NewFile] accepts declares at most 128 MiB for its section name table and for each section
    that is read by name, by type or as a linked string table. *)
Theorem NewFile_bounds file f :
  NewFile elf_NewFile file = Ok f →
  CheckSectionNameTable file = None ∧
  ∀ i s declared, f_Sections f !! i = Some s → may_read f i s →
    declaredSectionSize s = Some declared → declared <= maxDeclaredSectionSize.
Proof.
  unfold NewFile, checkReachableSections. destruct (CheckSectionNameTable file); [done|].
  destruct (elf_NewFile file) as [f'|e|e]; [|done..].
  destruct (existsb (section_over f') (elements (reachableSections f'))) eqn:He; [done|]. intros [= <-].
  split; [done|]. intros i s declared Hi Hr Hd. apply Z.nlt_ge. intros Hgt.
  assert (existsb (section_over f') (elements (reachableSections f')) = true) as Ht; [|congruence].
  apply existsb_exists. exists i. split.
  - apply list_elem_of_In, elem_of_elements. by eapply may_read_reachable.
  - unfold section_over. rewrite Hi, Hd. by apply Z.ltb_lt.
Qed.

(** ** Libraries *)

(** The entries of a dynamic segment say that the file is not a position independent program:
    they end, and at most one entry before the end has flags, without that one. *)
Definition not_pie (entries : list (Z * Z)) : Prop :=
  ∃ before rest val, entries = before ++ (DT_NULL, val) :: rest ∧
    Forall (λ e, e.1 ≠ DT_NULL) before ∧
    (filter (λ e, e.1 = DT_FLAGS_1) before = [] ∨
     ∃ flags, filter (λ e, e.1 = DT_FLAGS_1) before = [(DT_FLAGS_1, flags)] ∧ Z.land flags DF_1_PIE = 0).

Lemma pie_loop_spec entries flags1 found b :
  pie_loop entries flags1 found = Some b ↔
  ∃ before rest val, entries = before ++ (DT_NULL, val) :: rest ∧ Forall (λ e, e.1 ≠ DT_NULL) before ∧
    (filter (λ e, e.1 = DT_FLAGS_1) before = [] ∧ b = negb (Z.land flags1 DF_1_PIE =? 0) ∨
     found = false ∧ ∃ flags, filter (λ e, e.1 = DT_FLAGS_1) before = [(DT_FLAGS_1, flags)] ∧
       b = negb (Z.land flags DF_1_PIE =? 0)).
Proof.
  revert flags1 found. induction entries as [|[tag val] entries IH]; intros flags1 found; cbn [pie_loop].
  { split; [done|]. intros (before & rest & v & He & _). by destruct before. }
  destruct (Z.eqb_spec tag DT_NULL) as [->|Hn].
  { split.
    - intros [= <-]. exists [], entries, val. split_and!; [done|constructor|by left].
    - intros (before & rest & v & He & Hb & Hf). destruct before as [|e before].
      + destruct Hf as [[_ ->]|(_ & ? & ? & _)]; done.
      + injection He as <- _. by apply Forall_cons in Hb as [? _]. }
  assert (∀ P : list (Z * Z) → Prop,
    (∃ before rest v, (tag, val) :: entries = before ++ (DT_NULL, v) :: rest ∧ Forall (λ e, e.1 ≠ DT_NULL) before ∧ P before) ↔
    ∃ before rest v, entries = before ++ (DT_NULL, v) :: rest ∧ Forall (λ e, e.1 ≠ DT_NULL) before ∧ P ((tag, val) :: before)) as Hcons.
  { intros P. split.
    - intros ([|e before] & rest & v & He & Hb & HP); [by injection He|]. injection He as <- ->.
      apply Forall_cons in Hb as [_ Hb]. by eexists _, _, _.
    - intros (before & rest & v & -> & Hb & HP). exists ((tag, val) :: before), rest, v. split_and!; [done|by constructor|done]. }
  rewrite Hcons. destruct (Z.eqb_spec tag DT_FLAGS_1) as [->|Hf].
  - assert (∀ l : list (Z * Z), filter (λ e, e.1 = DT_FLAGS_1) ((DT_FLAGS_1, val) :: l) =
      (DT_FLAGS_1, val) :: filter (λ e, e.1 = DT_FLAGS_1) l) as Hc by (intros l; by rewrite filter_cons_True).
    setoid_rewrite Hc. destruct found.
    + split; [done|]. by intros (? & ? & ? & _ & _ & [[? _]|[? _]]).
    + rewrite IH. split; intros (before & rest & v & He & Hb & HP); exists before, rest, v; (split_and!; [done..|]).
      * destruct HP as [[-> ->]|[? _]]; [|done]. right. split; [done|]. by exists val.
      * destruct HP as [[? _]|(_ & flags & [= -> ->] & ->)]; [done|]. left. done.
  - assert (∀ l : list (Z * Z), filter (λ e, e.1 = DT_FLAGS_1) ((tag, val) :: l) =
      filter (λ e, e.1 = DT_FLAGS_1) l) as Hc by (intros l; by rewrite filter_cons_False).
    setoid_rewrite Hc. apply IH.
Qed.

Lemma pie_loop_false entries : pie_loop entries 0 false = Some false ↔ not_pie entries.
Proof.
  rewrite pie_loop_spec. unfold not_pie. split; intros (before & rest & v & He & Hb & H); exists before, rest, v;
    (split_and!; [done..|]).
  - destruct H as [[? _]|(_ & flags & Hf & Hz)]; [by left|right; exists flags; split; [done|]].
    symmetry in Hz. by apply negb_false_iff, Z.eqb_eq in Hz.
  - destruct H as [?|(flags & Hf & Hz)]; [by left|right; split; [done|]; exists flags; split; [done|]]. by rewrite Hz.
Qed.

(** A file is left out of a policy as a library only on evidence.  Whatever the parser does,
    also when it fails or panics, [classify] calls a file a shared library exactly when it is an
    ELF file that parses, of type [ET_DYN], without interpreter, and without dynamic segment or
    with one that is readable, ends, and does not mark a position independent program. *)
Theorem classify_library_iff file :
  classify elf_NewFile true file = KindLibrary ↔
  take 4 file = ELFMAG ∧ ∃ f, NewFile elf_NewFile file = Ok f ∧ f_Type f = ET_DYN ∧
    (∀ p, p ∈ f_Progs f → p_Type p ≠ PT_INTERP) ∧
    match find (λ p, p_Type p =? PT_DYNAMIC) (f_Progs f) with
    | None => True
    | Some p => ∃ entries, readDynamic f p = Some entries ∧ not_pie entries
    end.
Proof.
  unfold classify. destruct (bool_decide (take 2 (take 4 file) = shebang)) eqn:Hs.
  { apply bool_decide_eq_true in Hs. split; [done|]. intros [Hm _]. by rewrite Hm in Hs. }
  destruct (bool_decide (take 4 file = ELFMAG)) eqn:Hm; [apply bool_decide_eq_true in Hm|apply bool_decide_eq_false in Hm; split; [done|by intros [? _]]].
  cbn [negb]. unfold classifyELF, isPIE.
  destruct (NewFile elf_NewFile file) as [f|e|e]; [|split; [done|by intros (_ & ? & ? & _)]..].
  destruct ((f_Type f =? ET_NONE) || (f_Type f =? ET_REL) || (f_Type f =? ET_CORE)) eqn:Ht.
  { split; [done|]. intros (_ & f' & [= <-] & Hd & _). by rewrite Hd in Ht. }
  destruct (Z.eqb_spec (f_Type f) ET_DYN) as [Hd|Hd]; cbn [negb]; [|split; [done|by intros (_ & f' & [= <-] & ? & _)]].
  assert (existsb (λ p, p_Type p =? PT_INTERP) (f_Progs f) = false ↔ ∀ p, p ∈ f_Progs f → p_Type p ≠ PT_INTERP) as Hi.
  { rewrite <- not_true_iff_false, existsb_exists. setoid_rewrite <- list_elem_of_In. setoid_rewrite Z.eqb_eq. naive_solver. }
  destruct (existsb _ (f_Progs f)).
  { split; [done|]. intros (_ & f' & [= <-] & _ & H & _). by apply Hi in H. }
  destruct (find _ (f_Progs f)) as [p|] eqn:Hf.
  - destruct (readDynamic f p) as [entries|] eqn:Hr.
    + split.
      * destruct (pie_loop entries 0 false) as [[]|] eqn:Hp; [done| |done]. intros _. split; [done|]. exists f.
        split_and!; [done|done|by apply Hi|]. rewrite Hf. exists entries. by rewrite <- pie_loop_false.
      * intros (_ & f' & [= <-] & _ & _ & H). rewrite Hf, Hr in H. destruct H as (? & [= <-] & ->%pie_loop_false). done.
    + split; [done|]. intros (_ & f' & [= <-] & _ & _ & H). rewrite Hf, Hr in H. by destruct H as (? & ? & _).
  - split; [|done]. intros _. split; [done|]. exists f. split_and!; [done|done|by apply Hi|by rewrite Hf].
Qed.
End parsed.

(** ** Instances *)

(** A small ELF file whose section name table declares a terabyte. *)
Definition bomb : bytes :=
  (ELFMAG ++ [2; 1] ++ replicate 34 0) ++ le_bytes 8 64 ++ replicate 10 0 ++ le_bytes 2 64 ++ le_bytes 2 2 ++ le_bytes 2 1 ++
  replicate 64 0 ++
  (replicate 8 0 ++ le_bytes 8 SHF_COMPRESSED ++ replicate 8 0 ++ le_bytes 8 192 ++ replicate 32 0) ++
  (replicate 8 0 ++ le_bytes 8 (2 ^ 40) ++ replicate 8 0).

Lemma CheckSectionNameTable_exact_witness : CheckSectionNameTable bomb = Some ErrDeclaredSizeExceeded.
Proof.
  apply (CheckSectionNameTable_exact bomb).
  - vm_compute. reflexivity.
  - apply (bool_decide_unpack _). vm_compute. exact I.
  - exists (2 ^ 40). split; vm_compute; reflexivity.
Defined.

(** A parser that finds a dynamic segment with flags that mark a program. *)
Definition pie_file : elf_file :=
  MkElfFile ELFCLASS64 LittleEndian ET_DYN
    [MkProg PT_DYNAMIC 32 (Some (le_bytes 8 DT_FLAGS_1 ++ le_bytes 8 DF_1_PIE ++ le_bytes 8 DT_NULL ++ le_bytes 8 0))]
    [MkSection ".symtab" SHT_SYMTAB SHF_COMPRESSED 4096 0 []].

Lemma NewFile_bounds_witness :
  declaredSectionSize (MkSection ".symtab" SHT_SYMTAB SHF_COMPRESSED 4096 0 []) = Some 4096 ∧
  4096 <= maxDeclaredSectionSize.
Proof.
  destruct (NewFile_bounds (λ _, Ok pie_file) ELFMAG pie_file) as [_ Hb]; [vm_compute; reflexivity|].
  split; [reflexivity|]. apply (Hb 0%nat (MkSection ".symtab" SHT_SYMTAB SHF_COMPRESSED 4096 0 []) 4096);
    [reflexivity|left; by left|reflexivity].
Defined.
