(* ===== verification/Wpgen.v ===== *)
(** * The policy generator and the edition of policies

    [src/internal/imagescan/scan.go], [src/internal/wpgen/common.go], [workload.go] and
    [compare.go], [src/internal/policydraft/draft.go]: how [wpgen] drafts a policy from the
    executables of the images of a workload, and how it checks a policy against them.  Also the
    edition of the allowed executables of a policy by the [kubectl] plugin
    ([src/internal/kubectlplugin/policy_exec.go]).  Images, which a library loads, and the
    validation of names are parameters. *)
From Stdlib Require Import Sorting.Sorted.
From S2P Require Import Prelude GoStd CLayout ProgramTypes KernelLayout Kernel StringMaps PolicyValues Names CgroupTracker Events AgentMaps DPath Enforce EndToEnd Resolver ResolverSpec ViolationBuffer Violations PolicyStatus Learning Elf.
Local Open Scope Z_scope.

(** ** Images *)

Inductive file_type := TypeRegular | TypeHardLink | OtherType.

(** A file of a layer, and its entry in the catalog: the permission bits, if it has file
    information, its type and the path that a link names. *)
Record file_ref := MkRef {
  ref_Id : Z;
  RealPath : string;
}.
Record entry := MkEntry {
  en_Perm : option Z;
  en_Type : file_type;
  LinkDestination : string;
}.

(** The result of a lookup through the links of the image. *)
Inductive lookup_result :=
  | Unresolvable
  | LookupError
  | NoReference
  | Resolved (path : string).

(** What the library says of an image: the number of its layers, the regular files and hard
    links of its squashed tree, the entries of the catalog, the squashed tree of the layer that
    added a file (a lookup that does not follow the last link), the contents of a file, with
    whether they can be read at any offset, and lookups through the links. *)
Record image := MkImage {
  im_Layers : nat;
  im_Refs : list file_ref;
  im_Get : file_ref → option entry;
  im_Layer : file_ref → option (string → option file_ref);
  im_Open : file_ref → go_result (bool * bytes);
  im_Lookup : string → lookup_result;
}.

Record Executable := MkExecutable {
  ex_Path : string;
  ex_Kind : string;
}.
#[global] Instance Executable_eq_dec : EqDecision Executable.
Proof. solve_decision. Defined.

Record Result := MkResult {
  res_Executables : list Executable;
  res_Links : gmap string string;
}.

Definition anyExecBit : Z := 73.

(** [strings.Compare(a, b) <= 0]. *)
Definition string_le (a b : string) : bool := String.leb a b.

(** [slices.CompactFunc]: an element equal to the one before it is dropped. *)
Fixpoint compact_from {A} (same : A → A → bool) (x : A) (l : list A) : list A :=
  match l with
  | [] => []
  | y :: l' => if same y x then compact_from same y l' else y :: compact_from same y l'
  end.
Definition CompactFunc {A} (same : A → A → bool) (l : list A) : list A :=
  match l with [] => [] | x :: l' => x :: compact_from same x l' end.

Definition path_le (a b : Executable) : bool := string_le (ex_Path a) (ex_Path b).
Definition same_path (a b : Executable) : bool := (ex_Path a =? ex_Path b)%string.

Section scan.
  Context (elf_NewFile : bytes → go_result elf_file).

(** The loop over the layers. *)
Fixpoint hard_link_loop (img : image) (layers : nat) (ref : file_ref) (e : entry) : option file_ref :=
  match layers with
  | O => None
  | S layers' =>
      match en_Type e with
      | TypeHardLink =>
          match im_Layer img ref with
          | Some tree =>
              if (LinkDestination e =? "")%string then None
              else
                match tree (Clean ("/" ++ LinkDestination e)) with
                | Some ref' =>
                    match im_Get img ref' with
                    | Some e' => hard_link_loop img layers' ref' e'
                    | None => None
                    end
                | None => None
                end
          | None => None
          end
      | TypeRegular => Some ref
      | OtherType => None
      end
  end.

Definition hardLinkTarget (img : image) (ref : file_ref) (e : entry) : option file_ref :=
  hard_link_loop img (im_Layers img) ref e.

Definition classifyFile (img : image) (ref : file_ref) (e : entry) : go_result string :=
  match hardLinkTarget img ref e with
  | None => Ok KindProgram
  | Some targetRef =>
      match im_Open img targetRef with
      | Ok (readerAt, contents) => Ok (classify elf_NewFile readerAt contents)
      | _ => Err "cannot read"
      end
  end.

(** The files that the loop skips. *)
Definition not_executable (e : entry) : bool :=
  match en_Perm e with Some perm => Z.land perm anyExecBit =? 0 | None => true end.

(** The loop over the files. *)
Fixpoint executable_files (img : image) (refs : list file_ref) : go_result (list Executable) :=
  match refs with
  | [] => Ok []
  | ref :: refs' =>
      match im_Get img ref with
      | Some e =>
          if not_executable e then executable_files img refs'
          else match classifyFile img ref e with
               | Ok kind =>
                   match executable_files img refs' with
                   | Ok l => Ok (MkExecutable (RealPath ref) kind :: l)
                   | r => r
                   end
               | Err e => Err e
               | Panic e => Panic e
               end
      | None => Err "cannot read metadata"
      end
  end.

Definition Executables (img : image) : go_result (list Executable) :=
  match executable_files img (im_Refs img) with
  | Ok executables => Ok (CompactFunc same_path (SortStableFunc path_le executables))
  | r => r
  end.

Fixpoint ResolveLinks (lookup : string → lookup_result) (paths : list string) (links : gmap string string)
  : go_result (gmap string string) :=
  match paths with
  | [] => Ok links
  | p :: paths' =>
      match lookup p with
      | Unresolvable | NoReference => ResolveLinks lookup paths' links
      | LookupError => Err "cannot resolve"
      | Resolved realPath =>
          ResolveLinks lookup paths' (if (realPath =? p)%string then links else <[p := realPath]> links)
      end
  end.

Definition Scan (img : image) (lookup : list string) : go_result Result :=
  match Executables img with
  | Ok executables =>
      match ResolveLinks (im_Lookup img) lookup ∅ with
      | Ok links => Ok (MkResult executables links)
      | Err e => Err e
      | Panic e => Panic e
      end
  | Err e => Err e
  | Panic e => Panic e
  end.

(** ** Scanned images *)

Record scanOptions := MkScanOptions {
  IncludeLibraries : bool;
  IncludeUnknown : bool;
}.

Definition includes (o : scanOptions) (kind : string) : bool :=
  if (kind =? KindLibrary)%string then IncludeLibraries o
  else if (kind =? KindUnknown)%string then IncludeUnknown o
  else true.

Record scannedImage := MkScanned {
  sc_Executables : list string;
  sc_Skipped : gmap string string;
  sc_Links : gmap string string;
}.

(** The loop over the executables of the result. *)
Fixpoint sort_kinds (o : scanOptions) (l : list Executable) (s : scannedImage) : scannedImage :=
  match l with
  | [] => s
  | e :: l' =>
      sort_kinds o l'
        (if includes o (ex_Kind e)
         then MkScanned (sc_Executables s ++ [ex_Path e]) (sc_Skipped s) (sc_Links s)
         else MkScanned (sc_Executables s) (<[ex_Path e := ex_Kind e]> (sc_Skipped s)) (sc_Links s))
  end.

Definition newScannedImage (result : Result) (o : scanOptions) : scannedImage :=
  sort_kinds o (res_Executables result) (MkScanned [] ∅ (res_Links result)).

(** [Load] loads an image. *)
Context (Load : string → go_result image).

Definition scanImage (o : scanOptions) (input : string) (lookup : list string) : go_result scannedImage :=
  match Load input with
  | Ok img =>
      match Scan img lookup with
      | Ok result => Ok (newScannedImage result o)
      | Err e => Err e
      | Panic e => Panic e
      end
  | Err e => Err e
  | Panic e => Panic e
  end.

(** ** Drafting policies *)

Record wl_container := MkWlContainer {
  wc_Name : string;
  wc_Image : string;
  wc_Init : bool;
}.

Record Workload := MkWorkload {
  wl_Kind : string;
  wl_Name : string;
  wl_Namespace : string;
  wl_PodLabels : gmap string string;
  wl_Containers : list wl_container;
}.

Record draftedWorkload := MkDrafted {
  dw_Workload : Workload;
  dw_PolicyName : string;
  dw_LabelPresent : bool;
}.

Definition IsValid (mode : string) : bool := (mode =? "monitor")%string || (mode =? "protect")%string.

(** [policydraft.New]. *)
Definition New (name namespace mode : string) (executablesByContainer : gmap string (list string))
  : go_result WorkloadPolicy :=
  if negb (IsValid mode) then Err "invalid mode"
  else Ok (MkWorkloadPolicy namespace name mode
             ((λ executables, MkRules (bytes_of_string <$> executables) ∅) <$> executablesByContainer)).

(** The namespaces of two workloads that use the same policy name. *)
Definition policyConflict (first second : string) : go_error :=
  if (first =? second)%string then Some "both use the policy in the same namespace"
  else if (first =? "")%string || (second =? "")%string then Some "both use the policy and one has no namespace"
  else None.

Fixpoint first_conflict (others : list string) (owner : string) : go_error :=
  match others with
  | [] => None
  | other :: others' =>
      match policyConflict other owner with
      | Some e => Some e
      | None => first_conflict others' owner
      end
  end.

Context (validatePolicyName : string → go_error).

Definition policy_name (w : Workload) : go_result (string * bool) :=
  match wl_PodLabels w !! PolicyLabelKey with
  | Some name => Ok (name, true)
  | None =>
      match ShortName (wl_Kind w) with
      | Some shortName => Ok ((shortName ++ "-" ++ wl_Name w)%string, false)
      | None => Err "unknown kind"
      end
  end.

(** [owners] are the namespaces of the workloads that use a policy name. *)
Fixpoint draft_loop (workloads : list Workload) (owners : gmap string (list string)) : go_result (list draftedWorkload) :=
  match workloads with
  | [] => Ok []
  | w :: workloads' =>
      match policy_name w with
      | Ok (name, labelPresent) =>
          match validatePolicyName name with
          | Some e => Err e
          | None =>
              let others := default [] (owners !! name) in
              match first_conflict others (wl_Namespace w) with
              | Some e => Err e
              | None =>
                  match draft_loop workloads' (<[name := others ++ [wl_Namespace w]]> owners) with
                  | Ok l => Ok (MkDrafted w name labelPresent :: l)
                  | r => r
                  end
              end
          end
      | Err e => Err e
      | Panic e => Panic e
      end
  end.

Definition draftWorkloads (workloads : list Workload) : go_result (list draftedWorkload) := draft_loop workloads ∅.

(** Each image is scanned once. *)
Fixpoint scan_images (o : scanOptions) (cs : list wl_container) (scanned : gmap string scannedImage)
  : go_result (gmap string scannedImage) :=
  match cs with
  | [] => Ok scanned
  | c :: cs' =>
      match scanned !! wc_Image c with
      | Some _ => scan_images o cs' scanned
      | None =>
          match scanImage o (wc_Image c) [] with
          | Ok s => scan_images o cs' (<[wc_Image c := s]> scanned)
          | Err e => Err e
          | Panic e => Panic e
          end
      end
  end.

(** Every image was scanned, so the lookup finds it. *)
Definition executables_of (scanned : gmap string scannedImage) (cs : list wl_container) : gmap string (list string) :=
  foldl (λ m c, <[wc_Name c := match scanned !! wc_Image c with Some s => sc_Executables s | None => [] end]> m) ∅ cs.

Fixpoint draft_policies (mode : string) (scanned : gmap string scannedImage) (l : list draftedWorkload)
  : go_result (list WorkloadPolicy) :=
  match l with
  | [] => Ok []
  | w :: l' =>
      match New (dw_PolicyName w) (wl_Namespace (dw_Workload w)) mode
              (executables_of scanned (wl_Containers (dw_Workload w))) with
      | Ok policy =>
          match draft_policies mode scanned l' with
          | Ok policies => Ok (policy :: policies)
          | r => r
          end
      | Err e => Err e
      | Panic e => Panic e
      end
  end.

(** [runWorkload] once the workloads are read: the policies that are written.  Of the options that
    are validated first, the mode is the one that the policies depend on. *)
Definition runWorkload (o : scanOptions) (mode : string) (workloads : list Workload)
  : go_result (list WorkloadPolicy) :=
  if negb (IsValid mode) then Err "invalid mode"
  else
    match draftWorkloads workloads with
    | Ok drafted =>
        match scan_images o (concat (map (λ w, wl_Containers (dw_Workload w)) drafted)) ∅ with
        | Ok scanned => draft_policies mode scanned drafted
        | Err e => Err e
        | Panic e => Panic e
        end
    | Err e => Err e
    | Panic e => Panic e
    end.
(** ** Checking a policy *)

(** [slices.BinarySearch]: the loop on the bounds [i] and [j], whose distance [fuel] bounds. *)
Fixpoint search_loop (fuel : nat) (l : list string) (target : string) (i j : nat) : nat :=
  match fuel with
  | O => i
  | S fuel' =>
      if (i <? j)%nat then
        let h := Nat.div2 (i + j) in
        if match l !! h with Some x => negb (string_le target x) | None => false end
        then search_loop fuel' l target (S h) j
        else search_loop fuel' l target i h
      else i
  end.
Definition BinarySearch (l : list string) (target : string) : bool :=
  match l !! search_loop (length l) l target 0 (length l) with
  | Some x => (x =? target)%string
  | None => false
  end.

(** The allowed paths of the containers of a policy; the rules of a container can be nil. *)
Abbreviation allowed_by_container := (gmap string (option (list string))).

Record checkedContainer := MkChecked {
  cc_Container : wl_container;
  cc_Allowed : list string;
}.

Record containerReport := MkReport {
  cr_Container : checkedContainer;
  Stale : list string;
  cr_Links : gmap string string;
  Libraries : list string;
  Unknown : list string;
  cr_Executables : list string;
  NotAllowed : list string;
}.

Record workloadMatch := MkMatch {
  OnlyInPolicy : list string;
  OnlyInWorkload : list string;
}.

Definition allowedPaths (rules : option (list string)) : list string := default [] rules.

Definition imageContainers (policy : allowed_by_container) (imageRef containerName : string)
  : go_result (list checkedContainer) :=
  match (if (containerName =? "")%string
         then match map_to_list policy with [(name, _)] => Some name | _ => None end
         else Some containerName) with
  | None => Err "use --container-name to choose one"
  | Some name =>
      match policy !! name with
      | None => Err "the policy has no container"
      | Some rules => Ok [MkChecked (MkWlContainer name imageRef false) (allowedPaths rules)]
      end
  end.

(** The loop over the containers of the workload. *)
Fixpoint match_loop (policy : allowed_by_container) (cs : list wl_container) : list checkedContainer * list string :=
  match cs with
  | [] => ([], [])
  | c :: cs' =>
      let '(containers, only) := match_loop policy cs' in
      match policy !! wc_Name c with
      | None => (containers, wc_Name c :: only)
      | Some rules => (MkChecked c (allowedPaths rules) :: containers, only)
      end
  end.

Definition matchContainers (policy : allowed_by_container) (w : Workload)
  : go_result (list checkedContainer * workloadMatch) :=
  let '(containers, onlyInWorkload) := match_loop policy (wl_Containers w) in
  let onlyInPolicy := filter (λ name, name ∉ wc_Name <$> wl_Containers w)
                        (SortStableFunc string_le (map_to_list policy).*1) in
  match containers with
  | [] => Err "no container in common"
  | _ => Ok (containers, MkMatch onlyInPolicy onlyInWorkload)
  end.

(** The loop over the allowed paths; [allowed] are those already seen. *)
Fixpoint compare_loop (s : scannedImage) (ps : list string) (allowed : gset string) (r : containerReport)
  : gset string * containerReport :=
  match ps with
  | [] => (allowed, r)
  | p :: ps' =>
      if bool_decide (p ∈ allowed) then compare_loop s ps' allowed r
      else
        compare_loop s ps' ({[p]} ∪ allowed)
          (let '(MkReport c stale links libraries unknown executables notAllowed) := r in
           if BinarySearch (sc_Executables s) p
           then MkReport c stale links libraries unknown (executables ++ [p]) notAllowed
           else if bool_decide (sc_Skipped s !! p = Some KindLibrary)
           then MkReport c stale links (libraries ++ [p]) unknown executables notAllowed
           else if bool_decide (sc_Skipped s !! p = Some KindUnknown)
           then MkReport c stale links libraries (unknown ++ [p]) executables notAllowed
           else MkReport c (stale ++ [p])
                  (match sc_Links s !! p with Some target => <[p := target]> links | None => links end)
                  libraries unknown executables notAllowed)
  end.

Definition compare (c : checkedContainer) (s : scannedImage) : containerReport :=
  let '(allowed, r) := compare_loop s (cc_Allowed c) ∅ (MkReport c [] ∅ [] [] [] []) in
  let sort := SortStableFunc string_le in
  MkReport (MkChecked (cc_Container c) (sort (elements allowed)))
    (sort (Stale r)) (cr_Links r) (sort (Libraries r)) (sort (Unknown r)) (sort (cr_Executables r))
    (filter (λ p, p ∉ allowed) (sc_Executables s)).

(** The images of the containers, in order, and the paths to look up in each. *)
Definition add_lookup (acc : list string * gmap string (list string)) (c : checkedContainer)
  : list string * gmap string (list string) :=
  let '(images, lookup) := acc in
  let image := wc_Image (cc_Container c) in
  (match lookup !! image with None => images ++ [image] | Some _ => images end,
   <[image := default [] (lookup !! image) ++ cc_Allowed c]> lookup).

Fixpoint scan_all (o : scanOptions) (lookup : gmap string (list string)) (images : list string)
  (scanned : gmap string scannedImage) : go_result (gmap string scannedImage) :=
  match images with
  | [] => Ok scanned
  | image :: images' =>
      match scanImage o image (default [] (lookup !! image)) with
      | Ok s => scan_all o lookup images' (<[image := s]> scanned)
      | Err e => Err e
      | Panic e => Panic e
      end
  end.

(** The reports; the image of every container is scanned. *)
Fixpoint reports_of (scanned : gmap string scannedImage) (cs : list checkedContainer)
  : go_result (list containerReport) :=
  match cs with
  | [] => Ok []
  | c :: cs' =>
      match scanned !! wc_Image (cc_Container c) with
      | None => Panic "nil pointer"
      | Some s =>
          match reports_of scanned cs' with
          | Ok reports => Ok (compare c s :: reports)
          | r => r
          end
      end
  end.

Definition checkContainers (o : scanOptions) (containers : list checkedContainer)
  : go_result (list containerReport) :=
  let '(images, lookup) := foldl add_lookup ([], ∅) containers in
  match scan_all o lookup images ∅ with
  | Ok scanned => reports_of scanned containers
  | Err e => Err e
  | Panic e => Panic e
  end.

(** [checkResult.stale] and [checkResult.skipped]. *)
Definition stale (reports : list containerReport) : nat := list_sum (length ∘ Stale <$> reports).
Definition skipped (reports : list containerReport) : nat :=
  list_sum ((λ r, length (Libraries r) + length (Unknown r))%nat <$> reports).

(** [printVerdict]: the error that it returns. *)
Definition printVerdict (reports : list containerReport) (m : workloadMatch) : go_error :=
  if (0 <? stale reports)%nat || (0 <? length (OnlyInWorkload m))%nat then Some "problems" else None.

Inductive check_source :=
  | CheckImage (imageRef containerName : string)
  | CheckWorkload (workloads : list Workload).

Definition workloadContainers (policy : allowed_by_container) (workloads : list Workload)
  : go_result (list checkedContainer * workloadMatch) :=
  match workloads with
  | [w] => matchContainers policy w
  | _ => Err "must have exactly one workload"
  end.

(** [runCheck] once the files are read. *)
Definition runCheck (o : scanOptions) (policy : allowed_by_container) (src : check_source)
  : go_result (list containerReport) :=
  match (match src with
         | CheckImage imageRef containerName =>
             match imageContainers policy imageRef containerName with
             | Ok containers => Ok (containers, MkMatch [] [])
             | Err e => Err e
             | Panic e => Panic e
             end
         | CheckWorkload workloads => workloadContainers policy workloads
         end) with
  | Ok (containers, m) =>
      match checkContainers o containers with
      | Ok reports =>
          match printVerdict reports m with
          | Some e => Err e
          | None => Ok reports
          end
      | r => r
      end
  | Err e => Err e
  | Panic e => Panic e
  end.
End scan.

(** ** Editing a policy *)

Inductive policyExecAction := Allow | Deny | OtherAction.

Fixpoint allowExecutables (executables allowed : list bytes) (changed : bool) : list bytes * bool :=
  match allowed with
  | [] => (executables, changed)
  | exec :: allowed' =>
      if bool_decide (exec ∈ executables) then allowExecutables executables allowed' changed
      else allowExecutables (executables ++ [exec]) allowed' true
  end.

Definition denyExecutables (executables denied : list bytes) : list bytes * bool :=
  match executables with
  | [] => (executables, false)
  | _ => (filter (λ exec, exec ∉ denied) executables, existsb (λ exec, bool_decide (exec ∈ denied)) executables)
  end.

(** The map of rules, which may be nil, as may be the rules of a container: its new value, and
    whether the policy changed. *)
Definition applyExecutablesToPolicy (rulesByContainer : option (gmap string (option WorkloadPolicyRules)))
  (action : policyExecAction) (containerName : string) (executables : list bytes)
  : option (gmap string (option WorkloadPolicyRules)) * go_result bool :=
  match rulesByContainer with
  | None => (None, Err "policy has no rules for containers")
  | Some m =>
      match m !! containerName with
      | None => (Some m, Err "container not found in policy")
      | Some r =>
          let rules := default (MkRules [] ∅) r in
          let m := <[containerName := Some rules]> m in
          let finish '((updated, changed) : list bytes * bool) :=
            (Some (if changed then <[containerName := Some (MkRules updated (Options rules))]> m else m), Ok changed) in
          match action with
          | Allow => finish (allowExecutables (Allowed rules) executables false)
          | Deny => finish (denyExecutables (Allowed rules) executables)
          | OtherAction => (Some m, Err "unsupported action")
          end
      end
  end.

(** ** Which policies are drafted *)

(** Workloads whose policies cannot end up under the same key. *)
Definition no_conflict (a b : draftedWorkload) : Prop :=
  dw_PolicyName a = dw_PolicyName b →
  wl_Namespace (dw_Workload a) ≠ wl_Namespace (dw_Workload b) ∧
  wl_Namespace (dw_Workload a) ≠ "" ∧ wl_Namespace (dw_Workload b) ≠ "".

Lemma policyConflict_None a b : policyConflict a b = None ↔ a ≠ b ∧ a ≠ "" ∧ b ≠ "".
Proof.
  unfold policyConflict. destruct (String.eqb_spec a b), (String.eqb_spec a ""), (String.eqb_spec b ""); naive_solver.
Qed.

Lemma first_conflict_None others owner :
  first_conflict others owner = None → ∀ o, o ∈ others → policyConflict o owner = None.
Proof.
  induction others as [|o' others IH]; intros H o Ho; [by apply elem_of_nil in Ho|]. cbn [first_conflict] in H.
  destruct (policyConflict o' owner) eqn:Hc; [done|]. apply elem_of_cons in Ho as [->|Ho]; auto.
Qed.

Section drafted.
  Context (validatePolicyName : string → go_error).

Lemma draft_loop_spec workloads owners l :
  draft_loop validatePolicyName workloads owners = Ok l →
  dw_Workload <$> l = workloads ∧
  (∀ a ns, a ∈ l → ns ∈ default [] (owners !! dw_PolicyName a) → policyConflict ns (wl_Namespace (dw_Workload a)) = None) ∧
  (∀ i j a b, l !! i = Some a → l !! j = Some b → (i < j)%nat → no_conflict a b) ∧
  ∀ a, a ∈ l → validatePolicyName (dw_PolicyName a) = None.
Proof.
  revert owners l. induction workloads as [|w workloads IH]; intros owners l H; cbn [draft_loop] in H.
  { injection H as <-. split_and!; [done|set_solver|done|set_solver]. }
  destruct (policy_name w) as [[name lp]|e|e]; [|done..].
  destruct (validatePolicyName name) eqn:Hv; [done|].
  destruct (first_conflict _ _) eqn:Hc; [done|].
  destruct (draft_loop _ workloads _) as [l'|e|e] eqn:Hl; [|done..]. injection H as <-.
  destruct (IH _ _ Hl) as (Hmap & Hown & Hpair & Hval).
  assert (∀ a, a ∈ l' → dw_PolicyName a = name → policyConflict (wl_Namespace w) (wl_Namespace (dw_Workload a)) = None) as Hw.
  { intros a Ha Hn. apply (Hown a); [done|]. rewrite Hn, lookup_insert_eq. cbn. apply elem_of_app. right. by left. }
  split_and!.
  - cbn. by rewrite Hmap.
  - intros a ns [->|Ha]%elem_of_cons Hns; [by apply (first_conflict_None _ _ Hc)|]. apply (Hown a); [done|].
    destruct (decide (dw_PolicyName a = name)) as [Hn|Hn].
    + rewrite Hn in Hns |- *. rewrite lookup_insert_eq. cbn. apply elem_of_app. by left.
    + by rewrite lookup_insert_ne.
  - intros [|i] [|j] a b Ha Hb Hlt; [lia| |lia|exact (Hpair i j a b Ha Hb ltac:(lia))]. injection Ha as <-. intros Hn. cbn in Hn.
    apply (list_elem_of_lookup_2 l' j) in Hb. apply policyConflict_None. by apply (Hw b Hb).
  - intros a [->|Ha]%elem_of_cons; [done|auto].
Qed.

(** Drafted policies do not replace each other.  When [draftWorkloads] succeeds, it names a
    policy for each workload, in order, and two workloads that use the same name have different
    namespaces, and both have one: wherever the policies are applied they stay apart. *)
Theorem drafted_apart workloads l :
  draftWorkloads validatePolicyName workloads = Ok l →
  dw_Workload <$> l = workloads ∧
  ∀ i j a b, l !! i = Some a → l !! j = Some b → i ≠ j → no_conflict a b.
Proof.
  intros H. apply draft_loop_spec in H as (Hmap & _ & Hpair & _). split; [done|].
  intros i j a b Ha Hb Hij. destruct (Nat.lt_total i j) as [Hlt|[->|Hlt]]; [by eapply Hpair|done|].
  intros Hn. destruct (Hpair j i b a Hb Ha Hlt) as (? & ? & ?); [done|]. auto.
Qed.
End drafted.

(** ** What a drafted policy allows *)

Lemma bytes_of_string_inj s t : bytes_of_string s = bytes_of_string t → s = t.
Proof.
  revert t. induction s as [|c s IH]; intros [|d t] H; [done..|]. cbn in H. injection H as Hc Ht.
  f_equal; [|auto]. rewrite <- (Ascii.ascii_N_embedding c), <- (Ascii.ascii_N_embedding d). f_equal. lia.
Qed.

Lemma bytes_of_string_elem p (l : list string) : bytes_of_string p ∈ bytes_of_string <$> l ↔ p ∈ l.
Proof.
  split; [|apply list_elem_of_fmap_2]. by intros (q & ->%bytes_of_string_inj & Hq)%list_elem_of_fmap.
Qed.

Lemma compact_from_elem {A} (same : A → A → bool) x l e :
  e ∈ compact_from same x l → e ∈ l.
Proof.
  revert x. induction l as [|y l IH]; intros x; cbn [compact_from]; [done|].
  destruct (same y x); [intros H%IH; by right|]. intros [->|H%IH]%elem_of_cons; [by left|by right].
Qed.

Lemma compact_from_paths (x : Executable) l p :
  p ∈ ex_Path <$> l → p = ex_Path x ∨ p ∈ ex_Path <$> compact_from same_path x l.
Proof.
  revert x. induction l as [|y l IH]; intros x; cbn [compact_from fmap list_fmap]; [set_solver|].
  intros Hp. assert (p = ex_Path y ∨ p ∈ ex_Path <$> compact_from same_path y l) as Hy.
  { apply elem_of_cons in Hp as [->|Hp]; auto. }
  unfold same_path at 1. destruct (String.eqb_spec (ex_Path y) (ex_Path x)) as [<-|_]; [done|].
  right. cbn. by rewrite elem_of_cons.
Qed.

Lemma CompactFunc_elem {A} (same : A → A → bool) l e : e ∈ CompactFunc same l → e ∈ l.
Proof. destruct l as [|x l]; [done|]. cbn. rewrite !elem_of_cons. intros [->|H%compact_from_elem]; auto. Qed.

Lemma CompactFunc_paths l p : p ∈ ex_Path <$> CompactFunc same_path l ↔ p ∈ ex_Path <$> l.
Proof.
  split.
  - intros (e & -> & He%CompactFunc_elem)%list_elem_of_fmap. by apply list_elem_of_fmap_2.
  - destruct l as [|x l]; [done|]. cbn. rewrite !elem_of_cons. intros [->|H%(compact_from_paths x)]; tauto.
Qed.

Lemma sort_kinds_Executables o l s :
  sc_Executables (sort_kinds o l s) = sc_Executables s ++ (ex_Path <$> filter (λ e, includes o (ex_Kind e) = true) l).
Proof.
  revert s. induction l as [|e l IH]; intros s; cbn [sort_kinds]; [by rewrite app_nil_r|].
  rewrite IH, filter_cons. destruct (includes o (ex_Kind e)) eqn:Hi.
  - rewrite decide_True by done. cbn [sc_Executables fmap list_fmap]. by rewrite <- app_assoc.
  - by rewrite decide_False by done.
Qed.

Lemma string_le_total a b : string_le a b = true ∨ string_le b a = true.
Proof. apply String.leb_total. Qed.

Lemma string_le_trans a b c : string_le a b = true → string_le b c = true → string_le a c = true.
Proof. apply leb_trans. Qed.

Lemma sorted_lookup {A} (R : A → A → Prop) l a b x z :
  StronglySorted R l → (a < b)%nat → l !! a = Some x → l !! b = Some z → R x z.
Proof.
  intros H. revert a b. induction H as [|y l Hs IH Hy]; intros a b Hab Ha Hb; [done|].
  destruct b as [|b]; [lia|]. destruct a as [|a]; cbn in Ha, Hb; [|by apply (IH a b); [lia|..]].
  injection Ha as ->. rewrite Forall_forall in Hy. apply Hy. by eapply list_elem_of_lookup_2.
Qed.

Lemma sorted_sublist {A} (R : A → A → Prop) k l : k `sublist_of` l → StronglySorted R l → StronglySorted R k.
Proof.
  induction 1 as [|x k l Hkl IH|x k l Hkl IH]; intros H; [constructor|..]; apply StronglySorted_inv in H as [Hs Hx]; [|auto].
  constructor; [auto|]. rewrite Forall_forall in Hx |- *. intros y Hy. apply Hx.
  by eapply sublist_subseteq.
Qed.

Lemma sorted_fmap {A B} (f : A → B) (R : B → B → Prop) l :
  StronglySorted (λ a b, R (f a) (f b)) l → StronglySorted R (f <$> l).
Proof. induction 1; constructor; [done|]. by apply Forall_fmap. Qed.

Lemma compact_sublist {A} (same : A → A → bool) l : CompactFunc same l `sublist_of` l.
Proof.
  destruct l as [|x l]; cbn [CompactFunc]; [done|]. apply sublist_skip.
  revert x. induction l as [|y l IH]; intros x; cbn [compact_from]; [done|].
  destruct (same y x); [by apply sublist_cons|by apply sublist_skip].
Qed.

Section drafts.
  Context (elf_NewFile : bytes → go_result elf_file) (Load : string → go_result image).

(** One of the execute bits, 0, 3 and 6, is set. *)
Definition exec_bit (e : entry) : Prop :=
  ∃ perm i, en_Perm e = Some perm ∧ i ∈ [0; 3; 6] ∧ Z.testbit perm i = true.

(** The file is an executable of the image, of the kind [kind]. *)
Definition executable_ref (img : image) (ref : file_ref) (kind : string) : Prop :=
  ref ∈ im_Refs img ∧
  ∃ e, im_Get img ref = Some e ∧ exec_bit e ∧ classifyFile elf_NewFile img ref e = Ok kind.

Lemma anyExecBit_bit i : 0 <= i → Z.testbit anyExecBit i = bool_decide (i ∈ [0; 3; 6]).
Proof.
  intros Hi. destruct (decide (i < 7)) as [Hlt|Hge].
  - assert (i = 0 ∨ i = 1 ∨ i = 2 ∨ i = 3 ∨ i = 4 ∨ i = 5 ∨ i = 6) as H by lia.
    by repeat destruct H as [->|H]; [..|subst].
  - rewrite Z.bits_above_log2; [|done|change (Z.log2 anyExecBit) with 6; lia]. symmetry. apply bool_decide_eq_false_2. set_solver by lia.
Qed.

Lemma not_executable_false e : not_executable e = false ↔ exec_bit e.
Proof.
  unfold not_executable, exec_bit. destruct (en_Perm e) as [perm|]; [|naive_solver]. rewrite Z.eqb_neq. split.
  - intros Hne. destruct (decide (Exists (λ i, Z.testbit perm i = true) [0; 3; 6])) as [Hex|Hno].
    { apply Exists_exists in Hex as (i & ? & ?). eauto. }
    destruct Hne. apply Z.bits_inj'. intros i Hi. rewrite Z.land_spec, Z.bits_0, anyExecBit_bit by done.
    case_bool_decide as Hb; [|by rewrite andb_false_r]. rewrite andb_true_r. apply not_true_iff_false.
    intros Ht. apply Hno, Exists_exists. eauto.
  - intros (perm' & i & [= <-] & Hin & Ht) H0. assert (0 <= i) as Hi by (rewrite !elem_of_cons, elem_of_nil in Hin; lia).
    assert (Z.testbit (Z.land perm anyExecBit) i = true) as Hb; [|by rewrite H0, Z.bits_0 in Hb].
    by rewrite Z.land_spec, Ht, anyExecBit_bit, bool_decide_eq_true_2.
Qed.

Lemma executable_files_spec img refs l :
  executable_files elf_NewFile img refs = Ok l →
  ∀ x, x ∈ l ↔ ∃ ref e, ref ∈ refs ∧ im_Get img ref = Some e ∧ not_executable e = false ∧
                        RealPath ref = ex_Path x ∧ classifyFile elf_NewFile img ref e = Ok (ex_Kind x).
Proof.
  revert l. induction refs as [|ref refs IH]; intros l H x; cbn [executable_files] in H.
  { injection H as <-. split; [by intros ?%elem_of_nil|]. by intros (? & ? & ?%elem_of_nil & _). }
  destruct (im_Get img ref) as [e|] eqn:Hg; [|done].
  destruct (not_executable e) eqn:Hn.
  - rewrite (IH _ H x). setoid_rewrite elem_of_cons. split; [naive_solver|].
    intros (ref' & e' & [->|Hr] & Hg' & Hn' & Hx); [congruence|by exists ref', e'].
  - destruct (classifyFile _ _ _ _) as [kind|?|?] eqn:Hk; [|done..].
    destruct (executable_files _ _ refs) as [l'|?|?] eqn:Hl; [|done..]. injection H as <-.
    rewrite elem_of_cons, (IH _ eq_refl x). setoid_rewrite elem_of_cons. split.
    + intros [->|(ref' & e' & H)]; [exists ref, e; cbn; auto|]. exists ref', e'. tauto.
    + intros (ref' & e' & [->|Hr] & Hg' & Hn' & Hp & Hk'); [left|right; by exists ref', e'].
      destruct x as [p k]. cbn in *. congruence.
Qed.

(** Paths of the image are those of one file each. *)
Definition unique_paths (img : image) : Prop :=
  ∀ a b, a ∈ im_Refs img → b ∈ im_Refs img → RealPath a = RealPath b → a = b.

Lemma Executables_spec img l :
  Executables elf_NewFile img = Ok l → unique_paths img →
  (∀ x, x ∈ l ↔ ∃ ref, executable_ref img ref (ex_Kind x) ∧ RealPath ref = ex_Path x) ∧
  ∀ x y, x ∈ l → y ∈ l → ex_Path x = ex_Path y → x = y.
Proof.
  unfold Executables, executable_ref. destruct (executable_files _ _ _) as [l'|?|?] eqn:Hl; [|done..]. intros [= <-] Hu.
  pose proof (executable_files_spec _ _ _ Hl) as Hspec.
  assert (∀ x y, x ∈ l' → y ∈ l' → ex_Path x = ex_Path y → x = y) as Huniq.
  { intros x y (r1 & e1 & Hr1 & Hg1 & _ & Hp1 & Hk1)%Hspec (r2 & e2 & Hr2 & Hg2 & _ & Hp2 & Hk2)%Hspec Hxy.
    assert (r1 = r2) as <- by (apply Hu; [done..|congruence]). destruct x, y. cbn in *. congruence. }
  assert (∀ x, x ∈ CompactFunc same_path (SortStableFunc path_le l') ↔ x ∈ l') as Helem.
  { intros x. split; [intros Hx%CompactFunc_elem; by rewrite SortStableFunc_perm in Hx|]. intros Hx.
    assert (ex_Path x ∈ ex_Path <$> CompactFunc same_path (SortStableFunc path_le l')) as (y & Hxy & Hy)%list_elem_of_fmap.
    { apply CompactFunc_paths. rewrite SortStableFunc_perm. by apply list_elem_of_fmap_2. }
    replace x with y; [done|]. apply CompactFunc_elem in Hy. rewrite SortStableFunc_perm in Hy. by apply Huniq. }
  split; [|by setoid_rewrite Helem]. intros x. rewrite Helem, Hspec. split.
  - intros (ref & e & Hr & Hg & Hn%not_executable_false & Hp & Hk). exists ref. eauto 10.
  - intros (ref & (Hr & e & Hg & Hn%not_executable_false & Hk) & Hp). exists ref, e. auto.
Qed.

Lemma sort_kinds_Skipped o l s p k :
  (∀ x y, x ∈ l → y ∈ l → ex_Path x = ex_Path y → x = y) →
  sc_Skipped (sort_kinds o l s) !! p = Some k ↔
  (MkExecutable p k ∈ l ∧ includes o k = false) ∨
  (sc_Skipped s !! p = Some k ∧ ∀ k', MkExecutable p k' ∈ l → includes o k' = true).
Proof.
  revert s. induction l as [|[q kq] l IH]; intros s Hu; cbn [sort_kinds]; [set_solver|].
  rewrite IH by (intros x y Hx Hy; apply Hu; by right). clear IH. setoid_rewrite elem_of_cons. cbn [ex_Path ex_Kind].
  assert (∀ k', MkExecutable q k' ∈ l → k' = kq) as Hq.
  { intros k' Hk'. assert (MkExecutable q k' = MkExecutable q kq) by (apply Hu; [by right|by left|done]). congruence. }
  destruct (includes o kq) eqn:Hi; cbn [sc_Skipped]; [split|].
  - intros [?|[Hs Hl]]; [tauto|]. right. split; [done|]. intros k' [[= -> ->]|?]; auto.
  - intros [[[[= -> ->]|?] ?]|[Hs Hl]]; [congruence|auto|]. right. split; [done|]. intros k' ?. apply Hl. by right.
  - rewrite lookup_insert_Some. split.
    + intros [[? ?]|[[[-> ->]|[Hne Hs]] Hl]]; [tauto|tauto|]. right. split; [done|]. intros k' [[= -> ->]|?]; [done|auto].
    + intros [[[[= -> ->]|?] ?]|[Hs Hl]]; [|tauto|].
      * destruct (decide (MkExecutable q kq ∈ l)); [tauto|]. right. split; [tauto|]. intros k' Hk'. by rewrite (Hq k') in Hk'.
      * destruct (decide (q = p)) as [->|]; [|right; split; [tauto|auto]]. rewrite (Hl kq) in Hi; [done|by left].
Qed.

Lemma scanImage_spec o input lookup s :
  scanImage elf_NewFile Load o input lookup = Ok s →
  ∃ img, Load input = Ok img ∧ StronglySorted (λ a b, string_le a b = true) (sc_Executables s) ∧
    (unique_paths img →
     (∀ p, p ∈ sc_Executables s ↔
       ∃ ref kind, executable_ref img ref kind ∧ RealPath ref = p ∧ includes o kind = true) ∧
     ∀ p kind, sc_Skipped s !! p = Some kind ↔
       ∃ ref, executable_ref img ref kind ∧ RealPath ref = p ∧ includes o kind = false).
Proof.
  unfold scanImage, Scan. destruct (Load input) as [img|?|?]; [|done..].
  destruct (Executables _ _) as [l|?|?] eqn:Hl; [|done..].
  destruct (ResolveLinks _ _ _) as [links|?|?]; [|done..]. intros [= <-]. exists img. split; [done|].
  unfold newScannedImage. rewrite sort_kinds_Executables. cbn [res_Executables sc_Executables app]. split.
  - apply sorted_fmap. eapply sorted_sublist; [apply sublist_filter|]. unfold Executables in Hl.
    destruct (executable_files _ _ _); [injection Hl as <-|done..]. eapply sorted_sublist; [apply compact_sublist|].
    apply (SortStableFunc_sorted path_le); unfold path_le; eauto using string_le_total, string_le_trans.
  - intros Hu. destruct (Executables_spec _ _ Hl Hu) as [Hspec Huniq]. split.
    + intros p. rewrite list_elem_of_fmap. setoid_rewrite list_elem_of_filter. setoid_rewrite Hspec. split.
      * intros (x & -> & Hi & ref & He & Hp). eauto 10.
      * intros (ref & kind & He & <- & Hi). exists (MkExecutable (RealPath ref) kind). eauto 10.
    + intros p kind. rewrite sort_kinds_Skipped by done. cbn [sc_Skipped]. rewrite lookup_empty, Hspec. cbn. naive_solver.
Qed.

Lemma scan_images_spec o cs scanned scanned' :
  scan_images elf_NewFile Load o cs scanned = Ok scanned' →
  (∀ i s, scanned !! i = Some s → scanImage elf_NewFile Load o i [] = Ok s) →
  (∀ i s, scanned' !! i = Some s → scanImage elf_NewFile Load o i [] = Ok s) ∧
  (∀ i, is_Some (scanned !! i) → is_Some (scanned' !! i)) ∧
  ∀ c, c ∈ cs → is_Some (scanned' !! wc_Image c).
Proof.
  revert scanned. induction cs as [|c cs IH]; intros scanned H Hinv; cbn [scan_images] in H.
  { injection H as <-. split_and!; [done..|]. by intros ? ?%elem_of_nil. }
  destruct (scanned !! wc_Image c) as [s|] eqn:Hc.
  - destruct (IH _ H Hinv) as (H1 & H2 & H3). split_and!; [done..|].
    intros c' [->|Hc']%elem_of_cons; [apply H2; by rewrite Hc|auto].
  - destruct (scanImage _ _ _ _ _) as [s|?|?] eqn:Hs; [|done..].
    destruct (IH _ H) as (H1 & H2 & H3).
    { intros i s' [[<- <-]|[_ ?]]%lookup_insert_Some; auto. }
    split_and!; [done|..].
    + intros i Hi. apply H2, lookup_insert_is_Some'. auto.
    + intros c' [->|Hc']%elem_of_cons; [apply H2, lookup_insert_is_Some'|]; auto.
Qed.

Lemma executables_of_lookup scanned cs c s :
  NoDup (wc_Name <$> cs) → c ∈ cs → scanned !! wc_Image c = Some s →
  executables_of scanned cs !! wc_Name c = Some (sc_Executables s).
Proof.
  unfold executables_of. intros Hnd Hc Hs. generalize (∅ : gmap string (list string)) as m.
  assert (∀ l (m : gmap string (list string)), wc_Name c ∉ wc_Name <$> l →
    foldl (λ m c, <[wc_Name c := match scanned !! wc_Image c with Some s => sc_Executables s | None => [] end]> m) m l
      !! wc_Name c = m !! wc_Name c) as Hrest.
  { intros l. induction l as [|c' l IH]; intros m Hn; [done|]. cbn in Hn |- *. apply not_elem_of_cons in Hn as [Hn Hl].
    rewrite (IH _ Hl). by rewrite lookup_insert_ne. }
  induction cs as [|c' cs IH]; intros m; [by apply elem_of_nil in Hc|].
  cbn in Hnd |- *. apply NoDup_cons in Hnd as [Hn Hnd]. apply elem_of_cons in Hc as [<-|Hc]; [|by apply IH].
  rewrite Hrest by done. by rewrite lookup_insert_eq, Hs.
Qed.

Lemma draft_policies_lookup mode scanned l policies :
  draft_policies mode scanned l = Ok policies →
  length policies = length l ∧
  ∀ i d policy, l !! i = Some d → policies !! i = Some policy →
    New (dw_PolicyName d) (wl_Namespace (dw_Workload d)) mode (executables_of scanned (wl_Containers (dw_Workload d)))
      = Ok policy.
Proof.
  revert policies. induction l as [|d l IH]; intros policies H; cbn [draft_policies] in H; [by injection H as <-|].
  destruct (New _ _ _ _) as [policy|?|?] eqn:Hnew; [|done..].
  destruct (draft_policies mode scanned l) as [policies'|?|?]; [|done..]. injection H as <-.
  destruct (IH _ eq_refl) as [Hlen Hl]. split; [by cbn; rewrite Hlen|].
  intros [|i] d' policy' Hd Hp; cbn in Hd, Hp; [congruence|by eapply Hl].
Qed.

Context (validatePolicyName : string → go_error).

(** The policy that [wpgen] drafts for a workload allows, in each of its containers, exactly
    the executables of the image of the container: the files with an execute bit, each with the
    kind of the file its hard links lead to, except the kinds that the options leave out.  In the
    terms of the kernel: in any mode, the execution of a path is permitted if and only if the
    path is one of these. *)
Theorem drafted_policy_permits o mode workloads policies :
  runWorkload elf_NewFile Load validatePolicyName o mode workloads = Ok policies →
  length policies = length workloads ∧
  ∀ i w policy, workloads !! i = Some w → policies !! i = Some policy →
    wp_Mode policy = mode ∧ wp_Namespace policy = wl_Namespace w ∧
    ∀ c, c ∈ wl_Containers w → NoDup (wc_Name <$> wl_Containers w) →
      ∃ img rules, Load (wc_Image c) = Ok img ∧ wp_RulesByContainer policy !! wc_Name c = Some rules ∧
        (unique_paths img → ∀ m path,
           exec_decision (asked m rules) false (bytes_of_string path) = Permit ↔
           ∃ ref kind, executable_ref img ref kind ∧ RealPath ref = path ∧ includes o kind = true).
Proof.
  unfold runWorkload. destruct (IsValid mode) eqn:Hm; [|done]. cbn [negb].
  destruct (draftWorkloads _ _) as [drafted|?|?] eqn:Hd; [|done..].
  destruct (scan_images _ _ _ _ _) as [scanned|?|?] eqn:Hs; [|done..]. intros H.
  apply draft_policies_lookup in H as [Hlen Hl]. apply draft_loop_spec in Hd as (Hmap & _).
  apply scan_images_spec in Hs as (Hscan & _ & Hall); [|by intros ? ? ?%lookup_empty_Some].
  split; [by rewrite Hlen, <- Hmap, length_fmap|].
  intros i w policy Hw Hp. rewrite <- Hmap, list_lookup_fmap in Hw. apply fmap_Some in Hw as (d & Hdi & ->).
  specialize (Hl _ _ _ Hdi Hp). unfold New in Hl. rewrite Hm in Hl. injection Hl as <-. cbn.
  split_and!; [done..|]. intros c Hc Hnd.
  destruct (Hall c) as [s Hsc].
  { apply list_elem_of_In, in_concat. exists (wl_Containers (dw_Workload d)). split; [|by apply list_elem_of_In].
    apply (in_map (λ w, wl_Containers (dw_Workload w))), list_elem_of_In. by eapply list_elem_of_lookup_2. }
  destruct (scanImage_spec _ _ _ _ (Hscan _ _ Hsc)) as (img & Hload & _ & Hspec).
  exists img, (MkRules (bytes_of_string <$> sc_Executables s) ∅). split_and!; [done|..].
  - by rewrite lookup_fmap, (executables_of_lookup _ _ _ s Hnd Hc Hsc).
  - intros Hu m path. rewrite <- (proj1 (Hspec Hu) path). unfold exec_decision. cbn [asked pol_allowed Allowed].
    rewrite <- (bytes_of_string_elem path). case_bool_decide; naive_solver.
Qed.
End drafts.

(** ** What a check reports *)

Lemma search_loop_spec l target fuel i j :
  StronglySorted (λ a b, string_le a b = true) l → (i ≤ j ≤ length l)%nat → (j - i ≤ fuel)%nat →
  (∀ h x, (h < i)%nat → l !! h = Some x → string_le target x = false) →
  (∀ h x, (j ≤ h)%nat → l !! h = Some x → string_le target x = true) →
  let k := search_loop fuel l target i j in
  (∀ h x, (h < k)%nat → l !! h = Some x → string_le target x = false) ∧
  (∀ h x, (k ≤ h)%nat → l !! h = Some x → string_le target x = true).
Proof.
  intros Hsort. revert i j. induction fuel as [|fuel IH]; intros i j Hij Hf Hlo Hhi; cbn [search_loop].
  { split; [done|]. intros h x Hh. apply Hhi. lia. }
  destruct (Nat.ltb_spec i j) as [Hlt|Hge]; [|split; [done|]; intros h x Hh; apply Hhi; lia].
  assert (i ≤ Nat.div2 (i + j) < j)%nat as Hh. { rewrite Nat.div2_div. split; [apply Nat.div_le_lower_bound|apply Nat.Div0.div_lt_upper_bound]; lia. }
  set (h := Nat.div2 (i + j)) in *. destruct (lookup_lt_is_Some_2 l h) as [y Hy]; [lia|]. rewrite Hy.
  assert (∀ a b x z, (a < b)%nat → l !! a = Some x → l !! b = Some z → string_le x z = true) as Hord.
  { intros a b x z. by apply (sorted_lookup _ _ _ _ _ _ Hsort). }
  destruct (string_le target y) eqn:Hty; cbn [negb].
  - apply IH; [lia..|done|]. intros b x Hb Hx. destruct (decide (b = h)) as [->|]; [congruence|].
    eapply string_le_trans, (Hord h b); [done|lia|done..].
  - apply IH; [lia..| |done]. intros b x Hb Hx. destruct (decide (b = h)) as [->|]; [congruence|].
    destruct (string_le target x) eqn:Htx; [|done]. rewrite <- Hty. symmetry.
    eapply string_le_trans, (Hord b h); [done|lia|done..].
Qed.

Lemma BinarySearch_spec l p :
  StronglySorted (λ a b, string_le a b = true) l → BinarySearch l p = bool_decide (p ∈ l).
Proof.
  intros Hs. unfold BinarySearch.
  destruct (search_loop_spec l p (length l) 0 (length l)) as [Hlo Hhi]; [done|lia|lia|lia| |].
  { intros h x Hh Hx%lookup_lt_Some. lia. }
  set (k := search_loop _ _ _ _ _) in *. case_bool_decide as Hp.
  - apply list_elem_of_lookup in Hp as [h Hh].
    assert (k ≤ h)%nat as Hkh.
    { destruct (decide (h < k)%nat) as [Hlt|]; [|lia]. specialize (Hlo h p Hlt Hh).
      destruct (string_le_total p p); congruence. }
    destruct (lookup_lt_is_Some_2 l k) as [y Hy]; [apply lookup_lt_Some in Hh; lia|]. rewrite Hy.
    apply String.eqb_eq. apply String.leb_antisym; [|exact (Hhi k y (le_n _) Hy)].
    destruct (decide (k = h)) as [->|]; [replace y with p by congruence; by destruct (string_le_total p p)|].
    apply (sorted_lookup _ _ k h _ _ Hs); [lia|done..].
  - destruct (l !! k) as [y|] eqn:Hy; [|done]. apply String.eqb_neq. intros ->. by eapply Hp, list_elem_of_lookup_2.
Qed.

(** The list of a report that a path goes to. *)
Inductive path_class := IsExecutable | IsLibrary | IsUnknown | IsStale.
#[global] Instance path_class_eq_dec : EqDecision path_class.
Proof. solve_decision. Defined.

Definition class_of (s : scannedImage) (p : string) : path_class :=
  if bool_decide (p ∈ sc_Executables s) then IsExecutable
  else if bool_decide (sc_Skipped s !! p = Some KindLibrary) then IsLibrary
  else if bool_decide (sc_Skipped s !! p = Some KindUnknown) then IsUnknown
  else IsStale.

Definition class_list (cl : path_class) (r : containerReport) : list string :=
  match cl with
  | IsExecutable => cr_Executables r
  | IsLibrary => Libraries r
  | IsUnknown => Unknown r
  | IsStale => Stale r
  end.

Lemma compare_loop_spec s ps allowed r allowed' r' :
  StronglySorted (λ a b, string_le a b = true) (sc_Executables s) →
  compare_loop s ps allowed r = (allowed', r') →
  (∀ p, p ∈ allowed' ↔ p ∈ ps ∨ p ∈ allowed) ∧
  ∀ cl p, p ∈ class_list cl r' ↔ p ∈ class_list cl r ∨ (p ∈ ps ∧ p ∉ allowed ∧ class_of s p = cl).
Proof.
  intros Hs. revert allowed r. induction ps as [|q ps IH]; intros allowed r H; cbn [compare_loop] in H.
  { injection H as <- <-. set_solver. }
  case_bool_decide as Hq; apply IH in H as [Ha Hc]; clear IH.
  - split; [set_solver|]. intros cl p. rewrite Hc. set_solver.
  - split; [set_solver|]. intros cl p. rewrite Hc. clear Hc Ha. rewrite BinarySearch_spec by done.
    match goal with |- p ∈ class_list cl ?r1 ∨ _ ↔ _ =>
      assert (p ∈ class_list cl r1 ↔ p ∈ class_list cl r ∨ (p = q ∧ class_of s q = cl)) as -> end.
    + destruct r as [c st li lb un ex na]. unfold class_of. repeat case_bool_decide; destruct cl; cbn; set_solver.
    + destruct (decide (p = q)) as [->|]; set_solver.
Qed.

Lemma compare_spec c s :
  StronglySorted (λ a b, string_le a b = true) (sc_Executables s) →
  (∀ cl p, p ∈ class_list cl (compare c s) ↔ p ∈ cc_Allowed c ∧ class_of s p = cl) ∧
  ∀ p, p ∈ NotAllowed (compare c s) ↔ p ∈ sc_Executables s ∧ p ∉ cc_Allowed c.
Proof.
  intros Hs. unfold compare. destruct (compare_loop _ _ _ _) as [allowed r] eqn:Hc.
  apply compare_loop_spec in Hc as [Ha Hcl]; [|done]. split; intros p.
  - intros q. specialize (Hcl p q). destruct p; cbn in Hcl |- *; rewrite SortStableFunc_perm, Hcl; set_solver.
  - cbn. rewrite list_elem_of_filter, Ha. set_solver.
Qed.

Section checks.
  Context (elf_NewFile : bytes → go_result elf_file) (Load : string → go_result image).

Lemma scan_all_spec o lookup images scanned scanned' :
  scan_all elf_NewFile Load o lookup images scanned = Ok scanned' →
  (∀ i s, scanned !! i = Some s → ∃ l, scanImage elf_NewFile Load o i l = Ok s) →
  ∀ i s, scanned' !! i = Some s → ∃ l, scanImage elf_NewFile Load o i l = Ok s.
Proof.
  revert scanned. induction images as [|i images IH]; intros scanned H Hinv; cbn [scan_all] in H; [by injection H as <-|].
  destruct (scanImage _ _ _ _ _) as [s|?|?] eqn:Hs; [|done..]. apply (IH _ H).
  intros i' s' [[<- <-]|[_ ?]]%lookup_insert_Some; eauto.
Qed.

Lemma reports_of_spec scanned cs reports :
  reports_of scanned cs = Ok reports →
  Forall2 (λ c r, ∃ s, scanned !! wc_Image (cc_Container c) = Some s ∧ r = compare c s) cs reports.
Proof.
  revert reports. induction cs as [|c cs IH]; intros reports H; cbn [reports_of] in H; [injection H as <-; constructor|].
  destruct (scanned !! _) as [s|] eqn:Hs; [|done]. destruct (reports_of scanned cs); [|done..].
  injection H as <-. constructor; eauto.
Qed.

(** A file of the image that can be executed is at this path. *)
Definition in_image (img : image) (p : string) : Prop :=
  ∃ ref kind, executable_ref elf_NewFile img ref kind ∧ RealPath ref = p.

Lemma class_of_in_image o img input lookup s p :
  scanImage elf_NewFile Load o input lookup = Ok s → Load input = Ok img → unique_paths img →
  class_of s p ≠ IsStale ↔ in_image img p.
Proof.
  intros Hs Hl Hu. destruct (scanImage_spec _ _ _ _ _ _ Hs) as (img' & Hl' & _ & Hspec).
  assert (img' = img) as -> by congruence. destruct (Hspec Hu) as [Hex Hsk]. unfold class_of, in_image.
  assert (∀ kind, includes o kind = false → kind = KindLibrary ∨ kind = KindUnknown) as Hinc.
  { intros kind. unfold includes. destruct (String.eqb_spec kind KindLibrary), (String.eqb_spec kind KindUnknown); naive_solver. }
  split.
  - case_bool_decide as H1; [apply Hex in H1 as (ref & kind & ? & ? & _); eauto|].
    case_bool_decide as H2; [apply Hsk in H2 as (ref & ? & ? & _); eauto|].
    case_bool_decide as H3; [apply Hsk in H3 as (ref & ? & ? & _); eauto|done].
  - intros (ref & kind & He & <-) Hc. destruct (includes o kind) eqn:Hi.
    + rewrite bool_decide_eq_true_2 in Hc by (apply Hex; eauto 10). done.
    + assert (sc_Skipped s !! RealPath ref = Some kind) as Hk by (apply Hsk; eauto). rewrite Hk in Hc.
      by destruct (bool_decide (RealPath ref ∈ _)), (Hinc _ Hi) as [-> | ->].
Qed.

Lemma compare_stale o img c lookup s p :
  scanImage elf_NewFile Load o (wc_Image (cc_Container c)) lookup = Ok s →
  Load (wc_Image (cc_Container c)) = Ok img → unique_paths img →
  (p ∈ Stale (compare c s) ↔ p ∈ cc_Allowed c ∧ ¬ in_image img p) ∧
  (p ∉ Stale (compare c s) → p ∈ cc_Allowed c → in_image img p).
Proof.
  intros Hs Hl Hu. destruct (scanImage_spec _ _ _ _ _ _ Hs) as (_ & _ & Hsort & _).
  destruct (compare_spec c s Hsort) as [Hcl _]. rewrite (Hcl IsStale p), <- (class_of_in_image _ _ _ _ _ _ Hs Hl Hu).
  destruct (decide (class_of s p = IsStale)); tauto.
Qed.

Lemma checkContainers_spec o cs reports :
  checkContainers elf_NewFile Load o cs = Ok reports →
  Forall2 (λ c r, ∃ img s l, Load (wc_Image (cc_Container c)) = Ok img ∧
    scanImage elf_NewFile Load o (wc_Image (cc_Container c)) l = Ok s ∧ r = compare c s) cs reports.
Proof.
  unfold checkContainers. destruct (foldl _ _ _) as [images lookup].
  destruct (scan_all _ _ _ _ _ _) as [scanned|?|?] eqn:Hs; [|done..]. intros H%reports_of_spec.
  eapply Forall2_impl; [exact H|]. intros c r (s & Hsc & ->). cbn.
  destruct (scan_all_spec _ _ _ _ _ Hs) with (i := wc_Image (cc_Container c)) (s := s) as [l Hl];
    [by intros ? ? ?%lookup_empty_Some|done|].
  destruct (scanImage_spec _ _ _ _ _ _ Hl) as (img & Hload & _). eauto 10.
Qed.

(** The report of a container is exact.  Its stale paths are the paths that the policy allows
    and that are not an executable of the image, of whatever kind; the paths it lists as not
    allowed are the executables of the image that the kernel, given the allowed paths of the
    policy, would treat as violations. *)
Theorem check_reports_exact o cs reports i c r :
  checkContainers elf_NewFile Load o cs = Ok reports → cs !! i = Some c → reports !! i = Some r →
  ∃ img, Load (wc_Image (cc_Container c)) = Ok img ∧
    (unique_paths img → ∀ p,
      (p ∈ Stale r ↔ p ∈ cc_Allowed c ∧ ¬ in_image img p) ∧
      (p ∈ NotAllowed r ↔
        (∃ ref kind, executable_ref elf_NewFile img ref kind ∧ RealPath ref = p ∧ includes o kind = true) ∧
        ∀ m options,
          exec_decision (asked m (MkRules (bytes_of_string <$> cc_Allowed c) options)) false (bytes_of_string p)
            = Violation (mode_denies m))).
Proof.
  intros H%checkContainers_spec Hc Hr. destruct (Forall2_lookup_lr _ _ _ _ _ _ H Hc Hr) as (img & s & l & Hl & Hs & ->).
  exists img. split; [done|]. intros Hu p. destruct (scanImage_spec _ _ _ _ _ _ Hs) as (img' & Hl' & Hsort & Hspec).
  assert (img' = img) as -> by congruence. destruct (compare_spec c s Hsort) as [Hcl Hna]. split.
  - by apply (compare_stale _ _ _ _ _ p Hs Hl Hu).
  - rewrite Hna, (proj1 (Hspec Hu) p). apply and_iff_compat_l. rewrite <- bytes_of_string_elem.
    unfold exec_decision. cbn [asked pol_allowed pol_mode Allowed]. case_bool_decide; [|tauto].
    split; [done|]. intros Hm. by specialize (Hm Monitor ∅).
Qed.

Lemma match_loop_spec policy cs containers only :
  match_loop policy cs = (containers, only) →
  (∀ n, n ∈ only ↔ ∃ c, c ∈ cs ∧ wc_Name c = n ∧ policy !! n = None) ∧
  ∀ x, x ∈ containers ↔ ∃ c rules, c ∈ cs ∧ policy !! wc_Name c = Some rules ∧ x = MkChecked c (allowedPaths rules).
Proof.
  revert containers only. induction cs as [|c cs IH]; intros containers only H; cbn [match_loop] in H.
  { injection H as <- <-. set_solver. }
  destruct (match_loop policy cs) as [containers' only']. destruct (IH _ _ eq_refl) as [H1 H2].
  destruct (policy !! wc_Name c) as [rules|] eqn:Hp; injection H as <- <-;
    (split; intros x; [rewrite ?elem_of_cons, H1|rewrite ?elem_of_cons, H2]); setoid_rewrite elem_of_cons; naive_solver.
Qed.

Lemma stale_zero reports : stale reports = O ↔ ∀ r p, r ∈ reports → p ∉ Stale r.
Proof.
  unfold stale. induction reports as [|r reports IH]; cbn; [set_solver|].
  rewrite Nat.eq_add_0, IH, length_zero_iff_nil. setoid_rewrite elem_of_cons. split.
  - intros [Hr H] x p [->|Hx]; [rewrite Hr; by apply not_elem_of_nil|by apply H].
  - intros H. split; [|intros x p Hx; apply H; by right].
    destruct (Stale r) as [|p l] eqn:Hl; [done|]. destruct (H r p); [by left|]. rewrite Hl. by left.
Qed.

Lemma check_verdict o policy w cs m reports :
  (∀ input img, Load input = Ok img → unique_paths img) →
  matchContainers policy w = Ok (cs, m) → checkContainers elf_NewFile Load o cs = Ok reports →
  runCheck elf_NewFile Load o policy (CheckWorkload [w]) = Ok reports ↔
  ∀ c, c ∈ wl_Containers w → ∃ rules img, policy !! wc_Name c = Some rules ∧ Load (wc_Image c) = Ok img ∧
    ∀ p, p ∈ allowedPaths rules → in_image img p.
Proof.
  intros Hu Hm Hc. unfold runCheck. cbn [workloadContainers]. rewrite Hm, Hc.
  unfold matchContainers in Hm. destruct (match_loop policy (wl_Containers w)) as [cs' only] eqn:Hl.
  destruct (match_loop_spec _ _ _ _ Hl) as [Honly Hcs].
  assert (cs' = cs ∧ OnlyInWorkload m = only) as [-> <-] by (by destruct cs'; [|injection Hm as <- <-]). clear Hm Hl.
  apply checkContainers_spec in Hc.
  assert (printVerdict reports m = None ↔ stale reports = O ∧ OnlyInWorkload m = []) as Hv.
  { unfold printVerdict. rewrite <- length_zero_iff_nil. destruct (Nat.ltb_spec 0 (stale reports)), (Nat.ltb_spec 0 (length (OnlyInWorkload m)));
      cbn; split; (done || lia). }
  transitivity (printVerdict reports m = None); [by destruct (printVerdict _ _)|]. rewrite Hv, stale_zero. clear Hv. split.
  - intros [Hst Hno] c Hin. destruct (policy !! wc_Name c) as [rules|] eqn:Hp.
    2: { exfalso. apply (not_elem_of_nil (wc_Name c)). rewrite <- Hno. apply Honly. eauto. }
    assert (MkChecked c (allowedPaths rules) ∈ cs) as [i Hi]%list_elem_of_lookup by (apply Hcs; eauto).
    destruct (Forall2_lookup_l _ _ _ _ _ Hc Hi) as (r & Hr & img & s & l & Hload & Hs & ->).
    exists rules, img. split_and!; [done..|]. intros p Hpa. specialize (Hst _ p (list_elem_of_lookup_2 _ _ _ Hr)).
    apply (compare_stale o img (MkChecked c (allowedPaths rules)) l s p Hs Hload); eauto.
  - intros H. split.
    + intros r p [i Hr]%list_elem_of_lookup. destruct (Forall2_lookup_r _ _ _ _ _ Hc Hr) as (x & Hx & img & s & l & Hload & Hs & ->).
      apply list_elem_of_lookup_2, Hcs in Hx as (c & rules & Hin & Hp & ->). cbn in Hload, Hs.
      intros [Hpa Hn]%(compare_stale o img (MkChecked c (allowedPaths rules)) l s p Hs Hload); [|eauto].
      destruct (H c Hin) as (rules' & img' & Hp' & Hload' & Hall).
      assert (rules' = rules) as -> by congruence. assert (img' = img) as -> by congruence. by apply Hn, Hall.
    + apply elem_of_nil_inv. intros n (c & Hin & <- & Hp)%Honly. destruct (H c Hin) as (? & ? & ? & _). congruence.
Qed.

(** C24: the verdict of [wpgen check].  Once the images are scanned, the check of a policy against
    a workload succeeds if and only if every container of the workload has rules in the policy
    and every path that they allow is an executable of the image of the container. *)
Theorem check_verdict_iff o policy w cs m reports :
  (∀ input img, Load input = Ok img → unique_paths img) →
  matchContainers policy w = Ok (cs, m) → checkContainers elf_NewFile Load o cs = Ok reports →
  runCheck elf_NewFile Load o policy (CheckWorkload [w]) = Ok reports ↔
  ∀ c, c ∈ wl_Containers w → ∃ rules img, policy !! wc_Name c = Some rules ∧ Load (wc_Image c) = Ok img ∧
    ∀ p, p ∈ allowedPaths rules → in_image img p.
Proof. apply check_verdict. Qed.
End checks.

(** ** Editing a policy: the decisions *)

Lemma allowExecutables_spec executables allowed changed updated changed' :
  allowExecutables executables allowed changed = (updated, changed') →
  (∀ p, p ∈ updated ↔ p ∈ executables ∨ p ∈ allowed) ∧ (changed' = false → updated = executables ∧ changed = false).
Proof.
  revert executables changed. induction allowed as [|e allowed IH]; intros executables changed H; cbn [allowExecutables] in H.
  { injection H as <- <-. split; [set_solver|auto]. }
  case_bool_decide; apply IH in H as [H1 H2]; (split; [intros p; rewrite H1; set_solver|]); [done|].
  intros Hc. by destruct (H2 Hc).
Qed.

Lemma denyExecutables_spec executables denied updated changed :
  denyExecutables executables denied = (updated, changed) →
  (∀ p, p ∈ updated ↔ p ∈ executables ∧ p ∉ denied) ∧ (changed = false → ∀ p, p ∈ executables → p ∉ denied).
Proof.
  destruct executables as [|e executables]; cbn [denyExecutables]; [intros [= <- <-]; split; [set_solver|set_solver]|].
  intros [= <- <-]. split.
  - intros p. rewrite list_elem_of_filter. tauto.
  - intros Hf p Hp Hd. apply not_true_iff_false in Hf. apply Hf. apply (existsb_exists (λ exec, bool_decide (exec ∈ denied)) (e :: executables)). exists p.
    split; [by apply list_elem_of_In|by apply bool_decide_eq_true_2].
Qed.

(** What [kubectl ... policy allow] and [deny] change.  After an edition of a container, the
    kernel is asked to permit the allowed executables of that container, or to refuse the denied
    ones; any other decision, on other paths, for files of a foreign root or in other containers,
    is the one from before, and without a change no rule changes. *)
Theorem edited_policy_decides m action containerName executables m' changed :
  applyExecutablesToPolicy (Some m) action containerName executables = (m', Ok changed) →
  ∃ r rules' m1, m !! containerName = Some r ∧ m' = Some m1 ∧ m1 !! containerName = Some (Some rules') ∧
    (∀ c, c ≠ containerName → m1 !! c = m !! c) ∧
    (changed = false → rules' = default (MkRules [] ∅) r) ∧
    ∀ mode foreign p,
      let before := exec_decision (asked mode (default (MkRules [] ∅) r)) foreign p in
      exec_decision (asked mode rules') foreign p =
      (if negb foreign && bool_decide (p ∈ executables)
       then match action with Deny => Violation (mode_denies mode) | _ => Permit end
       else before).
Proof.
  cbn [applyExecutablesToPolicy]. destruct (m !! containerName) as [r|]; [|done]. set (rules := default _ r).
  destruct action; [destruct (allowExecutables _ _ _) as [updated ch] eqn:Ha
                   |destruct (denyExecutables _ _) as [updated ch] eqn:Ha|done]; intros [= <- <-];
    exists r, (if ch then MkRules updated (Options rules) else rules); eexists; (split_and!; [done..| | | |]).
  1, 5: by destruct ch; rewrite ?lookup_insert_eq.
  1, 4: by intros c Hc; destruct ch; rewrite ?lookup_insert_ne.
  1, 3: by intros ->.
  - apply allowExecutables_spec in Ha as [Hp Hsame]. intros mode [] p; cbn [negb andb]; [by destruct ch|].
    assert (p ∈ Allowed (if ch then MkRules updated (Options rules) else rules) ↔ p ∈ Allowed rules ∨ p ∈ executables) as Hiff.
    { destruct ch; [apply Hp|]. destruct (Hsame eq_refl) as [-> _]. by rewrite <- Hp. }
    unfold exec_decision. cbn [asked pol_allowed pol_mode]. repeat case_bool_decide; tauto.
  - apply denyExecutables_spec in Ha as [Hp Hsame]. intros mode [] p; cbn [negb andb]; [by destruct ch|].
    assert (p ∈ Allowed (if ch then MkRules updated (Options rules) else rules) ↔ p ∈ Allowed rules ∧ p ∉ executables) as Hiff.
    { destruct ch; [apply Hp|]. naive_solver. }
    unfold exec_decision. cbn [asked pol_allowed pol_mode]. repeat case_bool_decide; tauto.
Qed.

(** ** An example *)

(** An image with a script, a hard link of a later layer to it, and a data file. *)
Definition sample_ref (i : Z) (path : string) : file_ref := MkRef i path.
Definition sample_entry (ref : file_ref) : option entry :=
  if (RealPath ref =? "/bin/run")%string then Some (MkEntry (Some 493) TypeRegular "")
  else if (RealPath ref =? "/bin/start")%string then Some (MkEntry (Some 493) TypeHardLink "bin/run")
  else if (RealPath ref =? "/etc/conf")%string then Some (MkEntry (Some 420) TypeRegular "")
  else None.
Definition sample_image : image :=
  MkImage 2 [sample_ref 1 "/bin/start"; sample_ref 2 "/bin/run"; sample_ref 3 "/etc/conf"] sample_entry
    (λ _, Some (λ path, if (path =? "/bin/run")%string then Some (sample_ref 2 "/bin/run") else None))
    (λ _, Ok (true, bytes_of_string "#!/bin/sh"))
    (λ _, NoReference).
Definition sample_load (input : string) : go_result image :=
  if (input =? "img")%string then Ok sample_image else Err "not found".
Definition no_elf (file : bytes) : go_result elf_file := Err "not an ELF file".
Definition sample_workload : Workload :=
  MkWorkload "Deployment" "web" "ns" ∅ [MkWlContainer "main" "img" false].
Definition defaults : scanOptions := MkScanOptions false false.

Lemma sample_image_unique input img : sample_load input = Ok img → unique_paths img.
Proof.
  unfold sample_load. destruct (input =? "img")%string; [|done]. intros [= <-] a b Ha Hb. cbn in Ha, Hb.
  rewrite !elem_of_cons, elem_of_nil in Ha, Hb. naive_solver.
Qed.

Definition sample_policies : list WorkloadPolicy :=
  match runWorkload no_elf sample_load (λ _, None) defaults "protect" [sample_workload] with
  | Ok policies => policies
  | _ => []
  end.

Lemma drafted_policy_permits_witness :
  ∃ policy rules, sample_policies = [policy] ∧ wp_Mode policy = "protect" ∧
    wp_RulesByContainer policy !! "main" = Some rules ∧
    exec_decision (asked Protect rules) false (bytes_of_string "/bin/start") = Permit.
Proof.
  destruct (drafted_policy_permits no_elf sample_load (λ _, None) defaults "protect" [sample_workload] sample_policies)
    as [Hlen H]; [vm_compute; reflexivity|].
  destruct sample_policies as [|policy [|]]; [done| |done].
  destruct (H 0%nat sample_workload policy eq_refl eq_refl) as (Hm & _ & Hc).
  destruct (Hc (MkWlContainer "main" "img" false)) as (img & rules & Hl & Hr & Hd).
  { by left. }
  { apply NoDup_singleton. }
  exists policy, rules. split_and!; [done..|]. apply Hd.
  - exact (sample_image_unique "img" img Hl).
  - assert (img = sample_image) as -> by (change (Ok sample_image = Ok img) in Hl; congruence).
    exists (sample_ref 1 "/bin/start"), KindScript. split_and!; [|done..].
    split; [by left|]. exists (MkEntry (Some 493) TypeHardLink "bin/run"). split_and!;
      [reflexivity|exists 493, 0; split_and!; [reflexivity|by left|reflexivity]|vm_compute; reflexivity].
Defined.

(** A policy that allows a path that the image does not have. *)
Definition stale_policy : gmap string (option (list string)) := {["main" := Some ["/bin/run"; "/bin/gone"]]}.

Lemma check_verdict_iff_witness :
  runCheck no_elf sample_load defaults {["main" := Some ["/bin/run"]]} (CheckWorkload [sample_workload]) ≠ Err "problems" ∧
  ∃ reports, runCheck no_elf sample_load defaults stale_policy (CheckWorkload [sample_workload])
    ≠ Ok reports.
Proof.
  split; [vm_compute; discriminate|].
  destruct (checkContainers no_elf sample_load defaults
    [MkChecked (MkWlContainer "main" "img" false) ["/bin/run"; "/bin/gone"]]) as [reports|e|e] eqn:Hc;
    [|vm_compute in Hc; discriminate..].
  exists reports. intros Hrun.
  destruct (proj1 (check_verdict_iff no_elf sample_load defaults stale_policy sample_workload
    [MkChecked (MkWlContainer "main" "img" false) ["/bin/run"; "/bin/gone"]] (MkMatch [] []) reports
    sample_image_unique ltac:(vm_compute; reflexivity) Hc) Hrun (MkWlContainer "main" "img" false))
    as (rules & img & Hp & Hl & Hall); [by left|]. vm_compute in Hp. injection Hp as <-.
  change (Ok sample_image = Ok img) in Hl. injection Hl as <-.
  destruct (Hall "/bin/gone") as (ref & kind & [Hr _] & Hpath); [right; by left|].
  cbn in Hr. rewrite !elem_of_cons, elem_of_nil in Hr. destruct Hr as [->|[->|[->|[]]]]; discriminate.
Defined.

Lemma edited_policy_decides_witness :
  ∃ (m1 : gmap string (option WorkloadPolicyRules)) rules, m1 !! "main" = Some (Some rules) ∧
    exec_decision (asked Protect rules) false (bytes_of_string "/bin/id") = Violation true.
Proof.
  destruct (edited_policy_decides {["main" := Some (MkRules [bytes_of_string "/bin/id"] ∅)]} Deny "main"
    [bytes_of_string "/bin/id"] (Some {["main" := Some (MkRules [] ∅)]}) true) as (r & rules & m1 & _ & _ & Hr & _ & _ & Hd).
  { vm_compute. reflexivity. }
  exists m1, rules. split; [done|]. rewrite (Hd Protect false). vm_compute. reflexivity.
Defined.
