(* ===== verification/Kubectl.v ===== *)
(** * The kubectl plugin

    [src/internal/kubectlplugin]: the commands that change a policy (its mode, the executables
    of a container, the acknowledgement of a violation), the promotion of a proposal with the
    wait for its policy, and the listing of the protected workloads.  The API server is a
    parameter; others may change the policies between the read and the write of a command. *)
From Stdlib Require Import Sorting.Sorted Ascii.
From S2P Require Import Prelude GoStd CLayout ProgramTypes KernelLayout Kernel StringMaps PolicyValues Names CgroupTracker Events AgentMaps EndToEnd Resolver ResolverSpec ResolverTheorems ViolationBuffer Violations PolicyStatus Learning Debugger Elf Wpgen.
Local Open Scope Z_scope.
Local Open Scope string_scope.
Local Open Scope list_scope.

(** ** Strings *)

(** [ReadString('\n')]: the line with its end; an error at the end of the input. *)
Fixpoint ReadLine (s : string) : go_result string :=
  match s with
  | EmptyString => Err "EOF"
  | String c s' =>
      if Ascii.eqb c (ascii_of_nat 10) then Ok (String c "")
      else match ReadLine s' with Ok line => Ok (String c line) | r => r end
  end.

(** ** Policies *)

Definition store := gmap (string * string) PolicyObject.
Definition object_key (po : PolicyObject) : string * string := (wp_Namespace (po_wp po), wp_Name (po_wp po)).

Definition set_policy_mode (mode : string) (po : PolicyObject) : PolicyObject :=
  let wp := po_wp po in
  MkPolicyObject (MkWorkloadPolicy (wp_Namespace wp) (wp_Name wp) mode (wp_RulesByContainer wp))
    (po_Generation po) (po_Annotations po) (po_Status po).

Definition set_policy_rules (rules : gmap string WorkloadPolicyRules) (po : PolicyObject) : PolicyObject :=
  let wp := po_wp po in
  MkPolicyObject (MkWorkloadPolicy (wp_Namespace wp) (wp_Name wp) (wp_Mode wp) rules)
    (po_Generation po) (po_Annotations po) (po_Status po).

Definition set_annotations (annotations : gmap string string) (po : PolicyObject) : PolicyObject :=
  MkPolicyObject (po_wp po) (po_Generation po) annotations (po_Status po).

(** The calls of the client.  [read] is the object that was read, whose version the update
    carries. *)
Class PolicyClient (E : ApiErrors) := {
  GetWorkloadPolicy : store → string * string → PolicyObject + api_error;
  UpdateWorkloadPolicy : store → bool → PolicyObject → PolicyObject → option api_error * store;
}.
Arguments GetWorkloadPolicy {E} {PolicyClient} _ _.
Arguments UpdateWorkloadPolicy {E} {PolicyClient} _ _ _ _.

(** What is documented of them: an update is accepted only for the version that is stored, and
    leaves the status alone; a dry run, and an update that fails, change nothing. *)
Class PolicyClientOk {E : ApiErrors} (C : PolicyClient E) : Prop := {
  GetWorkloadPolicy_stored c k po : GetWorkloadPolicy c k = inl po → c !! k = Some po;
  UpdateWorkloadPolicy_ok c dryRun read po c' :
    UpdateWorkloadPolicy c dryRun read po = (None, c') →
    c !! object_key po = Some read ∧
    (if dryRun : bool then c' = c
     else ∃ generation, c' = <[object_key po :=
            MkPolicyObject (po_wp po) generation (po_Annotations po) (po_Status read)]> c);
  UpdateWorkloadPolicy_error c dryRun read po e c' : UpdateWorkloadPolicy c dryRun read po = (Some e, c') → c' = c;
}.

(** What the commands print. *)
Inductive message :=
  | alreadyInMode (key : string * string) (mode : string)
  | wouldSetMode (key : string * string) (mode : string)
  | successfullySetMode (key : string * string) (mode : string)
  | noChangesRequired (key : string * string)
  | wouldEdit (action : policyExecAction) (key : string * string)
  | finalAllowed (containerName : string) (executables : list bytes)
  | successfullyUpdated (key : string * string)
  | wouldAcknowledge (id : Z) (key : string * string) (annotationKey reason : string) (violation : ViolationRecord)
  | successfullyAcknowledged (id : Z) (key : string * string)
  | dryRunCompleted
  | alreadyPromoted (key : string * string)
  | canBePromoted (key : string * string) (mode : string)
  | promotedTo (key : string * string) (mode : string)
  | policyCreated (key : string * string).

Section commands.
  Context `{E : ApiErrors, C : !PolicyClient E}.
  (** What others do between the read and the write. *)
  Context (between : store → store).

Definition getWorkloadPolicy (namespace name : string) (c : store) : PolicyObject + api_error :=
  match GetWorkloadPolicy c (namespace, name) with
  | inl policy => inl policy
  | inr err =>
      if IsNotFound err then inr (Errorf "workloadpolicy not found in namespace")
      else inr (wrap "failed to get WorkloadPolicy" err)
  end.

Definition updateWorkloadPolicy (read policy : PolicyObject) (dryRun : bool) (c : store) : option api_error * store :=
  match UpdateWorkloadPolicy c dryRun read policy with
  | (Some err, c') =>
      if IsConflict err then (Some (Errorf "WorkloadPolicy was modified concurrently"), c')
      else (Some (wrap "failed to update WorkloadPolicy" err), c')
  | (None, c') => (None, c')
  end.

(** The output of a command, its error and the policies afterwards. *)
Definition cmd_run : Type := list message * option api_error * store.

Definition runPolicyModeSet (namespace name targetMode : string) (dryRun : bool) (c : store) : cmd_run :=
  match getWorkloadPolicy namespace name c with
  | inr err => ([], Some err, c)
  | inl policy =>
      let c := between c in
      let currentMode := wp_Mode (po_wp policy) in
      if (currentMode =? targetMode)%string then ([alreadyInMode (object_key policy) currentMode], None, c)
      else
        let out := if dryRun then [wouldSetMode (object_key policy) targetMode] else [] in
        match updateWorkloadPolicy policy (set_policy_mode targetMode policy) dryRun c with
        | (Some err, c') => (out, Some err, c')
        | (None, c') => (out ++ [successfullySetMode (object_key policy) targetMode], None, c')
        end
  end.

(** The rules as the client decodes them: a policy without rules has no map. *)
Definition go_rules (po : PolicyObject) : option (gmap string (option WorkloadPolicyRules)) :=
  let rules := wp_RulesByContainer (po_wp po) in
  if bool_decide (rules = ∅) then None else Some (Some <$> rules).

Definition set_go_rules (m : option (gmap string (option WorkloadPolicyRules))) (po : PolicyObject) : PolicyObject :=
  set_policy_rules (omap id (default ∅ m)) po.

Definition runPolicyExec (namespace name : string) (action : policyExecAction) (containerName : string)
  (executables : list bytes) (dryRun : bool) (c : store) : cmd_run :=
  match getWorkloadPolicy namespace name c with
  | inr err => ([], Some err, c)
  | inl policy =>
      let c := between c in
      match applyExecutablesToPolicy (go_rules policy) action containerName executables with
      | (_, Err e) | (_, Panic e) => ([], Some (Errorf e), c)
      | (_, Ok false) => ([noChangesRequired (object_key policy)], None, c)
      | (rules, Ok true) =>
          let policy' := set_go_rules rules policy in
          let final := default [] (Allowed <$> wp_RulesByContainer (po_wp policy') !! containerName) in
          let out := if dryRun then [wouldEdit action (object_key policy); finalAllowed containerName final] else [] in
          match updateWorkloadPolicy policy policy' dryRun c with
          | (Some err, c') => (out, Some err, c')
          | (None, c') => (out ++ [successfullyUpdated (object_key policy)], None, c')
          end
      end
  end.

(** [reason] is what the flag gives, if it is set; else a line of [stdin] is read. *)
Definition resolveAckReason (reason : option string) (stdin : string) : string + api_error :=
  let line :=
    match reason with
    | Some r => inl r
    | None =>
        match ReadLine stdin with
        | Ok line => inl (TrimRightChars [bytes_string [13]; bytes_string [10]]%nat line)
        | Err e | Panic e => inr (wrap "failed to read acknowledgement reason" (Errorf e))
        end
    end in
  match line with
  | inr err => inr err
  | inl r =>
      let r := TrimSpace r in
      if (r =? "")%string then inr (Errorf "acknowledgement reason is required") else inl r
  end.

Definition runPolicyAck (namespace name : string) (violationID : Z) (reason : option string) (stdin : string)
  (dryRun : bool) (c : store) : cmd_run :=
  match getWorkloadPolicy namespace name c with
  | inr err => ([], Some err, c)
  | inl policy =>
      let c := between c in
      match findViolationByID (st_Violations (ws_violations (po_Status policy))) violationID with
      | Err e | Panic e => ([], Some (Errorf e), c)
      | Ok violation =>
          match resolveAckReason reason stdin with
          | inr err => ([], Some err, c)
          | inl reason =>
              let '(annotationKey, unchanged, annotations) := applyAckAnnotation violationID reason (po_Annotations policy) in
              if unchanged : bool then ([noChangesRequired (object_key policy)], None, c)
              else
                let out := if dryRun then [wouldAcknowledge violationID (object_key policy) annotationKey reason violation] else [] in
                match updateWorkloadPolicy policy (set_annotations annotations policy) dryRun c with
                | (Some err, c') => (out, Some err, c')
                | (None, c') =>
                    (out ++ [successfullyAcknowledged violationID (object_key policy)] ++
                       (if dryRun then [dryRunCompleted] else []), None, c')
                end
          end
      end
  end.

(** The violation id is an argument of the command line. *)
Definition runPolicyAckCmd (namespace name violationID : string) (reason : option string) (stdin : string)
  (dryRun : bool) (c : store) : cmd_run :=
  match ParseInt violationID with
  | None => ([], Some (Errorf "invalid violation id: must be a decimal integer"), c)
  | Some id => runPolicyAck namespace name id reason stdin dryRun c
  end.
End commands.

(** ** Promotion *)

(** Updating a proposal, and reading the policy that is made of it. *)
Class PromoteClient (E : ApiErrors) := {
  UpdateProposal : cluster → bool → WorkloadPolicyProposal → WorkloadPolicyProposal → option api_error * cluster;
  GetPolicy : cluster → string * string → LabelledPolicy + api_error;
}.
Arguments UpdateProposal {E} {PromoteClient} _ _ _ _.
Arguments GetPolicy {E} {PromoteClient} _ _.

(** An update of a proposal goes through admission, also in a dry run. *)
Class PromoteClientOk {E : ApiErrors} (A : ApiClient E) (P : PromoteClient E) : Prop := {
  UpdateProposal_ok c dryRun read p c' :
    UpdateProposal c dryRun read p = (None, c') →
    proposals c !! proposal_key p = Some read ∧
    ∃ p', admission GetOwner (Some read) p = inl p' ∧
      c' = if dryRun : bool then c else set_proposals (<[proposal_key p := p']> (proposals c)) c;
  UpdateProposal_error c dryRun read p e c' : UpdateProposal c dryRun read p = (Some e, c') → c' = c;
  GetPolicy_stored c k lp : GetPolicy c k = inl lp → policies c !! k = Some lp;
}.

(** What the loop of [waitForWorkloadPolicy] receives: the end of the context, or a tick, at
    which the cluster is read. *)
Inductive wait_event := Done | Tick (c : cluster).

Section promotion.
  Context `{E : ApiErrors, A : !ApiClient E, P : !PromoteClient E}.

(** [None] while the loop still waits. *)
Fixpoint waitForWorkloadPolicy (namespace name : string) (events : list wait_event)
  : option (LabelledPolicy + api_error) :=
  match events with
  | [] => None
  | Done :: _ => Some (inr (Errorf "stopped waiting for WorkloadPolicy to be created"))
  | Tick c :: events' =>
      match GetPolicy c (namespace, name) with
      | inr err =>
          if IsNotFound err then waitForWorkloadPolicy namespace name events'
          else Some (inr (wrap "failed to get WorkloadPolicy" err))
      | inl policy => Some (inl policy)
      end
  end.

(** The output, the error once the command has returned, and the cluster after its update.
    [between] is what others do between the read and the write. *)
Definition runProposalPromote (between : cluster → cluster) (namespace name mode : string) (dryRun : bool)
  (events : list wait_event) (c : cluster) : list message * option (option api_error) * cluster :=
  if negb (IsValid mode) then ([], Some (Some (Errorf "invalid mode")), c)
  else
    match GetProposal c (namespace, name) with
    | inr err =>
        if IsNotFound err then ([], Some (Some (Errorf "workloadpolicyproposal not found in namespace")), c)
        else ([], Some (Some (wrap "failed to get WorkloadPolicyProposal" err)), c)
    | inl proposal =>
        let c := between c in
        match HasPromotionLabel proposal with
        | Some _ => ([alreadyPromoted (proposal_key proposal)], Some None, c)
        | None =>
            match UpdateProposal c dryRun proposal (SetPromotionLabel mode proposal) with
            | (Some err, c') =>
                if IsConflict err then ([], Some (Some (Errorf "WorkloadPolicyProposal was modified concurrently")), c')
                else ([], Some (Some (wrap "failed to update WorkloadPolicyProposal" err)), c')
            | (None, c') =>
                if dryRun then ([canBePromoted (proposal_key proposal) mode], Some None, c')
                else
                  match waitForWorkloadPolicy namespace name events with
                  | None => ([promotedTo (proposal_key proposal) mode], None, c')
                  | Some (inr err) =>
                      ([promotedTo (proposal_key proposal) mode],
                       Some (Some (wrap "policy promotion did not complete successfully" err)), c')
                  | Some (inl policy) =>
                      ([promotedTo (proposal_key proposal) mode; policyCreated (policy_key policy)], Some None, c')
                  end
            end
        end
    end.
End promotion.

(** ** The protected workloads *)

Record listed_pod := MkListedPod {
  lpod_Namespace : string;
  lpod_Name : string;
  lpod_Labels : gmap string string;
}.

Record workloadProtectionRow := MkRow {
  row_Workload : string;
  row_Kind : string;
  row_Policy : string;
  row_Mode : string;
  row_Status : string;
}.

Definition unknownMode : string := "Unknown".
Definition missingStatus : string := "Missing".

Definition phase_string (p : Phase) : string :=
  match p with NoPhase => "" | Transitioning => "Transitioning" | Failed => "Failed" | Ready => "Ready" end.

Definition modeToUpper (mode : string) : go_result string :=
  if (mode =? "monitor")%string then Ok "Monitor"
  else if (mode =? "protect")%string then Ok "Protect"
  else Panic "unknown mode".

(** The map of the policies by name, built by a loop. *)
Definition policies_by_name (workloadPolicies : list PolicyObject) : store :=
  foldl (λ m po, <[object_key po := po]> m) ∅ workloadPolicies.

Definition protection_row (policyByNamespacedName : store) (pod : listed_pod) (workloadName workloadKind policyName : string)
  : go_result workloadProtectionRow :=
  let row mode status := MkRow (lpod_Namespace pod ++ "/" ++ workloadName)%string workloadKind policyName mode status in
  match policyByNamespacedName !! (lpod_Namespace pod, policyName) with
  | None => Ok (row unknownMode missingStatus)
  | Some policy =>
      match modeToUpper (wp_Mode (po_wp policy)) with
      | Ok mode => Ok (row mode (phase_string (st_Phase (ws_nodes (po_Status policy)))))
      | Err e => Err e
      | Panic e => Panic e
      end
  end.

(** The loop over the pods. *)
Fixpoint protection_rows (policyByNamespacedName : store) (pods : list listed_pod)
  (rowsByKey : gmap (string * string) workloadProtectionRow) : go_result (gmap (string * string) workloadProtectionRow) :=
  match pods with
  | [] => Ok rowsByKey
  | pod :: pods' =>
      let policyName := default "" (lpod_Labels pod !! PolicyLabelKey) in
      if (policyName =? "")%string then protection_rows policyByNamespacedName pods' rowsByKey
      else
        match GetTruncatedWorkloadInfo (lpod_Name pod) (lpod_Labels pod) with
        | Ok (workloadName, workloadKind, _) =>
            let key := (lpod_Namespace pod, workloadName) in
            match rowsByKey !! key with
            | Some _ => protection_rows policyByNamespacedName pods' rowsByKey
            | None =>
                match protection_row policyByNamespacedName pod workloadName workloadKind policyName with
                | Ok row => protection_rows policyByNamespacedName pods' (<[key := row]> rowsByKey)
                | Err e => Err e
                | Panic e => Panic e
                end
            end
        | Err e => Err e
        | Panic e => Panic e
        end
  end.

Section show.
  Context `{S : GoSort}.
  (** The order in which the rows are ranged over. *)
  Context (range_rows : gmap (string * string) workloadProtectionRow → list workloadProtectionRow).

Definition buildWorkloadProtectionRows (pods : list listed_pod) (workloadPolicies : list PolicyObject)
  : go_result (list workloadProtectionRow) :=
  match protection_rows (policies_by_name workloadPolicies) pods ∅ with
  | Ok rowsByKey => Ok (sort_slice row_Workload (range_rows rowsByKey))
  | Err e => Err e
  | Panic e => Panic e
  end.

(** [pods] and [policies] are what the two calls of [List] return for a namespace, or for all. *)
Definition collectPolicyProtectionRows (pods : string → go_result (list listed_pod))
  (policies : string → go_result (list PolicyObject)) (namespace : string) (allNamespaces : bool)
  : go_result (list workloadProtectionRow) :=
  let namespace := if allNamespaces then "" else namespace in
  match pods namespace with
  | Err _ | Panic _ => Err "failed to list Pods in namespace"
  | Ok pods =>
      match policies namespace with
      | Err _ | Panic _ => Err "failed to list WorkloadPolicies in namespace"
      | Ok workloadPolicies => buildWorkloadProtectionRows pods workloadPolicies
      end
  end.
End show.

(** ** What the commands promise *)

(** The commands that change a policy. *)
Inductive command :=
  | ModeCmd (mode : string)
  | ExecCmd (action : policyExecAction) (containerName : string) (executables : list bytes)
  | AckCmd (violationID : Z) (reason : option string) (stdin : string).

Definition run_command `{E : ApiErrors, C : !PolicyClient E} (between : store → store) (cmd : command)
  (namespace name : string) (dryRun : bool) (c : store) : cmd_run :=
  match cmd with
  | ModeCmd mode => runPolicyModeSet between namespace name mode dryRun c
  | ExecCmd action containerName executables => runPolicyExec between namespace name action containerName executables dryRun c
  | AckCmd id reason stdin => runPolicyAck between namespace name id reason stdin dryRun c
  end.

(** The rules of [containerName] decide on the executables as the action says, and on anything
    else as before; the other rules are the same. *)
Definition rules_edited (action : policyExecAction) (containerName : string) (executables : list bytes)
  (old new : gmap string WorkloadPolicyRules) : Prop :=
  ∃ rules rules', old !! containerName = Some rules ∧ new !! containerName = Some rules' ∧
    (∀ c, c ≠ containerName → new !! c = old !! c) ∧
    ∀ mode foreign p, exec_decision (asked mode rules') foreign p =
      (if negb foreign && bool_decide (p ∈ executables)
       then match action with Deny => Violation (mode_denies mode) | _ => Permit end
       else exec_decision (asked mode rules) foreign p).

(** What a command makes of the policy it read. *)
Definition edits `{E : ApiErrors} (cmd : command) (read po : PolicyObject) : Prop :=
  object_key po = object_key read ∧ po_Status po = po_Status read ∧
  match cmd with
  | ModeCmd mode =>
      wp_Mode (po_wp po) = mode ∧ wp_Mode (po_wp read) ≠ mode ∧
      wp_RulesByContainer (po_wp po) = wp_RulesByContainer (po_wp read) ∧ po_Annotations po = po_Annotations read
  | ExecCmd action containerName executables =>
      wp_Mode (po_wp po) = wp_Mode (po_wp read) ∧ po_Annotations po = po_Annotations read ∧
      rules_edited action containerName executables (wp_RulesByContainer (po_wp read)) (wp_RulesByContainer (po_wp po))
  | AckCmd id reason stdin =>
      po_wp po = po_wp read ∧ (∃ v, v ∈ st_Violations (ws_violations (po_Status read)) ∧ vr_ID v = id) ∧
      ∃ r, resolveAckReason reason stdin = inl r ∧
        po_Annotations po = <[violationAcknowledgeAnnotationKey id := r]> (po_Annotations read)
  end.

(** Stored under the name they have. *)
Definition store_ok (c : store) : Prop := ∀ k po, c !! k = Some po → object_key po = k.

Section safety.
  Context `{E : ApiErrors, C : !PolicyClient E, !PolicyClientOk C} (between : store → store).

Lemma getWorkloadPolicy_ok ns name c po : getWorkloadPolicy ns name c = inl po → c !! (ns, name) = Some po.
Proof.
  unfold getWorkloadPolicy. destruct (GetWorkloadPolicy c (ns, name)) as [po'|e] eqn:Hg; [|by destruct (IsNotFound e)].
  intros [= <-]. by apply GetWorkloadPolicy_stored.
Qed.

(** The end of each command: nothing is written, or the object that was read is replaced. *)
Lemma update_cases cmd ns name dryRun c read po e c' :
  store_ok c → c !! (ns, name) = Some read → updateWorkloadPolicy read po dryRun (between c) = (e, c') →
  object_key po = object_key read → (∀ g, edits cmd read (MkPolicyObject (po_wp po) g (po_Annotations po) (po_Status read))) →
  c' = between c ∨ dryRun = false ∧ e = None ∧ ∃ po', between c !! (ns, name) = Some read ∧
    c' = <[(ns, name) := po']> (between c) ∧ edits cmd read po'.
Proof.
  unfold updateWorkloadPolicy. intros Hok Hr Hu Hkey Hed. apply Hok in Hr.
  destruct (UpdateWorkloadPolicy _ _ _ _) as [[err|] c1] eqn:H.
  - apply UpdateWorkloadPolicy_error in H as ->. left. by destruct (IsConflict err); injection Hu as _ <-.
  - injection Hu as <- <-. apply UpdateWorkloadPolicy_ok in H as [Hb Hc]. rewrite Hkey, Hr in Hb, Hc.
    destruct dryRun; [by left|right]. destruct Hc as (g & ->). split_and!; [done|done|]. eexists. split_and!; [done|done|apply Hed].
Qed.

Lemma exec_edits ns name read action containerName executables rules g :
  applyExecutablesToPolicy (go_rules read) action containerName executables = (rules, Ok true) →
  object_key read = (ns, name) →
  let po := set_go_rules rules read in
  edits (ExecCmd action containerName executables) read (MkPolicyObject (po_wp po) g (po_Annotations po) (po_Status read)).
Proof.
  intros H Hk. unfold go_rules in H. case_bool_decide; [done|].
  apply edited_policy_decides in H as (r & rules' & m1 & Hr & -> & Hr' & Hother & _ & Hdec).
  rewrite lookup_fmap in Hr. destruct (wp_RulesByContainer (po_wp read) !! containerName) as [r0|] eqn:Hr0; [|done].
  injection Hr as <-. split_and!; [done..|]. cbn. exists r0, rules'. split_and!; [done| | |exact Hdec].
  - by rewrite lookup_omap, Hr'.
  - intros c Hc. rewrite lookup_omap, Hother, lookup_fmap by done. by destruct (_ !! c).
Qed.

Lemma findViolationByID_ok vs id v : findViolationByID vs id = Ok v → v ∈ vs ∧ vr_ID v = id.
Proof.
  unfold findViolationByID. destruct (list_find _ vs) as [[i w]|] eqn:Hf; [|done]. intros [= <-].
  apply list_find_Some in Hf as (Hi & Hid & _). by split; [eapply list_elem_of_lookup_2|].
Qed.
End safety.

(** *** Reasons *)

Lemma resolveAckReason_ok `{E : ApiErrors} reason stdin r :
  resolveAckReason reason stdin = inl r →
  r ≠ "" ∧ ∀ ch, ch ∈ space_chars → CutPrefix r ch = None ∧ CutSuffix r ch = None.
Proof.
  unfold resolveAckReason. intros H.
  assert (∃ t, r = TrimSpace t ∧ r ≠ "") as (t & -> & Hne).
  { destruct reason as [t|]; [|destruct (ReadLine stdin) as [line|e|e]; try done];
      (match type of H with context [TrimSpace ?t =? ""] => destruct (String.eqb_spec (TrimSpace t) "") as [?|Hne] end; [done|]);
      injection H as <-; by eexists. }
  split; [done|]. intros ch Hch. by apply TrimSpace_trimmed.
Qed.

(** C29: acknowledging a violation.  When the command reports that it acknowledged a violation of
    the policy, and no other acknowledgement is pending, the stored policy makes the next status
    computation move exactly that violation to the acknowledged ones, first in the list, with the
    reason the user gave without the space around it (never an empty one), and the annotation is
    removed again. *)
Theorem ack_command_roundtrip `{E : ApiErrors, C : !PolicyClient E, !PolicyClientOk C, R : GoRange, !GoRangeOk R}
  between ns name id reason stdin c out e c' po now :
  store_ok c → c !! (ns, name) = Some po →
  runPolicyAck between ns name id reason stdin false c = (out, e, c') → successfullyAcknowledged id (ns, name) ∈ out →
  let s := ws_violations (po_Status po) in
  status_inv s → ViolationCount s < 2 ^ 63 →
  (∀ k r, po_Annotations po !! k = Some r → ack_id k = None) →
  Forall (λ a, ak_AcknowledgedAt a < now) (st_Acknowledged s) →
  ∃ v r po', v ∈ st_Violations s ∧ vr_ID v = id ∧ c' !! (ns, name) = Some po' ∧
    resolveAckReason reason stdin = inl r ∧ r ≠ "" ∧ TrimSpace r = r ∧
    let '(acked, annotations', s') := acknowledgeViolationsFromAnnotations now (po_Annotations po') (ws_violations (po_Status po')) in
    acked = [MkAck v r now] ∧ annotations' = po_Annotations po ∧
    st_Violations s' = filter (λ w, vr_ID w ≠ id) (st_Violations s) ∧ head (st_Acknowledged s') = Some (MkAck v r now).
Proof.
  intros Hok Hpo Hrun Hout s I Hmax Hnone Hold. apply Hok in Hpo as Hkey. unfold runPolicyAck in Hrun.
  destruct (getWorkloadPolicy ns name c) as [po0|err] eqn:Hg; [|injection Hrun as <- <- <-; set_solver].
  apply getWorkloadPolicy_ok in Hg. simplify_eq.
  destruct (findViolationByID _ id) as [v|x|x] eqn:Hf; [|injection Hrun as <- <- <-; set_solver..].
  apply findViolationByID_ok in Hf as [Hv Hid].
  destruct (resolveAckReason reason stdin) as [r|err] eqn:Hr; [|injection Hrun as <- <- <-; set_solver].
  destruct (resolveAckReason_ok _ _ _ Hr) as [Hne Hsp].
  pose proof (acknowledge_roundtrip s v r now (po_Annotations po) I Hmax Hv Hnone Hold) as Hack. rewrite Hid in Hack.
  destruct (applyAckAnnotation id r (po_Annotations po)) as [[key unchanged] annotations].
  destruct (acknowledgeViolationsFromAnnotations now annotations s) as [[acked annotations'] s'] eqn:Ha.
  destruct Hack as (-> & H1 & H2 & H3 & H4).
  destruct (updateWorkloadPolicy _ _ _ _) as [[err|] c1] eqn:Hu; injection Hrun as <- <- <-; [set_solver|].
  unfold updateWorkloadPolicy in Hu. destruct (UpdateWorkloadPolicy _ _ _ _) as [[e1|] c2] eqn:Hup; [by destruct (IsConflict e1)|].
  injection Hu as ->. apply UpdateWorkloadPolicy_ok in Hup as [_ (g & ->)].
  exists v, r. eexists. split_and!; [done|done| |done|done| |].
  - change (object_key (set_annotations annotations po)) with (object_key po). rewrite Hkey. apply lookup_insert_eq.
  - by apply TrimSpace_id.
  - cbn. fold s. rewrite Ha. done.
Qed.

(** ** Promotion *)

Section promote.
  Context `{E : ApiErrors, A : !ApiClient E, !ApiClientOk A, P : !PromoteClient E, !PromoteClientOk A P}.

(** The loop goes on while there is no policy. *)
Lemma wait_skip ns name waits events :
  Forall (λ w, ∃ e, GetPolicy w (ns, name) = inr e ∧ IsNotFound e = true) waits →
  waitForWorkloadPolicy ns name ((Tick <$> waits) ++ events) = waitForWorkloadPolicy ns name events.
Proof. induction 1 as [|w waits (e & He & Hn) _ IH]; [done|]. cbn. by rewrite He, Hn. Qed.

(** The context of a command ends, so that the wait does. *)
Lemma wait_returns ns name events : Done ∈ events → is_Some (waitForWorkloadPolicy ns name events).
Proof.
  induction events as [|[|c] events IH]; [set_solver|by eexists|]. intros [?|Hd]%elem_of_cons; [done|]. cbn.
  destruct (GetPolicy c (ns, name)) as [lp|e]; [by eexists|]. destruct (IsNotFound e); [by apply IH|by eexists].
Qed.

(** What the update of the command stores. *)
Lemma promotion_stored ns name mode read c c1 :
  cluster_ok c → HasPromotionLabel read = None → IsValid mode = true → proposal_key read = (ns, name) →
  UpdateProposal c false read (SetPromotionLabel mode read) = (None, c1) →
  ∃ p, proposals c !! (ns, name) = Some read ∧ proposals c1 !! (ns, name) = Some p ∧ policies c1 = policies c ∧ cluster_ok c1 ∧
    HasPromotionLabel p = Some mode ∧ pp_RulesByContainer p = pp_RulesByContainer read.
Proof.
  intros Hc Hl Hm Hk Hu. apply (UpdateProposal_ok (A := A)) in Hu as (Hst & p & Ha & ->).
  apply admission_same in Ha as (Hrules & Hkey & Hlab). change (proposal_key (SetPromotionLabel mode read)) with (proposal_key read) in *.
  rewrite Hk in *. exists p. split_and!; [done|apply lookup_insert_eq|done| | |done].
  - split. cbn. intros k q [[<- <-]|[_ Hq]]%lookup_insert_Some; [|by apply (co_proposals _ Hc)].
    split; [done|]. apply (proposal_ok_rules read); [|by apply (co_proposals _ Hc) in Hst as [_ ?]]. by rewrite Hrules.
  - unfold HasPromotionLabel. rewrite Hlab. cbn. rewrite lookup_insert_eq. unfold IsValid in Hm.
    destruct (String.eqb_spec mode "monitor") as [->|]; [done|]. by destruct (String.eqb_spec mode "protect") as [->|].
Qed.

(** C16: promoting a proposal with the command.  Once it reports the promotion, the stored
    proposal carries the mode, and when the controller then makes a policy of it, the command
    sees that policy at the next tick, says so and returns without error.  The policy has the
    mode that was asked for and exactly the rules of the proposal the user read (others did not
    change it in between): every exec it permits is permitted. *)
Theorem promote_command_completes (A' : ApiClient E) between ns name mode c waits out res c1 r c2 lp :
  ApiClientOk A' → cluster_ok c → cluster_ok (between c) →
  runProposalPromote between ns name mode false ((Tick <$> waits) ++ [Tick c2]) c = (out, res, c1) →
  promotedTo (ns, name) mode ∈ out →
  ¬ promoted_from ns name c1 → promote (A := A') (ns, name) c1 = (r, c2) → c2 ≠ c1 →
  Forall (λ w, ∃ e, GetPolicy w (ns, name) = inr e ∧ IsNotFound e = true) waits → GetPolicy c2 (ns, name) = inl lp →
  ∃ p, proposals c !! (ns, name) = Some p ∧ proposals (between c) !! (ns, name) = Some p ∧
    out = [promotedTo (ns, name) mode; policyCreated (ns, name)] ∧ res = Some None ∧
    lp_wp lp = MkWorkloadPolicy ns name mode (pp_RulesByContainer p) ∧ HasPromotedLabel name lp = true ∧
    ∀ req, permits (pp_RulesByContainer p) req → permits (wp_RulesByContainer (lp_wp lp)) req.
Proof.
  intros Hok Hc Hbc Hrun Hout Hnp Hpr Hne Hw Hlp. unfold runProposalPromote in Hrun.
  destruct (IsValid mode) eqn:Hm; [|injection Hrun as <- <- <-; set_solver]. cbn [negb] in Hrun.
  destruct (GetProposal c (ns, name)) as [read|e] eqn:Hg; [|destruct (IsNotFound e); injection Hrun as <- <- <-; set_solver].
  apply GetProposal_stored in Hg. apply (co_proposals _ Hc) in Hg as Hk. destruct Hk as [Hk _].
  destruct (HasPromotionLabel read) eqn:Hl; [injection Hrun as <- <- <-; set_solver|].
  destruct (UpdateProposal _ _ _ _) as [[e|] c1'] eqn:Hu; [destruct (IsConflict e); injection Hrun as <- <- <-; set_solver|].
  assert (c1' = c1) as ->.
  { destruct (waitForWorkloadPolicy _ _ _) as [[?|?]|]; by injection Hrun. }
  destruct (promotion_stored _ _ _ _ _ _ Hbc Hl Hm Hk Hu) as (p & Hst & Hp & _ & Hc1 & Hlab & Hrules).
  destruct (promote_permits A' (ns, name) c1 r c2 p Hok Hc1 Hp Hnp Hpr Hne) as (mode' & lp' & Hm' & Hlp' & ->).
  apply (GetPolicy_stored (A := A)) in Hlp as Hlp2. simplify_eq.
  rewrite wait_skip in Hrun by done. cbn in Hrun. rewrite Hlp, Hk in Hrun. injection Hrun as <- <-.
  exists read. cbn [lp_wp wp_RulesByContainer]. rewrite Hrules. split_and!; [done..| |done].
  unfold HasPromotedLabel. cbn [lp_Labels]. rewrite lookup_singleton_eq. apply String.eqb_refl.
Qed.
End promote.

(** ** The protected workloads *)

(** The name and kind of the workload of a pod and its policy, if it has the label of one. *)
Definition pod_workload (pod : listed_pod) : option (string * string * string) :=
  let policyName := default "" (lpod_Labels pod !! PolicyLabelKey) in
  if (policyName =? "")%string then None
  else match GetTruncatedWorkloadInfo (lpod_Name pod) (lpod_Labels pod) with
       | Ok (workloadName, workloadKind, _) => Some (workloadName, workloadKind, policyName)
       | _ => None
       end.

Definition pod_key (pod : listed_pod) : option (string * string) :=
  (λ w, (lpod_Namespace pod, w.1.1)) <$> pod_workload pod.

(** The row of a workload: the one of its first pod. *)
Definition row_of (policyByNamespacedName : store) (pods : list listed_pod) (key : string * string)
  : option workloadProtectionRow :=
  match list_find (λ pod, pod_key pod = Some key) pods with
  | Some (_, pod) =>
      match pod_workload pod with
      | Some (workloadName, workloadKind, policyName) =>
          match protection_row policyByNamespacedName pod workloadName workloadKind policyName with
          | Ok row => Some row
          | _ => None
          end
      | None => None
      end
  | None => None
  end.

Lemma row_of_cons pm pod pods k :
  row_of pm (pod :: pods) k =
    if decide (pod_key pod = Some k)
    then match pod_workload pod with
         | Some (workloadName, workloadKind, policyName) =>
             match protection_row pm pod workloadName workloadKind policyName with Ok row => Some row | _ => None end
         | None => None
         end
    else row_of pm pods k.
Proof. unfold row_of. cbn [list_find]. case_decide; [done|]. by destruct (list_find _ pods) as [[i p]|]. Qed.

Lemma protection_rows_spec pm pods m m' k :
  protection_rows pm pods m = Ok m' → m' !! k = match m !! k with Some row => Some row | None => row_of pm pods k end.
Proof.
  revert m. induction pods as [|pod pods IH]; intros m H; cbn [protection_rows] in H.
  { injection H as <-. by destruct (m !! k). }
  rewrite row_of_cons. unfold pod_key, pod_workload. cbv zeta in *.
  destruct (default "" (lpod_Labels pod !! PolicyLabelKey) =? "")%string; [by rewrite decide_False, (IH m) by done|].
  destruct (GetTruncatedWorkloadInfo _ _) as [[[name kind] trunc]|e|e]; [|done..]. cbn [fmap option_fmap option_map fst].
  destruct (m !! (lpod_Namespace pod, name)) as [row|] eqn:Hm.
  - rewrite (IH m) by done. destruct (m !! k) eqn:Hk; [done|]. rewrite decide_False; [done|]. intros [= <-]. congruence.
  - destruct (protection_row _ _ _ _ _) as [row|e|e] eqn:Hrow; [|done..]. rewrite (IH _ H).
    case_decide as Hk; [injection Hk as <-; by rewrite lookup_insert_eq, Hm|].
    rewrite lookup_insert_ne by congruence. done.
Qed.

(** When the loop ends without a panic, each workload has its row. *)
Lemma protection_rows_total pm pods m m' pod k :
  protection_rows pm pods m = Ok m' → pod ∈ pods → pod_key pod = Some k → is_Some (m' !! k).
Proof.
  revert m. induction pods as [|pod' pods IH]; intros m H; [set_solver|]. cbn [protection_rows] in H. cbv zeta in H.
  intros [->|Hin]%elem_of_cons Hk.
  - unfold pod_key, pod_workload in Hk. destruct (default "" _ =? "")%string; [done|].
    destruct (GetTruncatedWorkloadInfo _ _) as [[[name kind] trunc]|e|e]; [|done..]. injection Hk as <-.
    destruct (m !! _) as [row|] eqn:Hm; [by rewrite (protection_rows_spec _ _ _ _ _ H), Hm; eexists|].
    destruct (protection_row _ _ _ _ _) as [row|e|e]; [|done..].
    by rewrite (protection_rows_spec _ _ _ _ _ H), lookup_insert_eq; eexists.
  - destruct (default "" _ =? "")%string; [by eapply IH|].
    destruct (GetTruncatedWorkloadInfo _ _) as [[[name kind] trunc]|e|e]; [|done..].
    destruct (m !! _) as [row|]; [by eapply IH|]. destruct (protection_row _ _ _ _ _) as [row|e|e]; [by eapply IH|done..].
Qed.

Lemma row_of_workload pm pods k row : row_of pm pods k = Some row → row_Workload row = (k.1 ++ "/" ++ k.2)%string.
Proof.
  unfold row_of. destruct (list_find _ pods) as [[i pod]|] eqn:Hf; [|done].
  apply list_find_Some in Hf as (_ & Hk & _). unfold pod_key in Hk.
  destruct (pod_workload pod) as [[[name kind] policy]|]; [|done]. injection Hk as <-. unfold protection_row.
  destruct (pm !! _) as [po|]; [destruct (modeToUpper _)|]; intros; by simplify_eq.
Qed.

Section show.
  Context `{S : GoSort, !GoSortOk S}.
  Context (range_rows : gmap (string * string) workloadProtectionRow → list workloadProtectionRow).
  Context (range_rows_perm : ∀ m, range_rows m ≡ₚ (map_to_list m).*2).

(** The list of the protected workloads.  It has one row for each workload, by namespace and
    name, that has a pod with the label of a policy, and no other: the row of its first pod, which
    names its policy with the mode and phase it has, or with ["Unknown"] and ["Missing"] when there
    is none; and the rows are in order. *)
Theorem protection_rows_exact pods workloadPolicies rows :
  buildWorkloadProtectionRows range_rows pods workloadPolicies = Ok rows →
  ∃ m : gmap (string * string) workloadProtectionRow, rows ≡ₚ (map_to_list m).*2 ∧
    (∀ k, m !! k = row_of (policies_by_name workloadPolicies) pods k) ∧
    (∀ k, is_Some (m !! k) ↔ ∃ pod, pod ∈ pods ∧ pod_key pod = Some k) ∧
    (∀ k row, m !! k = Some row → row_Workload row = (k.1 ++ "/" ++ k.2)%string) ∧
    StronglySorted (λ a b, String.leb (row_Workload a) (row_Workload b) = true) rows.
Proof.
  unfold buildWorkloadProtectionRows. destruct (protection_rows _ pods ∅) as [m|e|e] eqn:Hm; [|done..]. intros [= <-].
  assert (∀ k, m !! k = row_of (policies_by_name workloadPolicies) pods k) as Hspec
    by (intros k; apply (protection_rows_spec _ _ _ _ k) in Hm; by rewrite lookup_empty in Hm).
  exists m. split_and!; [by rewrite sort_slice_perm, range_rows_perm|done| | |apply sort_slice_sorted].
  - intros k. split.
    + intros [row Hrow]. rewrite Hspec in Hrow. unfold row_of in Hrow.
      destruct (list_find _ pods) as [[i pod]|] eqn:Hf; [|done]. apply list_find_Some in Hf as (Hi & Hk & _).
      exists pod. split; [by eapply list_elem_of_lookup_2|done].
    + intros (pod & Hpod & Hk). by eapply protection_rows_total.
  - intros k row. rewrite Hspec. apply row_of_workload.
Qed.
End show.

(** ** Instances *)

#[export] Instance node_policy_status_eq_dec : EqDecision NodePolicyStatus.
Proof. solve_decision. Defined.
#[export] Instance policy_node_status_eq_dec : EqDecision PolicyNodeStatus.
Proof. solve_decision. Defined.
#[export] Instance phase_eq_dec : EqDecision Phase.
Proof. solve_decision. Defined.
#[export] Instance node_stats_eq_dec : EqDecision node_stats.
Proof. solve_decision. Defined.
#[export] Instance ack_record_eq_dec : EqDecision AcknowledgedViolationRecord.
Proof. solve_decision. Defined.
#[export] Instance violation_status_eq_dec : EqDecision violation_status.
Proof. solve_decision. Defined.
#[export] Instance policy_status_eq_dec : EqDecision WorkloadPolicyStatus.
Proof. solve_decision. Defined.
#[export] Instance workload_policy_eq_dec : EqDecision WorkloadPolicy.
Proof. solve_decision. Defined.
#[export] Instance policy_object_eq_dec : EqDecision PolicyObject.
Proof. solve_decision. Defined.

#[local] Existing Instances sample_errors list_range list_range_ok stable_sort stable_sort_ok.

(** A server that answers every call; an update of a stale version is a conflict. *)
Definition policy_server : PolicyClient sample_errors := {|
  GetWorkloadPolicy := λ c k, match c !! k with Some po => inl po | None => inr NotFoundError end;
  UpdateWorkloadPolicy := λ c dryRun read po,
    if decide (c !! object_key po = Some read) then
      (None, if dryRun : bool then c else <[object_key po :=
        MkPolicyObject (po_wp po) (po_Generation read + 1) (po_Annotations po) (po_Status read)]> c)
    else (Some ConflictError, c);
|}.

Lemma policy_server_ok : PolicyClientOk policy_server.
Proof.
  split; cbn.
  - intros c k po. destruct (c !! k); [by intros [= <-]|done].
  - intros c dryRun read po c'. case_decide; [|done]. intros [= <-]. split; [done|]. destruct dryRun; [done|by eexists].
  - intros c dryRun read po e c'. case_decide; [done|]. by intros [= _ <-].
Qed.

Definition proposal_server : PromoteClient sample_errors := {|
  UpdateProposal := λ c dryRun read p,
    if decide (proposals c !! proposal_key p = Some read) then
      match admission (λ _ _ _, inl "uid") (Some read) p with
      | inl p' => (None, if dryRun : bool then c else set_proposals (<[proposal_key p := p']> (proposals c)) c)
      | inr _ => (Some (MessageError "denied"), c)
      end
    else (Some ConflictError, c);
  GetPolicy := λ c k, match policies c !! k with Some lp => inl lp | None => inr NotFoundError end;
|}.

Lemma proposal_server_ok : PromoteClientOk (sample_client None) proposal_server.
Proof.
  split; cbn [UpdateProposal GetPolicy proposal_server].
  - intros c dryRun read p c'. case_decide as Hc; [|done]. destruct (admission _ _ _) as [p'|] eqn:Ha; [|done].
    intros [= <-]. split; [done|]. by exists p'.
  - intros c dryRun read p e c'. case_decide; [|by intros [= _ <-]]. destruct (admission _ _ _); [done|by intros [= _ <-]].
  - intros c k lp. destruct (policies c !! k); [by intros [= <-]|done].
Qed.

#[local] Existing Instances policy_server policy_server_ok proposal_server proposal_server_ok.

(** A policy with two violations. *)
Definition noted_policy : PolicyObject :=
  MkPolicyObject (po_wp web_policy) 1 ∅ (MkWorkloadPolicyStatus 0 no_nodes two_violations).
Definition noted_store : store := {[("ns", "pol") := noted_policy]}.

Lemma noted_store_ok : store_ok noted_store.
Proof. intros k po. unfold noted_store. by intros [<- <-]%lookup_singleton_Some. Qed.

(** An executable is denied, with no dry run and nobody else at work. *)
Definition deny_id : command := ExecCmd Deny "web" [bytes_of_string "/bin/id"].


(** The second violation is acknowledged; the reason is read from a line with spaces. *)
Definition typed_line : string := ("  known " ++ bytes_string [13; 10]%nat)%string.

Lemma ack_command_roundtrip_witness :
  ∃ v, vr_ID v = 1 ∧ ∃ po', snd (runPolicyAck id "ns" "pol" 1 None typed_line false noted_store) !! ("ns", "pol") = Some po' ∧
    (acknowledgeViolationsFromAnnotations 20 (po_Annotations po') (ws_violations (po_Status po'))).1.1 = [MkAck v "known" 20].
Proof.
  destruct (ack_command_roundtrip id "ns" "pol" 1 None typed_line noted_store [successfullyAcknowledged 1 ("ns", "pol")] None
    (snd (runPolicyAck id "ns" "pol" 1 None typed_line false noted_store)) noted_policy 20)
    as (v & r & po' & _ & Hid & Hpo & Hr & _ & _ & Hack).
  - exact noted_store_ok.
  - apply lookup_singleton_eq.
  - vm_compute. reflexivity.
  - left.
  - apply merge_status_inv; [exact no_violations_inv|reflexivity].
  - reflexivity.
  - done.
  - by constructor.
  - exists v. split; [done|]. exists po'. split; [done|]. destruct (acknowledgeViolationsFromAnnotations _ _ _) as [[acked a] s'].
    destruct Hack as (-> & _). cbn. vm_compute in Hr. by injection Hr as <-.
Defined.

Lemma promote_command_completes_witness :
  ∃ lp, policies promoted !! ls_key = Some lp ∧ permits (wp_RulesByContainer (lp_wp lp)) ls_event.
Proof.
  pose proof (sample_client_ok None) as Hok.
  destruct (promote_command_completes (A := plain) plain id "ns" "deploy-web" "protect" learned [labelled]
    [promotedTo ("ns", "deploy-web") "protect"; policyCreated ("ns", "deploy-web")] (Some None) labelled None promoted
    (MkLabelledPolicy {[PolicyPromotedFromLabelKey := "deploy-web"]}
      (MkWorkloadPolicy "ns" "deploy-web" "protect" (pp_RulesByContainer ls_proposal)))) as (p & Hp & _ & _ & _ & _ & _ & H).
  - exact Hok.
  - exact learned_ok.
  - exact learned_ok.
  - vm_compute. reflexivity.
  - left.
  - intros (k & lp & Hk & _). discriminate Hk.
  - exact promote_ls.
  - discriminate.
  - constructor; [|constructor]. exists NotFoundError. split; vm_compute; reflexivity.
  - vm_compute. reflexivity.
  - eexists. split; [vm_compute; reflexivity|]. apply H. unfold ls_key, learned in Hp. cbn [proposals] in Hp.
    apply lookup_singleton_Some in Hp as [_ <-]. eexists. split; [reflexivity|]. intros mode'. reflexivity.
Defined.

Definition rows_in_order (m : gmap (string * string) workloadProtectionRow) : list workloadProtectionRow := (map_to_list m).*2.

(** Pods of a Deployment and of a StatefulSet that have the same name. *)
Definition deploy_pod : listed_pod :=
  MkListedPod "ns" "web-7d4b9c6f5-abcde" {[ podTemplateHashLabel := "7d4b9c6f5"; PolicyLabelKey := "pol" ]}.
Definition stateful_pod : listed_pod :=
  MkListedPod "ns" "web-0" {[ statefulsetLabel := "web-0"; PolicyLabelKey := "other" ]}.

(** Only the first of the two workloads is listed; the policy of the second, which is missing,
    is not shown. *)
Example same_name_one_row :
  pod_workload deploy_pod = Some ("web", "Deployment", "pol") ∧
  pod_workload stateful_pod = Some ("web", "StatefulSet", "other") ∧
  buildWorkloadProtectionRows rows_in_order [deploy_pod; stateful_pod] [web_policy] =
    Ok [MkRow "ns/web" "Deployment" "pol" "Protect" ""].
Proof. split_and!; vm_compute; reflexivity. Qed.

Lemma protection_rows_exact_witness :
  let m1 := policies_by_name [web_policy] in
  row_of m1 [deploy_pod; stateful_pod] ("ns", "web") = Some (MkRow "ns/web" "Deployment" "pol" "Protect" "") ∧
  ∀ k, is_Some (row_of m1 [deploy_pod; stateful_pod] k) → ∃ pod, pod ∈ [deploy_pod; stateful_pod] ∧ pod_key pod = Some k.
Proof.
  intros m1. split; [vm_compute; reflexivity|].
  destruct (protection_rows_exact rows_in_order (λ m, reflexivity _) [deploy_pod; stateful_pod] [web_policy]
    [MkRow "ns/web" "Deployment" "pol" "Protect" ""]) as (m & _ & Hm & Hdom & _); [vm_compute; reflexivity|].
  intros k. rewrite <- Hm. apply Hdom.
Defined.
