(* ===== verification/Manifests.v ===== *)
(** * Reading manifests

    [src/internal/manifest/manifest.go], [src/internal/workloadparse/parse.go] and
    [src/internal/policydraft/decode.go]: how [wpgen] reads workloads and policies from the
    documents of a file; [src/internal/wpgen/workload.go], [check.go] and [image.go]: its commands
    from the files to the policies.  The decoder of documents, the conversion of untyped objects
    and the parser of image references are parameters. *)
From S2P Require Import Prelude GoStd CLayout ProgramTypes KernelLayout Kernel StringMaps PolicyValues Names CgroupTracker Events AgentMaps DPath Enforce EndToEnd Resolver ResolverSpec ViolationBuffer Violations PolicyStatus Learning Elf Wpgen.
Local Open Scope Z_scope.
Local Open Scope string_scope.
Local Open Scope list_scope.

(** ** Objects *)

(** The pod template of a workload: containers by name and image. *)
Record podTemplate := MkTemplate {
  pt_Labels : gmap string string;
  pt_Containers : list (string * string);
  pt_InitContainers : list (string * string);
}.

(** A policy that is checked: the rules of a container may be nil. *)
Record decodedPolicy := MkDecoded {
  dp_Namespace : string;
  dp_Name : string;
  dp_Mode : string;
  dp_Rules : gmap string (option (list string));
}.

(** [unstructured.Unstructured] and the converter to typed objects.  The group, version and kind
    are the ones of [GroupVersionKind]. *)
Class Unstructured := {
  uobject : Type;
  has_fields : uobject → bool;
  IsList : uobject → bool;
  EachListItem : uobject → list uobject + string;
  GroupVersionKind : uobject → string * string * string;
  GetAPIVersion : uobject → string;
  GetKind : uobject → string;
  GetName : uobject → string;
  GetNamespace : uobject → string;
  ToTemplate : uobject → podTemplate + string;
  ToPolicy : uobject → decodedPolicy + string;
  ToProposal : uobject → decodedPolicy + string;
}.

(** What the decoder returns for each document until the end of the input. *)
Inductive document `{U : Unstructured} := Document (o : uobject) | DecodeError (e : string).
Arguments document : clear implicits.

Section manifest.
  Context `{U : Unstructured}.

(** ** Streams *)

(** The calls of [fn] for the objects of a document. *)
Fixpoint each {A} (fn : uobject → A → A + string) (objects : list uobject) (a : A) : A + string :=
  match objects with
  | [] => inl a
  | o :: objects' => match fn o a with inl a' => each fn objects' a' | inr e => inr e end
  end.

(** [doc] is the number of the next document, with which errors are returned. *)
Fixpoint ForEachObject {A} (fn : uobject → A → A + string) (docs : list (document U)) (doc : nat) (a : A)
  : A + (nat * string) :=
  match docs with
  | [] => inl a
  | DecodeError e :: _ => inr (doc, e)
  | Document obj :: docs' =>
      if negb (has_fields obj) then ForEachObject fn docs' (S doc) a
      else
        match (if IsList obj then EachListItem obj else inl [obj]) with
        | inr e => inr (doc, e)
        | inl objects =>
            match each fn objects a with
            | inr e => inr (doc, e)
            | inl a' => ForEachObject fn docs' (S doc) a'
            end
        end
  end.

(** ** Workloads *)

Record Skipped := MkSkipped { sk_APIVersion : string; sk_Kind : string; sk_Name : string; sk_Reason : string }.

Definition apps_kinds : list string := ["Deployment"; "ReplicaSet"; "DaemonSet"; "StatefulSet"].
Definition batch_kinds : list string := ["Job"; "CronJob"].

(** The kinds with an extractor. *)
Definition extractorFor (gvk : string * string * string) : bool :=
  let '(group, version, kind) := gvk in
  (group =? "apps") && (version =? "v1") && bool_decide (kind ∈ apps_kinds) ||
  (group =? "batch") && (version =? "v1") && bool_decide (kind ∈ batch_kinds).

Definition isWorkloadKind (kind : string) : bool := match ShortName kind with Some _ => true | None => false end.

Definition skipReason (gvk : string * string * string) : string :=
  if bool_decide (gvk = ("", "v1", "Pod")) then "runtime-enforcer does not learn policies for bare pods"
  else if isWorkloadKind gvk.2 then "unsupported apiVersion"
  else "not a workload".

Definition skip (obj : uobject) (reason : string) : Skipped :=
  MkSkipped (GetAPIVersion obj) (GetKind obj) (GetName obj) reason.

Fixpoint validate_containers (cs : list wl_container) : option string :=
  match cs with
  | [] => None
  | c :: cs' =>
      if (wc_Name c =? "") then Some "has a container without a name"
      else if (wc_Image c =? "") then Some "container has no image"
      else validate_containers cs'
  end.

Definition validate (w : Workload) : option string :=
  match wl_Containers w with
  | [] => Some "has no containers"
  | cs => validate_containers cs
  end.

Definition template_containers (tmpl : podTemplate) : list wl_container :=
  ((λ c, MkWlContainer c.1 c.2 false) <$> pt_Containers tmpl) ++
  ((λ c, MkWlContainer c.1 c.2 true) <$> pt_InitContainers tmpl).

Definition parseObject (obj : uobject) : (Workload + Skipped) + string :=
  let gvk := GroupVersionKind obj in
  if negb (extractorFor gvk) then inl (inr (skip obj (skipReason gvk)))
  else if (GetName obj =? "") then inr "has no name"
  else
    match ToTemplate obj with
    | inr e => inr e
    | inl tmpl =>
        let w := MkWorkload gvk.2 (GetName obj) (GetNamespace obj) (pt_Labels tmpl) (template_containers tmpl) in
        match validate w with Some e => inr e | None => inl (inl w) end
    end.

Definition parse_step (obj : uobject) (acc : list Workload * list Skipped) : (list Workload * list Skipped) + string :=
  match parseObject obj with
  | inr e => inr e
  | inl (inr s) => inl (acc.1, acc.2 ++ [s])
  | inl (inl w) => inl (acc.1 ++ [w], acc.2)
  end.

Definition Parse (docs : list (document U)) : (list Workload * list Skipped) + (nat * string) :=
  ForEachObject parse_step docs 1 ([], []).

(** ** Policies *)

Definition policy_gvk (kind : string) : string * string * string := ("runtimeenforcer.kubewarden.io", "v1alpha1", kind).

(** A proposal is taken as a policy without a mode. *)
Definition decodeProposal (obj : uobject) : decodedPolicy + string :=
  match ToProposal obj with
  | inl p => inl (MkDecoded (dp_Namespace p) (dp_Name p) "" (dp_Rules p))
  | inr e => inr e
  end.

Definition decode_step (obj : uobject) (acc : list decodedPolicy * list Skipped)
  : (list decodedPolicy * list Skipped) + string :=
  let decoded := λ r : decodedPolicy + string, match r with inl p => inl (acc.1 ++ [p], acc.2) | inr e => inr e end in
  if bool_decide (GroupVersionKind obj = policy_gvk "WorkloadPolicy") then decoded (ToPolicy obj)
  else if bool_decide (GroupVersionKind obj = policy_gvk "WorkloadPolicyProposal") then decoded (decodeProposal obj)
  else inl (acc.1, acc.2 ++ [skip obj ""]).

Definition Decode (docs : list (document U)) : (list decodedPolicy * list Skipped) + (nat * string) :=
  ForEachObject decode_step docs 1 ([], []).

(** ** The commands *)

(** A file is opened, or not. *)
Definition readWorkloads (file : go_result (list (document U))) : go_result (list Workload) :=
  match file with
  | Err e => Err e
  | Panic e => Panic e
  | Ok docs =>
      match Parse docs with
      | inr (_, e) => Err e
      | inl ([], _) => Err "no supported workload found"
      | inl (workloads, _) => Ok workloads
      end
  end.

Definition readPolicy (file : go_result (list (document U))) : go_result decodedPolicy :=
  match file with
  | Err e => Err e
  | Panic e => Panic e
  | Ok docs =>
      match Decode docs with
      | inr (_, e) => Err e
      | inl ([policy], _) => Ok policy
      | inl _ => Err "must have exactly one WorkloadPolicy or WorkloadPolicyProposal"
      end
  end.

Context (elf_NewFile : bytes → go_result elf_file) (Load : string → go_result image).
Context (validatePolicyName : string → go_error).

(** [runWorkload] and [runCheck] from the files. *)
Definition workload_command (o : scanOptions) (mode : string) (file : go_result (list (document U)))
  : go_result (list WorkloadPolicy) :=
  if negb (IsValid mode) then Err "invalid mode"
  else
    match readWorkloads file with
    | Ok workloads => runWorkload elf_NewFile Load validatePolicyName o mode workloads
    | Err e => Err e
    | Panic e => Panic e
    end.

(** The image of one container of the policy, or the file of a workload. *)
Inductive check_input :=
  | ImageInput (imageRef containerName : string)
  | WorkloadInput (file : go_result (list (document U))).

Definition check_command (o : scanOptions) (policyFile : go_result (list (document U))) (input : check_input)
  : go_result (list containerReport) :=
  match readPolicy policyFile with
  | Ok policy =>
      match input with
      | ImageInput imageRef containerName =>
          runCheck elf_NewFile Load o (dp_Rules policy) (CheckImage imageRef containerName)
      | WorkloadInput file =>
          match readWorkloads file with
          | Ok workloads => runCheck elf_NewFile Load o (dp_Rules policy) (CheckWorkload workloads)
          | Err e => Err e
          | Panic e => Panic e
          end
      end
  | Err e => Err e
  | Panic e => Panic e
  end.

(** *** A single image *)

Definition placeholderPolicyName : string := "todo".

(** [strings.ReplaceAll] of a character. *)
Fixpoint replace_char (old new : Ascii.ascii) (s : string) : string :=
  match s with
  | EmptyString => EmptyString
  | String c s' => String (if Ascii.eqb c old then new else c) (replace_char old new s')
  end.

(** [path.Base]: without trailing slashes, what follows the last slash. *)
Definition slash : Ascii.ascii := Ascii.ascii_of_nat 47.
Definition Base (path : string) : string :=
  if (path =? "") then "."
  else
    let p := TrimRightChars ["/"] path in
    if (p =? "") then "/"
    else match cut_last slash p with Some (_, after) => after | None => p end.

Definition underscore : Ascii.ascii := Ascii.ascii_of_nat 95.
Definition dash : Ascii.ascii := Ascii.ascii_of_nat 45.

Inductive name_error := errNoPolicyName | InvalidName (e : string).

(** [ParseReference] is the repository of an image reference. *)
Context (ParseReference : string → option string).

Definition policyNameFromImage (input : string) (fromFile : bool) (repositories : list string) : string + name_error :=
  let repository := if fromFile then "" else default "" (ParseReference input) in
  let repository := if (repository =? "") then default "" (head repositories) else repository in
  if (repository =? "") then inr errNoPolicyName
  else
    let policyName := replace_char underscore dash (Base repository) in
    match validatePolicyName policyName with
    | Some e => inr (InvalidName e)
    | None => inl policyName
    end.

Record imageOptions := MkImageOptions {
  io_scan : scanOptions;
  io_Sources : list string;
  io_Mode : string;
  io_Output : string;
  io_WarnThreshold : Z;
  io_ContainerName : string;
  io_Name : string;
  io_Namespace : string;
}.

Context (ValidateSources : list string → go_error) (validateDNS1123Label : string → go_error).

(** The errors of the options that drafting shares, and of all of them. *)
Definition validate_draft (o : imageOptions) : list string :=
  option_list (ValidateSources (io_Sources o)) ++
  (if negb (IsValid (io_Mode o)) then ["invalid mode"] else []) ++
  (if negb (io_Output o =? "yaml") && negb (io_Output o =? "json") then ["invalid output format"] else []) ++
  (if (io_WarnThreshold o <? 0)%Z then ["invalid warn threshold"] else []).

Definition validate_image (o : imageOptions) : list string :=
  validate_draft o ++ option_list (validateDNS1123Label (io_ContainerName o)) ++
  option_list (validateDNS1123Label (io_Namespace o)) ++
  (if negb (io_Name o =? "") then option_list (validatePolicyName (io_Name o)) else []).

(** [origin] is where the image of an input comes from: a file or not, with its repositories.
    The policy, and whether its name is a placeholder. *)
Definition runImage (origin : string → bool * list string) (input : string) (o : imageOptions)
  : go_result (WorkloadPolicy * bool) :=
  match validate_image o with
  | e :: _ => Err e
  | [] =>
      match scanImage elf_NewFile Load (io_scan o) input [] with
      | Err e => Err e
      | Panic e => Panic e
      | Ok scanned =>
          let named :=
            if negb (io_Name o =? "") then inl (io_Name o, false)
            else match policyNameFromImage input (origin input).1 (origin input).2 with
                 | inl policyName => inl (policyName, false)
                 | inr errNoPolicyName => inl (placeholderPolicyName, true)
                 | inr (InvalidName e) => inr e
                 end in
          match named with
          | inr e => Err e
          | inl (policyName, noName) =>
              match New policyName (io_Namespace o) (io_Mode o) {[ io_ContainerName o := sc_Executables scanned ]} with
              | Ok policy => Ok (policy, noName)
              | Err e => Err e
              | Panic e => Panic e
              end
          end
      end
  end.
End manifest.

(** ** What is read *)

(** The objects of a document, and of all documents when none has an error. *)
Definition objects_of `{U : Unstructured} (d : document U) : list uobject + string :=
  match d with
  | DecodeError e => inr e
  | Document obj =>
      if negb (has_fields obj) then inl []
      else if IsList obj then EachListItem obj else inl [obj]
  end.

Fixpoint all_objects `{U : Unstructured} (docs : list (document U)) : option (list uobject) :=
  match docs with
  | [] => Some []
  | d :: docs' =>
      match objects_of d with
      | inl objs => app objs <$> all_objects docs'
      | inr _ => None
      end
  end.

Section reading.
  Context `{U : Unstructured}.

Lemma each_app {A} (fn : uobject → A → A + string) l k a :
  each fn (l ++ k) a = match each fn l a with inl a' => each fn k a' | inr e => inr e end.
Proof. revert a. induction l as [|o l IH]; intros a; [done|]. cbn. by destruct (fn o a). Qed.

(** The objects of the documents are handled in order, as if they were in one list. *)
Lemma ForEachObject_all {A} (fn : uobject → A → A + string) docs n a a' :
  ForEachObject fn docs n a = inl a' → ∃ objs, all_objects docs = Some objs ∧ each fn objs a = inl a'.
Proof.
  revert n a. induction docs as [|[obj|e] docs IH]; intros n a H; cbn in H; [injection H as <-; by exists []| |done].
  cbn [all_objects objects_of]. destruct (has_fields obj); cbn [negb] in *.
  - destruct (if IsList obj then EachListItem obj else inl [obj]) as [objs|e]; [|done].
    destruct (each fn objs a) as [a1|e] eqn:He; [|done]. destruct (IH _ _ H) as (objs' & -> & Hobjs').
    exists (objs ++ objs'). split; [done|]. by rewrite each_app, He.
  - destruct (IH _ _ H) as (objs' & -> & Hobjs'). by exists objs'.
Qed.

(** The workloads are the ones of the supported objects. *)
Lemma parse_each objs acc ws sk :
  each parse_step objs acc = inl (ws, sk) →
  ∃ ws', ws = acc.1 ++ ws' ∧
    Forall2 (λ o w, parseObject o = inl (inl w)) (filter (λ o, extractorFor (GroupVersionKind o) = true) objs) ws'.
Proof.
  revert acc. induction objs as [|o objs IH]; intros acc H; cbn in H.
  { injection H as ->. exists []. by rewrite app_nil_r. }
  destruct (parse_step o acc) as [acc'|e] eqn:Hs; [|done]. unfold parse_step in Hs. apply IH in H as (ws' & -> & Hall).
  rewrite filter_cons. destruct (parseObject o) as [[w|s]|e] eqn:Hp; [| |done]; injection Hs as <-;
    unfold parseObject in Hp; (destruct (extractorFor (GroupVersionKind o)) eqn:Hx;
      [rewrite decide_True by done|rewrite decide_False by done]); cbn [negb] in Hp; try done.
  - exists (w :: ws'). split; [cbn; by rewrite <- (assoc_L (++))|]. constructor; [|done]. unfold parseObject. by rewrite Hx.
  - by repeat (case_match; try done).
  - by exists ws'.
Qed.

Lemma readWorkloads_all docs ws :
  readWorkloads (Ok docs) = Ok ws → ws ≠ [] ∧ ∃ objs, all_objects docs = Some objs ∧
    Forall2 (λ o w, parseObject o = inl (inl w)) (filter (λ o, extractorFor (GroupVersionKind o) = true) objs) ws.
Proof.
  unfold readWorkloads. destruct (Parse docs) as [[ws' sk]|[n e]] eqn:Hp; [|done]. unfold Parse in Hp.
  destruct (ForEachObject_all _ _ _ _ _ Hp) as (objs & Hobjs & (ws1 & Hws & Hall)%parse_each). cbn in Hws. subst ws1.
  intros H. destruct ws'; [done|]. injection H as <-. split; [done|]. by exists objs.
Qed.
End reading.

Lemma parsed_workload `{U : Unstructured} obj w :
  parseObject obj = inl (inl w) → ∃ tmpl, ToTemplate obj = inl tmpl ∧
    w = MkWorkload (GroupVersionKind obj).2 (GetName obj) (GetNamespace obj) (pt_Labels tmpl) (template_containers tmpl).
Proof.
  unfold parseObject. destruct (extractorFor _); [|done]. cbn [negb]. destruct (GetName obj =? ""); [done|].
  destruct (ToTemplate obj) as [tmpl|e]; [|done]. destruct (validate _); [done|]. intros [= <-]. by exists tmpl.
Qed.

Lemma template_names tmpl : wc_Name <$> template_containers tmpl = (pt_Containers tmpl ++ pt_InitContainers tmpl).*1.
Proof. unfold template_containers. rewrite !fmap_app, <- !list_fmap_compose. done. Qed.

Lemma template_containers_elem tmpl name imageRef :
  (name, imageRef) ∈ pt_Containers tmpl ++ pt_InitContainers tmpl →
  ∃ init, MkWlContainer name imageRef init ∈ template_containers tmpl.
Proof.
  unfold template_containers. rewrite elem_of_app. intros [H|H]; [exists false|exists true]; apply elem_of_app; [left|right];
    apply list_elem_of_fmap; by exists (name, imageRef).
Qed.

(** ** Drafting from a file *)

(** Every executable of the image of the container, and nothing else, is permitted. *)
Definition permits_image (elf_NewFile : bytes → go_result elf_file) (Load : string → go_result image) (o : scanOptions)
  (policy : WorkloadPolicy) (container imageRef : string) : Prop :=
  ∃ img rules, Load imageRef = Ok img ∧ wp_RulesByContainer policy !! container = Some rules ∧
    (unique_paths img → ∀ m path,
       exec_decision (asked m rules) false (bytes_of_string path) = Permit ↔
       ∃ ref kind, executable_ref elf_NewFile img ref kind ∧ RealPath ref = path ∧ includes o kind = true).

Section drafting.
  Context (elf_NewFile : bytes → go_result elf_file) (Load : string → go_result image).
  Context (validatePolicyName : string → go_error).

Lemma draft_loop_names workloads owners l d :
  draft_loop validatePolicyName workloads owners = Ok l → d ∈ l →
  policy_name (dw_Workload d) = Ok (dw_PolicyName d, dw_LabelPresent d).
Proof.
  revert owners l. induction workloads as [|w workloads IH]; intros owners l H Hd; cbn [draft_loop] in H.
  { injection H as <-. set_solver. }
  destruct (policy_name w) as [[name lp]|e|e] eqn:Hn; [|done..]. destruct (validatePolicyName name); [done|].
  destruct (first_conflict _ _); [done|]. destruct (draft_loop _ workloads _) as [l'|e|e] eqn:Hl; [|done..].
  injection H as <-. apply elem_of_cons in Hd as [->|Hd]; [done|by eapply IH].
Qed.

(** The names of the policies: as the workloads ask for, valid, and no two policies of the same
    name are of the same namespace. *)
Lemma runWorkload_names o mode workloads policies :
  runWorkload elf_NewFile Load validatePolicyName o mode workloads = Ok policies →
  (∀ i w policy, workloads !! i = Some w → policies !! i = Some policy →
    (∃ lp, policy_name w = Ok (wp_Name policy, lp)) ∧ validatePolicyName (wp_Name policy) = None) ∧
  ∀ i j a b, (i < j)%nat → policies !! i = Some a → policies !! j = Some b →
    (wp_Namespace a, wp_Name a) ≠ (wp_Namespace b, wp_Name b).
Proof.
  unfold runWorkload. destruct (IsValid mode) eqn:Hm; [|done]. cbn [negb].
  destruct (draftWorkloads _ _) as [drafted|?|?] eqn:Hd; [|done..]. unfold draftWorkloads in Hd.
  destruct (scan_images _ _ _ _ _) as [scanned|?|?]; [|done..]. intros [Hlen Hl]%draft_policies_lookup.
  pose proof (λ d, draft_loop_names _ _ _ d Hd) as Hnames. apply draft_loop_spec in Hd as Hspec. destruct Hspec as (Hmap & _ & Hconf & Hval).
  assert (∀ i policy, policies !! i = Some policy → ∃ d, drafted !! i = Some d ∧ wp_Name policy = dw_PolicyName d ∧
    wp_Namespace policy = wl_Namespace (dw_Workload d)) as Hpol.
  { intros i policy Hp. destruct (lookup_lt_is_Some_2 drafted i) as [d Hdi]; [rewrite <- Hlen; by eapply lookup_lt_Some|].
    exists d. specialize (Hl _ _ _ Hdi Hp). unfold New in Hl. rewrite Hm in Hl. by injection Hl as <-. }
  split.
  - intros i w policy Hw Hp. destruct (Hpol _ _ Hp) as (d & Hdi & -> & _).
    rewrite <- Hmap, list_lookup_fmap, Hdi in Hw. injection Hw as <-. apply list_elem_of_lookup_2 in Hdi.
    split; [eexists; by apply Hnames|by apply Hval].
  - intros i j a b Hij Ha Hb. destruct (Hpol _ _ Ha) as (da & Hda & -> & ->). destruct (Hpol _ _ Hb) as (db & Hdb & -> & ->).
    intros [= Hns Hn]. by destruct (Hconf i j da db Hda Hdb Hij Hn).
Qed.

Context `{U : Unstructured}.

(** C14: [wpgen workload].  When the command succeeds on a file, its documents can all be read, and
    it writes one policy for each object of a supported kind, in the order of the file: in the
    namespace of the object, with the name that the label of its pod template gives or else the
    one the learning gives to its proposal, which is a valid name; no two of them have the same
    name and namespace.  And each permits, in every container and init container of the pod
    template, exactly the executables of the image of the container. *)
Theorem drafted_file_permits o mode docs policies :
  workload_command elf_NewFile Load validatePolicyName o mode (Ok docs) = Ok policies →
  ∃ objs, all_objects docs = Some objs ∧
    let supported := filter (λ obj, extractorFor (GroupVersionKind obj) = true) objs in
    supported ≠ [] ∧ length policies = length supported ∧
    (∀ i j a b, (i < j)%nat → policies !! i = Some a → policies !! j = Some b →
      (wp_Namespace a, wp_Name a) ≠ (wp_Namespace b, wp_Name b)) ∧
    ∀ i obj policy, supported !! i = Some obj → policies !! i = Some policy →
      ∃ tmpl, ToTemplate obj = inl tmpl ∧ wp_Mode policy = mode ∧ wp_Namespace policy = GetNamespace obj ∧
        validatePolicyName (wp_Name policy) = None ∧
        (pt_Labels tmpl !! PolicyLabelKey = Some (wp_Name policy) ∨ pt_Labels tmpl !! PolicyLabelKey = None ∧
          ∃ short, ShortName (GroupVersionKind obj).2 = Some short ∧ wp_Name policy = (short ++ "-" ++ GetName obj)%string) ∧
        (NoDup (pt_Containers tmpl ++ pt_InitContainers tmpl).*1 →
         ∀ name imageRef, (name, imageRef) ∈ pt_Containers tmpl ++ pt_InitContainers tmpl →
           permits_image elf_NewFile Load o policy name imageRef).
Proof.
  unfold workload_command. destruct (IsValid mode); [|done]. cbn [negb].
  destruct (readWorkloads (Ok docs)) as [ws|e|e] eqn:Hw0; [|done..]. apply readWorkloads_all in Hw0 as (Hne & objs & Hobjs & Hall).
  intros Hrun. exists objs. split; [done|]. cbv zeta. set (supported := filter _ objs) in *. apply Forall2_length in Hall as Hlen.
  destruct (drafted_policy_permits elf_NewFile Load validatePolicyName o mode ws policies Hrun) as [Hlen2 Hperm].
  destruct (runWorkload_names o mode ws policies Hrun) as [Hnames Hdistinct].
  split; [intros Hnil; subst supported; rewrite Hnil in Hlen; by destruct ws|]. split; [congruence|]. split; [done|].
  intros i obj policy Hobj Hpol. destruct (Forall2_lookup_l _ _ _ _ _ Hall Hobj) as (w & Hw & Hparse).
  destruct (Hperm i w policy Hw Hpol) as (Hmode & Hns & Hrules). destruct (Hnames i w policy Hw Hpol) as [(lp & Hname) Hval].
  destruct (parsed_workload _ _ Hparse) as (tmpl & Htmpl & ->). cbn in *. exists tmpl. split_and!; [done..| |].
  - unfold policy_name in Hname. cbn in Hname. destruct (pt_Labels tmpl !! PolicyLabelKey) as [l|]; [left; by injection Hname as ->|].
    right. destruct (ShortName _) as [short|]; [|done]. injection Hname as <- _. eauto.
  - intros Hnd name imageRef Hin. destruct (template_containers_elem tmpl name imageRef Hin) as (init & Hc).
    destruct (Hrules _ Hc) as (img & rules & Hl & Hr & Hd); [by rewrite template_names|]. by exists img, rules.
Qed.
End drafting.

(** ** Checking from files *)

Definition is_policy `{U : Unstructured} (obj : uobject) : Prop :=
  GroupVersionKind obj = policy_gvk "WorkloadPolicy" ∨ GroupVersionKind obj = policy_gvk "WorkloadPolicyProposal".

(** The policy that an object holds, or the one its proposal stands for. *)
Definition decoded_from `{U : Unstructured} (obj : uobject) (policy : decodedPolicy) : Prop :=
  GroupVersionKind obj = policy_gvk "WorkloadPolicy" ∧ ToPolicy obj = inl policy ∨
  GroupVersionKind obj = policy_gvk "WorkloadPolicyProposal" ∧ decodeProposal obj = inl policy.

Section checking.
  Context `{U : Unstructured}.

#[local] Instance is_policy_dec obj : Decision (is_policy obj).
Proof. unfold is_policy. apply _. Defined.

Lemma decode_each objs acc ps sk :
  each decode_step objs acc = inl (ps, sk) → ∃ ps', ps = acc.1 ++ ps' ∧ Forall2 decoded_from (filter is_policy objs) ps'.
Proof.
  revert acc. induction objs as [|o objs IH]; intros acc H; cbn in H.
  { injection H as ->. exists []. by rewrite app_nil_r. }
  destruct (decode_step o acc) as [acc'|e] eqn:Hs; [|done]. apply IH in H as (ps' & -> & Hall).
  rewrite filter_cons. unfold decode_step in Hs.
  case_bool_decide as H1; [|case_bool_decide as H2].
  - rewrite decide_True by by left. destruct (ToPolicy o) as [p|e] eqn:Hp; [|done]. injection Hs as <-. exists (p :: ps').
    split; [cbn; by rewrite <- (assoc_L (++))|]. constructor; [by left|done].
  - rewrite decide_True by by right. destruct (decodeProposal o) as [p|e] eqn:Hp; [|done]. injection Hs as <-. exists (p :: ps').
    split; [cbn; by rewrite <- (assoc_L (++))|]. constructor; [by right|done].
  - rewrite decide_False by by intros [?|?]. injection Hs as <-. by exists ps'.
Qed.

Lemma readPolicy_one docs policy :
  readPolicy (Ok docs) = Ok policy → ∃ objs obj, all_objects docs = Some objs ∧ filter is_policy objs = [obj] ∧ decoded_from obj policy.
Proof.
  unfold readPolicy. destruct (Decode docs) as [[ps sk]|[n e]] eqn:Hd; [|done]. unfold Decode in Hd.
  destruct (ForEachObject_all _ _ _ _ _ Hd) as (objs & Hobjs & (ps' & Hps & Hall)%decode_each). cbn in Hps. subst ps'.
  destruct ps as [|p [|]]; [done| |done]. intros [= ->].
  apply Forall2_cons_inv_r in Hall as (obj & rest & Hobj & Hrest%Forall2_nil_inv_r & Heq). subst rest. by exists objs, obj.
Qed.

(** What [wpgen check] of a file against a file means.  If it succeeds, the first file has one
    policy or proposal, the second has one supported workload, and for each container of its
    template the policy has rules that allow only files of the image. *)
Theorem check_file_sound (elf_NewFile : bytes → go_result elf_file) (Load : string → go_result image) o pdocs wdocs reports :
  (∀ input img, Load input = Ok img → unique_paths img) →
  check_command elf_NewFile Load o (Ok pdocs) (WorkloadInput (Ok wdocs)) = Ok reports →
  ∃ pobjs pobj policy wobjs wobj tmpl,
    all_objects pdocs = Some pobjs ∧ filter is_policy pobjs = [pobj] ∧ decoded_from pobj policy ∧
    all_objects wdocs = Some wobjs ∧ filter (λ x, extractorFor (GroupVersionKind x) = true) wobjs = [wobj] ∧
    ToTemplate wobj = inl tmpl ∧
    ∀ name imageRef, (name, imageRef) ∈ pt_Containers tmpl ++ pt_InitContainers tmpl →
      ∃ rules img, dp_Rules policy !! name = Some rules ∧ Load imageRef = Ok img ∧
        ∀ p, p ∈ allowedPaths rules → in_image elf_NewFile img p.
Proof.
  intros Hu H. unfold check_command in H. destruct (readPolicy (Ok pdocs)) as [policy|e|e] eqn:Hp; [|done..].
  destruct (readWorkloads (Ok wdocs)) as [ws|e|e] eqn:Hw; [|done..].
  apply readPolicy_one in Hp as (pobjs & pobj & Hpobjs & Hpobj & Hdec).
  apply readWorkloads_all in Hw as (_ & wobjs & Hwobjs & Hall).
  destruct ws as [|w [|]]; [done| |done]. pose proof H as Hrun. unfold runCheck in H. cbn [workloadContainers] in H.
  destruct (matchContainers (dp_Rules policy) w) as [[cs m]|e|e] eqn:Hm; [|done..].
  destruct (checkContainers elf_NewFile Load o cs) as [reports'|e|e] eqn:Hc; [|done..].
  destruct (printVerdict reports' m); [done|]. injection H as ->.
  apply Forall2_cons_inv_r in Hall as (wobj & rest & Hparse & Hrest%Forall2_nil_inv_r & Heq). subst rest.
  apply parsed_workload in Hparse as (tmpl & Ht & ->).
  exists pobjs, pobj, policy, wobjs, wobj, tmpl. split_and!; [done..|].
  intros name imageRef (init & Hin)%template_containers_elem.
  by apply (proj1 (check_verdict _ _ _ _ _ _ _ _ Hu Hm Hc) Hrun _ Hin).
Qed.
End checking.

(** ** Drafting from an image *)

Section image.
  Context (elf_NewFile : bytes → go_result elf_file) (Load : string → go_result image).
  Context (validatePolicyName : string → go_error) (ParseReference : string → option string).
  Context (ValidateSources : list string → go_error) (validateDNS1123Label : string → go_error).

(** [wpgen image].  The policy has the mode and namespace of the options and one container, of
    the name they give, in which exactly the executables of the image are permitted.  Its name is
    the one of the options, or derived from the image, and valid; when nothing gives a name it is
    the placeholder, and the user is told. *)
Theorem image_policy_permits origin input o policy noName :
  runImage elf_NewFile Load validatePolicyName ParseReference ValidateSources validateDNS1123Label origin input o
    = Ok (policy, noName) →
  wp_Mode policy = io_Mode o ∧ wp_Namespace policy = io_Namespace o ∧
  validateDNS1123Label (wp_Namespace policy) = None ∧ validateDNS1123Label (io_ContainerName o) = None ∧
  dom (wp_RulesByContainer policy) = {[ io_ContainerName o ]} ∧
  (if noName then wp_Name policy = placeholderPolicyName ∧ io_Name o = ""
   else validatePolicyName (wp_Name policy) = None ∧ (io_Name o ≠ "" → wp_Name policy = io_Name o)) ∧
  permits_image elf_NewFile Load (io_scan o) policy (io_ContainerName o) input.
Proof.
  unfold runImage. destruct (validate_image _ _ _ o) as [|e l] eqn:Hv; [|done]. unfold validate_image, validate_draft in Hv.
  rewrite !app_nil in Hv. destruct Hv as ((_ & Hm & _ & _) & Hc & Hns & Hn).
  destruct (scanImage _ _ _ _ _) as [scanned|?|?] eqn:Hs; [|done..]. intros H.
  assert (IsValid (io_Mode o) = true) as Hmode by by destruct (IsValid (io_Mode o)).
  assert (∃ policyName, (if noName then policyName = placeholderPolicyName ∧ io_Name o = ""
      else validatePolicyName policyName = None ∧ (io_Name o ≠ "" → policyName = io_Name o)) ∧
    New policyName (io_Namespace o) (io_Mode o) {[io_ContainerName o := sc_Executables scanned]} = Ok policy) as (name & Hname & Hnew).
  { destruct (String.eqb_spec (io_Name o) "") as [He|He]; cbn [negb] in *.
    - unfold policyNameFromImage in H. repeat (case_match; simplify_eq); eexists; (split; [|done]); done.
    - destruct (New _ _ _ _) as [p|?|?] eqn:Hnew; [|done..]. injection H as <- <-. exists (io_Name o).
      split; [|done]. split; [by destruct (validatePolicyName (io_Name o))|done]. }
  unfold New in Hnew. rewrite Hmode in Hnew. injection Hnew as <-. cbn [wp_Mode wp_Namespace wp_Name wp_RulesByContainer].
  split_and!; [done|done|by destruct (validateDNS1123Label (io_Namespace o))|by destruct (validateDNS1123Label (io_ContainerName o))
    |by rewrite dom_fmap_L, dom_singleton_L|done|].
  destruct (scanImage_spec _ _ _ _ _ _ Hs) as (img & Hl & _ & Hspec).
  exists img, (MkRules (bytes_of_string <$> sc_Executables scanned) ∅). split_and!; [done|cbn [wp_RulesByContainer]; by rewrite lookup_fmap, lookup_singleton_eq|].
  intros Hu m path. rewrite <- (proj1 (Hspec Hu) path). unfold exec_decision. cbn [asked pol_allowed Allowed].
  rewrite <- (bytes_of_string_elem path). case_bool_decide; naive_solver.
Qed.
End image.

(** ** An example *)

(** Objects as records of what is asked of them. *)
Inductive sample_object :=
  MkSampleObject (gvk : string * string * string) (name : string) (items : option (list sample_object)) (tmpl : podTemplate).
Definition so_gvk (o : sample_object) : string * string * string := let '(MkSampleObject gvk _ _ _) := o in gvk.
Definition so_name (o : sample_object) : string := let '(MkSampleObject _ name _ _) := o in name.
Definition so_items (o : sample_object) : option (list sample_object) := let '(MkSampleObject _ _ items _) := o in items.
Definition so_template (o : sample_object) : podTemplate := let '(MkSampleObject _ _ _ tmpl) := o in tmpl.

Definition sample_objects : Unstructured := {|
  uobject := sample_object;
  has_fields := λ o, negb ((so_gvk o).2 =? "");
  IsList := λ o, match so_items o with Some _ => true | None => false end;
  EachListItem := λ o, inl (default [] (so_items o));
  GroupVersionKind := so_gvk;
  GetAPIVersion := λ o, ((so_gvk o).1.1 ++ "/" ++ (so_gvk o).1.2)%string;
  GetKind := λ o, (so_gvk o).2;
  GetName := so_name;
  GetNamespace := λ _, "ns";
  ToTemplate := λ o, inl (so_template o);
  ToPolicy := λ _, inr "not a policy";
  ToProposal := λ _, inr "not a proposal";
|}.
#[local] Existing Instance sample_objects.

Definition main_template : podTemplate := MkTemplate ∅ [("main", "img")] [].
Definition no_template : podTemplate := MkTemplate ∅ [] [].
Definition web_deployment : sample_object := MkSampleObject ("apps", "v1", "Deployment") "web" None main_template.
Definition web_service : sample_object := MkSampleObject ("", "v1", "Service") "web" None no_template.

(** An empty document, and a list of a service and a deployment. *)
Definition web_file : list (document sample_objects) :=
  [Document (MkSampleObject ("", "", "") "" None no_template);
   Document (MkSampleObject ("", "v1", "List") "" (Some [web_service; web_deployment]) no_template)].

Definition web_policies : list WorkloadPolicy :=
  match workload_command no_elf sample_load (λ _, None) defaults "protect" (Ok web_file) with Ok policies => policies | _ => [] end.

Lemma drafted_file_permits_witness :
  ∃ policy, web_policies = [policy] ∧ wp_Name policy = "deploy-web" ∧ permits_image no_elf sample_load defaults policy "main" "img".
Proof.
  destruct (drafted_file_permits no_elf sample_load (λ _, None) defaults "protect" web_file web_policies)
    as (objs & Hobjs & _ & _ & _ & H); [vm_compute; reflexivity|].
  injection Hobjs as <-. eexists. split; [vm_compute; reflexivity|].
  destruct (H 0%nat web_deployment _ eq_refl eq_refl) as (tmpl & Ht & _ & _ & _ & Hname & Hperm). injection Ht as <-.
  split; [reflexivity|]. apply Hperm; [apply NoDup_singleton|by left].
Defined.

(** The name of the repository is made a valid one. *)
Example image_name :
  policyNameFromImage (λ _, None) (λ _, Some "library/my_api") "docker.io/library/my_api:2" false [] = inl "my-api" ∧
  policyNameFromImage (λ _, None) (λ _, Some "library/my_api") "./image.tar" true [] = inr errNoPolicyName.
Proof. split; vm_compute; reflexivity. Qed.
